(* ===== verification/_CoqProject ===== *)
-Q . S2P
Prelude.v
GoStrings.v
Mph.v
Settings.v
Servers.v
Config.v
Auth.v
ServiceLog.v
Process.v
Routing.v
Failover.v
Operations.v
Lease.v
IPMatch.v
Geodata.v
Encoding.v
Subscriptions.v
Selection.v
Bypass.v
XrayConfig.v
EngineRouter.v
Observatory.v
Buffers.v
Vision.v
Vless.v
Pipe.v
UdpSessions.v
Engine.v
PingCache.v
Traffic.v
Api.v
Release.v
Updater.v
Float64.v
SpeedTest.v
SpeedService.v
Files.v
Diagnostics.v
Network.v
Tasks.v
System.v
