(* ===== verification/Prelude.v ===== *)
(** * VLESS Manager: a verification library

    VLESS Manager runs on a router.  It keeps a catalog of VPN servers taken
    from providers' subscriptions, measures them, runs one of them through an
    embedded Xray engine, and switches the tunnel by itself when the operator's
    network is restricted or when the tunnel stops carrying traffic.  The
    program is [src/cmd/vless-manager/*.go]; this library models it in Gallina,
    file by file, and proves what makes it correct.

    ** The program's parts and the files that model them

    - [Prelude] (this file): record update, the type of fallible results,
      machine integers and durations, lemmas on loops, and the hint databases
      [vm] and [vm_int] the other files use.
    - [GoStrings], [Encoding]: the behaviour of the packages [strings],
      [strconv], [encoding/base64] and [encoding/hex] the program relies on,
      executable and with the lemmas the clients need.  A Go string is its
      bytes; UTF-8 is decoded where Go decodes it.
    - [Settings] ([settings.go]): the settings record, its defaults, validation,
      migration and durations.
    - [Servers] ([vless.go], parts of [config.go], [ping.go], [xray.go]): the
      server profile, share links, fingerprints, supported transports.
    - [Config] ([config.go]): the catalog of [config.json] and what loading,
      resynchronisation and pruning do to it.
    - [Subscriptions] ([subscriptions.go]): what a provider's document becomes,
      the user's disabled choices, loading [subscriptions.json].
    - [ServiceLog] ([process.go], type [ringBuffer]): the bounded log.
    - [Process] ([process.go], type [ProcessManager]): the engine's and the
      routes' owner.
    - [Routing] ([routing.go]): the [iptables] and [ip] commands that hand the
      LAN's traffic to the engine, and their removal.
    - [XrayConfig] ([xray.go], the rules of [xray_embed.go]): the configuration
      the engine is started with, and rebuilding its rules while it runs.
    - [Bypass] ([bypass.go], [bypass_update.go], [bypass_wan.go]): the domains
      that do not use the tunnel, and the refresh of the downloaded list.
    - [Traffic] ([traffic.go], parts of [health.go] and [util.go]): the default
      route, the byte counters, waiting for the uplink.
    - [PingCache] ([pingcache.go]): the probe results that survive a restart.
    - [Failover] ([failover.go], [health.go]): the controller with its two
      periodic ticks.
    - [Operations], [Lease] ([operations.go]): the queue of exclusive
      operations; holding its slot from a handler.
    - [Selection] ([ping.go], selection part of [api.go], start-up of
      [main.go]): batches of probes, the choice of a server, its commit.
    - [Auth] ([auth.go], the guard and the login of [api.go]): sessions and the
      lockout.
    - [Api] ([api.go]): the handlers that change the catalog, the selection, the
      settings or the tunnel.
    - [Release], [Updater] ([update.go], [version.go]): releases and packages;
      the status of the updater, its checks and installations.
    - [Float64], [SpeedTest], [SpeedService] ([speedtest.go],
      [speedtest_tls.go]): machine floating point; what a speed test measures;
      its status between the coordinator and the handlers, and the race of two
      TLS handshakes.
    - [Files] ([config.go], [core_migration.go], [subscriptions.go]): writing a
      file so that it survives a crash, the copy made before the change of
      engine, the device identifier.
    - [Diagnostics] ([diagnostics.go]): who may ask for a profile, one at a time.
    - [Engine] ([xray_embed.go], the probe of [ping.go] and [main.go]): the log
      bridge, starting and closing an embedded engine, its counters, connections
      into it, one probe through a temporary engine.
    - [Network] ([routing.go], [health.go], [traffic.go], [auth.go]): resolving
      names, the state of an interface, the marked sockets, the router's login.
    - [Tasks] ([api.go], [update.go], [bypass_update.go]): what the callers of
      the coordinator hand it and make of its answer, the background loops.
    - [System] ([main.go], and the construction of the server in [api.go]): the
      parts above as one program.

    The parts call each other as in the code: [Failover] drives the tunnel
    through the functions of its environment class [FailoverEnv], which [System]
    instantiates with [Process.Start], [Process.Stop] and
    [Selection.chooseAlternativeServer] on one world; [Selection] and [Api] read
    the catalog of [Config] and [Subscriptions] and write it through
    [persistMutationLocked]; [Operations] runs the batches of [Selection], the
    checks of [Updater] and the tests of [SpeedService] one at a time; [Process]
    starts the server [Config.activeServer] names with the configuration of
    [XrayConfig] and the rules of [Routing].

    ** How state and operations are modelled

    A struct is a record with the fields' names under a prefix, a method a
    function from the record to the record (with the method's results), and a
    loop a fold with what it writes as the accumulator.  What one mutex
    protects is one record, and a critical section is one definition; where
    the code releases a lock in the middle, the definition is split at that
    point and a step relation ([machine_step], [sys_step], [op_step],
    [speed_step], [race_step], [lease_step], [auth_step], [program_step]) lets
    the goroutines take their sections in any order.  An error value is a
    constructor of an error type.  Code outside the repository is a parameter:
    JSON, URL parsing and SHA-256 are type classes, the engine, the resolver,
    the network probes and the system commands are what they answered, the
    clock is an argument.  A law of such a parameter is a class of its own
    ([MapRangeLaws], [SortLaws], [KernelLaws]) with an instance that meets it.

    Integers are [Z]; the wrap-around is written out where the code can reach
    it (the tunnel generation, percentages, durations, counters).  Floating
    point is the standard library's executable binary64.

    ** What the theorems show

    - The program as a whole: from what [main] makes of its two files, whatever
      requests, ticks, guard steps and refreshes happen in any order and
      whatever the outside answers, memory and disk agree, no kernel rule
      outlives the engine, and automation rests on evidence ([System]).
    - Automation is safe: in every interleaving of both ticks with other
      goroutines the policy acts on sustained evidence only, a tick acts only
      under its published conditions, reacts within the hysteresis, and run
      alone the interleaved sections are the ticks ([Failover]).
    - The tunnel has one owner: engine, routes, generation and the running flag
      agree however starts, stops and guard ticks interleave ([Process]).
    - Traffic goes where the policy says, in the kernel and in the engine; every
      socket of the engine is marked; installing the rules is all or nothing
      and removing them leaves no hook ([Routing], [XrayConfig]).
    - No operation is lost or answered twice, and every one is answered
      ([Operations]); a lease that was taken over keeps its slot until its
      holder is done, and a slot is always freed ([Lease]).
    - A fetched or loaded catalog consists of distinct, supported, canonical
      servers, equals its declarative reference, and the user's choices survive
      a refresh and a migration ([Subscriptions], [Config]).
    - A selection is the fastest reachable server the user allows, profiles are
      judged by their best member, and mutations are atomic ([Selection]).
      Every handler keeps memory and disk in step; disabling what is selected
      stops the tunnel, refreshing does not ([Api]).
    - Only verified packages are installed ([Updater], [Release]); the history
      of releases is complete or an error; what a shell reads back from a quoted
      value is that value.
    - A request let through carries a token the history makes good, and guesses
      made one after the other are limited ([Auth]).
    - A file written is the old or the new one after any crash, the catalog of
      the old engine is never lost ([Files]), the probe cache reads back what
      was last written ([PingCache]); a refresh of the bypass list keeps memory,
      disk and engine in step ([Bypass]).
    - A speed test measures what its workers moved, ends within three attempts,
      settles, and leaks no connection ([SpeedTest], [SpeedService]).
    - An engine leaves nothing behind on any path, logs while the tunnel's engine
      is open and counts exactly the tunnel's outbounds; a probe has a latency
      exactly when the server answered ([Engine]).  Pinning yields an IPv4
      address and is stable, the router's login never sends the password, and
      only its refusal counts as a failed guess ([Network]).  The callers of the
      coordinator use complete results only ([Tasks]); a reader of the log gets
      every entry once ([ServiceLog]).
    - Settings that validate never overflow, and filling defaults is idempotent
      ([Settings]); links become usable profiles ([Servers]); the log is the
      last 500 entries ([ServiceLog]); waiting for the uplink ends ([Traffic]).

    Some theorems exhibit behaviour that differs from the intention, each by a
    concrete run: [Failover.swap_race], [Operations.CancelKind_misses_taken],
    [Lease.lease_without_slot], [Subscriptions.refresh_moves_choice] (the side
    condition of [preserveSubscriptionOptions_choices] says when it cannot
    happen), [Selection.restart_forgets_selection], [Api.subscription_twice],
    [Api.failover_toggle_race], [Api.refresh_takes_edited_server],
    [Auth.login_race], [XrayConfig.legacy_spellings_race],
    [Updater.download_progress_wraps], [Updater.late_failure_frees_updater],
    [SpeedService.late_cancel_blocks_tests], [Tasks.acquire_nothing].

    ** Fuel and bounds

    [tokens_fuel] is run with the length of the text, which every step
    shortens; [next_loop] with the length of the queue; [pingBatch] with the
    nesting depth of the profiles, one level of which every step removes
    ([pingBatch_flat] shows it is enough); [wan_loop] with [wan_fuel], one turn
    per half second of the timeout and two more ([waitForWAN_terminates]);
    [transfer_loop] with the number of chunks of a worker's share.  The code
    itself bounds the pages of the history and the attempts of a speed test.  No
    other function needs fuel.

    ** Assumptions about the outside

    [Files] takes directory operations to reach the disk in their order, and
    nothing else about a crash.  Loading is modelled on decoded values: the
    content of a file is what [encoding/json] makes of it, and elsewhere than in
    [Files] and [PingCache] a write happened or did not.

    ** What is not modelled

    The vendored engine itself; HTTP clients, transports and envelopes;
    the routing table of the web server, flags, signals and the listener
    ([main.go]); the runtime data and profiles [diagnostics.go] collects; log
    lines other than the ring that keeps them; [idna], [net/url],
    [encoding/json], archives and hashes, which are parameters. *)

From stdpp Require Export base tactics list gmap strings pretty sorting.
From Stdlib Require Export ZArith Lia ZifyBool.
From Stdlib Require Import Ascii.

#[export] Set Default Proof Using "Type".

Declare Scope vm_scope.
Delimit Scope vm_scope with vm.
Open Scope vm_scope.

(** ** Record update

    Go assigns struct fields in place; the model rebuilds the record.  [Eta R]
    spells a record out field by field and [Setter proj] replaces the single
    field [proj]; the instance is computed from [Eta R]. *)

Class Eta (R : Type) := eta : R -> R.
Class Setter {R T : Type} (proj : R -> T) := upd : (T -> T) -> R -> R.
Arguments upd {R T} proj {_} f r.

Ltac solve_setter :=
  lazymatch goal with
  | |- @Setter ?R ?T ?p =>
      let e := constr:(ltac:(typeclasses eauto) : Eta R) in
      let b := eval red in e in
      let F := constr:(fun (g : T -> T) (r : R) =>
        ltac:(let t := eval cbv beta in (b r) in
              lazymatch t with
              | context C [p r] => let t' := context C [g (p r)] in exact t'
              end)) in
      exact F
  end.

#[export] Hint Extern 1 (Setter _) => solve_setter : typeclass_instances.

Notation "r <| f := v |>" := (upd f (fun _ => v) r)
  (at level 12, left associativity, f at level 9) : vm_scope.
Notation "r <| f ::= g |>" := (upd f g r)
  (at level 12, left associativity, f at level 9) : vm_scope.

(** ** Errors

    A Go pair [(T, error)] is a [result E T]: the error values of a component
    are an inductive type with one constructor per [fmt.Errorf] site. *)

Inductive result (E A : Type) : Type :=
| Ok (a : A)
| Err (e : E).
Arguments Ok {E A} a.
Arguments Err {E A} e.

Definition result_bind {E A B} (r : result E A) (f : A -> result E B) : result E B :=
  match r with Ok a => f a | Err e => Err e end.

Notation "'let!' x := r 'in' k" := (result_bind r (fun x => k))
  (at level 10, x pattern, k at level 200) : vm_scope.

(** Code that can also panic, or leave the model, has [None] beside the errors. *)
Definition outcome_bind {E A B} (r : option (result E A)) (f : A -> option (result E B)) : option (result E B) :=
  match r with None => None | Some (Err e) => Some (Err e) | Some (Ok a) => f a end.

Notation "'let?' x := r 'in' k" := (outcome_bind r (fun x => k))
  (at level 10, x pattern, k at level 200) : vm_scope.

Definition is_ok {E A} (r : result E A) : bool :=
  match r with Ok _ => true | Err _ => false end.

(** ** Machine integers *)

Definition int64_min : Z := (- 2 ^ 63)%Z.
Definition int64_max : Z := (2 ^ 63 - 1)%Z.
Definition uint64_max : Z := (2 ^ 64 - 1)%Z.

(** Two's complement wrap-around of a [w]-bit signed integer. *)
Definition swrap (w : Z) (z : Z) : Z :=
  ((z + 2 ^ (w - 1)) mod 2 ^ w - 2 ^ (w - 1))%Z.

(** Wrap-around of a [w]-bit unsigned integer. *)
Definition uwrap (w : Z) (z : Z) : Z := (z mod 2 ^ w)%Z.

Lemma swrap_id (w z : Z) :
  (0 < w)%Z -> (- 2 ^ (w - 1) <= z < 2 ^ (w - 1))%Z -> swrap w z = z.
Proof.
  intros Hw Hz. unfold swrap.
  assert (H : (2 ^ w = 2 * 2 ^ (w - 1))%Z).
  { rewrite <- Z.pow_succ_r by lia. f_equal. lia. }
  rewrite Z.mod_small; lia.
Qed.

Lemma uwrap_id (w z : Z) : (0 <= z < 2 ^ w)%Z -> uwrap w z = z.
Proof. intros. unfold uwrap. by apply Z.mod_small. Qed.

Lemma uwrap_range (w z : Z) : (0 <= w)%Z -> (0 <= uwrap w z < 2 ^ w)%Z.
Proof. intros. unfold uwrap. apply Z.mod_pos_bound, Z.pow_pos_nonneg; lia. Qed.

(** [time.Time] is a count of nanoseconds since Go's zero time, and
    [time.Duration] a count of nanoseconds. *)
Abbreviation Time := Z (only parsing).
Abbreviation Duration := Z (only parsing).
Definition zero_time : Time := 0%Z.
Definition IsZero (t : Time) : bool := Z.eqb t zero_time.

Definition Millisecond : Duration := 1000000%Z.
Definition Second : Duration := 1000000000%Z.
Definition Minute : Duration := (60 * Second)%Z.
Definition Hour : Duration := (60 * Minute)%Z.

(** ** Loops

    A Go loop over a slice is a [foldl]; an invariant of the loop is kept by
    every iteration ([foldl_preserve]), or speaks of the part of the slice the
    loop has seen so far ([foldl_seen]). *)

Lemma foldl_preserve {A B} (P : A -> Prop) (f : A -> B -> A) (l : list B) a :
  (forall a b, b ∈ l -> P a -> P (f a b)) -> P a -> P (foldl f a l).
Proof.
  revert a. induction l as [|b l IH]; intros a Hf Ha; [done|]. simpl.
  apply IH; [|apply Hf; [left|done]]. intros a' b' Hb. apply Hf. by right.
Qed.

Lemma foldl_seen {A B} (P : list B -> A -> Prop) (f : A -> B -> A) (l : list B) a :
  (forall seen b a, seen ++ [b] `prefix_of` l -> P seen a -> P (seen ++ [b]) (f a b)) ->
  P [] a -> P l (foldl f a l).
Proof.
  intros Hf Ha. cut (forall done rest a, l = done ++ rest -> P done a -> P l (foldl f a rest)).
  { intros H. by apply (H []). }
  intros done rest. revert done. induction rest as [|b rest IH]; intros seen a' Heq HP; simpl.
  - rewrite app_nil_r in Heq. by subst.
  - apply (IH (seen ++ [b])); [by rewrite <- app_assoc|].
    apply Hf; [|done]. exists rest. by rewrite <- app_assoc.
Qed.

Lemma NoDup_snoc {A} (l : list A) x : x ∉ l -> NoDup l -> NoDup (l ++ [x]).
Proof. intros Hx Hl. apply NoDup_app. set_solver by auto using NoDup_singleton. Qed.

Lemma length_filter_split {A} (p : A -> bool) l :
  length (filter (fun x => p x = true) l) + length (filter (fun x => p x = false) l) = length l.
Proof.
  induction l as [|x l IH]; [done|]. rewrite !filter_cons.
  destruct (p x); [rewrite decide_True, decide_False by done|rewrite decide_False, decide_True by done];
    cbn [length]; lia.
Qed.

Lemma filter_all {A} (P : A -> Prop) `{forall x, Decision (P x)} l : Forall P l -> filter P l = l.
Proof.
  induction 1 as [|x l Hx Hl IH]; [done|]. rewrite filter_cons, decide_True by done. by rewrite IH.
Qed.

Lemma filter_none {A} (P : A -> Prop) `{forall x, Decision (P x)} l :
  Forall (fun x => ~ P x) l -> filter P l = [].
Proof. induction 1 as [|x l Hx Hl IH]; [done|]. by rewrite filter_cons, decide_False. Qed.

(** A stable sort. *)
Fixpoint insert_by {A} (less : A -> A -> bool) (x : A) (l : list A) : list A :=
  match l with
  | [] => [x]
  | y :: l' => if less y x then y :: insert_by less x l' else x :: l
  end.

Definition sort_stable {A} (less : A -> A -> bool) (l : list A) : list A := foldr (insert_by less) [] l.

Lemma insert_by_perm {A} (less : A -> A -> bool) x l : insert_by less x l ≡ₚ x :: l.
Proof. induction l as [|y l IH]; [done|]. cbn. destruct (less y x); [|done]. rewrite IH. apply Permutation_swap. Qed.

Lemma sort_stable_perm {A} (less : A -> A -> bool) l : sort_stable less l ≡ₚ l.
Proof. induction l as [|x l IH]; [done|]. cbn. by rewrite insert_by_perm, IH. Qed.

(** ** Automation

    A loop that appends to a slice ends with [l ++ [x]]: these lemmas carry a
    property of [l] to it.  [auto with vm] applies them, [autorewrite with vm]
    takes membership and maps over such a list apart, and [autorewrite with
    vm_int] removes a wrap-around that cannot happen. *)

Lemma Forall_snoc {A} (P : A -> Prop) (l : list A) x : Forall P l -> P x -> Forall P (l ++ [x]).
Proof. intros. apply Forall_app. by repeat constructor. Qed.

Lemma elem_of_snoc {A} (l : list A) x y : x ∈ l ++ [y] <-> x ∈ l \/ x = y.
Proof. by rewrite elem_of_app, list_elem_of_singleton. Qed.

Lemma fmap_snoc {A B} (f : A -> B) (l : list A) x : f <$> (l ++ [x]) = (f <$> l) ++ [f x].
Proof. by rewrite fmap_app. Qed.

Create HintDb vm.
Create Rewrite HintDb vm.
Create Rewrite HintDb vm_int.
#[export] Hint Resolve NoDup_snoc Forall_snoc : vm.
#[export] Hint Rewrite @elem_of_snoc @fmap_snoc : vm.
#[export] Hint Rewrite swrap_id uwrap_id using lia : vm_int.
