(* ===== verification/GoStrings.v ===== *)
(** * Go's [strings], [strconv] and [unicode/utf8], as far as the manager uses them

    A Go string is a sequence of bytes; [string] is its model, byte for byte.
    [tokens] cuts a string into the units Go's range loop and [strings.Map]
    see: one valid UTF-8 sequence, or one byte of an invalid one.

    - [TrimSpace] removes every code point of [unicode.IsSpace], by its UTF-8
      encoding.
    - [ToLower] maps ASCII, the Cyrillic capitals and the two capitals outside
      ASCII whose lower case is an ASCII letter (U+0130 and U+212A), so that
      a comparison of its result with an ASCII or Cyrillic literal is the one
      Go makes; capitals of other scripts are left alone.  Bytes that are not
      valid UTF-8 become U+FFFD, as [strings.Map] does. *)

From Stdlib Require Import Ascii.
From S2P Require Import Prelude.

#[local] Open Scope N_scope.

(** ** Bytes *)

Definition bytes_of (s : string) : list ascii := String.list_ascii_of_string s.
Definition string_of (l : list ascii) : string := String.string_of_list_ascii l.

Definition between (lo hi : N) (a : ascii) : bool :=
  (lo <=? N_of_ascii a) && (N_of_ascii a <=? hi).
Definition is_byte (n : N) (a : ascii) : bool := N_of_ascii a =? n.
Definition isASCII (a : ascii) : bool := between 0 127 a.

(** ** UTF-8

    [rune_len l] is the number of bytes [utf8.DecodeRune] consumes at the head
    of a non-empty [l]: 1 for ASCII and for an invalid byte. *)

Definition cont (a : ascii) : bool := between 128 191 a.

Definition second_ok (a b : ascii) : bool :=
  if is_byte 224 a then between 160 191 b
  else if is_byte 237 a then between 128 159 b
  else if is_byte 240 a then between 144 191 b
  else if is_byte 244 a then between 128 143 b
  else cont b.

Definition valid_multi (l : list ascii) : option nat :=
  match l with
  | a :: l1 =>
      if between 194 223 a then
        match l1 with b :: _ => if cont b then Some 2%nat else None | _ => None end
      else if between 224 239 a then
        match l1 with
        | b :: c :: _ => if second_ok a b && cont c then Some 3%nat else None
        | _ => None end
      else if between 240 244 a then
        match l1 with
        | b :: c :: d :: _ => if second_ok a b && cont c && cont d then Some 4%nat else None
        | _ => None end
      else None
  | [] => None
  end.

Definition rune_len (l : list ascii) : nat :=
  match valid_multi l with Some k => k | None => 1%nat end.

Fixpoint tokens_fuel (n : nat) (l : list ascii) : list (list ascii) :=
  match n, l with
  | S n', _ :: _ => take (rune_len l) l :: tokens_fuel n' (drop (rune_len l) l)
  | _, _ => []
  end.

Definition tokens (l : list ascii) : list (list ascii) := tokens_fuel (length l) l.

(** A token that stands for a code point: ASCII or a whole UTF-8 sequence. *)
Definition valid_token (t : list ascii) : bool :=
  match t with
  | [a] => isASCII a
  | _ => match valid_multi t with Some k => Nat.eqb k (length t) | None => false end
  end.

(** ** [strings.TrimSpace] *)

Definition space_token (t : list ascii) : bool :=
  match t with
  | [a] => between 9 13 a || is_byte 32 a
  | [a; b] => is_byte 194 a && (is_byte 133 b || is_byte 160 b)
  | [a; b; c] =>
      (is_byte 225 a && is_byte 154 b && is_byte 128 c)
      || (is_byte 226 a && is_byte 128 b &&
          (between 128 138 c || is_byte 168 c || is_byte 169 c || is_byte 175 c))
      || (is_byte 226 a && is_byte 129 b && is_byte 159 c)
      || (is_byte 227 a && is_byte 128 b && is_byte 128 c)
  | _ => false
  end.

Fixpoint drop_while {A} (p : A -> bool) (l : list A) : list A :=
  match l with
  | [] => []
  | x :: r => if p x then drop_while p r else l
  end.

Definition drop_while_end {A} (p : A -> bool) (l : list A) : list A :=
  reverse (drop_while p (reverse l)).

Definition TrimSpace (s : string) : string :=
  string_of (mjoin (drop_while_end space_token (drop_while space_token (tokens (bytes_of s))))).

(** ** [strings.ToLower] *)

Definition shift (d : N) (a : ascii) : ascii := ascii_of_N (N_of_ascii a + d).
Definition unshift (d : N) (a : ascii) : ascii := ascii_of_N (N_of_ascii a - d).
Definition byte_ (n : N) : ascii := ascii_of_N n.

Definition replacement_char : list ascii := [byte_ 239; byte_ 191; byte_ 189].

Definition lower_token (t : list ascii) : list ascii :=
  match t with
  | [a] =>
      if between 65 90 a then [shift 32 a]
      else if isASCII a then [a] else replacement_char
  | [a; b] =>
      if is_byte 208 a && between 144 159 b then [a; shift 32 b]
      else if is_byte 208 a && between 160 175 b then [byte_ 209; unshift 32 b]
      else if is_byte 208 a && between 128 143 b then [byte_ 209; shift 16 b]
      else if is_byte 196 a && is_byte 176 b then [byte_ 105]
      else t
  | [a; b; c] =>
      if is_byte 226 a && is_byte 132 b && is_byte 170 c then [byte_ 107] else t
  | _ => t
  end.

Definition ToLower (s : string) : string :=
  string_of (mjoin (lower_token <$> tokens (bytes_of s))).

(** [strings.EqualFold] against an ASCII string: the only code points outside
    ASCII that fold to an ASCII letter are U+017F (s) and U+212A (k). *)
Definition fold_token (t : list ascii) : list ascii :=
  match t with
  | [a] => if between 65 90 a then [shift 32 a] else t
  | [a; b] => if is_byte 197 a && is_byte 191 b then ["s"%char] else t
  | [a; b; c] =>
      if is_byte 226 a && is_byte 132 b && is_byte 170 c then ["k"%char] else t
  | _ => t
  end.

Definition EqualFold (s ascii_name : string) : bool :=
  bool_decide (fold_token <$> tokens (bytes_of s) = fold_token <$> tokens (bytes_of ascii_name)).

(** ** Searching and cutting *)

Close Scope N_scope.

Definition HasPrefix (s p : string) : bool := String.prefix p s.

Fixpoint string_drop (n : nat) (s : string) : string :=
  match n, s with
  | S n', String _ r => string_drop n' r
  | _, _ => s
  end.

Definition TrimPrefix (s p : string) : string :=
  if HasPrefix s p then string_drop (String.length p) s else s.

Definition HasSuffix (s x : string) : bool :=
  HasPrefix (string_of (reverse (bytes_of s))) (string_of (reverse (bytes_of x))).

Fixpoint Contains (s sub : string) : bool :=
  String.prefix sub s ||
  match s with
  | EmptyString => false
  | String _ r => Contains r sub
  end.

(** [strings.Split] with a one-byte separator; never empty. *)
Fixpoint Split (s : string) (sep : ascii) : list string :=
  match s with
  | EmptyString => [EmptyString]
  | String c r =>
      if Ascii.eqb c sep then EmptyString :: Split r sep
      else match Split r sep with
           | w :: ws => String c w :: ws
           | [] => [String c EmptyString]
           end
  end.

(** [strings.Cut] with a one-byte separator. *)
Fixpoint Cut (s : string) (sep : ascii) : option (string * string) :=
  match s with
  | EmptyString => None
  | String c r =>
      if Ascii.eqb c sep then Some (EmptyString, r)
      else match Cut r sep with
           | Some (before, after) => Some (String c before, after)
           | None => None
           end
  end.

Fixpoint IndexByte (s : string) (c : ascii) : option nat :=
  match s with
  | EmptyString => None
  | String d r => if Ascii.eqb d c then Some 0 else S <$> IndexByte r c
  end.

Fixpoint Join (parts : list string) (sep : string) : string :=
  match parts with
  | [] => EmptyString
  | [x] => x
  | x :: r => (x +:+ sep +:+ Join r sep)%string
  end.

(** [strings.Fields]: the maximal runs of non-space code points. *)
Fixpoint fields_go (ts : list (list ascii)) (cur : list ascii) : list string :=
  match ts with
  | [] => if cur is [] then [] else [string_of cur]
  | t :: r =>
      if space_token t then
        (if cur is [] then fields_go r [] else string_of cur :: fields_go r [])
      else fields_go r (cur ++ t)
  end.

Definition Fields (s : string) : list string := fields_go (tokens (bytes_of s)) [].

Definition newline : ascii := ascii_of_nat 10.
Definition char_colon : ascii := ":"%char.
Definition char_eq : ascii := "="%char.
Definition char_comma : ascii := ","%char.
Definition char_semicolon : ascii := ";"%char.
Definition char_dot : ascii := "."%char.

(** [bufio.Scanner] with its default split: the lines without their ends, and
    whether the whole text was read; a line of 64 KiB stops it. *)
Definition dropCR (line : string) : string :=
  match rev (bytes_of line) with
  | c :: r => if is_byte 13 c then string_of (rev r) else line
  | [] => line
  end.

Definition token_fits (line : string) : bool := (N.of_nat (String.length line) <? 65536)%N.

Fixpoint scan_lines (lines : list string) : list string * bool :=
  match lines with
  | [] => ([], true)
  | line :: rest =>
      if bool_decide (line = "" /\ rest = []) then ([], true)
      else if token_fits line then
        let '(tokens, ok) := scan_lines rest in (dropCR line :: tokens, ok)
      else ([], false)
  end.

Definition ScanLines (text : string) : list string * bool := scan_lines (Split text newline).

(** ** [strconv] *)

Definition digit_of (base : Z) (c : ascii) : option Z :=
  let n := Z.of_N (N_of_ascii c) in
  let d :=
    if (48 <=? n)%Z && (n <=? 57)%Z then Some (n - 48)%Z
    else if (97 <=? n)%Z && (n <=? 122)%Z then Some (n - 87)%Z
    else if (65 <=? n)%Z && (n <=? 90)%Z then Some (n - 55)%Z
    else None in
  match d with
  | Some v => if (v <? base)%Z then Some v else None
  | None => None
  end.

Fixpoint digits_value (base : Z) (l : list ascii) (acc : Z) : option Z :=
  match l with
  | [] => Some acc
  | c :: r => match digit_of base c with
              | Some d => digits_value base r (acc * base + d)%Z
              | None => None
              end
  end.

(** [strconv.ParseUint(s, base, bits)]: [None] is a syntax or a range error. *)
Definition ParseUint (s : string) (base bits : Z) : option Z :=
  match bytes_of s with
  | [] => None
  | l => match digits_value base l 0 with
         | Some v => if (v <? 2 ^ bits)%Z then Some v else None
         | None => None
         end
  end.

(** [strconv.ParseInt(s, 10, bits)] and, with the width of [int], [strconv.Atoi]. *)
Definition ParseInt (s : string) (bits : Z) : option Z :=
  let in_range v := if ((- 2 ^ (bits - 1) <=? v) && (v <? 2 ^ (bits - 1)))%Z then Some v else None in
  match bytes_of s with
  | [] => None
  | c :: r =>
      if Ascii.eqb c "-"%char then
        match r with [] => None | _ => v ← digits_value 10 r 0; in_range (- v)%Z end
      else if Ascii.eqb c "+"%char then
        match r with [] => None | _ => v ← digits_value 10 r 0; in_range v end
      else v ← digits_value 10 (c :: r) 0; in_range v
  end.

Example TrimSpace_ex : TrimSpace " 	ws " = "ws".
Proof. vm_compute. reflexivity. Qed.
Example ToLower_ex : ToLower "Не ПОДДЕРЖИВАЕТСЯ Ws" = "не поддерживается ws".
Proof. vm_compute. reflexivity. Qed.
Example Fields_ex : Fields "  eth3	00000000  0103 " = ["eth3"; "00000000"; "0103"].
Proof. vm_compute. reflexivity. Qed.
Example ScanLines_ex : ScanLines ("a" +:+ String newline (String newline "b")) = (["a"; ""; "b"], true).
Proof. vm_compute. reflexivity. Qed.
Example ParseInt_ex : ParseInt "-42" 64 = Some (-42)%Z.
Proof. reflexivity. Qed.

(** ** Facts about tokens *)

Lemma rune_len_pos l : 1 <= rune_len l.
Proof.
  unfold rune_len, valid_multi.
  repeat case_match; simplify_eq; lia.
Qed.

Lemma tokens_fuel_enough n m l :
  length l <= n -> length l <= m -> tokens_fuel n l = tokens_fuel m l.
Proof.
  revert m l. induction n as [|n IH]; intros m l Hn Hm.
  - destruct l; [by destruct m|simpl in Hn; lia].
  - destruct l as [|a l]; [by destruct m|]. destruct m as [|m]; [simpl in Hm; lia|].
    simpl. f_equal. pose proof (rune_len_pos (a :: l)).
    apply IH; rewrite length_drop; simpl in *; lia.
Qed.

Lemma tokens_cons l :
  l <> [] -> tokens l = take (rune_len l) l :: tokens (drop (rune_len l) l).
Proof.
  intros Hl. unfold tokens at 1. destruct l as [|a l]; [done|].
  pose proof (rune_len_pos (a :: l)).
  simpl. f_equal. apply tokens_fuel_enough; rewrite length_drop; simpl; lia.
Qed.

(** Induction along the tokens of a byte string. *)
Lemma tokens_ind (P : list ascii -> Prop) :
  P [] ->
  (forall l, l <> [] -> P (drop (rune_len l) l) -> P l) ->
  forall l, P l.
Proof.
  intros Hnil Hstep l. induction l as [l IH] using (induction_ltof1 _ length).
  destruct l as [|a l]; [done|]. apply Hstep; [done|]. apply IH.
  pose proof (rune_len_pos (a :: l)). unfold ltof. rewrite length_drop. simpl. lia.
Qed.

Lemma tokens_join l : mjoin (tokens l) = l.
Proof.
  induction l as [|l Hl IH] using tokens_ind; [done|].
  rewrite tokens_cons by done. simpl. rewrite IH. apply take_drop.
Qed.

Lemma valid_multi_len l k : valid_multi l = Some k -> 2 <= k <= length l.
Proof. unfold valid_multi. intros H. repeat case_match; simplify_eq; simpl; lia. Qed.

Lemma valid_multi_app l r k : valid_multi l = Some k -> valid_multi (l ++ r) = Some k.
Proof. unfold valid_multi. intros H. repeat case_match; simplify_eq/=; auto; congruence. Qed.

Lemma valid_multi_take l k : valid_multi l = Some k -> valid_multi (take k l) = Some k.
Proof. unfold valid_multi. intros H. repeat case_match; simplify_eq/=; auto; congruence. Qed.

Lemma valid_multi_ascii a l : isASCII a = true -> valid_multi (a :: l) = None.
Proof.
  unfold isASCII, valid_multi, between. intros H.
  repeat case_match; try done; lia.
Qed.

Lemma valid_token_len t r : valid_token t = true -> rune_len (t ++ r) = length t /\ t <> [].
Proof.
  unfold valid_token, rune_len. intros H.
  destruct t as [|a [|b t]]; [done| |].
  - split; [|done]. change ([a] ++ r) with (a :: r). by rewrite (valid_multi_ascii a r H).
  - destruct (valid_multi (a :: b :: t)) as [k|] eqn:E; [|done].
    rewrite (valid_multi_app _ _ _ E). apply Nat.eqb_eq in H. by subst.
Qed.

Lemma tokens_join_valid ts :
  Forall (fun t => valid_token t = true) ts -> tokens (mjoin ts) = ts.
Proof.
  induction 1 as [|t ts Ht _ IH]; [done|]. simpl.
  destruct (valid_token_len t (mjoin ts) Ht) as [Hlen Hne].
  rewrite tokens_cons by (by destruct t). rewrite Hlen.
  rewrite take_app_length, drop_app_length. by rewrite IH.
Qed.

(** A token is a whole code point or a single byte. *)
Lemma tokens_elem l t :
  t ∈ tokens l -> valid_token t = true \/ exists a, t = [a].
Proof.
  induction l as [|l Hl IH] using tokens_ind; [by inversion 1|].
  rewrite tokens_cons by done. intros [->|Ht]%elem_of_cons; [|by apply IH].
  unfold rune_len. destruct (valid_multi l) as [k|] eqn:E.
  - left. pose proof (valid_multi_len _ _ E) as Hk.
    pose proof (valid_multi_take _ _ E) as E'.
    assert (length (take k l) = k) as Hlen by (rewrite length_take; lia).
    revert E' Hlen. unfold valid_token.
    destruct (take k l) as [|a [|b r]]; intros E' Hlen; simpl in Hlen; try lia.
    rewrite E'. apply Nat.eqb_eq. simpl. lia.
  - destruct l as [|a l]; [done|]. right. exists a. done.
Qed.

(** Cutting at a token boundary keeps the tokens before the cut. *)
Lemma valid_multi_None_app l r : valid_multi (l ++ r) = None -> valid_multi l = None.
Proof.
  intros H. destruct (valid_multi l) as [k|] eqn:E; [|done].
  by rewrite (valid_multi_app _ r _ E) in H.
Qed.

Lemma tokens_prefix l p q : tokens l = p ++ q -> tokens (mjoin p) = p.
Proof.
  revert p. induction l as [|l Hl IH] using tokens_ind; intros p Hpq.
  - destruct p; [done|]. discriminate Hpq.
  - rewrite tokens_cons in Hpq by done.
    destruct p as [|t p]; [done|]. simpl in Hpq. simplify_eq.
    specialize (IH p ltac:(done)).
    assert (Hl2 : l = (take (rune_len l) l ++ mjoin p) ++ mjoin q).
    { rewrite <- app_assoc, <- join_app.
      match goal with H : tokens (drop _ _) = p ++ q |- _ => rewrite <- H end.
      rewrite tokens_join. by rewrite take_drop. }
    simpl. unfold rune_len in *. destruct (valid_multi l) as [k|] eqn:E.
    + pose proof (valid_multi_len _ _ E). pose proof (valid_multi_take _ _ E) as E'.
      assert (length (take k l) = k) as Hk by (rewrite length_take; lia).
      rewrite tokens_cons by (destruct (take k l); [simpl in *; lia|done]).
      unfold rune_len. rewrite (valid_multi_app _ _ _ E').
      rewrite <- Hk at 1 3. by rewrite take_app_length, drop_app_length, IH.
    + destruct l as [|a l]; [done|].
      rewrite Hl2 in E. apply valid_multi_None_app in E.
      change (take 1 (a :: l) ++ mjoin p) with (a :: mjoin p) in *.
      rewrite tokens_cons by done. unfold rune_len. rewrite E.
      change (drop 1 (a :: mjoin p)) with (mjoin p). by rewrite IH.
Qed.

(** ** Facts about lower case and white space *)

Ltac byte_cases :=
  unfold isASCII, cont, is_byte, between, shift, unshift, byte_ in *;
  repeat match goal with
  | a : ascii |- _ =>
      lazymatch goal with
      | H : (N_of_ascii a < 256)%N |- _ => fail
      | _ => pose proof (N_ascii_bounded a)
      end
  end;
  repeat match goal with
  | |- context [N_of_ascii (ascii_of_N ?n)] => rewrite (N_ascii_embedding n) by lia
  | H : context [N_of_ascii (ascii_of_N ?n)] |- _ => rewrite (N_ascii_embedding n) in H by lia
  end.

Lemma lower_token_1 a : valid_token (lower_token [a]) = true.
Proof.
  unfold lower_token, replacement_char.
  repeat case_match; [|done|done]. simpl. byte_cases. lia.
Qed.

Lemma valid_token_2 a b :
  valid_token [a; b] = between 194 223 a && cont b.
Proof.
  unfold valid_token, valid_multi.
  destruct (between 194 223 a), (cont b); simpl; repeat case_match; simplify_eq; done.
Qed.

Lemma lower_token_valid t :
  (valid_token t = true \/ exists a, t = [a]) -> valid_token (lower_token t) = true.
Proof.
  intros [Ht|[a ->]]; [|apply lower_token_1].
  destruct t as [|a [|b [|c [|d t]]]]; try done.
  - apply lower_token_1.
  - rewrite valid_token_2 in Ht. unfold lower_token.
    repeat case_match; rewrite ?valid_token_2; try reflexivity; byte_cases; lia.
  - unfold lower_token. case_match; [reflexivity|done].
Qed.

Lemma lower_token_idem t :
  valid_token t = true -> lower_token (lower_token t) = lower_token t.
Proof.
  intros Ht. destruct t as [|a [|b [|c [|d t]]]]; try done.
  - unfold lower_token at 2 3.
    destruct (between 65 90 a) eqn:E1.
    + unfold lower_token. repeat case_match; try done; byte_cases; lia.
    + destruct (isASCII a) eqn:E2; [|vm_compute; done].
      unfold lower_token. by rewrite E1, E2.
  - unfold lower_token at 2 3.
    repeat case_match; unfold lower_token;
      repeat case_match; try done; byte_cases; try lia; try congruence.
  - unfold lower_token at 2 3. case_match eqn:E; [vm_compute; done|].
    unfold lower_token. by rewrite E.
Qed.

Lemma lower_token_space t :
  (valid_token t = true \/ exists a, t = [a]) ->
  space_token (lower_token t) = space_token t.
Proof.
  intros Ht. assert (Hc : valid_token t = true \/ exists a, t = [a]) by done.
  destruct t as [|a [|b [|c [|d t]]]]; try done.
  - unfold lower_token, space_token, replacement_char.
    repeat case_match; simplify_eq; byte_cases; lia.
  - unfold lower_token. repeat case_match; unfold space_token; byte_cases; try lia; done.
  - unfold lower_token. case_match; [|done]. unfold space_token. byte_cases. lia.
Qed.

Lemma drop_while_idem {A} (p : A -> bool) l : drop_while p (drop_while p l) = drop_while p l.
Proof. induction l as [|x l IH]; simpl; [done|]. destruct (p x) eqn:E; [done|]. simpl. by rewrite E. Qed.

Lemma drop_while_app_false {A} (p : A -> bool) l x :
  p x = false -> drop_while p (l ++ [x]) = drop_while p l ++ [x].
Proof.
  intros Hx. induction l as [|y l IH]; simpl; [by rewrite Hx|].
  destruct (p y); [done|]. done.
Qed.

Lemma drop_while_end_cons {A} (p : A -> bool) x l :
  p x = false -> drop_while_end p (x :: l) = x :: drop_while_end p l.
Proof.
  intros Hx. unfold drop_while_end. rewrite reverse_cons, drop_while_app_false by done.
  by rewrite reverse_app.
Qed.

Lemma drop_while_suffix {A} (p : A -> bool) l : exists l1, l = l1 ++ drop_while p l.
Proof.
  induction l as [|x l [l1 IH]]; simpl; [by exists []|].
  destruct (p x); [exists (x :: l1); simpl; by f_equal|by exists []].
Qed.

Lemma drop_while_end_prefix {A} (p : A -> bool) l : exists l2, l = drop_while_end p l ++ l2.
Proof.
  destruct (drop_while_suffix p (reverse l)) as [l1 Hl]. exists (reverse l1).
  unfold drop_while_end. rewrite <- reverse_app, <- Hl. by rewrite reverse_involutive.
Qed.

Definition trim_list {A} (p : A -> bool) (l : list A) : list A :=
  drop_while_end p (drop_while p l).

Lemma trim_list_idem {A} (p : A -> bool) l : trim_list p (trim_list p l) = trim_list p l.
Proof.
  unfold trim_list.
  assert (Hhead : drop_while p (drop_while_end p (drop_while p l))
                  = drop_while_end p (drop_while p l)).
  { induction l as [|x l IH]; simpl; [done|]. destruct (p x) eqn:E; [done|].
    rewrite drop_while_end_cons by done. simpl. by rewrite E. }
  rewrite Hhead. unfold drop_while_end. by rewrite reverse_involutive, drop_while_idem.
Qed.

Lemma drop_while_fmap {A B} (f : A -> B) (p : B -> bool) (q : A -> bool) l :
  (forall x, x ∈ l -> p (f x) = q x) -> drop_while p (f <$> l) = f <$> drop_while q l.
Proof.
  induction l as [|x l IH]; intros H; simpl; [done|].
  rewrite (H x) by (by left). destruct (q x); [|done].
  apply IH. intros y Hy. apply H. by right.
Qed.

Lemma trim_list_fmap {A B} (f : A -> B) (p : B -> bool) (q : A -> bool) l :
  (forall x, x ∈ l -> p (f x) = q x) -> trim_list p (f <$> l) = f <$> trim_list q l.
Proof.
  intros H. unfold trim_list, drop_while_end.
  rewrite (drop_while_fmap f p q l H), <- fmap_reverse.
  rewrite (drop_while_fmap f p q), fmap_reverse; [done|].
  intros x Hx%elem_of_reverse. apply H.
  destruct (drop_while_suffix q l) as [l1 Hl]. rewrite Hl. set_solver.
Qed.

Lemma bytes_of_string_of l : bytes_of (string_of l) = l.
Proof. apply String.list_ascii_of_string_of_list_ascii. Qed.

Lemma tokens_suffix l p q : tokens l = p ++ q -> tokens (mjoin q) = q.
Proof.
  revert p. induction l as [|l Hl IH] using tokens_ind; intros p Hpq.
  - destruct p; [|discriminate Hpq]. simpl in Hpq. by subst q.
  - destruct p as [|t p].
    + simpl in Hpq. subst q. by rewrite tokens_join.
    + rewrite tokens_cons in Hpq by done. simpl in Hpq. simplify_eq. by apply (IH p).
Qed.

Lemma tokens_TrimSpace s :
  tokens (bytes_of (TrimSpace s)) = trim_list space_token (tokens (bytes_of s)).
Proof.
  unfold TrimSpace, trim_list. rewrite bytes_of_string_of.
  destruct (drop_while_suffix space_token (tokens (bytes_of s))) as [l1 H1].
  pose proof (tokens_suffix _ _ _ H1) as Hs.
  destruct (drop_while_end_prefix space_token (drop_while space_token (tokens (bytes_of s))))
    as [l2 H2].
  apply (tokens_prefix (mjoin (drop_while space_token (tokens (bytes_of s)))) _ l2).
  by rewrite Hs.
Qed.

Lemma tokens_ToLower s :
  tokens (bytes_of (ToLower s)) = lower_token <$> tokens (bytes_of s).
Proof.
  unfold ToLower. rewrite bytes_of_string_of. apply tokens_join_valid.
  apply Forall_fmap, Forall_forall. intros t Ht%tokens_elem. simpl.
  by apply lower_token_valid.
Qed.

(** [ToLower] of a trimmed string needs neither trimming nor lowering again. *)
Lemma lower_trim_idem s :
  ToLower (TrimSpace (ToLower (TrimSpace s))) = ToLower (TrimSpace s).
Proof.
  unfold ToLower at 1. rewrite tokens_TrimSpace, tokens_ToLower, tokens_TrimSpace.
  unfold ToLower. rewrite tokens_TrimSpace. f_equal. f_equal.
  rewrite (trim_list_fmap _ _ space_token).
  - rewrite trim_list_idem. rewrite <- list_fmap_compose. apply list_fmap_ext.
    intros i t Ht. simpl. rewrite <- tokens_TrimSpace in Ht.
    apply list_elem_of_lookup_2, tokens_elem in Ht.
    destruct Ht as [Ht|[a ->]]; [by apply lower_token_idem|].
    destruct (isASCII a) eqn:Ha; [by apply lower_token_idem|].
    unfold lower_token at 2 3. rewrite Ha.
    destruct (between 65 90 a) eqn:E; [byte_cases; lia|]. reflexivity.
  - intros t Ht. rewrite <- tokens_TrimSpace in Ht.
    by eapply lower_token_space, tokens_elem.
Qed.

Lemma TrimSpace_idem s : TrimSpace (TrimSpace s) = TrimSpace s.
Proof.
  unfold TrimSpace at 1. rewrite tokens_TrimSpace.
  fold (trim_list space_token (trim_list space_token (tokens (bytes_of s)))).
  by rewrite trim_list_idem.
Qed.

Lemma lower_trim_comm s : TrimSpace (ToLower s) = ToLower (TrimSpace s).
Proof.
  unfold TrimSpace at 1, ToLower at 2. rewrite tokens_ToLower, tokens_TrimSpace.
  fold (trim_list space_token (lower_token <$> tokens (bytes_of s))).
  rewrite (trim_list_fmap _ _ space_token); [done|].
  intros t Ht. by eapply lower_token_space, tokens_elem.
Qed.

Lemma trim_lower_idem s : TrimSpace (ToLower (ToLower (TrimSpace s))) = ToLower (TrimSpace s).
Proof. by rewrite lower_trim_comm, lower_trim_idem. Qed.

(** ** Splitting and joining *)

Lemma bytes_of_app a b : bytes_of (a +:+ b) = bytes_of a ++ bytes_of b.
Proof.
  induction a as [|c a IH]; [done|].
  change (bytes_of (String c a +:+ b)) with (c :: bytes_of (a +:+ b)). by rewrite IH.
Qed.

Lemma string_of_app a b : string_of (a ++ b) = string_of a +:+ string_of b.
Proof.
  induction a as [|c a IH]; [done|].
  change (string_of ((c :: a) ++ b)) with (String c (string_of (a ++ b))). by rewrite IH.
Qed.

Lemma string_of_bytes_of s : string_of (bytes_of s) = s.
Proof. apply String.string_of_list_ascii_of_string. Qed.

Lemma string_app_assoc a b c : (a +:+ b) +:+ c = a +:+ b +:+ c.
Proof.
  induction a as [|x a IH]; [done|].
  change (String x ((a +:+ b) +:+ c) = String x (a +:+ b +:+ c)). by rewrite IH.
Qed.

Lemma prefix_app a b : String.prefix a (a +:+ b) = true.
Proof.
  induction a as [|c a IH]; [by destruct b|].
  change (String.prefix (String c a) (String c a +:+ b)) with
    (if Ascii.ascii_dec c c then String.prefix a (a +:+ b) else false).
  by destruct (Ascii.ascii_dec c c).
Qed.

Lemma HasSuffix_app p x : HasSuffix (p +:+ x) x = true.
Proof.
  unfold HasSuffix, HasPrefix. rewrite bytes_of_app, reverse_app, string_of_app. apply prefix_app.
Qed.

Lemma Split_nonempty s sep : Split s sep <> [].
Proof. destruct s as [|c s]; cbn; [done|]. destruct (Ascii.eqb c sep); [done|]. by destruct (Split s sep). Qed.

Lemma Join_Split s sep : Join (Split s sep) (String sep "") = s.
Proof.
  induction s as [|c s IH]; [done|]. cbn [Split]. pose proof (Split_nonempty s sep) as Hne.
  destruct (Ascii.eqb_spec c sep) as [->|Hc].
  - destruct (Split s sep) as [|w ws]; [done|].
    change (String sep (Join (w :: ws) (String sep "")) = String sep s). by rewrite IH.
  - destruct (Split s sep) as [|w ws]; [done|]. rewrite <- IH. by destruct ws.
Qed.

Lemma Contains_Split s sep :
  Contains s (String sep "") = true <-> (2 <= length (Split s sep))%nat.
Proof.
  induction s as [|c s IH]; [cbn; split; [done|lia]|].
  pose proof (Split_nonempty s sep) as Hne. cbn [Contains Split String.prefix].
  destruct (Ascii.eqb_spec c sep) as [->|Hc].
  - destruct (Ascii.ascii_dec sep sep); [|done]. destruct (Split s sep); [done|]. destruct s; cbn; split; intros; [lia|done|lia|done].
  - destruct (Ascii.ascii_dec sep c); [congruence|]. cbn [orb]. rewrite IH. by destruct (Split s sep) as [|w ws].
Qed.

Lemma Join_snoc l x sep : l <> [] -> Join (l ++ [x]) sep = Join l sep +:+ sep +:+ x.
Proof.
  induction l as [|y l IH]; [done|]. intros _. destruct l as [|z l]; [done|].
  change ((y :: z :: l) ++ [x]) with (y :: (z :: l) ++ [x]).
  change (Join (y :: z :: l) sep) with (y +:+ sep +:+ Join (z :: l) sep).
  change (Join (y :: (z :: l) ++ [x]) sep) with (y +:+ sep +:+ Join ((z :: l) ++ [x]) sep).
  rewrite IH by done. by rewrite !string_app_assoc.
Qed.
