(* ===== verification/Mph.v ===== *)
(** * Matching domain names: [matchergroup_mph.go] of the engine's
    [common/geodata/strmatcher]

    The rules for the bypass domains are matched by a minimal perfect hash
    table over one array of bytes, read without bounds checks.  The patterns
    are written as records into [arena]; [place] finds a seed for every bucket
    of hashes (hash, displace and compress); a lookup hashes the text once from
    the right and compares it with the one record its slot names.

    Bytes and machine integers are [Z]; the wrap-around of the hash arithmetic
    is written out.  A read outside the array is [None], in the unchecked reads
    too, so that a result that is never [None] is a memory-safety theorem.
    Slices whose contents the code sorts or counts are lists. *)

From Stdlib Require Import Ascii.
From S2P Require Import Prelude GoStrings.

#[local] Open Scope Z_scope.

(** ** Bytes *)

Abbreviation bytestring := (list Z) (only parsing).

Definition byte (c : ascii) : Z := Z.of_N (N_of_ascii c).
Definition bytes (s : string) : bytestring := byte <$> bytes_of s.
Definition size {A} (l : list A) : Z := Z.of_nat (length l).

(** [l[p:p+n]], with the check Go makes, or the promise an unchecked read rests on. *)
Definition slice (l : bytestring) (p n : Z) : option bytestring :=
  if (0 <=? p) && (0 <=? n) && (p + n <=? size l) then Some (take (Z.to_nat n) (drop (Z.to_nat p) l)) else None.

(** [l[p]]. *)
Definition at_index {A} (l : list A) (p : Z) : option A := if p <? 0 then None else l !! Z.to_nat p.

(** [bytes.Compare]. *)
Fixpoint bytes_compare (a b : bytestring) : comparison :=
  match a, b with
  | [], [] => Eq
  | [], _ => Lt
  | _, [] => Gt
  | x :: a, y :: b => match x ?= y with Eq => bytes_compare a b | c => c end
  end.

(** [binary.AppendUvarint]: seven bits at a time, at most ten bytes. *)
Fixpoint uvarint_bytes (fuel : nat) (x : Z) : bytestring :=
  match fuel with
  | O => []
  | S fuel => if x <? 128 then [x] else Z.lor (Z.land x 127) 128 :: uvarint_bytes fuel (Z.shiftr x 7)
  end.

Definition AppendUvarint (x : Z) : bytestring := uvarint_bytes 10 x.

(** ** The group *)

Inductive mphKind := mphKindFull | mphKindParent | mphKindDomain.
#[export] Instance mphKind_dec : EqDecision mphKind.
Proof. solve_decision. Defined.

Definition mphDomain : Z := 2 ^ 31.
Definition mphFull : Z := 2 ^ 30.
Definition mphParent : Z := 2 ^ 29.
Definition mphOffMask : Z := mphParent - 1.

Definition mphFlag (k : mphKind) : Z :=
  match k with mphKindFull => mphFull | mphKindParent => mphParent | mphKindDomain => mphDomain end.
Definition mphKinds : list mphKind := [mphKindFull; mphKindParent; mphKindDomain].

Definition mphMultipliers : list Z :=
  [0x9e3779b97f4a7c15; 0xc2b2ae3d27d4eb4f; 0x165667b19e3779f9; 0x27d4eb2f165667c5].

Inductive mph_error := errMphCollision | errMphBuilt | TooManyRules | NoSeed.

Record mphEntry := mkMphEntry { me_off : Z; me_value : Z; me_n : Z; me_kind : mphKind }.

Record MphMatcherGroup := mkMph {
  mg_arena : bytestring;
  mg_level0 : list Z;
  mg_level1 : list Z;
  mg_fp : list Z;
  mg_n0 : Z;
  mg_n1 : Z;
  mg_mul : Z;
  mg_single : Z;
  mg_multi : bool;
  mg_buf : bytestring;
  mg_entries : list mphEntry
}.

Definition NewMphMatcherGroup : MphMatcherGroup := mkMph [] [] [] [] 0 0 0 0 false [] [].

Definition dot : Z := 46.

(** [add]; [None]: it panics, the group is built. *)
Definition add (pattern : string) (kind : mphKind) (value : Z) (g : MphMatcherGroup) : option MphMatcherGroup :=
  if negb (bool_decide (mg_arena g = [])) then None
  else
    let pattern := bytes (ToLower pattern) in
    let off := uwrap 32 (size (mg_buf g)) in
    let n := uwrap 32 (size pattern) in
    let parent :=
      match pattern with
      | c :: _ => if c =? dot then [mkMphEntry (uwrap 32 (off + 1)) value (uwrap 32 (size pattern - 1)) mphKindParent] else []
      | [] => []
      end in
    Some (mkMph [] (mg_level0 g) (mg_level1 g) (mg_fp g) (mg_n0 g) (mg_n1 g) (mg_mul g) (mg_single g) (mg_multi g)
      (mg_buf g ++ pattern) (mg_entries g ++ mkMphEntry off value n kind :: parent)).

Definition AddFullMatcher (pattern : string) (value : Z) := add pattern mphKindFull value.
Definition AddDomainMatcher (pattern : string) (value : Z) := add pattern mphKindDomain value.

(** ** Writing the records *)

Definition entry_key (buf : bytestring) (e : mphEntry) : bytestring :=
  take (Z.to_nat (me_n e)) (drop (Z.to_nat (me_off e)) buf).

(** The order by pattern, then by the position of the entry. *)
Definition key_le (a b : nat * (bytestring * mphEntry)) : bool :=
  match bytes_compare a.2.1 b.2.1 with Lt => true | Gt => false | Eq => (a.1 <=? b.1)%nat end.

Definition key_order (a b : nat * (bytestring * mphEntry)) : Prop := key_le a b = true.
#[export] Instance key_order_dec : RelDecision key_order.
Proof. intros a b. unfold key_order. apply _. Defined.

Definition sorted_entries (g : MphMatcherGroup) : list (bytestring * mphEntry) :=
  (merge_sort key_order (imap (fun i e => (i, (entry_key (mg_buf g) e, e))) (mg_entries g))).*2.

(** The runs of equal patterns. *)
Fixpoint groups (l : list (bytestring * mphEntry)) : list (bytestring * list mphEntry) :=
  match l with
  | [] => []
  | (k, e) :: l =>
      match groups l with
      | (k', es) :: gs => if bool_decide (k = k') then (k, e :: es) :: gs else (k, [e]) :: (k', es) :: gs
      | [] => [(k, [e])]
      end
  end.

(** The distinct values of a kind, in order. *)
Definition values_of (kind : mphKind) (es : list mphEntry) : list Z :=
  foldl (fun vals e =>
    if bool_decide (me_kind e = kind) && negb (bool_decide (me_value e ∈ vals)) then vals ++ [me_value e] else vals)
    [] es.

Definition length_bytes (n : Z) : bytestring := if n <? 255 then [n] else 255 :: AppendUvarint n.

Definition value_bytes (multi : bool) (es : list mphEntry) (kind : mphKind) : bytestring :=
  match values_of kind es with
  | [] => []
  | vals => if multi then AppendUvarint (size vals) ++ (vals ≫= AppendUvarint) else []
  end.

Definition record_flags (es : list mphEntry) : Z :=
  foldl (fun flags kind => match values_of kind es with [] => flags | _ => Z.lor flags (mphFlag kind) end) 0 mphKinds.

(** One record: the array and the offsets with flags so far. *)
Definition write_record (multi : bool) (acc : bytestring * list Z) (grp : bytestring * list mphEntry)
  : bytestring * list Z :=
  let '(arena, recs) := acc in
  let '(k, es) := grp in
  (arena ++ length_bytes (size k) ++ k ++ (mphKinds ≫= value_bytes multi es),
   recs ++ [Z.lor (uwrap 32 (size arena)) (record_flags es)]).

Definition has_many_values (entries : list mphEntry) : bool :=
  match entries with
  | [] => false
  | e :: _ => existsb (fun e' => negb (me_value e' =? me_value e)) entries
  end.

Definition single_value (entries : list mphEntry) : Z := match entries with [] => 0 | e :: _ => me_value e end.

Definition writeRecords (g : MphMatcherGroup) : bytestring * list Z :=
  let '(arena, recs) :=
    foldl (write_record (has_many_values (mg_entries g))) ([], []) (groups (sorted_entries g)) in
  (arena ++ 0 :: (if bool_decide (recs = []) then [0] else []), recs).

(** ** Hashing *)

Definition mphHash (mul : Z) (s : bytestring) : Z := foldr (fun c h => uwrap 64 (h * mul + c)) 0 s.

Definition mphMix (h : Z) : Z :=
  let h := Z.lxor h (Z.shiftr h 32) in
  let h := uwrap 64 (h * 0xd6e8feb86659fd93) in
  Z.lxor h (Z.shiftr h 32).

Definition bucket (n0 f : Z) : Z := uwrap 32 (Z.shiftr (uwrap 64 (Z.shiftr f 32 * n0)) 32).

Definition slot (n1 f seed : Z) : Z :=
  let x := Z.shiftr (uwrap 64 (Z.lxor f (uwrap 64 (seed * 0x9e3779b97f4a7c15)) * 0xc4ceb9fe1a85ec53)) 32 in
  uwrap 32 (Z.shiftr (uwrap 64 (x * n1)) 32).

(** ** Placing the records *)

Definition bump (i : nat) (l : list nat) : list nat := <[i := S (l !!! i)]> l.

(** The counting sort: where each bucket starts, and the records by bucket. *)
Definition starts (n0 : nat) (bs : list nat) : list nat :=
  foldl (fun l b => <[S b := (l !!! S b + l !!! b)%nat]> l)
    (foldl (fun l b => bump (S b) l) (replicate (S n0) O) bs) (seq 0 n0).

Definition fill_members (n0 : nat) (bs : list nat) : list nat :=
  (foldl (fun '(members, fill) '(i, b) => (<[fill !!! b := i]> members, bump b fill))
    (replicate (length bs) O, take n0 (starts n0 bs)) (imap pair bs)).1.

Definition bucket_size (start : list nat) (b : nat) : nat := (start !!! S b - start !!! b)%nat.

Definition bucket_members (start members : list nat) (b : nat) : list nat :=
  take (bucket_size start b) (drop (start !!! b) members).

(** Two equal hashes in a bucket: no seed separates them. *)
Fixpoint has_equal (l : list Z) : bool :=
  match l with [] => false | x :: l => existsb (Z.eqb x) l || has_equal l end.

(** The bit set of used slots, 64 in a word. *)
Definition bit_get (words : list Z) (s : Z) : bool := Z.testbit (words !!! Z.to_nat (s / 64)) (s mod 64).
Definition bit_set (words : list Z) (s : Z) : list Z :=
  <[Z.to_nat (s / 64) := Z.lor (words !!! Z.to_nat (s / 64)) (Z.shiftl 1 (s mod 64))]> words.

(** The slots of a bucket under a seed, unless one is taken or two are equal. *)
Definition try_seed (n1 : Z) (occupied : list Z) (hs : list Z) (seed : Z) : option (list Z) :=
  foldl (fun slots h =>
    slots ← slots;
    let s := slot n1 h seed in
    if bit_get occupied s || bool_decide (s ∈ slots) then None else Some (slots ++ [s])) (Some []) hs.

Fixpoint find_seed (n1 : Z) (occupied : list Z) (hs : list Z) (seed : Z) (fuel : nat) : option (Z * list Z) :=
  match fuel with
  | O => None
  | S fuel =>
      match try_seed n1 occupied hs seed with
      | Some slots => Some (seed, slots)
      | None => find_seed n1 occupied hs (seed + 1) fuel
      end
  end.

Record table := mkTable { tb_occupied : list Z; tb_level0 : list Z; tb_level1 : list Z; tb_fp : list Z }.

(** One record in its slot; [h] and [record] are the hash and the record of the
    bucket's member. *)
Definition put_record (t : table) (p : Z * (Z * Z)) : table :=
  let '(s, (h, record)) := p in
  mkTable (bit_set (tb_occupied t) s) (tb_level0 t)
    (<[Z.to_nat s := record]> (tb_level1 t)) (<[Z.to_nat s := uwrap 8 h]> (tb_fp t)).

Definition seeds : nat := Z.to_nat 65536.

Fixpoint place_buckets (n1 : Z) (recs hashes : list Z) (start members : list nat) (buckets : list nat) (t : table)
  : result mph_error table :=
  match buckets with
  | [] => Ok t
  | b :: buckets =>
      match bucket_members start members b with
      | [] => Ok t
      | m =>
          let hs := (fun i => hashes !!! i) <$> m in
          if has_equal hs then Err errMphCollision
          else match find_seed n1 (tb_occupied t) hs 0 seeds with
          | None => Err NoSeed
          | Some (seed, slots) =>
              let t := foldl put_record t (zip slots (zip hs ((fun i => recs !!! i) <$> m))) in
              place_buckets n1 recs hashes start members buckets
                (mkTable (tb_occupied t) (<[b := seed]> (tb_level0 t)) (tb_level1 t) (tb_fp t))
          end
      end
  end.

Definition table_sizes (r : nat) : nat * nat := (Nat.max 1 (r / 3), Nat.max 1 (r + r / 99)).

Definition place (recs hashes : list Z) : result mph_error table :=
  let '(n0, n1) := table_sizes (length recs) in
  let bs := (fun h => Z.to_nat (bucket (Z.of_nat n0) h)) <$> hashes in
  let start := starts n0 bs in
  let members := fill_members n0 bs in
  let buckets := sort_stable (fun a b => (bucket_size start b <? bucket_size start a)%nat) (seq 0 n0) in
  place_buckets (Z.of_nat n1) recs hashes start members buckets
    (mkTable (replicate ((n1 + 63) / 64) 0) (replicate n0 0) (replicate n1 0) (replicate n1 0)).

(** ** Reading a record *)

(** [uvarint] at [p], over the rest of the array. *)
Fixpoint uvarint_go (shift x p : Z) (l : bytestring) : option (Z * Z) :=
  match l with
  | [] => None
  | c :: l =>
      let x := Z.lor x (uwrap 32 (Z.shiftl (Z.land c 0x7f) shift)) in
      if c <? 0x80 then Some (x, p + 1) else uvarint_go (shift + 7) x (p + 1) l
  end.

Definition uvarint (arena : bytestring) (p : Z) : option (Z * Z) := uvarint_go 0 0 p (drop (Z.to_nat p) arena).

Definition recSpan (arena : bytestring) (off : Z) : option (Z * Z) :=
  n ← at_index arena off;
  if n =? 255 then '(n, p) ← uvarint arena (off + 1); Some (p, n) else Some (off + 1, n).

Definition recKey (arena : bytestring) (record : Z) : option bytestring :=
  '(p, n) ← recSpan arena (Z.land record mphOffMask); slice arena p n.

(** ** Building *)

Fixpoint try_multipliers (arena : bytestring) (recs : list Z) (keys : list bytestring) (muls : list Z)
  : result mph_error (Z * table) :=
  match muls with
  | [] => Err errMphCollision
  | mul :: muls =>
      match place recs ((fun k => mphMix (mphHash mul k)) <$> keys) with
      | Ok t => Ok (mul, t)
      | Err errMphCollision => try_multipliers arena recs keys muls
      | Err e => Err e
      end
  end.

(** The keys are read back from the records; [None] among them would be a panic. *)
Definition Build (g : MphMatcherGroup) : option (result mph_error MphMatcherGroup) :=
  if negb (bool_decide (mg_arena g = [])) then Some (Err errMphBuilt)
  else if 2 ^ 32 - 1 <? size (mg_buf g) then Some (Err TooManyRules)
  else
    let '(arena, recs) := writeRecords g in
    if mphOffMask <? size arena then Some (Err TooManyRules)
    else
      keys ← mapM (recKey arena) recs;
      Some (let! (mul, t) := try_multipliers arena recs keys mphMultipliers in
            let '(n0, n1) := table_sizes (length recs) in
            Ok (mkMph arena (tb_level0 t) (tb_level1 t) (tb_fp t) (Z.of_nat n0) (Z.of_nat n1) mul
                  (single_value (mg_entries g)) (has_many_values (mg_entries g)) [] [])).

(** ** Looking up *)

(** The entry of [s], 0 when it is no pattern; [h] is the hash of [s]. *)
Definition lookup (g : MphMatcherGroup) (h : Z) (s : bytestring) : option Z :=
  let f := mphMix h in
  seed ← at_index (mg_level0 g) (bucket (mg_n0 g) f);
  let i := slot (mg_n1 g) f seed in
  fp ← at_index (mg_fp g) i;
  if negb (fp =? uwrap 8 f) then Some 0
  else
    e ← at_index (mg_level1 g) i;
    if size s <? 255 then
      let p := Z.land e mphOffMask in
      n ← at_index (mg_arena g) p;
      if n =? size s then
        k ← slice (mg_arena g) (p + 1) (size s);
        Some (if bool_decide (k = s) then e else 0)
      else Some 0
    else
      k ← recKey (mg_arena g) e;
      Some (if bool_decide (k = s) then e else 0).

(** The loop of [MatchAny] from the right: the hash of what was read, whether a
    parent domain is a pattern; once one is, the loop has returned. *)
Fixpoint scan_parents (g : MphMatcherGroup) (input : bytestring) : option (Z * bool) :=
  match input with
  | [] => Some (0, false)
  | c :: rest =>
      '(h, found) ← scan_parents g rest;
      if (found : bool) then Some (h, true)
      else
        found ← (if c =? dot then e ← lookup g h rest; Some (negb (Z.land e (Z.lor mphDomain mphParent) =? 0))
                 else Some false);
        if (found : bool) then Some (h, true) else Some (uwrap 64 (h * mg_mul g + c), false)
  end.

Definition MatchAny (g : MphMatcherGroup) (input : bytestring) : option bool :=
  '(h, found) ← scan_parents g input;
  if (found : bool) then Some true
  else e ← lookup g h input; Some (negb (Z.land e (Z.lor mphFull mphDomain) =? 0)).

(** ** What the patterns are meant to match ([matchers.go]) *)

Definition HasPrefix (s p : bytestring) : bool := bool_decide (take (length p) s = p).
Definition HasSuffix (s p : bytestring) : bool := bool_decide (drop (length s - length p) s = p).

(** [FullMatcher.Match] and [DomainMatcher.Match]. *)
Definition FullMatcher_Match (m s : bytestring) : bool := bool_decide (m = s).

Definition DomainMatcher_Match (m s : bytestring) : bool :=
  if negb (HasSuffix s m) then false
  else (size s =? size m) || (match at_index s (size s - size m - 1) with Some c => c =? dot | None => false end).

(** The patterns in the order they are added: the text, whether it is a full
    pattern, the value. *)
Abbreviation added := (string * bool * Z)%type (only parsing).

(** Calls of [AddFullMatcher] and [AddDomainMatcher] in their order. *)
Definition add_all (patterns : list added) : option MphMatcherGroup :=
  foldl (fun g '(pattern, full, value) =>
    g ← g; if (full : bool) then AddFullMatcher pattern value g else AddDomainMatcher pattern value g)
    (Some NewMphMatcherGroup) patterns.

(** Does one added pattern match the text?  A leading dot adds the subdomains of
    the rest, whatever the kind of the pattern. *)
Definition pattern_matches (input : bytestring) (p : added) : bool :=
  let '(pattern, full, _) := p in
  let m := bytes (ToLower pattern) in
  (if (full : bool) then FullMatcher_Match m input else DomainMatcher_Match m input)
  || HasPrefix m [dot] && HasSuffix input m.

(** ** Bytes *)

Lemma slice_spec (l a k rest : bytestring) : l = a ++ k ++ rest -> slice l (size a) (size k) = Some k.
Proof.
  intros ->. unfold slice, size. rewrite !length_app.
  replace ((0 <=? Z.of_nat (length a)) && (0 <=? Z.of_nat (length k))
    && (Z.of_nat (length a) + Z.of_nat (length k) <=? Z.of_nat (length a + (length k + length rest)))) with true by lia.
  rewrite !Nat2Z.id, drop_app_length. f_equal. apply take_app_length.
Qed.

Lemma at_index_spec {A} (a : list A) x rest : at_index (a ++ x :: rest) (size a) = Some x.
Proof.
  unfold at_index, size. replace (Z.of_nat (length a) <? 0) with false by lia.
  rewrite Nat2Z.id. by apply list_lookup_middle.
Qed.

Lemma at_index_total {A} (l : list A) p : 0 <= p < size l -> exists x, at_index l p = Some x /\ l !! Z.to_nat p = Some x.
Proof.
  unfold at_index, size. intros Hp. replace (p <? 0) with false by lia.
  destruct (lookup_lt_is_Some_2 l (Z.to_nat p)) as [x Hx]; [lia|]. by exists x.
Qed.

Lemma uwrap_land w z : 0 <= w -> uwrap w z = Z.land z (Z.ones w).
Proof. intros. unfold uwrap. by rewrite Z.land_ones. Qed.

Lemma continued_byte v : 0 <= v -> Z.land (Z.lor (Z.land v 127) 128) 127 = Z.land v 127 /\ (Z.lor (Z.land v 127) 128 <? 128) = false.
Proof.
  intros Hv. split.
  - rewrite Z.land_lor_distr_l, <- Z.land_assoc. change (Z.land 127 127) with 127.
    change (Z.land 128 127) with 0. apply Z.lor_0_r.
  - apply Z.ltb_ge. assert (H0 : 0 <= Z.land v 127) by (apply Z.land_nonneg; lia).
    assert (Hl : Z.log2 (Z.lor (Z.land v 127) 128) >= 7).
    { rewrite Z.log2_lor by lia. change (Z.log2 128) with 7. lia. }
    assert (0 < Z.lor (Z.land v 127) 128).
    { destruct (Z.eq_dec (Z.lor (Z.land v 127) 128) 0) as [E|]; [by rewrite E in Hl|].
      assert (0 <= Z.lor (Z.land v 127) 128) by (apply Z.lor_nonneg; lia). lia. }
    apply Z.log2_le_pow2 in Hl || (apply Z.ge_le, Z.log2_le_pow2 in Hl); lia.
Qed.

Lemma uvarint_step x v sh :
  0 <= v -> 0 <= sh ->
  Z.lor (Z.lor x (uwrap 32 (Z.shiftl (Z.land v 127) sh))) (uwrap 32 (Z.shiftl (Z.shiftr v 7) (sh + 7)))
  = Z.lor x (uwrap 32 (Z.shiftl v sh)).
Proof.
  intros Hv Hsh. rewrite <- Z.lor_assoc. f_equal. rewrite !uwrap_land by lia.
  rewrite <- Z.land_lor_distr_l. f_equal. change 127 with (Z.ones 7).
  apply Z.bits_inj'. intros n Hn. rewrite Z.lor_spec, !Z.shiftl_spec by lia.
  destruct (Z.ltb_spec (n - sh) 0).
  { rewrite !Z.testbit_neg_r by lia. done. }
  rewrite Z.land_spec, Z.testbit_ones by lia.
  destruct (Z.ltb_spec (n - sh) 7).
  - rewrite (Z.testbit_neg_r _ (n - (sh + 7))) by lia.
    replace (0 <=? n - sh) with true by lia. destruct (Z.testbit v (n - sh)); reflexivity.
  - rewrite Z.shiftr_spec by lia. replace (n - (sh + 7) + 7) with (n - sh) by lia.
    rewrite andb_false_r, andb_false_r. done.
Qed.

Lemma uvarint_go_spec fuel : forall v sh x p rest,
  0 <= v < 2 ^ (7 * Z.of_nat fuel) -> 0 <= sh -> fuel <> O ->
  uvarint_go sh x p (uvarint_bytes fuel v ++ rest)
  = Some (Z.lor x (uwrap 32 (Z.shiftl v sh)), p + size (uvarint_bytes fuel v)).
Proof.
  induction fuel as [|fuel IH]; intros v sh x p rest Hv Hsh Hf; [done|].
  cbn [uvarint_bytes]. destruct (Z.ltb_spec v 128) as [Hlt|Hge].
  - cbn [app uvarint_go]. change 0x7f with (Z.ones 7). rewrite Z.land_ones, Z.mod_small by lia.
    change 0x80 with 128. replace (v <? 128) with true by lia. by unfold size.
  - cbn [app uvarint_go]. destruct (continued_byte v) as [E1 E2]; [lia|].
    change 0x7f with 127. change 0x80 with 128. rewrite E1, E2.
    rewrite IH.
    + rewrite uvarint_step by lia. do 2 f_equal. unfold size. cbn [length]. lia.
    + rewrite Z.shiftr_div_pow2 by lia. split; [apply Z.div_pos; lia|].
      apply Z.div_lt_upper_bound; [lia|]. rewrite <- Z.pow_add_r by lia.
      replace (7 + 7 * Z.of_nat fuel) with (7 * Z.of_nat (S fuel)) by lia. lia.
    + lia.
    + intros ->. change (2 ^ (7 * Z.of_nat 1)) with 128 in Hv. lia.
Qed.

(** What [AppendUvarint] writes, [uvarint] reads back. *)
Lemma uvarint_AppendUvarint (a rest : bytestring) v :
  0 <= v < 2 ^ 32 -> uvarint (a ++ AppendUvarint v ++ rest) (size a) = Some (v, size a + size (AppendUvarint v)).
Proof.
  intros Hv. unfold uvarint. unfold size at 2. rewrite Nat2Z.id, drop_app_length.
  unfold AppendUvarint at 1. rewrite uvarint_go_spec by lia.
  by rewrite Z.shiftl_0_r, uwrap_id, Z.lor_0_l.
Qed.

(** ** Records *)

(** At [off] the array holds the record of the pattern [k]. *)
Definition record_at (arena : bytestring) (off : nat) (k : bytestring) : Prop :=
  exists a rest, arena = a ++ length_bytes (size k) ++ k ++ rest /\ length a = off.

Lemma length_bytes_pos n : (1 <= length (length_bytes n))%nat.
Proof. unfold length_bytes. destruct (n <? 255); cbn; lia. Qed.

Lemma record_at_app arena more off k : record_at arena off k -> record_at (arena ++ more) off k.
Proof. intros (a & rest & -> & H). exists a, (rest ++ more). by rewrite <- !app_assoc. Qed.

Lemma record_at_bound arena off k : record_at arena off k -> Z.of_nat off < size arena /\ size k < size arena.
Proof.
  intros (a & rest & -> & H). pose proof (length_bytes_pos (size k)). unfold size in *. rewrite !length_app. lia.
Qed.

Lemma recSpan_spec arena off k :
  record_at arena off k -> size arena < 2 ^ 32 ->
  exists p, recSpan arena (Z.of_nat off) = Some (p, size k) /\ slice arena p (size k) = Some k.
Proof.
  intros Hr Hs. pose proof (record_at_bound _ _ _ Hr) as [_ Hk]. destruct Hr as (a & rest & -> & <-).
  unfold recSpan, length_bytes. change (Z.of_nat (length a)) with (size a).
  assert (Hp : 0 <= size k) by (unfold size; lia).
  destruct (Z.ltb_spec (size k) 255) as [Hlt|Hge].
  - cbn [app]. rewrite at_index_spec. cbn. replace (size k =? 255) with false by lia.
    eexists. split; [done|]. replace (size a + 1) with (size (a ++ [size k])).
    + eapply (slice_spec _ _ _ rest). by rewrite <- app_assoc.
    + unfold size. rewrite length_app. cbn. lia.
  - change ((255 :: AppendUvarint (size k)) ++ k ++ rest) with (255 :: (AppendUvarint (size k) ++ k ++ rest)).
    rewrite at_index_spec. cbn [mbind option_bind]. change (255 =? 255) with true. cbv iota.
    assert (E : a ++ 255 :: AppendUvarint (size k) ++ k ++ rest = (a ++ [255]) ++ AppendUvarint (size k) ++ k ++ rest)
      by by rewrite <- !app_assoc.
    replace (size a + 1) with (size (a ++ [255])) by (unfold size; rewrite length_app; cbn; lia).
    rewrite E, uvarint_AppendUvarint by lia. cbn [mbind option_bind].
    eexists. split; [done|].
    replace (size (a ++ [255]) + size (AppendUvarint (size k))) with (size ((a ++ [255]) ++ AppendUvarint (size k)))
      by (unfold size; rewrite !length_app; lia).
    eapply (slice_spec _ _ _ rest). by rewrite <- !app_assoc.
Qed.

(** ** Hash arithmetic *)

Lemma uwrap_pos w z : 0 < w -> 0 <= uwrap w z < 2 ^ w.
Proof. intros. apply uwrap_range. lia. Qed.

(** A 32-bit fraction of [n] is below [n]. *)
Lemma scaled_bound (x n : Z) : 0 <= x < 2 ^ 32 -> 0 < n < 2 ^ 32 ->
  0 <= uwrap 32 (Z.shiftr (uwrap 64 (x * n)) 32) < n.
Proof.
  intros Hx Hn. assert (0 <= x * n < 2 ^ 64).
  { split; [nia|]. change (2 ^ 64) with (2 ^ 32 * 2 ^ 32). nia. }
  rewrite (uwrap_id 64) by lia. rewrite Z.shiftr_div_pow2 by lia.
  assert (0 <= x * n / 2 ^ 32 < n).
  { split; [apply Z.div_pos; lia|]. apply Z.div_lt_upper_bound; nia. }
  rewrite uwrap_id; lia.
Qed.

Lemma high_half z : 0 <= z < 2 ^ 64 -> 0 <= Z.shiftr z 32 < 2 ^ 32.
Proof.
  intros Hz. rewrite Z.shiftr_div_pow2 by lia. split; [apply Z.div_pos; lia|].
  apply Z.div_lt_upper_bound; [lia|]. change (2 ^ 32 * 2 ^ 32) with (2 ^ 64). lia.
Qed.

Lemma mphHash_range mul s : 0 <= mphHash mul s < 2 ^ 64.
Proof. destruct s; cbn -[uwrap Z.pow]; [lia|]. by apply uwrap_pos. Qed.

Lemma lxor_range a b w : 0 <= w -> 0 <= a < 2 ^ w -> 0 <= b < 2 ^ w -> 0 <= Z.lxor a b < 2 ^ w.
Proof.
  intros Hw Ha Hb. assert (0 <= Z.lxor a b) by (apply Z.lxor_nonneg; lia). split; [done|].
  destruct (Z.eq_dec (Z.lxor a b) 0) as [->|Hn]; [lia|].
  apply Z.log2_lt_pow2; [lia|]. pose proof (Z.log2_lxor a b ltac:(lia) ltac:(lia)).
  assert (Hlog : forall z, 0 <= z < 2 ^ w -> 0 < w -> Z.log2 z < w).
  { intros z Hz Hw0. destruct (Z.eq_dec z 0) as [->|]; [by rewrite Z.log2_nonpos|]. apply Z.log2_lt_pow2; lia. }
  destruct (Z.eq_dec w 0) as [->|]; [|pose proof (Hlog a Ha); pose proof (Hlog b Hb); lia].
  exfalso. apply Hn. change (2 ^ 0) with 1 in *. replace a with 0 by lia. by replace b with 0 by lia.
Qed.

Lemma mphMix_range h : 0 <= h < 2 ^ 64 -> 0 <= mphMix h < 2 ^ 64.
Proof.
  intros Hh. unfold mphMix. set (m := uwrap 64 _). assert (Hm : 0 <= m < 2 ^ 64) by by apply uwrap_pos.
  apply lxor_range; [lia|done|]. pose proof (high_half m Hm). lia.
Qed.

Lemma bucket_bound n0 f : 0 <= f < 2 ^ 64 -> 0 < n0 < 2 ^ 32 -> 0 <= bucket n0 f < n0.
Proof. intros Hf Hn. apply scaled_bound; [|done]. by apply high_half. Qed.

Lemma slot_bound n1 f seed : 0 < n1 < 2 ^ 32 -> 0 <= slot n1 f seed < n1.
Proof. intros Hn. apply scaled_bound; [|done]. by apply high_half, uwrap_pos. Qed.

(** ** The bit set *)

Lemma bit_get_set words s s' :
  0 <= s < 64 * size words -> 0 <= s' ->
  bit_get (bit_set words s) s' = (s =? s') || bit_get words s'.
Proof.
  intros Hs Hs'. unfold bit_get, bit_set, size in *.
  assert (Hi : (Z.to_nat (s / 64) < length words)%nat).
  { assert (s / 64 < Z.of_nat (length words)) by (apply Z.div_lt_upper_bound; lia).
    assert (0 <= s / 64) by (apply Z.div_pos; lia). lia. }
  pose proof (Z.mod_pos_bound s 64 ltac:(lia)). pose proof (Z.mod_pos_bound s' 64 ltac:(lia)).
  pose proof (Z.div_mod s 64 ltac:(lia)). pose proof (Z.div_mod s' 64 ltac:(lia)).
  assert (0 <= s / 64 /\ 0 <= s' / 64) by (split; apply Z.div_pos; lia).
  destruct (Z.eq_dec (s / 64) (s' / 64)) as [E|E].
  - rewrite <- E, list_lookup_total_insert_eq by done. rewrite Z.lor_spec, Z.shiftl_spec by lia.
    rewrite orb_comm. f_equal. destruct (Z.eqb_spec s s') as [->|Hne].
    + by rewrite Z.sub_diag.
    + destruct (Z.ltb_spec (s' mod 64 - s mod 64) 0); [by rewrite Z.testbit_neg_r|].
      rewrite Z.bits_above_log2; [done..|]. change (Z.log2 1) with 0. lia.
  - rewrite list_lookup_total_insert_ne by lia. replace (s =? s') with false; [done|].
    symmetry. apply Z.eqb_neq. intros ->. lia.
Qed.

Lemma bit_set_length words s : length (bit_set words s) = length words.
Proof. apply length_insert. Qed.

(** ** The counting sort *)

Definition count (P : nat -> bool) (bs : list nat) : nat := length (filter (fun b => P b = true) bs).

Lemma count_snoc P bs b : count P (bs ++ [b]) = (count P bs + if P b then 1 else 0)%nat.
Proof.
  unfold count. rewrite filter_app, length_app, filter_cons, filter_nil.
  destruct (P b); [rewrite decide_True by done|rewrite decide_False by done]; done.
Qed.

Lemma count_or P Q bs : (forall b, P b = true -> Q b = true -> False) ->
  count (fun b => P b || Q b) bs = (count P bs + count Q bs)%nat.
Proof.
  intros H. induction bs as [|b bs IH] using rev_ind; [done|]. rewrite !count_snoc, IH.
  specialize (H b). destruct (P b), (Q b); cbn; lia.
Qed.

Lemma count_ext P Q bs : (forall b, P b = Q b) -> count P bs = count Q bs.
Proof. intros H. induction bs as [|b bs IH] using rev_ind; [done|]. by rewrite !count_snoc, IH, H. Qed.

Lemma count_none P bs : (forall b, P b = false) -> count P bs = O.
Proof. intros H. induction bs as [|b bs IH] using rev_ind; [done|]. by rewrite count_snoc, IH, H. Qed.

Lemma bump_length i l : length (bump i l) = length l.
Proof. apply length_insert. Qed.

Lemma bump_lookup i j l : (i < length l)%nat -> bump i l !!! j = (l !!! j + if (i =? j)%nat then 1 else 0)%nat.
Proof.
  intros Hi. unfold bump. destruct (Nat.eqb_spec i j) as [->|Hne].
  - rewrite list_lookup_total_insert_eq by done. lia.
  - rewrite list_lookup_total_insert_ne by done. lia.
Qed.

(** After the prefix sums, [start[b]] counts the records of the buckets before [b]. *)
Lemma starts_spec n0 bs : Forall (fun b => (b < n0)%nat) bs ->
  length (starts n0 bs) = S n0 /\
  forall b, (b <= n0)%nat -> starts n0 bs !!! b = count (fun c => (c <? b)%nat) bs.
Proof.
  intros Hbs.
  assert (Hc : let l := foldl (fun l b => bump (S b) l) (replicate (S n0) O) bs in
               length l = S n0 /\ forall j, l !!! j = count (fun c => (S c =? j)%nat) bs).
  { apply (foldl_seen (fun seen l => length l = S n0 /\ forall j, l !!! j = count (fun c => (S c =? j)%nat) seen)).
    - intros seen b l Hpre [Hl Hj]. rewrite bump_length. split; [done|]. intros j.
      assert (Hb : (b < n0)%nat).
      { eapply Forall_forall in Hbs; [done|]. destruct Hpre as [r ->]. apply elem_of_app. left. apply elem_of_app. right. by left. }
      rewrite bump_lookup, Hj, count_snoc by lia. done.
    - rewrite length_replicate. split; [done|]. intros j. destruct (Nat.lt_ge_cases j (S n0)).
      + by rewrite lookup_total_replicate_2.
      + rewrite list_lookup_total_alt, lookup_ge_None_2; [|rewrite length_replicate; lia]. done. }
  cbv zeta in Hc. unfold starts. set (l0 := foldl _ _ bs) in *. destruct Hc as [Hl0 Hj0].
  assert (Hk : forall k, (k <= n0)%nat ->
    let l := foldl (fun l b => <[S b := (l !!! S b + l !!! b)%nat]> l) l0 (seq 0 k) in
    length l = S n0 /\ (forall b, (b <= k)%nat -> l !!! b = count (fun c => (c <? b)%nat) bs)
    /\ forall b, (k < b)%nat -> l !!! b = count (fun c => (S c =? b)%nat) bs).
  { induction k as [|k IH]; intros Hk.
    - cbn. split; [done|]. split; [|intros; apply Hj0]. intros b Hb. replace b with O by lia. rewrite Hj0.
      apply count_ext. intros c. by destruct c.
    - rewrite seq_S, foldl_app. cbn [foldl]. destruct IH as (Hl & Ha & Hb); [lia|].
      rewrite length_insert. split; [done|]. split.
      + intros b Hbk. destruct (Nat.eq_dec b (S k)) as [->|Hne].
        * rewrite list_lookup_total_insert_eq by lia. cbn [Nat.add]. rewrite Hb, Ha by lia.
          rewrite <- count_or by lia. apply count_ext. intros c. lia.
        * rewrite list_lookup_total_insert_ne by lia. apply Ha. lia.
      + intros b Hbk. rewrite list_lookup_total_insert_ne by lia. apply Hb. lia. }
  destruct (Hk n0) as (Hl & Ha & _); [lia|]. by split.
Qed.

Lemma window_write {A} (m : list A) s n x : (s + n < length m)%nat ->
  take (S n) (drop s (<[(s + n)%nat := x]> m)) = take n (drop s m) ++ [x].
Proof.
  intros Hl. rewrite drop_insert_ge by lia. replace (s + n - s)%nat with n by lia.
  erewrite take_S_r; [|apply list_lookup_insert_eq; rewrite length_drop; lia]. by rewrite take_insert_ge.
Qed.

Lemma window_other {A} (m : list A) s n p x : (p < s)%nat \/ (s + n <= p)%nat ->
  take n (drop s (<[p := x]> m)) = take n (drop s m).
Proof.
  intros [Hp|Hp]; [by rewrite drop_insert_lt|]. rewrite drop_insert_ge by lia. by rewrite take_insert_ge by lia.
Qed.

(** The records of bucket [b], in the order of their numbers. *)
Definition of_bucket (b : nat) (l : list (nat * nat)) : list nat := (filter (fun p => p.2 = b) l).*1.

Lemma of_bucket_snoc b l i c : of_bucket b (l ++ [(i, c)]) = of_bucket b l ++ if decide (c = b) then [i] else [].
Proof.
  unfold of_bucket. rewrite filter_app, fmap_app, filter_cons, filter_nil. cbn. by destruct (decide (c = b)).
Qed.

Lemma of_bucket_count b l : length (of_bucket b l) = count (fun c => (c =? b)%nat) l.*2.
Proof.
  induction l as [|[i c] l IH] using rev_ind; [done|].
  rewrite of_bucket_snoc, fmap_app, length_app. cbn [fmap list_fmap snd]. rewrite count_snoc, IH.
  destruct (Nat.eqb_spec c b) as [->|]; [rewrite decide_True by done|rewrite decide_False by done]; done.
Qed.

Lemma imap_pair_snd {A} (l : list A) : (imap pair l).*2 = l.
Proof. rewrite fmap_imap. cbn. induction l as [|x l IH] using rev_ind; [done|]. rewrite imap_app, IH. done. Qed.

Lemma imap_pair_elem {A} (l : list A) i x : (i, x) ∈ imap pair l <-> l !! i = Some x.
Proof.
  rewrite elem_of_lookup_imap. split; [by intros (j & y & [= -> ->] & H)|by exists i, x].
Qed.

Lemma of_bucket_elem b bs i : i ∈ of_bucket b (imap pair bs) <-> bs !! i = Some b.
Proof.
  unfold of_bucket. rewrite list_elem_of_fmap. split.
  - intros ([j c] & -> & H). apply list_elem_of_filter in H as [E H]. cbn in E. subst. by apply imap_pair_elem.
  - intros H. exists (i, b). split; [done|]. apply list_elem_of_filter. split; [done|]. by apply imap_pair_elem.
Qed.

Lemma bucket_size_spec n0 bs b : Forall (fun b => (b < n0)%nat) bs -> (b < n0)%nat ->
  (starts n0 bs !!! S b = starts n0 bs !!! b + bucket_size (starts n0 bs) b)%nat
  /\ bucket_size (starts n0 bs) b = length (of_bucket b (imap pair bs)).
Proof.
  intros Hbs Hb. destruct (starts_spec n0 bs Hbs) as [_ Hs]. unfold bucket_size. rewrite !Hs by lia.
  rewrite of_bucket_count, imap_pair_snd.
  rewrite (count_ext (fun c => (c <? S b)%nat) (fun c => (c <? b)%nat || (c =? b)%nat)) by (intros; lia).
  rewrite count_or by lia. lia.
Qed.

Lemma count_mono P Q bs : (forall b, P b = true -> Q b = true) -> (count P bs <= count Q bs)%nat.
Proof.
  intros H. induction bs as [|b bs IH] using rev_ind; [done|]. rewrite !count_snoc. specialize (H b).
  destruct (P b), (Q b); lia.
Qed.

Lemma count_all P bs : Forall (fun b => P b = true) bs -> count P bs = length bs.
Proof. intros H. unfold count. by rewrite filter_all. Qed.

Lemma of_bucket_prefix b seen l : seen `prefix_of` l -> (length (of_bucket b seen) <= length (of_bucket b l))%nat.
Proof. intros [r ->]. unfold of_bucket. rewrite filter_app, fmap_app, length_app. lia. Qed.

Section counting_sort.
  Variables (n0 : nat) (bs : list nat).
  Hypothesis (bs_bounded : Forall (fun b => (b < n0)%nat) bs).

Lemma starts_mono d e : (d < e)%nat -> (e <= n0)%nat ->
  (starts n0 bs !!! d + bucket_size (starts n0 bs) d <= starts n0 bs !!! e)%nat.
Proof using bs_bounded.
  intros Hde He. destruct (bucket_size_spec n0 bs d bs_bounded) as [<- _]; [lia|].
  destruct (starts_spec n0 bs bs_bounded) as [_ Hs]. rewrite !Hs by lia. apply count_mono. lia.
Qed.

Lemma starts_total d : (d <= n0)%nat -> (starts n0 bs !!! d <= length bs)%nat.
Proof using bs_bounded.
  intros Hd. destruct (starts_spec n0 bs bs_bounded) as [_ ->]; [|done]. unfold count. apply length_filter.
Qed.

(** What the filling loop has done after the records [seen]. *)
Definition filled (seen : list (nat * nat)) (s : list nat * list nat) : Prop :=
  length s.1 = length bs /\ length s.2 = n0 /\
  forall b, (b < n0)%nat -> s.2 !!! b = (starts n0 bs !!! b + length (of_bucket b seen))%nat
    /\ take (length (of_bucket b seen)) (drop (starts n0 bs !!! b) s.1) = of_bucket b seen.

Lemma filled_step seen i c m fl :
  seen ++ [(i, c)] `prefix_of` imap pair bs -> filled seen (m, fl) ->
  filled (seen ++ [(i, c)]) (<[fl !!! c := i]> m, bump c fl).
Proof using bs_bounded.
  intros Hpre (Hm & Hfl & Hw). cbn [fst snd] in *.
  assert (Hc : (c < n0)%nat).
  { pose proof bs_bounded as Hbs. rewrite Forall_forall in Hbs. apply Hbs. destruct Hpre as [r Hr].
    rewrite <- (imap_pair_snd bs), Hr, !fmap_app. apply elem_of_app. left. apply elem_of_app. right. by left. }
  assert (Hle : forall d, (d < n0)%nat ->
    (length (of_bucket d (seen ++ [(i, c)])) <= bucket_size (starts n0 bs) d)%nat).
  { intros d Hd. destruct (bucket_size_spec n0 bs d bs_bounded Hd) as [_ ->]. by apply of_bucket_prefix. }
  destruct (Hw c Hc) as [Hfc Hwc]. pose proof (Hle c Hc) as Hroom.
  rewrite of_bucket_snoc, decide_True, length_app in Hroom by done. cbn in Hroom.
  assert (Hpos : (starts n0 bs !!! c + length (of_bucket c seen) < length bs)%nat).
  { pose proof (starts_mono c n0 Hc ltac:(lia)). pose proof (starts_total n0 ltac:(lia)). lia. }
  unfold filled. cbn [fst snd]. rewrite length_insert, bump_length. do 2 (split; [done|]).
  intros d Hd. destruct (Hw d Hd) as [Hfd Hwd]. specialize (Hle d Hd).
  rewrite bump_lookup by lia. rewrite of_bucket_snoc, length_app in *.
  destruct (decide (c = d)) as [->|Hne].
  - rewrite Nat.eqb_refl, Hfd. cbn [length]. split; [lia|]. rewrite Nat.add_1_r.
    rewrite window_write by lia. by rewrite Hwd.
  - replace (c =? d)%nat with false by lia. rewrite Hfd, app_nil_r. cbn [length] in *.
    rewrite !Nat.add_0_r in *. split; [done|]. rewrite window_other; [done|]. rewrite Hfc.
    destruct (Nat.lt_trichotomy c d) as [H|[H|H]]; [|lia|].
    + left. pose proof (starts_mono c d H ltac:(lia)). lia.
    + right. pose proof (starts_mono d c H ltac:(lia)). lia.
Qed.

(** [fill_members] sorts the records by bucket. *)
Lemma fill_members_spec b : (b < n0)%nat ->
  bucket_members (starts n0 bs) (fill_members n0 bs) b = of_bucket b (imap pair bs).
Proof using bs_bounded.
  intros Hb. unfold bucket_members. destruct (bucket_size_spec n0 bs b bs_bounded Hb) as [_ ->].
  enough (Hinv : filled (imap pair bs) (foldl (fun '(members, fill) '(i, b) => (<[fill !!! b := i]> members, bump b fill))
    (replicate (length bs) O, take n0 (starts n0 bs)) (imap pair bs))) by by apply Hinv.
  apply foldl_seen; [intros seen [i c] [m fl] Hpre Hinv; by apply filled_step|].
  destruct (starts_spec n0 bs bs_bounded) as [Hlen _]. unfold filled. cbn [fst snd].
  rewrite length_replicate, length_take, Hlen. split; [done|]. split; [lia|].
  intros d Hd. cbn. rewrite Nat.add_0_r. split; [|done].
  by rewrite !list_lookup_total_alt, lookup_take_lt.
Qed.

End counting_sort.

(** ** Seeds and slots *)

Lemma has_equal_NoDup l : has_equal l = false -> NoDup l.
Proof.
  induction l as [|x l IH]; intros H; [constructor|]. cbn in H. apply orb_false_elim in H as [H1 H2].
  constructor; [|by apply IH]. intros Hx. rewrite <- not_true_iff_false in H1. apply H1.
  apply existsb_exists. exists x. split; [by apply list_elem_of_In|]. apply Z.eqb_refl.
Qed.

Lemma try_seed_spec n1 occupied hs seed slots :
  try_seed n1 occupied hs seed = Some slots ->
  slots = (fun h => slot n1 h seed) <$> hs /\ NoDup slots /\ Forall (fun s => bit_get occupied s = false) slots.
Proof.
  unfold try_seed. revert slots.
  apply (foldl_seen (fun seen (r : option (list Z)) => forall slots, r = Some slots ->
    slots = (fun h => slot n1 h seed) <$> seen /\ NoDup slots /\ Forall (fun s => bit_get occupied s = false) slots)).
  - intros seen h [slots|] _ IH slots' E; [|done]. cbn in E. destruct (IH slots eq_refl) as (-> & Hn & Hf).
    destruct (bit_get occupied (slot n1 h seed)) eqn:Eb; [done|].
    destruct (bool_decide_reflect (slot n1 h seed ∈ (fun h => slot n1 h seed) <$> seen)); [done|].
    injection E as <-. rewrite fmap_app. split; [done|]. split; [by apply NoDup_snoc|by apply Forall_snoc].
  - intros slots [= <-]. repeat split; constructor.
Qed.

Lemma find_seed_spec n1 occupied hs fuel : forall seed0 seed slots,
  find_seed n1 occupied hs seed0 fuel = Some (seed, slots) -> try_seed n1 occupied hs seed = Some slots.
Proof.
  induction fuel as [|fuel IH]; intros seed0 seed slots H; [done|]. cbn in H.
  destruct (try_seed n1 occupied hs seed0) eqn:E; [congruence|]. by eapply IH.
Qed.

Lemma zip_fmap {A B C D} (f : A -> B) (g : A -> C) (k : A -> D) l :
  zip (f <$> l) (zip (g <$> l) (k <$> l)) = (fun i => (f i, (g i, k i))) <$> l.
Proof. induction l as [|x l IH]; [done|]. cbn. by f_equal. Qed.

(** A sort by a key puts no smaller key before a larger one. *)
Lemma sort_descending {A} (key : A -> nat) l :
  StronglySorted (fun x y => (key y <= key x)%nat) (sort_stable (fun a b => (key b <? key a)%nat) l).
Proof.
  set (less := fun a b => (key b <? key a)%nat). induction l as [|x l IH]; [constructor|].
  change (sort_stable less (x :: l)) with (insert_by less x (sort_stable less l)).
  induction IH as [|y l' Hs IHs Hy]; [repeat constructor|]. cbn [insert_by].
  destruct (less y x) eqn:E; unfold less in E.
  - constructor; [done|]. rewrite insert_by_perm. constructor; [lia|done].
  - constructor; [by constructor|]. constructor; [lia|]. eapply Forall_impl; [done|]. cbn. lia.
Qed.

Section placing.
  Variables (n0 n1 : Z) (recs hashes : list Z) (start members : list nat).
  Hypothesis (n1_bounded : 0 < n1 < 2 ^ 32).

Abbreviation hash_of i := (hashes !!! i).
Abbreviation rec_of i := (recs !!! i).

Definition table_shape (t : table) : Prop :=
  size (tb_level0 t) = n0 /\ size (tb_level1 t) = n1 /\ size (tb_fp t) = n1 /\ n1 <= 64 * size (tb_occupied t)
  /\ Forall (fun e => e = 0 \/ e ∈ recs) (tb_level1 t).

(** Record [i] sits in its slot under [seed]. *)
Definition seated (t : table) (seed : Z) (i : nat) : Prop :=
  let s := slot n1 (hash_of i) seed in
  tb_level1 t !! Z.to_nat s = Some (rec_of i) /\ tb_fp t !! Z.to_nat s = Some (uwrap 8 (hash_of i))
  /\ bit_get (tb_occupied t) s = true.

Definition seat (seed : Z) (t : table) (i : nat) : table :=
  put_record t (slot n1 (hash_of i) seed, (hash_of i, rec_of i)).

Lemma seat_shape seed t i : table_shape t -> (i < length recs)%nat ->
  table_shape (seat seed t i) /\ tb_level0 (seat seed t i) = tb_level0 t.
Proof.
  intros (H0 & H1 & Hf & Ho & He) Hi. split; [|done]. unfold table_shape, size in *. cbn.
  rewrite !length_insert, bit_set_length. do 4 (split; [done|]).
  apply Forall_insert; [done|]. right. by apply list_elem_of_lookup_total_2.
Qed.

Lemma seat_seated seed t i : table_shape t -> seated (seat seed t i) seed i.
Proof using n1_bounded.
  intros (_ & H1 & Hf & Ho & _). pose proof (slot_bound n1 (hash_of i) seed n1_bounded) as Hs.
  unfold seated, seat, size in *. cbn.
  rewrite !list_lookup_insert_eq by lia. rewrite bit_get_set, Z.eqb_refl by (unfold size in *; lia). done.
Qed.

Lemma seat_keeps seed seed' t i j : table_shape t -> slot n1 (hash_of i) seed <> slot n1 (hash_of j) seed' ->
  seated t seed' j -> seated (seat seed t i) seed' j.
Proof using n1_bounded.
  intros (_ & H1 & Hf & Ho & _) Hne (Ha & Hb & Hc).
  pose proof (slot_bound n1 (hash_of i) seed n1_bounded). pose proof (slot_bound n1 (hash_of j) seed' n1_bounded).
  unfold seated, seat, size in *. cbn.
  rewrite !list_lookup_insert_ne by lia. rewrite bit_get_set, Hc, orb_true_r by (unfold size in *; lia). done.
Qed.

(** A whole bucket: nobody who sat is moved, and every member gets its slot. *)
Lemma seat_all seed m t : table_shape t -> Forall (fun i => (i < length recs)%nat) m ->
  NoDup ((fun i => slot n1 (hash_of i) seed) <$> m) ->
  Forall (fun i => bit_get (tb_occupied t) (slot n1 (hash_of i) seed) = false) m ->
  let t' := foldl (seat seed) t m in
  table_shape t' /\ tb_level0 t' = tb_level0 t /\ Forall (seated t' seed) m
  /\ forall seed' j, seated t seed' j -> seated t' seed' j.
Proof using n1_bounded.
  intros Ht Hm Hn Hfree. induction m as [|i m IH] using rev_ind; [by split_and!|].
  rewrite fmap_app in Hn. apply NoDup_app in Hn as (Hn & Hd & _).
  apply Forall_app in Hm as [Hm Hi]. apply Forall_app in Hfree as [Hfree Hfi].
  rewrite Forall_singleton in Hi, Hfi. destruct IH as (Hs & Hl & Hseat & Hkeep); [done..|].
  rewrite foldl_app. cbn [foldl]. destruct (seat_shape seed _ i Hs Hi) as [Hs' Hl'].
  split; [done|]. split; [by rewrite Hl'|]. split.
  - apply Forall_snoc; [|by apply seat_seated]. rewrite Forall_forall in *. intros j Hj.
    apply seat_keeps; [done| |by apply Hseat]. intros E. apply (Hd (slot n1 (hash_of i) seed)); [|by left].
    rewrite E. by apply (list_elem_of_fmap_2 (fun i => slot n1 (hash_of i) seed)).
  - intros seed' j Hj. apply seat_keeps; [done| |by apply Hkeep]. intros E. destruct Hj as (_ & _ & Hb).
    rewrite E in Hfi. congruence.
Qed.

Lemma foldl_fmap {A B C} (f : C -> B -> C) (g : A -> B) l c : foldl f c (g <$> l) = foldl (fun c x => f c (g x)) c l.
Proof. revert c. induction l as [|x l IH]; intros c; [done|]. apply IH. Qed.

(** Every member of the bucket sits, and no two have one hash. *)
Definition bucket_done (t : table) (b : nat) : Prop :=
  let m := bucket_members start members b in
  NoDup ((fun i => hash_of i) <$> m)
  /\ (m = [] \/ exists seed, tb_level0 t !! b = Some seed /\ Forall (seated t seed) m).

Hypothesis (members_bounded : forall b, Forall (fun i => (i < length recs)%nat) (bucket_members start members b)).

(** One turn of the loop. *)
Lemma bucket_turn b seed slots t m :
  table_shape t -> (Z.of_nat b < n0) -> m = bucket_members start members b ->
  has_equal ((fun i => hash_of i) <$> m) = false ->
  try_seed n1 (tb_occupied t) ((fun i => hash_of i) <$> m) seed = Some slots ->
  let t1 := foldl put_record t (zip slots (zip ((fun i => hash_of i) <$> m) ((fun i => rec_of i) <$> m))) in
  let t2 := mkTable (tb_occupied t1) (<[b := seed]> (tb_level0 t1)) (tb_level1 t1) (tb_fp t1) in
  table_shape t2 /\ bucket_done t2 b /\ forall c, c <> b -> bucket_done t c -> bucket_done t2 c.
Proof using n1_bounded members_bounded.
  intros Ht Hb Hm He Hs. apply try_seed_spec in Hs as (-> & Hn & Hf). cbv zeta.
  rewrite <- list_fmap_compose in *. rewrite zip_fmap, foldl_fmap.
  rewrite Forall_fmap in Hf. assert (Hr : Forall (fun i => (i < length recs)%nat) m) by by rewrite Hm.
  destruct (seat_all seed m t Ht Hr Hn Hf) as (Hs1 & Hl1 & Hseat & Hkeep).
  change (foldl _ t m) with (foldl (seat seed) t m). set (t1 := foldl (seat seed) t m) in *.
  destruct Hs1 as (H0 & H1 & H2 & H3 & H4). split; [|split].
  - split_and!; try done. cbn. by unfold size in *; rewrite length_insert.
  - unfold bucket_done. rewrite <- Hm. split; [by apply has_equal_NoDup|]. right. exists seed. cbn.
    rewrite list_lookup_insert_eq by (unfold size in *; lia). done.
  - intros c Hne [Hd [E|(seed' & Hl & Hc)]]; (split; [done|]); [by left|]. right. exists seed'. cbn.
    rewrite list_lookup_insert_ne, Hl1 by done. split; [done|]. eapply Forall_impl; [done|]. apply Hkeep.
Qed.

Lemma place_buckets_spec buckets : forall t t' seen,
  place_buckets n1 recs hashes start members buckets t = Ok t' ->
  table_shape t -> Forall (fun b => Z.of_nat b < n0) buckets -> NoDup (seen ++ buckets) ->
  StronglySorted (fun a b => (length (bucket_members start members b) <= length (bucket_members start members a))%nat) buckets ->
  Forall (bucket_done t) seen ->
  table_shape t' /\ Forall (bucket_done t') (seen ++ buckets).
Proof using n1_bounded members_bounded.
  induction buckets as [|b buckets IH]; intros t t' seen Hp Ht Hb Hn Hs Hd.
  { injection Hp as <-. by rewrite app_nil_r. }
  cbn [place_buckets] in Hp. inversion Hs as [|? ? Hs' Hall]; subst. inversion Hb as [|? ? Hb0 Hb']; subst.
  remember (bucket_members start members b) as m eqn:Em. destruct m as [|i0 m0].
  - injection Hp as <-. split; [done|]. apply Forall_app. split; [done|].
    assert (Hempty : Forall (fun c => bucket_members start members c = []) (b :: buckets)).
    { constructor; [done|]. eapply Forall_impl; [exact Hall|]. intros c Hc. by apply nil_length_inv, Nat.le_0_r. }
    eapply Forall_impl; [exact Hempty|]. intros c E. unfold bucket_done. rewrite E. split; [constructor|by left].
  - remember (i0 :: m0) as m. assert (Hp' : m <> []) by by subst. clear Heqm.
    destruct (has_equal _) eqn:He; [done|]. destruct (find_seed _ _ _ _ _) as [[seed slots]|] eqn:Ef; [|done].
    apply find_seed_spec in Ef.
    destruct (bucket_turn b seed slots t m Ht Hb0 Em He Ef) as (Ht2 & Hb2 & Hkeep).
    replace (seen ++ b :: buckets) with ((seen ++ [b]) ++ buckets) in * by by rewrite <- app_assoc.
    eapply IH; [exact Hp|done..|]. apply Forall_snoc; [|done].
    rewrite Forall_forall in *. intros c Hc. apply Hkeep; [|by apply Hd].
    intros ->. apply NoDup_app in Hn as (Hn & _ & _). apply NoDup_app in Hn as (_ & Hx & _).
    apply (Hx b Hc). by left.
Qed.

End placing.

Lemma table_sizes_bounds r n0 n1 : table_sizes r = (n0, n1) ->
  (1 <= n0)%nat /\ (n0 <= S r)%nat /\ (1 <= n1)%nat /\ (n1 <= S (2 * r))%nat /\ (n1 <= 64 * ((n1 + 63) / 64))%nat.
Proof.
  intros E. pose proof (f_equal fst E) as E0. pose proof (f_equal snd E) as E1. unfold table_sizes in E0, E1.
  cbn [fst snd] in E0, E1. subst n0 n1. pose proof (Nat.div_mod (Nat.max 1 (r + r / 99) + 63) 64 ltac:(lia)).
  pose proof (Nat.mod_upper_bound (Nat.max 1 (r + r / 99) + 63) 64 ltac:(lia)).
  pose proof (Nat.Div0.div_le_upper_bound r 99 r ltac:(lia)). pose proof (Nat.Div0.div_le_upper_bound r 3 r ltac:(lia)). lia.
Qed.

(** What a successful [place] gives: record [i] is found through its hash, no two
    records have one hash, and the rest of the table is empty. *)
Record placed (recs hashes : list Z) (t : table) : Prop := mkPlaced {
  pl_level0 : size (tb_level0 t) = Z.of_nat (table_sizes (length recs)).1;
  pl_level1 : size (tb_level1 t) = Z.of_nat (table_sizes (length recs)).2;
  pl_fp : size (tb_fp t) = Z.of_nat (table_sizes (length recs)).2;
  pl_content : Forall (fun e => e = 0 \/ e ∈ recs) (tb_level1 t);
  pl_found : forall i h, hashes !! i = Some h -> exists seed,
    tb_level0 t !! Z.to_nat (bucket (Z.of_nat (table_sizes (length recs)).1) h) = Some seed /\
    let s := Z.to_nat (slot (Z.of_nat (table_sizes (length recs)).2) h seed) in
    tb_level1 t !! s = recs !! i /\ tb_fp t !! s = Some (uwrap 8 h);
  pl_distinct : NoDup hashes
}.

Lemma StronglySorted_weaken {A} (R S : A -> A -> Prop) l :
  (forall x y, R x y -> S x y) -> StronglySorted R l -> StronglySorted S l.
Proof. intros H. induction 1 as [|x l _ IH Hx]; constructor; [done|]. eapply Forall_impl; [done|]. auto. Qed.

Lemma bucket_members_length n0 bs b : Forall (fun b => (b < n0)%nat) bs ->
  length (bucket_members (starts n0 bs) (fill_members n0 bs) b) = bucket_size (starts n0 bs) b.
Proof.
  intros Hbs. destruct (Nat.lt_ge_cases b n0) as [Hb|Hb].
  - rewrite fill_members_spec by done. symmetry. by apply bucket_size_spec.
  - unfold bucket_members, bucket_size. destruct (starts_spec n0 bs Hbs) as [Hl _].
    by rewrite (list_lookup_total_alt (starts n0 bs) (S b)), lookup_ge_None_2 by lia.
Qed.

Lemma bucket_members_bounded n0 bs b : Forall (fun b => (b < n0)%nat) bs ->
  Forall (fun i => (i < length bs)%nat) (bucket_members (starts n0 bs) (fill_members n0 bs) b).
Proof.
  intros Hbs. destruct (Nat.lt_ge_cases b n0) as [Hb|Hb].
  - rewrite fill_members_spec by done. apply Forall_forall. intros i Hi. apply of_bucket_elem in Hi.
    by eapply lookup_lt_Some.
  - unfold bucket_members, bucket_size. destruct (starts_spec n0 bs Hbs) as [Hl _].
    rewrite (list_lookup_total_alt (starts n0 bs) (S b)), lookup_ge_None_2 by lia. constructor.
Qed.

Lemma empty_shape n0 n1 recs : (n1 <= 64 * ((n1 + 63) / 64))%nat ->
  table_shape (Z.of_nat n0) (Z.of_nat n1) recs
    (mkTable (replicate ((n1 + 63) / 64) 0) (replicate n0 0) (replicate n1 0) (replicate n1 0)).
Proof.
  intros Ho. unfold table_shape, size. cbn [tb_level0 tb_level1 tb_fp tb_occupied]. rewrite !length_replicate.
  split_and!; [done..|lia|]. apply Forall_replicate. by left.
Qed.

Lemma place_spec recs hashes t :
  place recs hashes = Ok t -> length hashes = length recs -> Z.of_nat (length recs) < 2 ^ 29 ->
  Forall (fun h => 0 <= h < 2 ^ 64) hashes -> placed recs hashes t.
Proof.
  intros Hp Hlen Hr Hh. unfold place in Hp. destruct (table_sizes (length recs)) as [n0 n1] eqn:Es.
  pose proof (table_sizes_bounds _ _ _ Es) as (Hn0 & Hn0' & Hn1 & Hn1' & Ho).
  set (bs := (fun h => Z.to_nat (bucket (Z.of_nat n0) h)) <$> hashes) in *. cbv zeta in Hp.
  assert (Hbs : Forall (fun b => (b < n0)%nat) bs).
  { apply Forall_fmap. eapply Forall_impl; [exact Hh|]. intros h Hhr. cbn.
    pose proof (bucket_bound (Z.of_nat n0) h Hhr). lia. }
  set (start := starts n0 bs) in *. set (members := fill_members n0 bs) in *.
  assert (Hm : forall b i, (b < n0)%nat -> bs !! i = Some b -> i ∈ bucket_members start members b).
  { intros b i Hb Hi. unfold start, members. rewrite fill_members_spec by done. by apply of_bucket_elem. }
  assert (Hmb : forall b, Forall (fun i => (i < length recs)%nat) (bucket_members start members b)).
  { intros b. rewrite <- Hlen, <- (length_fmap (fun h => Z.to_nat (bucket (Z.of_nat n0) h))). by apply bucket_members_bounded. }
  set (buckets := sort_stable _ _) in Hp.
  assert (Hperm : buckets ≡ₚ seq 0 n0) by apply sort_stable_perm.
  destruct (place_buckets_spec (Z.of_nat n0) (Z.of_nat n1) recs hashes start members ltac:(lia) Hmb buckets _ _ []
    Hp (empty_shape _ _ _ Ho)) as [(H0 & H1 & H2 & _ & H4) Hdone].
  - rewrite Hperm. apply Forall_seq. lia.
  - cbn. rewrite Hperm. apply NoDup_seq.
  - pose proof (sort_descending (bucket_size start) (seq 0 n0)) as Hs. fold buckets in Hs.
    eapply StronglySorted_weaken; [|exact Hs]. intros a b. cbn. unfold start, members. by rewrite !bucket_members_length.
  - constructor.
  - cbn [app] in Hdone. rewrite Hperm in Hdone. rewrite Forall_forall in Hdone.
    assert (Hbd : forall i h, hashes !! i = Some h -> exists b, bs !! i = Some b /\ (b < n0)%nat /\ b ∈ seq 0 n0
      /\ b = Z.to_nat (bucket (Z.of_nat n0) h)).
    { intros i h Hi. eexists. unfold bs at 1. rewrite list_lookup_fmap, Hi. split; [done|].
      rewrite Forall_forall in Hbs. assert (Hin : Z.to_nat (bucket (Z.of_nat n0) h) ∈ bs).
      { apply list_elem_of_fmap. exists h. split; [done|]. by eapply list_elem_of_lookup_2. }
      specialize (Hbs _ Hin). split; [done|]. split; [apply elem_of_seq; lia|done]. }
    constructor; rewrite ?Es; cbn [fst snd]; try done.
    + intros i h Hi. destruct (Hbd i h Hi) as (b & Hb & Hlt & Hin & ->). specialize (Hm _ i Hlt Hb).
      destruct (Hdone _ Hin) as [_ [E|(seed & Hl & Hall)]]; [rewrite E in Hm; by apply elem_of_nil in Hm|].
      exists seed. split; [done|]. rewrite Forall_forall in Hall. destruct (Hall _ Hm) as (Ha & Hf & _).
      rewrite (list_lookup_total_correct _ _ _ Hi) in Ha, Hf. split; [|done]. rewrite Ha. symmetry.
      apply list_lookup_lookup_total_lt. rewrite <- Hlen. by eapply lookup_lt_Some.
    + apply NoDup_alt. intros i j h Hi Hj. destruct (Hbd i h Hi) as (b & Hb & Hlt & Hin & ->).
      destruct (Hbd j h Hj) as (c & Hc & _ & _ & ->).
      pose proof (Hm _ i Hlt Hb) as Hmi. pose proof (Hm _ j Hlt Hc) as Hmj. destruct (Hdone _ Hin) as [Hn _].
      apply list_elem_of_lookup in Hmi as [x Hx], Hmj as [y Hy]. rewrite NoDup_alt in Hn.
      assert (x = y) as -> by (apply (Hn x y h); rewrite list_lookup_fmap, ?Hx, ?Hy; cbn;
        f_equal; by apply list_lookup_total_correct). congruence.
Qed.

(** ** The records of a group *)

(** The entries with their patterns, in the order they were added. *)
Definition keyed (g : MphMatcherGroup) : list (bytestring * mphEntry) :=
  (fun e => (entry_key (mg_buf g) e, e)) <$> mg_entries g.

Lemma sorted_entries_perm g : sorted_entries g ≡ₚ keyed g.
Proof.
  unfold sorted_entries. rewrite merge_sort_Permutation. unfold keyed. rewrite fmap_imap.
  rewrite <- imap_const. apply reflexive_eq, imap_ext. done.
Qed.

Lemma groups_concat l : groups l ≫= (fun '(k, es) => (fun e => (k, e)) <$> es) = l.
Proof.
  induction l as [|[k e] l IH]; [done|]. cbn [groups]. destruct (groups l) as [|[k' es] gs]; [by rewrite <- IH|].
  destruct (bool_decide_reflect (k = k')) as [->|]; rewrite <- IH; done.
Qed.

(** Some entry of the group has this kind. *)
Definition has_kind (kind : mphKind) (es : list mphEntry) : bool := existsb (fun e => bool_decide (me_kind e = kind)) es.

Lemma values_of_nil kind es : values_of kind es = [] <-> has_kind kind es = false.
Proof.
  unfold values_of, has_kind. induction es as [|e es IH] using rev_ind; [done|].
  rewrite foldl_app, existsb_app. cbn. destruct (bool_decide (me_kind e = kind)).
  - rewrite orb_true_r. set (l := foldl _ _ _) in *. destruct (bool_decide_reflect (me_value e ∈ l)) as [H|H]; cbn.
    + split; [|done]. intros ->. by apply elem_of_nil in H.
    + split; [|done]. intros H'. by apply app_nil in H' as [_ H'].
  - cbn. by rewrite orb_false_r.
Qed.

Lemma record_flags_spec es : record_flags es =
  Z.lor (Z.lor (if has_kind mphKindFull es then mphFull else 0) (if has_kind mphKindParent es then mphParent else 0))
    (if has_kind mphKindDomain es then mphDomain else 0).
Proof.
  unfold record_flags. cbn [foldl mphKinds].
  assert (H : forall kind flags, match values_of kind es with [] => flags | _ => Z.lor flags (mphFlag kind) end
    = Z.lor flags (if has_kind kind es then mphFlag kind else 0)).
  { intros kind flags. pose proof (values_of_nil kind es) as Hn. destruct (values_of kind es), (has_kind kind es);
      rewrite ?Z.lor_0_r; try done; [by destruct Hn as [Hn _]; discriminate Hn|by destruct Hn as [_ Hn]; discriminate Hn]. }
  rewrite !H, Z.lor_0_l. done.
Qed.

Lemma low_bits off c : 0 <= off < mphParent -> Z.land mphOffMask c = 0 -> Z.land off c = 0.
Proof.
  intros Hoff Hc. replace off with (Z.land off mphOffMask); [by rewrite <- Z.land_assoc, Hc, Z.land_0_r|].
  change mphOffMask with (Z.ones 29). rewrite Z.land_ones by lia. by apply Z.mod_small.
Qed.

Lemma record_offset off es : 0 <= off < mphParent -> Z.land (Z.lor off (record_flags es)) mphOffMask = off.
Proof.
  intros Hoff. rewrite Z.land_lor_distr_l. replace (Z.land (record_flags es) mphOffMask) with 0.
  - rewrite Z.lor_0_r. change mphOffMask with (Z.ones 29). rewrite Z.land_ones by lia. by apply Z.mod_small.
  - rewrite record_flags_spec. by destruct (has_kind mphKindFull es), (has_kind mphKindParent es), (has_kind mphKindDomain es).
Qed.

Lemma record_subdomains off es : 0 <= off < mphParent ->
  negb (Z.land (Z.lor off (record_flags es)) (Z.lor mphDomain mphParent) =? 0)
  = has_kind mphKindDomain es || has_kind mphKindParent es.
Proof.
  intros Hoff. rewrite Z.land_lor_distr_l, (low_bits off) by done. rewrite Z.lor_0_l, record_flags_spec.
  by destruct (has_kind mphKindFull es), (has_kind mphKindParent es), (has_kind mphKindDomain es).
Qed.

Lemma record_exact off es : 0 <= off < mphParent ->
  negb (Z.land (Z.lor off (record_flags es)) (Z.lor mphFull mphDomain) =? 0)
  = has_kind mphKindFull es || has_kind mphKindDomain es.
Proof.
  intros Hoff. rewrite Z.land_lor_distr_l, (low_bits off) by done. rewrite Z.lor_0_l, record_flags_spec.
  by destruct (has_kind mphKindFull es), (has_kind mphKindParent es), (has_kind mphKindDomain es).
Qed.

(** The record [rec] of the group [grp] is written in [arena]. *)
Definition written (arena : bytestring) (rec : Z) (grp : bytestring * list mphEntry) : Prop :=
  exists off, rec = Z.lor (uwrap 32 (Z.of_nat off)) (record_flags grp.2) /\ record_at arena off grp.1.

Lemma write_record_spec multi gs :
  let '(arena, recs) := foldl (write_record multi) ([], []) gs in
  Forall2 (written arena) recs gs /\ (length recs <= length arena)%nat
  /\ (gs = [] -> arena = []) /\ (gs <> [] -> exists k, record_at arena 0 k).
Proof.
  induction gs as [|[k es] gs IH] using rev_ind; [by split_and!; [constructor| | |]|].
  rewrite foldl_app. destruct (foldl _ _ gs) as [arena recs] eqn:E. destruct IH as (Hw & Hl & _ & H0). cbn.
  set (new := length_bytes (size k) ++ k ++ _). pose proof (length_bytes_pos (size k)). split_and!.
  - apply Forall2_app; [|repeat constructor].
    + eapply Forall2_impl; [exact Hw|]. intros rec grp (off & -> & H'). exists off. split; [done|]. by apply record_at_app.
    + exists (length arena). split; [done|]. eexists arena, _. done.
  - unfold new. rewrite !length_app. cbn. lia.
  - intros Hnil. by apply app_nil in Hnil as [_ Hnil].
  - intros _. destruct gs as [|grp gs].
    + injection E as <- <-. exists k. eexists [], _. done.
    + destruct H0 as [k0 Hk0]; [done|]. exists k0. by apply record_at_app.
Qed.

(** ** A built group *)

(** What [Build] establishes: a record for every pattern, all in the table. *)
Record built (g : MphMatcherGroup) (gs : list (bytestring * list mphEntry)) (recs : list Z) : Prop := mkBuilt {
  bu_small : size (mg_arena g) < 2 ^ 29;
  bu_records : Forall2 (written (mg_arena g)) recs gs;
  bu_first : exists k, record_at (mg_arena g) 0 k;
  bu_n0 : 0 < mg_n0 g < 2 ^ 32 /\ size (mg_level0 g) = mg_n0 g;
  bu_n1 : 0 < mg_n1 g < 2 ^ 32 /\ size (mg_level1 g) = mg_n1 g /\ size (mg_fp g) = mg_n1 g;
  bu_content : Forall (fun e => e = 0 \/ e ∈ recs) (mg_level1 g);
  bu_found : forall i k es, gs !! i = Some (k, es) -> exists seed,
    let f := mphMix (mphHash (mg_mul g) k) in
    mg_level0 g !! Z.to_nat (bucket (mg_n0 g) f) = Some seed /\
    let s := Z.to_nat (slot (mg_n1 g) f seed) in
    mg_level1 g !! s = recs !! i /\ mg_fp g !! s = Some (uwrap 8 f);
  bu_distinct : NoDup gs.*1
}.

Lemma writeRecords_spec g arena recs : writeRecords g = (arena, recs) ->
  Forall2 (written arena) recs (groups (sorted_entries g)) /\ (length recs <= length arena)%nat
  /\ exists k, record_at arena 0 k.
Proof.
  unfold writeRecords. pose proof (write_record_spec (has_many_values (mg_entries g)) (groups (sorted_entries g))) as H.
  destruct (foldl _ _ _) as [a r]. destruct H as (Hw & Hl & He & H0). intros H. injection H as <- <-. split_and!.
  - eapply Forall2_impl; [exact Hw|]. intros rec grp (off & -> & H'). exists off. split; [done|]. by apply record_at_app.
  - rewrite length_app. lia.
  - destruct (groups (sorted_entries g)) as [|grp gs].
    + rewrite He by done. inversion Hw; subst. exists []. by exists [], [0].
    + destruct H0 as [k0 Hk0]; [done|]. exists k0. by apply record_at_app.
Qed.

Lemma written_key arena rec k es : size arena < 2 ^ 29 -> written arena rec (k, es) ->
  exists off, Z.land rec mphOffMask = Z.of_nat off /\ record_at arena off k /\ 0 <= Z.of_nat off < mphParent
    /\ rec = Z.lor (Z.of_nat off) (record_flags es).
Proof.
  intros Hs (off & Hrec & Hr). cbn [fst snd] in *. exists off. pose proof (record_at_bound _ _ _ Hr) as [Ho _].
  assert (Hoff : 0 <= Z.of_nat off < mphParent) by (unfold mphParent; lia).
  rewrite uwrap_id in Hrec by lia. subst rec. split_and!; [by apply record_offset|done|lia..|done].
Qed.

Lemma recKey_spec arena e off k : size arena < 2 ^ 29 -> Z.land e mphOffMask = Z.of_nat off -> record_at arena off k ->
  recKey arena e = Some k.
Proof.
  intros Hs He Hr. unfold recKey. rewrite He. destruct (recSpan_spec _ _ _ Hr) as (p & -> & Hsl); [lia|]. done.
Qed.

Lemma keys_spec arena recs gs : size arena < 2 ^ 29 -> Forall2 (written arena) recs gs ->
  mapM (recKey arena) recs = Some gs.*1.
Proof.
  intros Hs Hw. apply mapM_Some_2. induction Hw as [|rec [k es] recs gs Hr Hw IH]; [constructor|]. constructor; [|done].
  destruct (written_key _ _ _ _ Hs Hr) as (off & He & Ho & _). by eapply recKey_spec.
Qed.

Lemma try_multipliers_spec arena recs keys muls mul t :
  try_multipliers arena recs keys muls = Ok (mul, t) -> place recs ((fun k => mphMix (mphHash mul k)) <$> keys) = Ok t.
Proof.
  induction muls as [|m muls IH]; [done|]. cbn [try_multipliers].
  destruct (place recs ((fun k => mphMix (mphHash m k)) <$> keys)) as [t'|[]] eqn:E; [|done..].
  intros H. injection H as <- <-. done.
Qed.

Lemma Build_built g0 g : Build g0 = Some (Ok g) -> exists recs, built g (groups (sorted_entries g0)) recs.
Proof.
  unfold Build. destruct (negb _); [done|]. destruct (_ <? size (mg_buf g0)); [done|].
  destruct (writeRecords g0) as [arena recs] eqn:Ew. destruct (Z.ltb_spec mphOffMask (size arena)) as [|Hs]; [done|].
  assert (Hs' : size arena < 2 ^ 29) by (unfold mphOffMask, mphParent in Hs; lia).
  destruct (writeRecords_spec _ _ _ Ew) as (Hw & Hl & H0). rewrite (keys_spec _ _ _ Hs' Hw). cbn [mbind option_bind].
  intros H. destruct (try_multipliers _ _ _ _) as [[mul t]|] eqn:Et; [|done].
  cbn [result_bind] in H. destruct (table_sizes (length recs)) as [n0 n1] eqn:En. injection H as <-. exists recs.
  apply try_multipliers_spec in Et. pose proof (Forall2_length _ _ _ Hw) as Hlen.
  pose proof (table_sizes_bounds _ _ _ En) as (Hn0 & Hn0' & Hn1 & Hn1' & _). unfold size in Hs'.
  apply place_spec in Et as [P0 P1 P2 P3 P4 P5]; [|by rewrite !length_fmap|lia|].
  - rewrite En in *. cbn [fst snd] in *. constructor; cbn [mg_arena mg_level0 mg_level1 mg_fp mg_n0 mg_n1 mg_mul]; try done; try lia.
    + intros i k es Hi. apply P4. by rewrite !list_lookup_fmap, Hi.
    + by eapply NoDup_fmap_1.
  - apply Forall_fmap, Forall_true. intros k. cbn. apply mphMix_range, mphHash_range.
Qed.

(** The comparison of [s] with the record of an entry. *)
Lemma compare_record arena e off k s : size arena < 2 ^ 29 ->
  Z.land e mphOffMask = Z.of_nat off -> record_at arena off k ->
  (if size s <? 255 then
     n ← at_index arena (Z.land e mphOffMask);
     if n =? size s then
       k ← slice arena (Z.land e mphOffMask + 1) (size s); Some (if bool_decide (k = s) then e else 0)
     else Some 0
   else k ← recKey arena e; Some (if bool_decide (k = s) then e else 0))
  = Some (if bool_decide (k = s) then e else 0).
Proof.
  intros Hs He Hr. destruct (Z.ltb_spec (size s) 255) as [Hlt|Hge].
  2: { by rewrite (recKey_spec _ _ _ _ Hs He Hr). }
  rewrite He. destruct Hr as (a & rest & -> & <-). change (Z.of_nat (length a)) with (size a).
  unfold length_bytes. destruct (Z.ltb_spec (size k) 255) as [Hk|Hk]; cbn [app]; rewrite at_index_spec; cbn [mbind option_bind].
  - destruct (Z.eqb_spec (size k) (size s)) as [E|E].
    + rewrite <- E. replace (size a + 1) with (size (a ++ [size k])) by (unfold size; rewrite length_app; cbn; lia).
      rewrite (slice_spec _ _ _ rest); [done|]. by rewrite <- app_assoc.
    + rewrite bool_decide_false; [done|]. congruence.
  - replace (255 =? size s) with false by lia. rewrite bool_decide_false; [done|]. intros ->. lia.
Qed.

Lemma at_index_lookup {A} (l : list A) p : 0 <= p -> at_index l p = l !! Z.to_nat p.
Proof. intros. unfold at_index. by replace (p <? 0) with false by lia. Qed.

(** A pattern's record is found; a text that is no pattern gives 0. *)
Lemma lookup_spec g gs recs s : built g gs recs ->
  exists e, lookup g (mphHash (mg_mul g) s) s = Some e
    /\ ((exists i es, gs !! i = Some (s, es) /\ recs !! i = Some e) \/ (s ∉ gs.*1) /\ e = 0).
Proof.
  intros [Hsm Hrec [k0 H0] [Hn0 Hl0] (Hn1 & Hl1 & Hlf) Hcon Hfound _].
  pose proof (mphMix_range _ (mphHash_range (mg_mul g) s)) as Hf.
  pose proof (bucket_bound (mg_n0 g) _ Hf Hn0) as Hb.
  destruct (decide (s ∈ gs.*1)) as [Hin|Hout].
  - apply list_elem_of_fmap in Hin as ([k es] & -> & Hin). cbn [fst] in *. apply list_elem_of_lookup in Hin as [i Hi].
    destruct (Hfound i k es Hi) as (seed & Hseed & Hslot & Hfp). cbv zeta in *.
    pose proof (slot_bound (mg_n1 g) (mphMix (mphHash (mg_mul g) k)) seed Hn1) as Hs.
    destruct (Forall2_lookup_r _ _ _ _ _ Hrec Hi) as (rec & Hri & Hw).
    exists rec. split; [|left; by exists i, es]. unfold lookup.
    rewrite !at_index_lookup, Hseed by lia. cbn [mbind option_bind].
    rewrite !at_index_lookup, Hfp, Hslot, Hri by lia. cbn [mbind option_bind]. rewrite Z.eqb_refl. cbn [negb].
    destruct (written_key _ _ _ _ Hsm Hw) as (off & He & Ho & _).
    rewrite (compare_record _ _ _ _ _ Hsm He Ho). by rewrite bool_decide_true.
  - exists 0. split; [|by right]. unfold lookup.
    destruct (at_index_total (mg_level0 g) (bucket (mg_n0 g) (mphMix (mphHash (mg_mul g) s)))) as (seed & -> & _); [lia|].
    cbn [mbind option_bind]. pose proof (slot_bound (mg_n1 g) (mphMix (mphHash (mg_mul g) s)) seed Hn1) as Hs.
    set (i := slot _ _ _) in *.
    destruct (at_index_total (mg_fp g) i) as (fp & -> & _); [lia|]. cbn [mbind option_bind].
    destruct (negb _); [done|]. destruct (at_index_total (mg_level1 g) i) as (e & -> & He); [lia|]. cbn [mbind option_bind].
    rewrite Forall_forall in Hcon. destruct (Hcon e) as [->|Hr]; [by eapply list_elem_of_lookup_2| |].
    + rewrite (compare_record _ _ O k0 _ Hsm); [|done..]. by destruct (bool_decide _).
    + apply list_elem_of_lookup in Hr as [j Hj]. destruct (Forall2_lookup_l _ _ _ _ _ Hrec Hj) as ([k es] & Hk & Hw).
      destruct (written_key _ _ _ _ Hsm Hw) as (off & He' & Ho & _).
      rewrite (compare_record _ _ _ _ _ Hsm He' Ho). rewrite bool_decide_false; [done|]. intros ->.
      apply Hout. apply list_elem_of_fmap. exists (s, es). split; [done|]. by eapply list_elem_of_lookup_2.
Qed.

(** [s] was added as one of the kinds [want]. *)
Definition registered (ents : list (bytestring * mphEntry)) (want : list mphKind) (s : bytestring) : bool :=
  existsb (fun p => bool_decide (p.1 = s) && bool_decide (me_kind p.2 ∈ want)) ents.

Lemma existsb_perm {A} (f : A -> bool) l l' : l ≡ₚ l' -> existsb f l = existsb f l'.
Proof. induction 1; cbn; try congruence. by rewrite !orb_assoc, (orb_comm (f y)). Qed.

Lemma existsb_false {A} (f : A -> bool) l : (forall x, x ∈ l -> f x = false) -> existsb f l = false.
Proof.
  intros H. apply not_true_is_false. intros E. apply existsb_exists in E as (x & Hx & E).
  rewrite H in E; [done|]. by apply list_elem_of_In.
Qed.

Lemma registered_none gs want s : s ∉ gs.*1 ->
  registered (gs ≫= (fun '(k, es) => (fun e => (k, e)) <$> es)) want s = false.
Proof.
  intros Hs. apply existsb_false. intros [k e] Hp. apply list_elem_of_bind in Hp as ([k' es] & Hk & Hg).
  apply list_elem_of_fmap in Hk as (e' & [= -> ->] & _). cbn. rewrite bool_decide_false; [done|]. intros ->.
  apply Hs, list_elem_of_fmap. by exists (s, es).
Qed.

Lemma registered_app l l' want s : registered (l ++ l') want s = registered l want s || registered l' want s.
Proof. apply existsb_app. Qed.

Lemma registered_group gs want i s es : NoDup gs.*1 -> gs !! i = Some (s, es) ->
  registered (gs ≫= (fun '(k, es) => (fun e => (k, e)) <$> es)) want s = existsb (fun kind => has_kind kind es) want.
Proof.
  intros Hn Hi. apply list_elem_of_lookup_2 in Hi. apply list_elem_of_split in Hi as (g1 & g2 & ->).
  rewrite fmap_app in Hn. apply NoDup_app in Hn as (_ & Hd & Hn). cbn in Hd, Hn. apply NoDup_cons in Hn as [Hn _].
  rewrite bind_app, bind_cons, !registered_app.
  rewrite (registered_none g1), (registered_none g2); [|done|intros H; by apply (Hd s H); left].
  cbn [orb]. rewrite orb_false_r. apply eq_true_iff_eq. unfold registered, has_kind.
  rewrite !existsb_exists. split.
  - intros ([k e] & Hin & H). apply list_elem_of_In, list_elem_of_fmap in Hin as (e' & [= -> ->] & Hin). cbn in H.
    apply andb_true_iff in H as [_ H%bool_decide_eq_true]. exists (me_kind e'). split; [by apply list_elem_of_In|].
    apply existsb_exists. exists e'. split; [by apply list_elem_of_In|]. by apply bool_decide_eq_true.
  - intros (kind & Hk & H). apply existsb_exists in H as (e & He & Hke%bool_decide_eq_true). exists (s, e). split.
    + apply list_elem_of_In, list_elem_of_fmap. exists e. split; [done|]. by apply list_elem_of_In.
    + cbn. apply andb_true_iff. split; apply bool_decide_eq_true; [done|]. subst. by apply list_elem_of_In.
Qed.

Abbreviation subdomain_kinds := [mphKindDomain; mphKindParent].
Abbreviation exact_kinds := [mphKindFull; mphKindDomain].

(** What a lookup tells: whether the text was added to match its subdomains, and itself. *)
Lemma lookup_registered g0 g s : Build g0 = Some (Ok g) ->
  exists e, lookup g (mphHash (mg_mul g) s) s = Some e
    /\ negb (Z.land e (Z.lor mphDomain mphParent) =? 0) = registered (keyed g0) subdomain_kinds s
    /\ negb (Z.land e (Z.lor mphFull mphDomain) =? 0) = registered (keyed g0) exact_kinds s.
Proof.
  intros Hb. destruct (Build_built _ _ Hb) as [recs Hbu].
  destruct (lookup_spec _ _ _ s Hbu) as (e & He & Hcase). exists e. split; [done|].
  assert (Hperm : forall want, registered (keyed g0) want s
    = registered (groups (sorted_entries g0) ≫= (fun '(k, es) => (fun e => (k, e)) <$> es)) want s).
  { intros want. rewrite groups_concat. apply existsb_perm. symmetry. apply sorted_entries_perm. }
  rewrite !Hperm. destruct Hcase as [(i & es & Hi & Hr)|[Hs ->]].
  - rewrite !(registered_group _ _ _ _ _ (bu_distinct _ _ _ Hbu) Hi). cbn [existsb].
    destruct (Forall2_lookup_lr _ _ _ _ _ _ (bu_records _ _ _ Hbu) Hr Hi) as (off & H & Hw).
    destruct (written_key _ _ _ _ (bu_small _ _ _ Hbu) (ex_intro _ off (conj H Hw))) as (off' & _ & _ & Ho & ->).
    rewrite record_subdomains, record_exact by done. by rewrite !orb_false_r.
  - by rewrite !registered_none.
Qed.

(** ** The patterns *)

(** The keys and kinds a pattern becomes. *)
Definition pattern_keys (p : added) : list (bytestring * mphKind) :=
  let '(pattern, full, _) := p in
  let m := bytes (ToLower pattern) in
  (m, if (full : bool) then mphKindFull else mphKindDomain)
  :: match m with c :: q => if c =? dot then [(q, mphKindParent)] else [] | [] => [] end.

Definition key_kinds (l : list (bytestring * mphEntry)) : list (bytestring * mphKind) := (fun p => (p.1, me_kind p.2)) <$> l.

Definition entries_within (g : MphMatcherGroup) : Prop :=
  Forall (fun e => 0 <= me_off e /\ 0 <= me_n e /\ me_off e + me_n e <= size (mg_buf g)) (mg_entries g).

Lemma entry_key_app buf more e : 0 <= me_off e -> 0 <= me_n e -> me_off e + me_n e <= size buf ->
  entry_key (buf ++ more) e = entry_key buf e.
Proof.
  intros. unfold entry_key, size in *. rewrite drop_app_le by lia. rewrite take_app_le; [done|].
  rewrite length_drop. lia.
Qed.

Lemma add_spec pattern kind value g g' : add pattern kind value g = Some g' ->
  size (mg_buf g') < 2 ^ 32 -> entries_within g ->
  entries_within g' /\ size (mg_buf g) <= size (mg_buf g') /\
  key_kinds (keyed g') = key_kinds (keyed g) ++
    let m := bytes (ToLower pattern) in
    (m, kind) :: match m with c :: q => if c =? dot then [(q, mphKindParent)] else [] | [] => [] end.
Proof.
  unfold add. destruct (negb _); [done|]. intros H Hs Hw. injection H as <-.
  set (m := bytes (ToLower pattern)) in *. unfold keyed, key_kinds, entries_within. cbn [mg_buf mg_entries] in *.
  assert (Hsz : size (mg_buf g ++ m) = size (mg_buf g) + size m) by (unfold size; rewrite length_app; lia).
  assert (0 <= size (mg_buf g) /\ 0 <= size m) by (unfold size; lia).
  rewrite !(uwrap_id 32 (size _)) by lia.
  assert (Hnew : entry_key (mg_buf g ++ m) (mkMphEntry (size (mg_buf g)) value (size m) kind) = m).
  { unfold entry_key, size. cbn [me_off me_n]. rewrite !Nat2Z.id, drop_app_length. apply take_ge. lia. }
  split_and!; [|lia|].
  - apply Forall_app. split.
    { eapply Forall_impl; [exact Hw|]. cbn. lia. }
    constructor; [cbn; lia|]. destruct m as [|c q] eqn:Em; [constructor|]. destruct (c =? dot); [|constructor].
    assert (size (c :: q) = 1 + size q) by (unfold size; cbn [length]; lia). assert (0 <= size q) by (unfold size; lia).
    constructor; [|constructor]. cbn [me_off me_n]. rewrite !uwrap_id by lia. lia.
  - rewrite !fmap_app. f_equal.
    + rewrite <- !list_fmap_compose. apply list_fmap_ext. intros i e He. cbn.
      rewrite entry_key_app; [done|..]; apply (Forall_lookup_1 _ _ _ _ Hw He).
    + cbn [fmap list_fmap fst snd me_kind]. rewrite Hnew. f_equal. destruct m as [|c q] eqn:Em; [done|].
      destruct (c =? dot); [|done]. assert (size (c :: q) = 1 + size q) by (unfold size; cbn [length]; lia).
      assert (0 <= size q) by (unfold size; lia).
      cbn [fmap list_fmap fst snd me_kind]. unfold entry_key. cbn [me_off me_n]. rewrite !uwrap_id by lia.
      do 2 f_equal. unfold size. rewrite !Z2Nat.inj_add, Nat2Z.id by lia. rewrite <- drop_drop, drop_app_length.
      cbn [Z.to_nat drop]. apply take_ge. cbn [length]. lia.
Qed.

Lemma add_all_snoc ps pattern full value : add_all (ps ++ [(pattern, full, value)]) =
  g ← add_all ps; add pattern (if (full : bool) then mphKindFull else mphKindDomain) value g.
Proof. unfold add_all. rewrite foldl_app. cbn. destruct (foldl _ _ ps); [|done]. by destruct full. Qed.

Lemma add_all_spec ps : forall g, add_all ps = Some g -> size (mg_buf g) < 2 ^ 32 ->
  entries_within g /\ key_kinds (keyed g) = ps ≫= pattern_keys.
Proof.
  induction ps as [|[[pattern full] value] ps IH] using rev_ind; intros g.
  - intros [= <-] _. split; [constructor|done].
  - rewrite add_all_snoc. destruct (add_all ps) as [g1|]; [|done]. cbn [mbind option_bind]. intros Ha Hs.
    assert (Hs1 : size (mg_buf g1) < 2 ^ 32).
    { revert Ha Hs. unfold add. destruct (negb _); [done|]. intros [= <-]. cbn. unfold size. rewrite length_app. lia. }
    destruct (IH g1 eq_refl Hs1) as [Hw Hk]. destruct (add_spec _ _ _ _ _ Ha Hs Hw) as (Hw' & _ & ->).
    split; [done|]. rewrite Hk, bind_app, bind_cons. cbn [mbind list_bind]. by rewrite app_nil_r.
Qed.

Definition registered_kinds (l : list (bytestring * mphKind)) (want : list mphKind) (s : bytestring) : bool :=
  existsb (fun p => bool_decide (p.1 = s) && bool_decide (p.2 ∈ want)) l.

Lemma registered_key_kinds l want s : registered l want s = registered_kinds (key_kinds l) want s.
Proof. unfold registered, registered_kinds, key_kinds. induction l as [|p l IH]; [done|]. cbn. by rewrite IH. Qed.

(** ** The scan *)

(** Some parent domain of the text was added to match its subdomains. *)
Fixpoint has_parent (reg : bytestring -> bool) (input : bytestring) : bool :=
  match input with [] => false | c :: rest => has_parent reg rest || (c =? dot) && reg rest end.

Lemma has_parent_spec reg input : has_parent reg input = true <-> exists a q, input = a ++ dot :: q /\ reg q = true.
Proof.
  induction input as [|c rest IH]; cbn.
  - split; [done|]. intros ([] & q & H & _); done.
  - rewrite orb_true_iff, IH, andb_true_iff. split.
    + intros [(a & q & -> & H)|[->%Z.eqb_eq H]]; [by exists (c :: a), q|by exists [], rest].
    + intros ([|c' a] & q & [= -> ->] & H); [right; by rewrite Z.eqb_refl|left; by exists a, q].
Qed.

Lemma scan_parents_spec g0 g input : Build g0 = Some (Ok g) ->
  exists h, scan_parents g input = Some (h, has_parent (registered (keyed g0) subdomain_kinds) input)
    /\ (has_parent (registered (keyed g0) subdomain_kinds) input = false -> h = mphHash (mg_mul g) input).
Proof.
  intros Hb. induction input as [|c rest (h & E & Hh)]; [by exists 0|].
  cbn [scan_parents has_parent]. rewrite E. cbn [mbind option_bind].
  destruct (has_parent _ rest); [by exists h|]. rewrite (Hh eq_refl) in *. cbn [orb].
  destruct (c =? dot); cbn [andb].
  - destruct (lookup_registered g0 g rest Hb) as (e & -> & Hs & _). cbn [mbind option_bind]. rewrite Hs.
    destruct (registered _ _ rest); eexists; (split; [done|]); [done|]. intros _. done.
  - eexists. split; [done|]. done.
Qed.

Lemma MatchAny_registered g0 g input : Build g0 = Some (Ok g) ->
  MatchAny g input = Some (has_parent (registered (keyed g0) subdomain_kinds) input
                           || registered (keyed g0) exact_kinds input).
Proof.
  intros Hb. unfold MatchAny. destruct (scan_parents_spec g0 g input Hb) as (h & -> & Hh). cbn [mbind option_bind].
  destruct (has_parent _ input); [done|]. rewrite (Hh eq_refl).
  destruct (lookup_registered g0 g input Hb) as (e & -> & _ & He). cbn [mbind option_bind]. by rewrite He.
Qed.

(** ** The matchers *)

Lemma HasSuffix_spec s p : HasSuffix s p = true <-> exists a, s = a ++ p.
Proof.
  unfold HasSuffix. rewrite bool_decide_eq_true. split.
  - intros H. exists (take (length s - length p) s). rewrite <- H at 2. by rewrite take_drop.
  - intros [a ->]. rewrite length_app. replace (length a + length p - length p)%nat with (length a) by lia.
    apply drop_app_length.
Qed.

Lemma HasPrefix_dot m : HasPrefix m [dot] = match m with c :: _ => c =? dot | [] => false end.
Proof.
  unfold HasPrefix. destruct m as [|c m]; [done|]. cbn [length take]. rewrite firstn_O.
  destruct (Z.eqb_spec c dot) as [->|Hne]; [by rewrite bool_decide_true|]. rewrite bool_decide_false; [done|]. by intros [= ?].
Qed.

(** A domain pattern matches itself and its subdomains. *)
Lemma DomainMatcher_Match_spec m s : DomainMatcher_Match m s = true <-> s = m \/ exists a, s = a ++ dot :: m.
Proof.
  unfold DomainMatcher_Match. destruct (HasSuffix s m) eqn:E; cbn [negb].
  - apply HasSuffix_spec in E as [a ->]. assert (Hsz : size (a ++ m) - size m = size a) by (unfold size; rewrite length_app; lia).
    rewrite Hsz. destruct a as [|x a] using rev_ind.
    + cbn [app]. rewrite Z.eqb_refl. split; [by left|done].
    + replace (size ((a ++ [x]) ++ m) =? size m) with false by (unfold size; rewrite !length_app; cbn [length]; lia).
      replace (size (a ++ [x]) - 1) with (size a) by (unfold size; rewrite length_app; cbn [length]; lia).
      rewrite <- !app_assoc. cbn [app orb]. rewrite at_index_spec. split.
      * intros ->%Z.eqb_eq. right. by exists a.
      * intros [H|[b H]]; [apply (f_equal length) in H; rewrite length_app in H; cbn in H; lia|].
        change (x :: m) with ([x] ++ m) in H. change (dot :: m) with ([dot] ++ m) in H. rewrite !app_assoc in H.
        apply app_inv_tail in H. apply app_inj_tail in H as [_ ->]. apply Z.eqb_refl.
  - split; [done|]. intros H. exfalso. apply not_true_iff_false in E. apply E, HasSuffix_spec.
    destruct H as [->|[a ->]]; [by exists []|]. exists (a ++ [dot]). by rewrite <- app_assoc.
Qed.

Lemma has_parent_or f h input : has_parent (fun q => f q || h q) input = has_parent f input || has_parent h input.
Proof.
  induction input as [|c rest IH]; [done|]. cbn. rewrite IH.
  destruct (has_parent f rest), (has_parent h rest), (c =? dot), (f rest), (h rest); done.
Qed.

Lemma has_parent_ext f h input : (forall q, f q = h q) -> has_parent f input = has_parent h input.
Proof. intros H. induction input as [|c rest IH]; [done|]. cbn. by rewrite IH, H. Qed.

Lemma has_parent_false input : has_parent (fun _ => false) input = false.
Proof. induction input as [|c rest IH]; [done|]. cbn. by rewrite IH, andb_false_r. Qed.

(** One text below another, as the scan sees it. *)
Lemma has_parent_eq m input : has_parent (fun q => bool_decide (m = q)) input = HasSuffix input (dot :: m).
Proof.
  apply eq_true_iff_eq. rewrite has_parent_spec, HasSuffix_spec. split.
  - intros (a & q & -> & <-%bool_decide_eq_true). by exists a.
  - intros [a ->]. exists a, m. split; [done|]. by apply bool_decide_eq_true.
Qed.

Lemma DomainMatcher_Match_parent m input :
  DomainMatcher_Match m input = HasSuffix input (dot :: m) || bool_decide (m = input).
Proof.
  apply eq_true_iff_eq. rewrite DomainMatcher_Match_spec, orb_true_iff, HasSuffix_spec, bool_decide_eq_true. naive_solver.
Qed.

Lemma pattern_registered p input :
  has_parent (registered_kinds (pattern_keys p) subdomain_kinds) input || registered_kinds (pattern_keys p) exact_kinds input
  = pattern_matches input p.
Proof.
  destruct p as [[pattern full] value]. unfold pattern_matches, pattern_keys. set (m := bytes (ToLower pattern)).
  rewrite HasPrefix_dot. set (rest := match m with c :: q => if c =? dot then _ else _ | [] => _ end).
  assert (Hrest : has_parent (registered_kinds rest subdomain_kinds) input
      = match m with c :: _ => c =? dot | [] => false end && HasSuffix input m
    /\ registered_kinds rest exact_kinds input = false).
  { unfold rest. destruct m as [|c q]; [by rewrite has_parent_false|]. destruct (Z.eqb_spec c dot) as [->|]; [|by rewrite has_parent_false].
    split; [|cbn; by rewrite andb_false_r]. cbn [andb]. rewrite <- has_parent_eq. apply has_parent_ext.
    intros x. cbn. rewrite (bool_decide_true (mphKindParent ∈ _)) by set_solver. by rewrite andb_true_r, orb_false_r. }
  destruct Hrest as [Hp He]. unfold registered_kinds in *. cbn [existsb fst snd].
  rewrite has_parent_or, Hp, He, orb_false_r. destruct full.
  - rewrite (has_parent_ext _ (fun _ => false)), has_parent_false; [|intros q; rewrite (bool_decide_false (mphKindFull ∈ _)) by set_solver; by rewrite andb_false_r].
    rewrite (bool_decide_true (mphKindFull ∈ _)) by set_solver. rewrite andb_true_r. unfold FullMatcher_Match. cbn [orb].
    apply orb_comm.
  - rewrite (has_parent_ext _ (fun q => bool_decide (m = q))), has_parent_eq;
      [|intros q; rewrite (bool_decide_true (mphKindDomain ∈ _)) by set_solver; by rewrite andb_true_r].
    rewrite (bool_decide_true (mphKindDomain ∈ _)) by set_solver. rewrite andb_true_r, DomainMatcher_Match_parent.
    rewrite <- !orb_assoc. f_equal. apply orb_comm.
Qed.

Lemma patterns_registered ps input :
  has_parent (registered_kinds (ps ≫= pattern_keys) subdomain_kinds) input
    || registered_kinds (ps ≫= pattern_keys) exact_kinds input
  = existsb (pattern_matches input) ps.
Proof.
  induction ps as [|p ps IH]; [cbn; by rewrite has_parent_false|]. rewrite bind_cons. cbn [existsb].
  rewrite <- IH, <- pattern_registered. unfold registered_kinds. rewrite existsb_app.
  rewrite (has_parent_ext _ (fun q => registered_kinds (pattern_keys p) subdomain_kinds q
    || registered_kinds (ps ≫= pattern_keys) subdomain_kinds q)) by (intros q; apply existsb_app).
  rewrite has_parent_or. unfold registered_kinds.
  set (a := has_parent _ _). set (b := has_parent _ _). set (c := existsb _ _). set (d := existsb _ _).
  by destruct a, b, c, d.
Qed.

Lemma Build_size g0 g : Build g0 = Some (Ok g) -> size (mg_buf g0) < 2 ^ 32.
Proof. unfold Build. destruct (negb _); [done|]. destruct (Z.ltb_spec (2 ^ 32 - 1) (size (mg_buf g0))); [done|lia]. Qed.

Lemma MatchAny_added patterns g0 g input :
  add_all patterns = Some g0 -> Build g0 = Some (Ok g) ->
  MatchAny g (bytes input) = Some (existsb (pattern_matches (bytes input)) patterns).
Proof.
  intros Ha Hb. rewrite (MatchAny_registered _ _ _ Hb). f_equal.
  destruct (add_all_spec _ _ Ha (Build_size _ _ Hb)) as [_ Hk].
  rewrite registered_key_kinds, Hk, <- patterns_registered. f_equal.
  apply has_parent_ext. intros q. by rewrite registered_key_kinds, Hk.
Qed.

(** Adding before the group is built does not panic. *)
Lemma add_total pattern kind value g : mg_arena g = [] ->
  exists g', add pattern kind value g = Some g' /\ mg_arena g' = [].
Proof. intros H. unfold add. rewrite bool_decide_true by done. cbn [negb]. by eexists. Qed.

Lemma add_all_total patterns : exists g, add_all patterns = Some g /\ mg_arena g = [].
Proof.
  induction patterns as [|[[pattern full] value] patterns (g & E & H)] using rev_ind; [by exists NewMphMatcherGroup|].
  rewrite add_all_snoc, E. cbn [mbind option_bind]. by apply add_total.
Qed.

Lemma place_buckets_errors n1 recs hashes start members buckets : forall t e,
  place_buckets n1 recs hashes start members buckets t = Err e -> e = errMphCollision \/ e = NoSeed.
Proof.
  induction buckets as [|b buckets IH]; intros t e; [done|]. cbn [place_buckets].
  destruct (bucket_members _ _ _); [done|]. destruct (has_equal _); [intros [= <-]; by left|].
  destruct (find_seed _ _ _ _ _) as [[seed slots]|]; [apply IH|intros [= <-]; by right].
Qed.

Lemma try_multipliers_errors arena recs keys muls e :
  try_multipliers arena recs keys muls = Err e -> e = errMphCollision \/ e = NoSeed.
Proof.
  induction muls as [|mul muls IH]; cbn [try_multipliers]; [intros [= <-]; by left|].
  destruct (place recs _) as [t|e'] eqn:E; [done|]. unfold place in E.
  destruct (table_sizes _). cbv zeta in E. apply place_buckets_errors in E as [->| ->]; [done|]. intros [= <-]. by right.
Qed.

(** [Build] returns on every group that is not built yet, and fails for want of
    room, of a multiplier or of a seed. *)
Lemma Build_total g0 : mg_arena g0 = [] ->
  (exists g, Build g0 = Some (Ok g)) \/ exists e, Build g0 = Some (Err e) /\ e <> errMphBuilt.
Proof.
  intros H. unfold Build. rewrite bool_decide_true by done. cbn [negb].
  destruct (_ <? size (mg_buf g0)); [right; by eexists|].
  destruct (writeRecords g0) as [arena recs] eqn:Ew. destruct (Z.ltb_spec mphOffMask (size arena)) as [|Hs]; [right; by eexists|].
  destruct (writeRecords_spec _ _ _ Ew) as (Hw & _).
  assert (Hs' : size arena < 2 ^ 29) by (unfold mphOffMask, mphParent in Hs; lia).
  rewrite (keys_spec _ _ _ Hs' Hw). cbn [mbind option_bind].
  destruct (try_multipliers _ _ _ _) as [[mul t]|e] eqn:Et; cbn [result_bind].
  - left. destruct (table_sizes _). by eexists.
  - right. exists e. split; [done|]. by apply try_multipliers_errors in Et as [->| ->].
Qed.

(** C9. Whatever patterns are added, [Build] returns, and a built group answers
    exactly as its patterns one by one: [MatchAny] is the disjunction of the
    matchers that were added, for every text.  The answer is never [None]: the
    reads the code does not check stay inside the array and the tables, whatever
    is looked up.  [Build] fails only when the patterns do not fit, when they
    collide under every multiplier, or when no seed separates a bucket. *)
Theorem MatchAny_patterns patterns :
  exists g0, add_all patterns = Some g0 /\
  match Build g0 with
  | Some (Ok g) => forall input, MatchAny g (bytes input) = Some (existsb (pattern_matches (bytes input)) patterns)
  | Some (Err e) => e = errMphCollision \/ e = TooManyRules \/ e = NoSeed
  | None => False
  end.
Proof.
  destruct (add_all_total patterns) as (g0 & E & H). exists g0. split; [done|].
  destruct (Build_total g0 H) as [[g Hb]|(e & Hb & He)]; rewrite Hb.
  - intros input. by apply (MatchAny_added patterns g0 g).
  - destruct e; [by left|done|by right; left|by right; right].
Qed.

Definition mph_example : list added :=
  [("Example.org", false, 1); ("exact.example", true, 1); (".inner.test", true, 1); ("example.org", true, 1);
   ("mail.example.org", false, 1)].

Example mph_example_run : exists g0 g,
  add_all mph_example = Some g0 /\ Build g0 = Some (Ok g)
  /\ MatchAny g (bytes "a.example.org") = Some true /\ MatchAny g (bytes "a.exact.example") = Some false
  /\ MatchAny g (bytes "x.inner.test") = Some true /\ MatchAny g (bytes "anexample.org") = Some false.
Proof.
  eexists _, _. split; [vm_compute; reflexivity|]. split; [vm_compute; reflexivity|].
  repeat match goal with |- _ /\ _ => split end; vm_compute; reflexivity.
Qed.
