(* ===== verification/Settings.v ===== *)
(** * Application settings (settings.go)

    [AppSettings] with its defaults, validation, migration of the old health
    URL and the duration accessors.  [url.ParseRequestURI] is a parameter: the
    class [URLParser] gives the scheme and host of an accepted URL. *)

From Stdlib Require Import Ascii.
From S2P Require Import Prelude GoStrings.

#[local] Open Scope Z_scope.

Record AppSettings := mkAppSettings {
  AuthEnabled : bool;
  AuthSessionTTLHours : Z;
  FailoverOuterIntervalSec : Z;
  FailoverHealthIntervalSec : Z;
  FailoverHysteresis : Z;
  FailoverProbeTimeoutSec : Z;
  FailoverVPNSwapAfterFails : Z;
  FailoverStartBackoffSec : Z;
  FailoverHealthTimeoutSec : Z;
  OpenProbes : list string;
  WhitelistProbes : list string;
  SubscriptionRefreshHours : Z;
  SubscriptionFetchTimeoutSec : Z;
  SubscriptionFirstDelayMin : Z;
  SubscriptionPreferVPN : bool;
  WaitForWANSec : Z;
  PingTimeoutSec : Z;
  PingTestURL : string;
  PingMaxParallel : Z;
  PingStartupSleepMS : Z;
  PingSelectionMode : string;
  PingUseFreshCache : bool;
  PingCacheMaxAgeMin : Z;
  PingFailoverOrder : string;
  LogLevel : string;
  TLSClientProfile : string;
  ServiceLogLevel : string;
  BypassRouteRussia : bool;
  BypassDomains : list string
}.

#[export] Instance AppSettings_eta : Eta AppSettings := fun s =>
  mkAppSettings (AuthEnabled s) (AuthSessionTTLHours s) (FailoverOuterIntervalSec s)
    (FailoverHealthIntervalSec s) (FailoverHysteresis s) (FailoverProbeTimeoutSec s)
    (FailoverVPNSwapAfterFails s) (FailoverStartBackoffSec s) (FailoverHealthTimeoutSec s)
    (OpenProbes s) (WhitelistProbes s) (SubscriptionRefreshHours s)
    (SubscriptionFetchTimeoutSec s) (SubscriptionFirstDelayMin s) (SubscriptionPreferVPN s)
    (WaitForWANSec s) (PingTimeoutSec s) (PingTestURL s) (PingMaxParallel s)
    (PingStartupSleepMS s) (PingSelectionMode s) (PingUseFreshCache s)
    (PingCacheMaxAgeMin s) (PingFailoverOrder s) (LogLevel s) (TLSClientProfile s)
    (ServiceLogLevel s) (BypassRouteRussia s) (BypassDomains s).

Definition defaultPingTestURL : string := "http://www.gstatic.com/generate_204".

Definition defaultSettings : AppSettings := {|
  AuthEnabled := false;
  AuthSessionTTLHours := 24;
  FailoverOuterIntervalSec := 30;
  FailoverHealthIntervalSec := 10;
  FailoverHysteresis := 2;
  FailoverProbeTimeoutSec := 4;
  FailoverVPNSwapAfterFails := 2;
  FailoverStartBackoffSec := 300;
  FailoverHealthTimeoutSec := 6;
  OpenProbes := ["http://cp.cloudflare.com/generate_204";
                 "http://detectportal.firefox.com/success.txt";
                 "http://www.google.com/generate_204"];
  WhitelistProbes := ["http://ya.ru"; "http://mail.ru"; "http://vk.com"];
  SubscriptionRefreshHours := 1;
  SubscriptionFetchTimeoutSec := 15;
  SubscriptionFirstDelayMin := 10;
  SubscriptionPreferVPN := true;
  WaitForWANSec := 180;
  PingTimeoutSec := 30;
  PingTestURL := defaultPingTestURL;
  PingMaxParallel := 0;
  PingStartupSleepMS := 300;
  PingSelectionMode := "priority";
  PingUseFreshCache := false;
  PingCacheMaxAgeMin := 60;
  PingFailoverOrder := "active_first";
  LogLevel := "error";
  TLSClientProfile := "server";
  ServiceLogLevel := "info";
  BypassRouteRussia := true;
  BypassDomains := []
|}.

(** ** Migration of [failover_health_url]

    [next] is the settings value the plain JSON decoder produced from the
    document, [healthURL] and [testURL] the two members decoded on the side
    ([None] is a missing or null [ping_test_url]). *)
Definition UnmarshalJSON (next : option AppSettings)
    (old : option (string * option string)) : option AppSettings :=
  match next, old with
  | Some next, Some (healthURL, testURL) =>
      if negb (bool_decide (healthURL = "")) &&
         (bool_decide (testURL = None) || bool_decide (PingTestURL next = "") ||
          (bool_decide (PingTestURL next = defaultPingTestURL) &&
           negb (bool_decide (healthURL = "http://cp.cloudflare.com/generate_204"))))
      then Some (next <| PingTestURL := healthURL |>)
      else Some next
  | _, _ => None
  end.

(** ** Validation *)

Record URL := mkURL { url_Scheme : string; url_Host : string }.
Class URLParser := ParseRequestURI : string -> option URL.

Inductive settings_error :=
| InvalidTLSProfile (value : string)
| OutOfRange (name : string) (lo hi : Z)
| NegativeParallel
| InvalidHTTPURL (name value : string)
| NoProbeURL (name : string)
| TooManyProbeURLs (name : string)
| InvalidLogLevel (value : string)
| InvalidServiceLogLevel (value : string)
| InvalidSelectionMode (value : string)
| InvalidFailoverOrder (value : string)
| TooManyBypassDomains
| InvalidBypassDomain (domain : string).

Fixpoint oneOf (value : string) (allowed : list string) : bool :=
  match allowed with
  | [] => false
  | candidate :: rest => if bool_decide (value = candidate) then true else oneOf value rest
  end.

Record intRule := mkIntRule { rule_name : string; rule_value : Z; rule_min : Z; rule_max : Z }.

Definition intRules (s : AppSettings) : list intRule := [
  mkIntRule "auth_session_ttl_hours" (AuthSessionTTLHours s) 1 720;
  mkIntRule "failover_outer_interval_sec" (FailoverOuterIntervalSec s) 5 3600;
  mkIntRule "failover_health_interval_sec" (FailoverHealthIntervalSec s) 10 3600;
  mkIntRule "failover_hysteresis" (FailoverHysteresis s) 1 20;
  mkIntRule "failover_probe_timeout_sec" (FailoverProbeTimeoutSec s) 1 120;
  mkIntRule "failover_vpn_swap_after_fails" (FailoverVPNSwapAfterFails s) 1 100;
  mkIntRule "failover_start_backoff_sec" (FailoverStartBackoffSec s) 10 86400;
  mkIntRule "failover_health_timeout_sec" (FailoverHealthTimeoutSec s) 1 120;
  mkIntRule "subscription_refresh_hours" (SubscriptionRefreshHours s) 1 168;
  mkIntRule "subscription_fetch_timeout_sec" (SubscriptionFetchTimeoutSec s) 3 300;
  mkIntRule "subscription_first_delay_min" (SubscriptionFirstDelayMin s) 0 1440;
  mkIntRule "wait_for_wan_sec" (WaitForWANSec s) 10 1800;
  mkIntRule "ping_timeout_sec" (PingTimeoutSec s) 3 120;
  mkIntRule "ping_startup_sleep_ms" (PingStartupSleepMS s) 50 5000;
  mkIntRule "ping_cache_max_age_min" (PingCacheMaxAgeMin s) 1 1440 ].

Fixpoint checkRules (rules : list intRule) : option settings_error :=
  match rules with
  | [] => None
  | r :: rest =>
      if (rule_value r <? rule_min r) || (rule_value r >? rule_max r)
      then Some (OutOfRange (rule_name r) (rule_min r) (rule_max r))
      else checkRules rest
  end.

(** [strings.ContainsAny(domain, " /:@")]. *)
Definition containsForbidden (domain : string) : bool :=
  existsb (fun c => existsb (Ascii.eqb c) [" "; "/"; ":"; "@"]%char) (bytes_of domain).

Fixpoint checkBypassDomains (domains : list string) : option settings_error :=
  match domains with
  | [] => None
  | d :: rest =>
      let domain := TrimSpace d in
      if bool_decide (domain = "") || containsForbidden domain
      then Some (InvalidBypassDomain domain)
      else checkBypassDomains rest
  end.

(** Sequence of error checks: the first error wins. *)
Notation "c1 ;;? c2" := (match c1 with Some e => Some e | None => c2 end)
  (at level 100, right associativity) : vm_scope.
Definition guard (bad : bool) (e : settings_error) : option settings_error :=
  if bad then Some e else None.

Section validation.
Context `{URLParser}.

Definition validateHTTPURL (name value : string) : option settings_error :=
  match ParseRequestURI (TrimSpace value) with
  | None => Some (InvalidHTTPURL name value)
  | Some u =>
      if bool_decide (url_Host u = "") ||
         (negb (bool_decide (url_Scheme u = "http")) && negb (bool_decide (url_Scheme u = "https")))
      then Some (InvalidHTTPURL name value)
      else None
  end.

Fixpoint validateURLs (name : string) (values : list string) : option settings_error :=
  match values with
  | [] => None
  | v :: rest => validateHTTPURL name v ;;? validateURLs name rest
  end.

Definition validateProbeURLs (name : string) (values : list string) : option settings_error :=
  if bool_decide (values = []) then Some (NoProbeURL name)
  else if (20 <? Z.of_nat (length values)) then Some (TooManyProbeURLs name)
  else validateURLs name values.

Definition validate (s : AppSettings) : option settings_error :=
  guard (negb (oneOf (TLSClientProfile s) ["server"; "randomized-chacha20"]))
        (InvalidTLSProfile (TLSClientProfile s)) ;;?
  checkRules (intRules s) ;;?
  guard (PingMaxParallel s <? 0) NegativeParallel ;;?
  validateHTTPURL "ping_test_url" (PingTestURL s) ;;?
  validateProbeURLs "open_probes" (OpenProbes s) ;;?
  validateProbeURLs "whitelist_probes" (WhitelistProbes s) ;;?
  guard (negb (oneOf (LogLevel s) ["none"; "error"; "warn"; "info"; "debug"]))
        (InvalidLogLevel (LogLevel s)) ;;?
  guard (negb (oneOf (ServiceLogLevel s) ["error"; "warn"; "info"; "debug"; "trace"]))
        (InvalidServiceLogLevel (ServiceLogLevel s)) ;;?
  guard (negb (oneOf (PingSelectionMode s) ["priority"; "fastest"]))
        (InvalidSelectionMode (PingSelectionMode s)) ;;?
  guard (negb (oneOf (PingFailoverOrder s) ["active_first"; "priority"]))
        (InvalidFailoverOrder (PingFailoverOrder s)) ;;?
  guard (1000 <? Z.of_nat (length (BypassDomains s))) TooManyBypassDomains ;;?
  checkBypassDomains (BypassDomains s).

End validation.

(** ** Filling in defaults

    [fill proj bad v] is the statement
    [if bad(s.proj) { s.proj = v(s.proj); changed = true }]; [run_steps] runs
    a sequence of them. *)
Record fill_step := FillStep {
  step_bad : AppSettings -> bool;
  step_set : AppSettings -> AppSettings
}.

Definition fill {T} (proj : AppSettings -> T) `{!Setter proj} (bad : T -> bool) (v : T -> T)
  : fill_step :=
  FillStep (fun s => bad (proj s)) (fun s => s <| proj ::= v |>).

Fixpoint run_steps (steps : list fill_step) (s : AppSettings) (changed : bool)
  : AppSettings * bool :=
  match steps with
  | [] => (s, changed)
  | st :: rest =>
      if step_bad st s then run_steps rest (step_set st s) true
      else run_steps rest s changed
  end.

Definition nonpos (x : Z) : bool := x <=? 0.
Definition empty_string (x : string) : bool := bool_decide (x = "").
Definition empty_list (x : list string) : bool := bool_decide (x = []).

(** The three branches of the log level statement. *)
Definition bad_log_level (x : string) : bool :=
  empty_string x || (bool_decide (x = "panic") || bool_decide (x = "fatal"))
  || bool_decide (x = "trace").
Definition new_log_level (x : string) : string :=
  if empty_string x then LogLevel defaultSettings
  else if bool_decide (x = "panic") || bool_decide (x = "fatal") then "none"
  else "debug".

Definition fill_steps : list fill_step :=
  let d := defaultSettings in [
  fill AuthSessionTTLHours nonpos (fun _ => AuthSessionTTLHours d);
  fill FailoverOuterIntervalSec nonpos (fun _ => FailoverOuterIntervalSec d);
  fill FailoverHealthIntervalSec nonpos (fun _ => FailoverHealthIntervalSec d);
  fill FailoverHysteresis nonpos (fun _ => FailoverHysteresis d);
  fill FailoverProbeTimeoutSec nonpos (fun _ => FailoverProbeTimeoutSec d);
  fill FailoverVPNSwapAfterFails nonpos (fun _ => FailoverVPNSwapAfterFails d);
  fill FailoverStartBackoffSec nonpos (fun _ => FailoverStartBackoffSec d);
  fill FailoverHealthTimeoutSec nonpos (fun _ => FailoverHealthTimeoutSec d);
  fill OpenProbes empty_list (fun _ => OpenProbes d);
  fill WhitelistProbes empty_list (fun _ => WhitelistProbes d);
  fill SubscriptionRefreshHours nonpos (fun _ => SubscriptionRefreshHours d);
  fill SubscriptionFetchTimeoutSec nonpos (fun _ => SubscriptionFetchTimeoutSec d);
  fill SubscriptionFirstDelayMin (fun x => x <? 0) (fun _ => SubscriptionFirstDelayMin d);
  fill WaitForWANSec nonpos (fun _ => WaitForWANSec d);
  fill PingTimeoutSec nonpos (fun _ => PingTimeoutSec d);
  fill PingTestURL empty_string (fun _ => PingTestURL d);
  fill PingStartupSleepMS nonpos (fun _ => PingStartupSleepMS d);
  fill PingSelectionMode empty_string (fun _ => PingSelectionMode d);
  fill TLSClientProfile empty_string (fun _ => TLSClientProfile d);
  fill PingUseFreshCache (fun x => x) (fun _ => false);
  fill PingCacheMaxAgeMin nonpos (fun _ => PingCacheMaxAgeMin d);
  fill PingFailoverOrder empty_string (fun _ => PingFailoverOrder d);
  fill LogLevel bad_log_level new_log_level;
  fill ServiceLogLevel empty_string (fun _ => ServiceLogLevel d)
  ].

Definition fillDefaults (s : AppSettings) : AppSettings * bool := run_steps fill_steps s false.

(** ** Accessors: an [int] converted to [time.Duration] and multiplied, in int64 *)

Definition mul_duration (n unit : Z) : Duration := swrap 64 (n * unit).

Definition OuterInterval (s : AppSettings) := mul_duration (FailoverOuterIntervalSec s) Second.
Definition HealthInterval (s : AppSettings) := mul_duration (FailoverHealthIntervalSec s) Second.
Definition ProbeTimeout (s : AppSettings) := mul_duration (FailoverProbeTimeoutSec s) Second.
Definition StartBackoff (s : AppSettings) := mul_duration (FailoverStartBackoffSec s) Second.
Definition HealthTimeout (s : AppSettings) := mul_duration (FailoverHealthTimeoutSec s) Second.
Definition WaitForWANTimeout (s : AppSettings) := mul_duration (WaitForWANSec s) Second.
Definition PingTimeout (s : AppSettings) := mul_duration (PingTimeoutSec s) Second.
Definition SubscriptionRefreshInterval (s : AppSettings) :=
  mul_duration (SubscriptionRefreshHours s) Hour.
Definition SubscriptionFetchTimeout (s : AppSettings) :=
  mul_duration (SubscriptionFetchTimeoutSec s) Second.
Definition PingStartupSleep (s : AppSettings) := mul_duration (PingStartupSleepMS s) Millisecond.
Definition PingCacheMaxAge (s : AppSettings) := mul_duration (PingCacheMaxAgeMin s) Minute.

(** ** Lemmas *)

Lemma guard_None b e : guard b e = None <-> b = false.
Proof. by destruct b. Qed.

Lemma then_None (c1 c2 : option settings_error) :
  (c1 ;;? c2) = None <-> c1 = None /\ c2 = None.
Proof. destruct c1; split; [done|by intros []|done|by intros []]. Qed.

Lemma checkRules_None rules :
  checkRules rules = None <-> Forall (fun r => rule_min r <= rule_value r <= rule_max r) rules.
Proof.
  induction rules as [|r rules IH]; simpl; [by split|].
  rewrite Forall_cons. case_match; [split; [done|lia]|].
  rewrite IH. intuition lia.
Qed.

(** *** Sequences of fill statements

    In a separated sequence a statement leaves its own field good and later
    statements do not touch the fields of earlier ones. *)
Inductive separated : list fill_step -> Prop :=
| separated_nil : separated []
| separated_cons st rest :
    (forall s, step_bad st s = true -> step_bad st (step_set st s) = false) ->
    Forall (fun st' => forall s, step_bad st (step_set st' s) = step_bad st s) rest ->
    separated rest ->
    separated (st :: rest).

Lemma run_steps_skip st rest s c :
  step_bad st s = false -> run_steps (st :: rest) s c = run_steps rest s c.
Proof. simpl. by intros ->. Qed.

Lemma run_steps_take st rest s c :
  step_bad st s = true -> run_steps (st :: rest) s c = run_steps rest (step_set st s) true.
Proof. simpl. by intros ->. Qed.

Lemma run_steps_keeps st steps s c :
  Forall (fun st' => forall s, step_bad st (step_set st' s) = step_bad st s) steps ->
  step_bad st (run_steps steps s c).1 = step_bad st s.
Proof.
  intros H. revert s c. induction H as [|st' steps Hst' _ IH]; intros s c; simpl; [done|].
  case_match; rewrite IH; auto.
Qed.

Lemma run_steps_good steps s c :
  separated steps -> Forall (fun st => step_bad st (run_steps steps s c).1 = false) steps.
Proof.
  intros H. revert s c. induction H as [|st rest Hst Hrest Hsep IH]; intros s c; simpl; [done|].
  destruct (step_bad st s) eqn:E; constructor; auto; rewrite run_steps_keeps; auto.
Qed.

Lemma run_steps_id steps s c :
  Forall (fun st => step_bad st s = false) steps -> run_steps steps s c = (s, c).
Proof.
  induction 1 as [|st rest Hst _ IH]; simpl; [done|]. by rewrite Hst.
Qed.

Lemma run_steps_flag steps s c :
  (run_steps steps s c).2 = true -> c = true \/ Exists (fun st => step_bad st s = true) steps.
Proof.
  revert c. induction steps as [|st rest IH]; intros c; simpl; [auto|].
  destruct (step_bad st s) eqn:E; [right; by constructor|].
  intros [?|?]%IH; [by left|right; by constructor].
Qed.

Lemma run_steps_unflagged steps s :
  (run_steps steps s false).2 = false -> (run_steps steps s false).1 = s.
Proof.
  assert (Htrue : forall l s, (run_steps l s true).2 = true).
  { induction l as [|st rest IH]; intros s'; simpl; [done|]. by case_match. }
  induction steps as [|st rest IH]; simpl; [done|].
  case_match; [by rewrite Htrue|done].
Qed.

Lemma fill_steps_separated : separated fill_steps.
Proof.
  unfold fill_steps.
  repeat match goal with
  | |- separated (_ :: _) => constructor
  | |- separated [] => constructor
  | |- Forall _ _ => repeat (constructor; [intros; reflexivity|]); constructor
  end; simpl; intros s Hs; try reflexivity.
  unfold bad_log_level, new_log_level, empty_string. repeat case_match; reflexivity.
Qed.

Lemma oneOf_spec v l : oneOf v l = true <-> v ∈ l.
Proof.
  induction l as [|x l IH]; simpl; [split; [done|by intros ?%not_elem_of_nil]|].
  rewrite elem_of_cons. case_bool_decide; naive_solver.
Qed.

(** What [validate] establishes, used by the settings properties below. *)
Lemma validate_rules `{URLParser} s :
  validate s = None ->
  Forall (fun r => rule_min r <= rule_value r <= rule_max r) (intRules s).
Proof. unfold validate. rewrite !then_None, checkRules_None. by intros (_ & ? & _). Qed.

Lemma mul_duration_exact n unit hi :
  0 <= n <= hi -> 0 < unit -> hi * unit <= int64_max ->
  mul_duration n unit = n * unit /\ 0 <= n * unit <= int64_max.
Proof.
  intros Hn Hu Hhi. assert (0 <= n * unit <= hi * unit) by nia.
  split; [|lia]. unfold mul_duration. apply swrap_id; [lia|].
  unfold int64_max in *. change (64 - 1) with 63. lia.
Qed.

(** The documented rejection of an empty request URI. *)
Definition rejects_empty (parse : URLParser) : Prop := parse "" = None.

Lemma oneOf_nonempty v l : oneOf v l = true -> oneOf "" l = false -> empty_string v = false.
Proof. intros H1 H2. apply bool_decide_eq_false. intros ->. congruence. Qed.

Lemma validateProbeURLs_nonempty `{URLParser} name l :
  validateProbeURLs name l = None -> empty_list l = false.
Proof. intros H1. apply bool_decide_eq_false. intros ->. done. Qed.

Lemma validateHTTPURL_nonempty `{URLParser} name v :
  rejects_empty ParseRequestURI -> validateHTTPURL name v = None -> empty_string v = false.
Proof.
  intros Hempty H1. apply bool_decide_eq_false. intros ->.
  unfold validateHTTPURL in H1. change (TrimSpace "") with "" in H1. by rewrite Hempty in H1.
Qed.

Lemma valid_log_level v :
  oneOf v ["none"; "error"; "warn"; "info"; "debug"] = true -> bad_log_level v = false.
Proof.
  simpl. intros H. repeat (case_bool_decide; [by subst|]). done.
Qed.

Lemma valid_fill_steps `{URLParser} s :
  rejects_empty ParseRequestURI -> validate s = None -> PingUseFreshCache s = false ->
  Forall (fun st => step_bad st s = false) fill_steps.
Proof.
  intros Hempty Hv Hcache. pose proof (validate_rules s Hv) as Hrules.
  unfold validate in Hv. rewrite !then_None, !guard_None, !negb_false_iff in Hv.
  destruct Hv as (Htls & _ & _ & Hurl & Hopen & Hwh & Hlog & Hslog & Hmode & Hord & _).
  unfold intRules in Hrules.
  repeat (let H := fresh "Hr" in apply Forall_cons in Hrules as [H Hrules]; simpl in H).
  unfold fill_steps. repeat (apply Forall_cons_2; [cbn [step_bad fill]; unfold nonpos|]);
    lazymatch goal with
    | |- (?x <=? 0) = false => apply Z.leb_gt; lia
    | |- (?x <? 0) = false => apply Z.ltb_ge; lia
    | |- bad_log_level _ = false => by apply valid_log_level
    | |- empty_list _ = false => by eapply validateProbeURLs_nonempty
    | |- empty_string _ = false =>
        first [ by eapply oneOf_nonempty | by eapply validateHTTPURL_nonempty ]
    | |- _ => done
    end.
Qed.

Lemma fillDefaults_fixed s : fillDefaults (fillDefaults s).1 = ((fillDefaults s).1, false).
Proof. apply run_steps_id, run_steps_good, fill_steps_separated. Qed.

(** ** Properties *)

(** [fillDefaults] is idempotent, and its result flag says exactly whether
    it changed the settings. *)
Theorem fillDefaults_idempotent s :
  fillDefaults (fillDefaults s).1 = ((fillDefaults s).1, false) /\
  ((fillDefaults s).2 = true <-> (fillDefaults s).1 <> s).
Proof.
  pose proof (run_steps_good fill_steps s false fill_steps_separated) as Hgood.
  split; [apply fillDefaults_fixed|]. unfold fillDefaults. split.
  - intros [|Hex]%run_steps_flag Heq; [done|]. rewrite Heq in Hgood.
    apply Exists_exists in Hex as (st & Hin & Hbad).
    rewrite Forall_forall in Hgood. rewrite Hgood in Hbad by done. done.
  - intros Hne. destruct (run_steps fill_steps s false).2 eqn:E; [done|].
    by apply run_steps_unflagged in E.
Qed.

(** A validated configuration never overflows an int64 duration: every
    accessor is the exact product and, the refresh delay apart, positive. *)
Theorem validated_durations_exact `{URLParser} s :
  validate s = None ->
  OuterInterval s = FailoverOuterIntervalSec s * Second /\ 5 * Second <= OuterInterval s /\
  HealthInterval s = FailoverHealthIntervalSec s * Second /\ 10 * Second <= HealthInterval s /\
  ProbeTimeout s = FailoverProbeTimeoutSec s * Second /\ Second <= ProbeTimeout s /\
  StartBackoff s = FailoverStartBackoffSec s * Second /\ 10 * Second <= StartBackoff s /\
  HealthTimeout s = FailoverHealthTimeoutSec s * Second /\ Second <= HealthTimeout s /\
  WaitForWANTimeout s = WaitForWANSec s * Second /\ 10 * Second <= WaitForWANTimeout s /\
  PingTimeout s = PingTimeoutSec s * Second /\ 3 * Second <= PingTimeout s /\
  SubscriptionRefreshInterval s = SubscriptionRefreshHours s * Hour /\
    Hour <= SubscriptionRefreshInterval s /\
  SubscriptionFetchTimeout s = SubscriptionFetchTimeoutSec s * Second /\
    3 * Second <= SubscriptionFetchTimeout s /\
  PingStartupSleep s = PingStartupSleepMS s * Millisecond /\
    50 * Millisecond <= PingStartupSleep s /\
  PingCacheMaxAge s = PingCacheMaxAgeMin s * Minute /\ Minute <= PingCacheMaxAge s.
Proof.
  intros Hv. pose proof (validate_rules s Hv) as Hrules. clear Hv. unfold intRules in Hrules.
  repeat (let H := fresh "Hr" in apply Forall_cons in Hrules as [H Hrules]; simpl in H).
  unfold OuterInterval, HealthInterval, ProbeTimeout, StartBackoff, HealthTimeout,
    WaitForWANTimeout, PingTimeout, SubscriptionRefreshInterval, SubscriptionFetchTimeout,
    PingStartupSleep, PingCacheMaxAge.
  repeat match goal with
  | |- context [mul_duration ?n ?unit] =>
      rewrite (proj1 (mul_duration_exact n unit 86400 ltac:(lia) ltac:(done) ltac:(done)))
  end.
  unfold Second, Hour, Minute, Millisecond, Second. lia.
Qed.

(** Filling defaults into settings that are already valid resets the
    ping cache switch and nothing else, so they stay valid. *)
Theorem fillDefaults_keeps_valid `{URLParser} s :
  rejects_empty ParseRequestURI -> validate s = None ->
  (fillDefaults s).1 = s <| PingUseFreshCache := false |> /\
  validate (fillDefaults s).1 = None.
Proof.
  intros Hempty Hv.
  assert (Heq : (fillDefaults s).1 = s <| PingUseFreshCache := false |>); [|by rewrite Heq].
  destruct (PingUseFreshCache s) eqn:Hc.
  - assert (Hgood : Forall (fun st => step_bad st (s <| PingUseFreshCache := false |>) = false)
                     fill_steps) by (by apply valid_fill_steps).
    unfold fillDefaults, fill_steps in *.
    repeat first
      [ apply Forall_cons in Hgood as [Hg Hgood]; rewrite run_steps_skip by exact Hg; clear Hg
      | apply Forall_cons in Hgood as [Hg Hgood]; rewrite run_steps_take by exact Hc; clear Hg ].
    done.
  - unfold fillDefaults. rewrite run_steps_id by (by apply valid_fill_steps).
    destruct s; simpl in *. by subst.
Qed.

(** The zero value [handleConfig] starts from. *)
Definition zeroSettings : AppSettings :=
  mkAppSettings false 0 0 0 0 0 0 0 0 [] [] 0 0 0 false 0 0 "" 0 0 "" false 0 "" "" "" "" false [].

(** The parser accepts the built-in URLs as http URLs with a host. *)
Definition accepts_defaults (parse : URLParser) : Prop :=
  Forall (fun u => exists host, host <> "" /\ parse u = Some (mkURL "http" host))
    (defaultPingTestURL :: OpenProbes defaultSettings ++ WhitelistProbes defaultSettings).

(** Both the built-in defaults and an all-zero document that had its
    defaults filled in pass validation. *)
Theorem defaults_validate `{URLParser} :
  accepts_defaults ParseRequestURI ->
  validate defaultSettings = None /\ validate (fillDefaults zeroSettings).1 = None.
Proof.
  intros Hacc.
  assert (Hurl : forall name u, u ∈ (defaultPingTestURL :: OpenProbes defaultSettings
            ++ WhitelistProbes defaultSettings) ->
            TrimSpace u = u -> validateHTTPURL name u = None).
  { intros name u Hin Htrim. unfold accepts_defaults in Hacc. rewrite Forall_forall in Hacc.
    destruct (Hacc u Hin) as (host & Hhost & Hp). unfold validateHTTPURL. rewrite Htrim, Hp.
    simpl. by rewrite bool_decide_eq_false_2. }
  assert (Hv : forall s, PingTestURL s = defaultPingTestURL ->
     OpenProbes s = OpenProbes defaultSettings ->
     WhitelistProbes s = WhitelistProbes defaultSettings ->
     validateHTTPURL "ping_test_url" (PingTestURL s) = None /\
     validateProbeURLs "open_probes" (OpenProbes s) = None /\
     validateProbeURLs "whitelist_probes" (WhitelistProbes s) = None).
  { intros s -> -> ->. unfold validateProbeURLs.
    rewrite !bool_decide_eq_false_2 by done. cbn -[validateHTTPURL defaultPingTestURL TrimSpace].
    rewrite !Hurl; try done; try (vm_compute; reflexivity); set_solver. }
  split.
  - destruct (Hv defaultSettings) as (H1 & H2 & H3); try done.
    unfold validate. by rewrite H1, H2, H3.
  - destruct (Hv (fillDefaults zeroSettings).1) as (H1 & H2 & H3); try done.
    unfold validate. by rewrite H1, H2, H3.
Qed.

(** A custom health URL of an old document becomes the shared test URL when
    the document has no test URL of its own or only the built-in one; a custom
    test URL always wins, and an old document without a health URL is unchanged. *)
Theorem UnmarshalJSON_migration next healthURL testURL :
  let out := UnmarshalJSON (Some next) (Some (healthURL, testURL)) in
  (healthURL = "" -> out = Some next) /\
  (testURL = None -> healthURL <> "" -> out = Some (next <| PingTestURL := healthURL |>)) /\
  (testURL = Some defaultPingTestURL -> PingTestURL next = defaultPingTestURL ->
   healthURL <> "" -> healthURL <> "http://cp.cloudflare.com/generate_204" ->
   out = Some (next <| PingTestURL := healthURL |>)) /\
  (testURL = Some (PingTestURL next) -> PingTestURL next <> "" ->
   PingTestURL next <> defaultPingTestURL -> out = Some next).
Proof.
  unfold UnmarshalJSON. split; [by intros ->|]. split; [|split].
  - intros -> Hne. by rewrite bool_decide_eq_false_2.
  - intros -> Heq Hne Hcf. rewrite Heq.
    rewrite (bool_decide_eq_false_2 (healthURL = "")), (bool_decide_eq_false_2 (healthURL = _)) by done.
    done.
  - intros -> Hne Hnd.
    rewrite (bool_decide_eq_false_2 (Some _ = None)), (bool_decide_eq_false_2 (PingTestURL next = "")),
      (bool_decide_eq_false_2 (PingTestURL next = defaultPingTestURL)) by done.
    by rewrite andb_false_r.
Qed.

(** ** Witnesses *)

(** A parser that accepts plain [http://] URLs, for the witnesses. *)
Definition plain_http_parser : URLParser := fun s =>
  if HasPrefix s "http://" then Some (mkURL "http" (string_drop 7 s)) else None.

Lemma validated_durations_exact_witness :
  @validate plain_http_parser defaultSettings = None /\
  OuterInterval defaultSettings = 30000000000.
Proof.
  assert (Hv : @validate plain_http_parser defaultSettings = None) by (vm_compute; reflexivity).
  split; [exact Hv|].
  exact (proj1 (@validated_durations_exact plain_http_parser defaultSettings Hv)).
Defined.

Definition cached_defaults : AppSettings := defaultSettings <| PingUseFreshCache := true |>.

Lemma fillDefaults_keeps_valid_witness :
  (fillDefaults cached_defaults).1 = defaultSettings.
Proof.
  exact (proj1 (@fillDefaults_keeps_valid plain_http_parser cached_defaults eq_refl
    ltac:(vm_compute; reflexivity))).
Defined.

Lemma defaults_validate_witness : @validate plain_http_parser defaultSettings = None.
Proof.
  refine (proj1 (@defaults_validate plain_http_parser _)).
  repeat (constructor; [eexists; split; [|vm_compute; reflexivity]; done|]). constructor.
Defined.

Lemma UnmarshalJSON_migration_witness :
  UnmarshalJSON (Some zeroSettings) (Some ("http://probe.example/", None))
  = Some (zeroSettings <| PingTestURL := "http://probe.example/" |>).
Proof.
  refine (proj1 (proj2 (UnmarshalJSON_migration zeroSettings "http://probe.example/" None)) eq_refl _).
  discriminate.
Defined.
