(* ===== verification/Servers.v ===== *)
(** * Server profiles: [config.go] (type [VLESSServer]), [vless.go], and the
      helpers of [ping.go], [xray.go], [api.go] and [subscriptions.go] on one
      profile

    A catalog entry is a leaf, one VLESS endpoint, or a logical profile whose
    [sv_Members] are leaves.  Byte slices and maps whose [nil] and empty forms
    are written the same way ([omitempty]) are modelled by their contents.

    Parameters: [JSONCodec] is [encoding/json] on the raw messages of a share
    link, [URLCodec] is [net/url], and [ServerDigest] is [json.Marshal] of a
    profile with the hexadecimal text of the first eight bytes of SHA-256. *)

From Stdlib Require Import Ascii.
From S2P Require Import Prelude GoStrings.

Inductive VLESSServer : Type := mkVLESSServer {
  sv_ID : string;
  sv_Name : string;
  sv_Manual : bool;
  sv_Address : string;
  sv_Port : Z;
  sv_UUID : string;
  sv_Flow : string;
  sv_PacketEncoding : string;
  sv_Security : string;
  sv_SNI : string;
  sv_Fingerprint : string;
  sv_PublicKey : string;
  sv_ShortID : string;
  sv_SpiderX : string;
  sv_Network : string;
  sv_Path : string;
  sv_Host : string;
  sv_Mode : string;
  sv_XPadding : string;
  sv_ALPN : string;
  sv_NoSSEHeader : bool;
  sv_NoGRPCHeader : bool;
  sv_SessionPlacement : string;
  sv_SessionKey : string;
  sv_SeqPlacement : string;
  sv_SeqKey : string;
  sv_UplinkHTTPMethod : string;
  sv_UplinkDataPlacement : string;
  sv_UplinkDataKey : string;
  sv_XPaddingObfsMode : bool;
  sv_XPaddingKey : string;
  sv_XPaddingHeader : string;
  sv_XPaddingPlacement : string;
  sv_XPaddingMethod : string;
  sv_Xmux : string;
  sv_XHTTPHeaders : gmap string string;
  sv_ScMaxBufferedPosts : Z;
  sv_DownloadSettings : string;
  sv_Extra : string;
  sv_Members : list VLESSServer
}.

#[export] Instance VLESSServer_eta : Eta VLESSServer := fun s =>
  mkVLESSServer (sv_ID s) (sv_Name s) (sv_Manual s) (sv_Address s) (sv_Port s) (sv_UUID s)
    (sv_Flow s) (sv_PacketEncoding s) (sv_Security s) (sv_SNI s) (sv_Fingerprint s)
    (sv_PublicKey s) (sv_ShortID s) (sv_SpiderX s) (sv_Network s) (sv_Path s) (sv_Host s)
    (sv_Mode s) (sv_XPadding s) (sv_ALPN s) (sv_NoSSEHeader s) (sv_NoGRPCHeader s)
    (sv_SessionPlacement s) (sv_SessionKey s) (sv_SeqPlacement s) (sv_SeqKey s)
    (sv_UplinkHTTPMethod s) (sv_UplinkDataPlacement s) (sv_UplinkDataKey s)
    (sv_XPaddingObfsMode s) (sv_XPaddingKey s) (sv_XPaddingHeader s) (sv_XPaddingPlacement s)
    (sv_XPaddingMethod s) (sv_Xmux s) (sv_XHTTPHeaders s) (sv_ScMaxBufferedPosts s)
    (sv_DownloadSettings s) (sv_Extra s) (sv_Members s).

(** The zero value of the struct. *)
Definition emptyServer : VLESSServer :=
  mkVLESSServer "" "" false "" 0 "" "" "" "" "" "" "" "" "" "" "" "" "" "" ""
    false false "" "" "" "" "" "" "" false "" "" "" "" "" ∅ 0 "" "" [].

(** ** Parameters *)

Class JSONCodec := {
  json_object : string -> option (gmap string string);
  json_string : string -> option string;
  json_bool : string -> option bool;
  json_int64 : string -> option Z;
  json_string_map : string -> option (gmap string string);
  json_print_object : gmap string string -> option string;
  map_range : gmap string string -> list (string * string)
}.

(** A Go [range] over a map visits every entry once, in some order. *)
Class MapRangeLaws (J : JSONCodec) : Prop :=
  map_range_entries : forall m, map_range m ≡ₚ map_to_list m.

Record ParsedURL := mkParsedURL {
  pu_User : string;
  pu_Hostname : string;
  pu_Port : string;
  pu_Host : string;
  pu_Path : string;
  pu_Fragment : string;
  pu_Query : string -> string
}.

Class URLCodec := {
  url_Parse : string -> option ParsedURL;
  QueryUnescape : string -> option string
}.

Class ServerDigest := {
  server_json : VLESSServer -> string;
  sha256_hex8 : string -> string
}.

(** ** Names and identifiers *)

Definition firstNonEmpty (values : list string) : string :=
  default "" (list_find (fun v => v <> "") values ≫= fun p => Some p.2).

Definition normalizeVLESSNetwork (network : string) : string :=
  let n := ToLower (TrimSpace network) in
  if bool_decide (n ∈ [""; "tcp"; "raw"]) then "tcp"
  else if bool_decide (n = "websocket") then "ws"
  else if bool_decide (n ∈ ["http-upgrade"; "http_upgrade"]) then "httpupgrade"
  else if bool_decide (n = "splithttp") then "xhttp"
  else n.

Definition serverFingerprint `{ServerDigest} (srv : VLESSServer) : string :=
  let srv := srv <| sv_ID := "" |> in
  let srv := match sv_Members srv with [] => srv <| sv_Name := "" |> | _ => srv end in
  let srv := srv <| sv_Network ::= normalizeVLESSNetwork |> in
  sha256_hex8 (server_json srv).

Definition supportedNetworks : list string :=
  [""; "tcp"; "ws"; "grpc"; "httpupgrade"; "xhttp"].

Fixpoint isSupportedServer (srv : VLESSServer) : bool :=
  match sv_Members srv with
  | [] =>
      bool_decide (normalizeVLESSNetwork (sv_Network srv) ∈ supportedNetworks) &&
      (bool_decide (sv_PacketEncoding srv = "") || bool_decide (sv_PacketEncoding srv = "xudp"))
  | members => forallb isSupportedServer members
  end.

Definition describeProtocol (srv : VLESSServer) : string :=
  match sv_Members srv with
  | [] =>
      let sec := sv_Security srv in
      let sec := if bool_decide (sec = "") || bool_decide (sec = "none") then "plain" else sec in
      let sec := if bool_decide (sec = "reality") then "Reality"
                 else if bool_decide (sec = "tls") then "TLS" else sec in
      "VLESS " +:+ sec +:+ " (" +:+ normalizeVLESSNetwork (sv_Network srv) +:+ ")"
  | members => "VLESS auto (" +:+ pretty (length members) +:+ " узлов)"
  end.

Definition sameCatalogServer (active candidate : VLESSServer) : bool :=
  if negb (bool_decide (sv_ID active = "")) && bool_decide (sv_ID active = sv_ID candidate)
  then true
  else negb (bool_decide (sv_Name active = "")) &&
       bool_decide (sv_Name active = sv_Name candidate) &&
       bool_decide (sv_Address active = sv_Address candidate) &&
       bool_decide (sv_Port active = sv_Port candidate).

Definition isPlaceholderServer (srv : VLESSServer) : bool :=
  bool_decide (sv_Address srv = "0.0.0.0") ||
  bool_decide (sv_Address srv = "localhost") ||
  bool_decide (sv_Address srv = "127.0.0.1") ||
  bool_decide (sv_Port srv <= 1)%Z ||
  bool_decide (sv_UUID srv = "00000000-0000-0000-0000-000000000000") ||
  Contains (ToLower (sv_Name srv)) "не поддерживается".

Fixpoint serverWithTLSProfile (server : VLESSServer) (profile : string) : VLESSServer :=
  if bool_decide (profile = "randomized-chacha20") then
    let out :=
      if bool_decide (sv_Security server = "tls") || bool_decide (sv_Security server = "reality")
      then server <| sv_Fingerprint := profile |> else server in
    out <| sv_Members := map (fun m => serverWithTLSProfile m profile) (sv_Members server) |>
  else server.

Definition splitCSV (value : string) : list string :=
  filter (fun part => part <> "") (TrimSpace <$> Split value char_comma).

Fixpoint camel_go (prev : option ascii) (ts : list (list ascii)) : list ascii :=
  match ts with
  | [] => []
  | t :: ts =>
      let next := camel_go (match last t with Some a => Some a | None => prev end) ts in
      match t with
      | [r] =>
          if between 65 90 r then
            match prev with
            | Some p => if between 65 90 p then [] else ["_"%char]
            | None => []
            end ++ shift 32 r :: next
          else (if isASCII r then [r] else replacement_char) ++ next
      | _ => t ++ next
      end
  end.

Definition camelToSnake (s : string) : string := string_of (camel_go None (tokens (bytes_of s))).

Definition normalizeRawObjectKeys `{JSONCodec} (raw : string) : string :=
  match json_object raw with
  | None => raw
  | Some obj =>
      if bool_decide (obj = ∅) then raw
      else
        let normalized :=
          foldl (fun acc '(key, value) => <[camelToSnake key := value]> acc) ∅ (map_range obj) in
        default raw (json_print_object normalized)
  end.

(** ** The [extra] member of an XHTTP share link *)

Section ApplyXHTTPExtra.
Context `{JSONCodec} (extra : gmap string string).

Definition pickString (keys : list string) : string :=
  firstNonEmpty ((fun k => default "" (extra !! k ≫= json_string)) <$> keys).

Definition pickFirst {A} (decode : string -> option A) (keys : list string) : option A :=
  foldr (fun k rest => match extra !! k ≫= decode with Some b => Some b | None => rest end)
    None keys.
Definition pickBool : list string -> option bool := pickFirst json_bool.
Definition pickInt : list string -> option Z := pickFirst json_int64.

(** One step of the function updates one field. *)
Definition fillString (f : VLESSServer -> string) `{!Setter f} keys (srv : VLESSServer) : VLESSServer :=
  if bool_decide (f srv = "") then srv <| f := pickString keys |> else srv.

Definition setString (f : VLESSServer -> string) `{!Setter f} keys (srv : VLESSServer) : VLESSServer :=
  let v := pickString keys in
  if bool_decide (v = "") then srv else srv <| f := v |>.

Definition setBool (f : VLESSServer -> bool) `{!Setter f} keys (srv : VLESSServer) : VLESSServer :=
  match pickBool keys with Some b => srv <| f := b |> | None => srv end.

Definition setInt (f : VLESSServer -> Z) `{!Setter f} keys (srv : VLESSServer) : VLESSServer :=
  match pickInt keys with Some n => srv <| f := n |> | None => srv end.

Definition applyHeader (srv : VLESSServer) (entry : string * string) : VLESSServer :=
  let '(k, val) := entry in
  if EqualFold k "host" then
    if bool_decide (sv_Host srv = "") then srv <| sv_Host := val |> else srv
  else srv <| sv_XHTTPHeaders ::= <[k := val]> |>.

Definition applyHeaders (srv : VLESSServer) : VLESSServer :=
  match extra !! "headers" ≫= json_string_map with
  | Some hdrs =>
      if bool_decide (hdrs = ∅) then srv
      else foldl applyHeader (srv <| sv_XHTTPHeaders := ∅ |>) (map_range hdrs)
  | None => srv
  end.

Definition setRaw (f : VLESSServer -> string) `{!Setter f} key (srv : VLESSServer) : VLESSServer :=
  match extra !! key with
  | Some v =>
      if negb (bool_decide (v = "")) && negb (bool_decide (v = "null"))
      then srv <| f := normalizeRawObjectKeys v |> else srv
  | None => srv
  end.

Definition extraSteps : list (VLESSServer -> VLESSServer) := [
  fillString sv_Mode ["mode"];
  fillString sv_Path ["path"];
  fillString sv_Host ["host"];
  fillString sv_XPadding ["xPaddingBytes"; "x_padding_bytes"];
  fillString sv_XPaddingKey ["xPaddingKey"; "x_padding_key"];
  fillString sv_XPaddingHeader ["xPaddingHeader"; "x_padding_header"];
  fillString sv_XPaddingPlacement ["xPaddingPlacement"; "x_padding_placement"];
  fillString sv_XPaddingMethod ["xPaddingMethod"; "x_padding_method"];
  setBool sv_XPaddingObfsMode ["xPaddingObfsMode"; "x_padding_obfs_mode"];
  setBool sv_NoGRPCHeader ["noGRPCHeader"; "no_grpc_header"];
  setBool sv_NoSSEHeader ["noSSEHeader"; "no_sse_header"];
  setString sv_SessionPlacement ["sessionPlacement"; "session_placement"];
  setString sv_SessionKey ["sessionKey"; "session_key"];
  setString sv_SeqPlacement ["seqPlacement"; "seq_placement"];
  setString sv_SeqKey ["seqKey"; "seq_key"];
  setString sv_UplinkHTTPMethod ["uplinkHTTPMethod"; "uplink_http_method"];
  setString sv_UplinkDataPlacement ["uplinkDataPlacement"; "uplink_data_placement"];
  setString sv_UplinkDataKey ["uplinkDataKey"; "uplink_data_key"];
  setInt sv_ScMaxBufferedPosts ["scMaxBufferedPosts"; "sc_max_buffered_posts"];
  applyHeaders;
  setRaw sv_Xmux "xmux";
  setRaw sv_DownloadSettings "downloadSettings"
].
End ApplyXHTTPExtra.

Definition applyXHTTPExtra `{JSONCodec} (srv : VLESSServer) (raw : string) : VLESSServer :=
  match json_object raw with
  | None => srv
  | Some extra => (foldl (fun s step => step s) srv (extraSteps extra)) <| sv_Extra := raw |>
  end.

(** ** Share links *)

Inductive uri_error :=
| NotVLESS
| ParseURI
| MissingUUID
| MissingHost
| InvalidPort (port : string).

(** The struct literal built from the authority and the query of a link. *)
Definition linkServer `{URLCodec} (u : ParsedURL) (port : Z) : VLESSServer :=
  let q := pu_Query u in
  let name := if bool_decide (pu_Fragment u = "") then pu_Hostname u else pu_Fragment u in
  let network := normalizeVLESSNetwork (q "type") in
  {| sv_ID := "";
     sv_Name := default "" (QueryUnescape name);
     sv_Manual := false;
     sv_Address := pu_Hostname u;
     sv_Port := port;
     sv_UUID := pu_User u;
     sv_Flow := q "flow";
     sv_PacketEncoding :=
       firstNonEmpty [q "packet-encoding"; q "packet_encoding"; q "packetEncoding"];
     sv_Security := if bool_decide (q "security" = "") then "none" else q "security";
     sv_SNI := q "sni";
     sv_Fingerprint := if bool_decide (q "fp" = "") then "chrome" else q "fp";
     sv_PublicKey := q "pbk";
     sv_ShortID := q "sid";
     sv_SpiderX := q "spx";
     sv_Network := network;
     sv_Path := if bool_decide (network = "grpc")
                then firstNonEmpty [q "serviceName"; q "service_name"; q "path"] else q "path";
     sv_Host := q "host";
     sv_Mode := q "mode";
     sv_XPadding := firstNonEmpty [q "x_padding_bytes"; q "xPaddingBytes"];
     sv_ALPN := q "alpn";
     sv_NoSSEHeader := false; sv_NoGRPCHeader := false;
     sv_SessionPlacement := ""; sv_SessionKey := ""; sv_SeqPlacement := ""; sv_SeqKey := "";
     sv_UplinkHTTPMethod := ""; sv_UplinkDataPlacement := ""; sv_UplinkDataKey := "";
     sv_XPaddingObfsMode := false; sv_XPaddingKey := ""; sv_XPaddingHeader := "";
     sv_XPaddingPlacement := ""; sv_XPaddingMethod := "";
     sv_Xmux := ""; sv_XHTTPHeaders := ∅; sv_ScMaxBufferedPosts := 0;
     sv_DownloadSettings := ""; sv_Extra := ""; sv_Members := [] |}.

Definition parseVLESSURI `{JSONCodec, URLCodec, ServerDigest} (uri : string)
  : result uri_error VLESSServer :=
  if negb (HasPrefix uri "vless://") then Err NotVLESS
  else match url_Parse uri with
  | None => Err ParseURI
  | Some u =>
  if bool_decide (pu_User u = "") then Err MissingUUID
  else if bool_decide (pu_Hostname u = "") then Err MissingHost
  else
  let! port :=
    (if bool_decide (pu_Port u = "") then Ok 443%Z
     else match ParseInt (pu_Port u) 64 with Some p => Ok p | None => Err (InvalidPort (pu_Port u)) end)
  in
  let raw := pu_Query u "extra" in
  let srv := linkServer u port in
  let srv := if bool_decide (raw = "") then srv else applyXHTTPExtra srv raw in
  let srv := if bool_decide (sv_SpiderX srv = "") then srv <| sv_SpiderX := "/" |> else srv in
  Ok (srv <| sv_ID := serverFingerprint srv |>)
  end.

(** ** Lemmas *)

Lemma normalize_idem network :
  normalizeVLESSNetwork (normalizeVLESSNetwork network) = normalizeVLESSNetwork network.
Proof.
  unfold normalizeVLESSNetwork at 2 3. cbv zeta.
  repeat case_bool_decide; [vm_compute; reflexivity..|].
  unfold normalizeVLESSNetwork. cbv zeta. rewrite lower_trim_idem.
  by rewrite !bool_decide_eq_false_2.
Qed.

Lemma extra_steps_preserve `{JSONCodec} (P : VLESSServer -> Prop) srv raw :
  (forall extra, Forall (fun step => forall s, P s -> P (step s)) (extraSteps extra)) ->
  (forall s r, P s -> P (s <| sv_Extra := r |>)) ->
  P srv -> P (applyXHTTPExtra srv raw).
Proof.
  intros Hsteps Hextra HP. unfold applyXHTTPExtra. destruct (json_object raw) as [extra|]; [|done].
  apply Hextra, foldl_preserve; [|done].
  intros a step Hin. pose proof (Hsteps extra) as Hall. rewrite Forall_forall in Hall. by apply Hall.
Qed.

(** One goal per step of [extraSteps]. *)
Ltac each_step s Hs :=
  unfold extraSteps;
  repeat (apply Forall_cons; split; [intros s Hs|]); [..|by apply Forall_nil].

(** Unfolds one step of [applyXHTTPExtra] and splits its guards. *)
Ltac step_cases :=
  unfold fillString, setString, setBool, setInt, setRaw, applyHeaders in *; cbv zeta in *;
  repeat case_match; simpl in *.

(** The fields that identify an endpoint, which no [extra] member can change. *)
Definition endpoint (s : VLESSServer) :=
  (sv_ID s, sv_Name s, sv_Manual s, sv_Address s, sv_Port s, sv_UUID s, sv_Flow s,
   sv_PacketEncoding s, sv_Security s, sv_SNI s, sv_Fingerprint s, sv_PublicKey s,
   sv_ShortID s, sv_SpiderX s, sv_Network s, sv_ALPN s, sv_Members s).

Lemma applyHeader_endpoint srv entry : endpoint (applyHeader srv entry) = endpoint srv.
Proof. destruct entry. unfold applyHeader. by repeat case_match. Qed.

Lemma applyXHTTPExtra_endpoint `{JSONCodec} srv raw :
  endpoint (applyXHTTPExtra srv raw) = endpoint srv.
Proof.
  apply (extra_steps_preserve (fun s => endpoint s = endpoint srv)); [|done|done].
  intros extra. each_step s Hs; step_cases; try done.
  apply (foldl_preserve (fun s' => endpoint s' = endpoint srv)); [|done].
  intros a b _ Ha. by rewrite applyHeader_endpoint.
Qed.

(** No generic XHTTP header is called [Host], in any spelling. *)
Definition no_host_header (s : VLESSServer) : Prop :=
  map_Forall (fun k _ => EqualFold k "host" = false) (sv_XHTTPHeaders s).

Lemma applyHeader_no_host srv entry :
  no_host_header srv -> no_host_header (applyHeader srv entry).
Proof.
  destruct entry as [k v]. unfold no_host_header, applyHeader. intros Hs.
  destruct (EqualFold k "host") eqn:Hk; [by case_bool_decide|]. simpl.
  by apply map_Forall_insert_2.
Qed.

(** The link's own parameters against what a later step has left in them. *)
Definition link_kept (srv s : VLESSServer) : Prop :=
  no_host_header s /\
  (sv_Mode srv <> "" -> sv_Mode s = sv_Mode srv) /\
  (sv_Path srv <> "" -> sv_Path s = sv_Path srv) /\
  (sv_Host srv <> "" -> sv_Host s = sv_Host srv) /\
  (sv_XPadding srv <> "" -> sv_XPadding s = sv_XPadding srv).

Ltac solve_kept :=
  repeat (split; [first [done|intros; exfalso; intuition congruence]|]);
  first [done|intros; exfalso; intuition congruence].

Lemma applyXHTTPExtra_kept `{JSONCodec} srv raw :
  no_host_header srv -> link_kept srv (applyXHTTPExtra srv raw).
Proof.
  intros Hh. apply (extra_steps_preserve (link_kept srv)); [|done|done].
  intros extra. each_step s Hs; step_cases; try done.
  1-4: repeat case_bool_decide; destruct Hs as (?&?&?&?&?); solve_kept.
  apply foldl_preserve; [|destruct Hs as (?&?&?&?&?); repeat (split; [done|]); done].
  intros a [k v] _ (Ha & Ha1 & Ha2 & Ha3 & Ha4).
  split; [by apply applyHeader_no_host|]. unfold applyHeader.
  repeat case_match; try done. case_bool_decide; simpl in *; try done. solve_kept.
Qed.

(** An [extra] blob never puts a [Host] entry among the generic XHTTP
    headers (Xray rejects one), and never overrides a mode, path, host or
    padding range that the link states with a parameter of its own. *)
Theorem applyXHTTPExtra_respects_link `{JSONCodec} srv raw :
  no_host_header srv ->
  let out := applyXHTTPExtra srv raw in
  no_host_header out /\
  (sv_Mode srv <> "" -> sv_Mode out = sv_Mode srv) /\
  (sv_Path srv <> "" -> sv_Path out = sv_Path srv) /\
  (sv_Host srv <> "" -> sv_Host out = sv_Host srv) /\
  (sv_XPadding srv <> "" -> sv_XPadding out = sv_XPadding srv).
Proof. intros Hh. exact (applyXHTTPExtra_kept srv raw Hh). Qed.

(** Evaluates field updates of a profile given field by field. *)
Ltac reduce_server :=
  lazy beta iota zeta delta [upd sv_ID sv_Name sv_Manual sv_Address sv_Port sv_UUID
    sv_Flow sv_PacketEncoding sv_Security sv_SNI sv_Fingerprint sv_PublicKey
    sv_ShortID sv_SpiderX sv_Network sv_Path sv_Host sv_Mode
    sv_XPadding sv_ALPN sv_NoSSEHeader sv_NoGRPCHeader sv_SessionPlacement sv_SessionKey
    sv_SeqPlacement sv_SeqKey sv_UplinkHTTPMethod sv_UplinkDataPlacement sv_UplinkDataKey sv_XPaddingObfsMode
    sv_XPaddingKey sv_XPaddingHeader sv_XPaddingPlacement sv_XPaddingMethod sv_Xmux sv_XHTTPHeaders
    sv_ScMaxBufferedPosts sv_DownloadSettings sv_Extra sv_Members] in *.

Lemma fingerprint_ID `{ServerDigest} srv id :
  serverFingerprint (srv <| sv_ID := id |>) = serverFingerprint srv.
Proof. unfold serverFingerprint. destruct srv. reduce_server. by destruct sv_Members0. Qed.

Lemma fingerprint_normalize `{ServerDigest} srv :
  serverFingerprint (srv <| sv_Network ::= normalizeVLESSNetwork |>) = serverFingerprint srv.
Proof.
  unfold serverFingerprint. destruct srv. reduce_server.
  destruct sv_Members0; reduce_server; by rewrite normalize_idem.
Qed.

(** The identifier of a profile is a function of its connection data: it
    ignores the identifier stored before, the display name of a leaf and the
    spelling of the transport. *)
Theorem serverFingerprint_connection_only `{ServerDigest} srv id name network :
  normalizeVLESSNetwork network = normalizeVLESSNetwork (sv_Network srv) ->
  serverFingerprint (srv <| sv_ID := id |> <| sv_Network := network |>) = serverFingerprint srv /\
  (sv_Members srv = [] ->
   serverFingerprint (srv <| sv_ID := id |> <| sv_Name := name |> <| sv_Network := network |>)
   = serverFingerprint srv).
Proof.
  intros Hn. unfold serverFingerprint.
  destruct srv; reduce_server.
  destruct sv_Members0; reduce_server; rewrite Hn; by split.
Qed.

(** A share link that parses gives a usable leaf: user, address, security,
    fingerprint and spider path are there, the transport has its canonical
    name, and the identifier is the fingerprint of the finished profile. *)
Theorem parseVLESSURI_profile `{JSONCodec, URLCodec, ServerDigest} uri srv :
  parseVLESSURI uri = Ok srv ->
  HasPrefix uri "vless://" = true /\
  sv_UUID srv <> "" /\ sv_Address srv <> "" /\ sv_Security srv <> "" /\
  sv_Fingerprint srv <> "" /\ sv_SpiderX srv <> "" /\
  normalizeVLESSNetwork (sv_Network srv) = sv_Network srv /\
  sv_Members srv = [] /\ no_host_header srv /\
  sv_ID srv = serverFingerprint srv.
Proof.
  unfold parseVLESSURI. destruct (HasPrefix uri "vless://"); [simpl|done].
  destruct (url_Parse uri) as [u|]; [|done].
  case_bool_decide as Huuid; [done|]. case_bool_decide as Hhost; [done|].
  match goal with |- result_bind ?p _ = _ -> _ => destruct p as [port|]; [|done] end.
  unfold result_bind. cbv zeta.
  set (srv1 := if bool_decide (pu_Query u "extra" = "") then linkServer u port else _).
  assert (Hep : endpoint srv1 = endpoint (linkServer u port)).
  { subst srv1. case_bool_decide; [done|apply applyXHTTPExtra_endpoint]. }
  assert (Hnh : no_host_header srv1).
  { subst srv1. case_bool_decide; [|apply applyXHTTPExtra_kept]; by apply map_Forall_empty. }
  assert (Hnorm : normalizeVLESSNetwork (sv_Network (linkServer u port))
                  = sv_Network (linkServer u port)) by apply normalize_idem.
  assert (Hsec : sv_Security (linkServer u port) <> "" /\ sv_Fingerprint (linkServer u port) <> "").
  { unfold linkServer. simpl. split; by case_bool_decide. }
  unfold endpoint in Hep.
  injection Hep as E1 E2 E3 E4 E5 E6 E7 E8 E9 E10 E11 E12 E13 E14 E15 E16 E17.
  change (sv_UUID srv1 = pu_User u) in E6. change (sv_Address srv1 = pu_Hostname u) in E4.
  change (sv_Members srv1 = []) in E17.
  change (sv_Security srv1 = sv_Security (linkServer u port)) in E9.
  change (sv_Fingerprint srv1 = sv_Fingerprint (linkServer u port)) in E11.
  change (sv_Network srv1 = sv_Network (linkServer u port)) in E15.
  clearbody srv1. destruct Hsec.
  destruct (decide (sv_SpiderX srv1 = "")) as [Hsp|Hsp];
    [rewrite bool_decide_eq_true_2 by done|rewrite bool_decide_eq_false_2 by done];
    intros Heq; injection Heq as <-; rewrite fingerprint_ID;
    cbn -[serverFingerprint normalizeVLESSNetwork]; repeat split; try done; congruence.
Qed.

Lemma isSupportedServer_eq srv :
  isSupportedServer srv =
  match sv_Members srv with
  | [] =>
      bool_decide (normalizeVLESSNetwork (sv_Network srv) ∈ supportedNetworks) &&
      (bool_decide (sv_PacketEncoding srv = "") || bool_decide (sv_PacketEncoding srv = "xudp"))
  | members => forallb isSupportedServer members
  end.
Proof. by destruct srv. Qed.

Lemma TLSProfile_fields server profile :
  sv_Network (serverWithTLSProfile server profile) = sv_Network server /\
  sv_PacketEncoding (serverWithTLSProfile server profile) = sv_PacketEncoding server /\
  sv_Members (serverWithTLSProfile server profile) =
    (if bool_decide (profile = "randomized-chacha20")
     then map (fun m => serverWithTLSProfile m profile) (sv_Members server) else sv_Members server).
Proof.
  destruct server. cbn [serverWithTLSProfile]. case_bool_decide; [|done].
  destruct (bool_decide _ || bool_decide _); reduce_server; done.
Qed.

(** Forcing the TLS profile never makes a profile unsupported. *)
Lemma supported_TLS_profile : forall (server : VLESSServer) (profile : string),
  isSupportedServer (serverWithTLSProfile server profile) = isSupportedServer server.
Proof.
  fix IH 1. intros server profile.
  destruct (TLSProfile_fields server profile) as (Hn & Hp & Hm).
  rewrite (isSupportedServer_eq (serverWithTLSProfile _ _)), (isSupportedServer_eq server), Hn, Hp, Hm.
  destruct server. cbn [sv_Members sv_Network sv_PacketEncoding]. case_bool_decide; [|done].
  clear Hn Hp Hm. assert (Hm : forallb isSupportedServer
      (map (fun m => serverWithTLSProfile m profile) sv_Members0)
    = forallb isSupportedServer sv_Members0).
  { induction sv_Members0 as [|m ms IHms]; [done|]. cbn [map forallb]. by rewrite IH, IHms. }
  destruct sv_Members0; [done|exact Hm].
Qed.

(** ** Witnesses *)

Definition plain_json : JSONCodec := {|
  json_object := fun s => if bool_decide (s = "{mode}") then Some {["mode" := "up"]} else None;
  json_string := Some;
  json_bool := fun _ => None;
  json_int64 := fun _ => None;
  json_string_map := fun _ => None;
  json_print_object := fun _ => None;
  map_range := map_to_list
|}.

#[export] Instance plain_json_range : MapRangeLaws plain_json.
Proof. by intros m. Qed.

Definition plain_url : URLCodec := {|
  url_Parse := fun s => Some (mkParsedURL "uuid" "host.example" "8443" "" "" "" (fun k =>
    if bool_decide (k = "type") then " RAW" else if bool_decide (k = "extra") then "{mode}" else ""));
  QueryUnescape := Some
|}.

Definition plain_digest : ServerDigest := {|
  server_json := fun s => sv_Address s +:+ "/" +:+ sv_Network s;
  sha256_hex8 := id
|}.

Lemma applyXHTTPExtra_respects_link_witness :
  sv_Mode (@applyXHTTPExtra plain_json (emptyServer <| sv_Mode := "auto" |>) "{mode}") = "auto".
Proof.
  refine (proj1 (proj2 (@applyXHTTPExtra_respects_link plain_json
    (emptyServer <| sv_Mode := "auto" |>) "{mode}" _)) _); [apply map_Forall_empty|done].
Defined.

Lemma serverFingerprint_connection_only_witness :
  @serverFingerprint plain_digest (emptyServer <| sv_ID := "x" |> <| sv_Network := "raw" |>)
  = @serverFingerprint plain_digest emptyServer.
Proof.
  refine (proj1 (@serverFingerprint_connection_only plain_digest emptyServer "x" "" "raw" _)).
  vm_compute. reflexivity.
Defined.

Lemma parseVLESSURI_profile_witness : exists srv,
  @parseVLESSURI plain_json plain_url plain_digest "vless://uuid@host.example:8443" = Ok srv /\
  sv_ID srv = "host.example/tcp" /\ sv_Mode srv = "up" /\ sv_UUID srv <> "".
Proof.
  eexists. split; [vm_compute; reflexivity|]. split; [reflexivity|]. split; [reflexivity|].
  refine (proj1 (proj2 (@parseVLESSURI_profile plain_json plain_url plain_digest
    "vless://uuid@host.example:8443" _ _))). vm_compute. reflexivity.
Defined.
