(* ===== verification/Config.v ===== *)
(** * The catalog: [config.go], and the catalog part of [subscriptions.go] and
      [api.go]

    [Config] is the content of [config.json], [Subscription] one entry of
    [subscriptions.json].  Both are values here: the deep copies [cloneConfig],
    [cloneSubscription] and [cloneVLESSServer] take before a mutation are what
    makes the code's snapshots values, so they have no counterpart.

    A loop over [cfg.Servers] is a fold that carries what the loop writes. *)

From Stdlib Require Import Ascii.
From S2P Require Import Prelude GoStrings Settings Servers.

Record BypassCache := mkBypassCache {
  bc_Domains : list string;
  bc_UpdatedAt : Time;
  bc_Source : string
}.

Record Config := mkConfig {
  cfg_Port : Z;
  cfg_ActiveServer : string;
  cfg_Servers : list VLESSServer;
  cfg_Autostart : bool;
  cfg_AutoFailover : bool;
  cfg_AutoTunnelFailover : bool;
  cfg_Settings : AppSettings;
  cfg_BypassCache : BypassCache
}.

#[export] Instance BypassCache_eta : Eta BypassCache := fun b =>
  mkBypassCache (bc_Domains b) (bc_UpdatedAt b) (bc_Source b).
#[export] Instance Config_eta : Eta Config := fun c =>
  mkConfig (cfg_Port c) (cfg_ActiveServer c) (cfg_Servers c) (cfg_Autostart c)
    (cfg_AutoFailover c) (cfg_AutoTunnelFailover c) (cfg_Settings c) (cfg_BypassCache c).

Record SubUserInfo := mkSubUserInfo {
  ui_Upload : Z;
  ui_Download : Z;
  ui_Total : Z;
  ui_Expire : Z
}.

Record Subscription := mkSubscription {
  sub_ID : string;
  sub_Name : string;
  sub_ProviderName : string;
  sub_Description : string;
  sub_URL : string;
  sub_Servers : list VLESSServer;
  sub_UpdatedAt : Time;
  sub_Error : string;
  sub_UserInfo : option SubUserInfo;
  sub_Disabled : bool;
  sub_DisabledServerIDs : list string;
  sub_ExcludedServers : Z;
  sub_ExcludedTransports : gmap string Z
}.

#[export] Instance SubUserInfo_eta : Eta SubUserInfo := fun u =>
  mkSubUserInfo (ui_Upload u) (ui_Download u) (ui_Total u) (ui_Expire u).
#[export] Instance Subscription_eta : Eta Subscription := fun s =>
  mkSubscription (sub_ID s) (sub_Name s) (sub_ProviderName s) (sub_Description s) (sub_URL s)
    (sub_Servers s) (sub_UpdatedAt s) (sub_Error s) (sub_UserInfo s) (sub_Disabled s)
    (sub_DisabledServerIDs s) (sub_ExcludedServers s) (sub_ExcludedTransports s).

Definition defaultConfig : Config :=
  mkConfig 3001 "" [] true true true defaultSettings (mkBypassCache [] zero_time "").

(** ** Looking a server up *)

Fixpoint find_by_id (id : string) (servers : list VLESSServer) : option VLESSServer :=
  match servers with
  | [] => None
  | s :: rest => if bool_decide (sv_ID s = id) then Some s else find_by_id id rest
  end.

Definition findServer (cfg : Config) (id : string) : option VLESSServer :=
  find_by_id id (cfg_Servers cfg).
Definition activeServer (cfg : Config) : option VLESSServer :=
  findServer cfg (cfg_ActiveServer cfg).

(** Replaces the first entry with this identifier, or appends. *)
Fixpoint upsert_list (srv : VLESSServer) (servers : list VLESSServer) : list VLESSServer :=
  match servers with
  | [] => [srv]
  | s :: rest => if bool_decide (sv_ID s = sv_ID srv) then srv :: rest
                 else s :: upsert_list srv rest
  end.

Definition upsertServerLocked (cfg : Config) (srv : VLESSServer) : Config :=
  cfg <| cfg_Servers ::= upsert_list srv |>.

(** ** Synchronisation with the subscriptions *)

(** The index the code builds: the last entry of each identifier. *)
Definition server_index (servers : list VLESSServer) : gmap string nat :=
  foldl (fun m p => <[sv_ID p.2 := p.1]> m) ∅ (imap pair servers).

Definition resync_one `{ServerDigest} (idx : gmap string nat)
    (acc : list VLESSServer * nat) (fresh : VLESSServer) : list VLESSServer * nat :=
  let '(servers, changed) := acc in
  match idx !! sv_ID fresh ≫= fun i => existing ← servers !! i; Some (i, existing) with
  | None => (servers, changed)
  | Some (i, existing) =>
      if bool_decide (server_json existing = server_json fresh) then (servers, changed)
      else (<[i := fresh]> servers, S changed)
  end.

Definition resyncServersFromSubs `{ServerDigest} (cfg : Config) (subs : list Subscription)
  : Config * nat :=
  let idx := server_index (cfg_Servers cfg) in
  let '(servers, changed) :=
    foldl (resync_one idx) (cfg_Servers cfg, O) (subs ≫= sub_Servers) in
  (cfg <| cfg_Servers := servers |>, changed).

(** One iteration of a pruning loop: what is kept so far, the active selection
    and the number of entries pruned. *)
Definition prune_acc : Type := list VLESSServer * string * nat.

Definition prune_stale_one (keep : gset string) (preserveActive : bool)
    (acc : prune_acc) (srv : VLESSServer) : prune_acc :=
  let '(out, active, pruned) := acc in
  if sv_Manual srv || bool_decide (sv_ID srv ∈ keep) ||
     (preserveActive && bool_decide (active = sv_ID srv))
  then (out ++ [srv], active, pruned)
  else (out, if bool_decide (active = sv_ID srv) then "" else active, S pruned).

Definition catalog_ids (subs : list Subscription) : gset string :=
  list_to_set (sv_ID <$> (subs ≫= sub_Servers)).

Definition pruneStaleServersWithActivePolicy (cfg : Config) (subs : list Subscription)
    (preserveActive : bool) : Config * nat :=
  let '(out, active, pruned) :=
    foldl (prune_stale_one (catalog_ids subs) preserveActive)
      ([], cfg_ActiveServer cfg, O) (cfg_Servers cfg) in
  (cfg <| cfg_ActiveServer := active |> <| cfg_Servers := out |>, pruned).

Definition pruneStaleServers (cfg : Config) (subs : list Subscription) : Config * nat :=
  pruneStaleServersWithActivePolicy cfg subs false.
Definition pruneStaleServersPreservingActive (cfg : Config) (subs : list Subscription) :=
  pruneStaleServersWithActivePolicy cfg subs true.

Definition prune_unsupported_one (acc : prune_acc) (srv : VLESSServer) : prune_acc :=
  let '(out, active, pruned) := acc in
  let srv := srv <| sv_Network ::= normalizeVLESSNetwork |> in
  if isSupportedServer srv then (out ++ [srv], active, pruned)
  else (out, if bool_decide (active = sv_ID srv) then "" else active, S pruned).

Definition pruneUnsupportedServers (cfg : Config) : Config * nat :=
  let '(out, active, pruned) :=
    foldl prune_unsupported_one ([], cfg_ActiveServer cfg, O) (cfg_Servers cfg) in
  (cfg <| cfg_ActiveServer := active |> <| cfg_Servers := out |>, pruned).

(** ** Stable identifiers *)

Record migrate_acc := mkMigrate {
  mg_oldToNew : gmap string string;
  mg_seen : gset string;
  mg_unique : list VLESSServer
}.

Definition migrate_one `{ServerDigest} (acc : migrate_acc) (s : VLESSServer) : migrate_acc :=
  let s := s <| sv_Network ::= normalizeVLESSNetwork |> in
  let newID := serverFingerprint s in
  let oldToNew := if bool_decide (sv_ID s = "") then mg_oldToNew acc
                  else <[sv_ID s := newID]> (mg_oldToNew acc) in
  if bool_decide (newID ∈ mg_seen acc) then mkMigrate oldToNew (mg_seen acc) (mg_unique acc)
  else mkMigrate oldToNew ({[newID]} ∪ mg_seen acc)
         (mg_unique acc ++ [s <| sv_ID := newID |>]).

Definition migrateServerIDs `{ServerDigest} (cfg : Config) : Config :=
  let acc := foldl migrate_one (mkMigrate ∅ ∅ []) (cfg_Servers cfg) in
  cfg <| cfg_Servers := mg_unique acc |>
      <| cfg_ActiveServer := default (cfg_ActiveServer cfg)
           (mg_oldToNew acc !! cfg_ActiveServer cfg) |>.

(** ** Loading

    [ConfigFile] is [os.ReadFile] and [json.Unmarshal] onto a value. *)

Inductive file_read :=
| NotExist
| ReadFailed
| FileData (data : string).

Inductive load_error :=
| ReadError
| DecodeError
| BadPort
| InvalidSavedSettings (e : settings_error).

Class ConfigFile := decode_config : string -> Config -> option Config.

Definition loadConfig `{ServerDigest, URLParser, ConfigFile} (file : file_read)
  : result load_error Config :=
  match file with
  | NotExist => Ok defaultConfig
  | ReadFailed => Err ReadError
  | FileData data =>
      match decode_config data defaultConfig with
      | None => Err DecodeError
      | Some cfg =>
          let cfg := cfg <| cfg_Settings ::= fun s => (fillDefaults s).1 |> in
          if (cfg_Port cfg <? 1)%Z || (65535 <? cfg_Port cfg)%Z then Err BadPort
          else match validate (cfg_Settings cfg) with
               | Some e => Err (InvalidSavedSettings e)
               | None => Ok (migrateServerIDs cfg)
               end
      end
  end.

(** ** Lemmas *)

Lemma find_by_id_Some id servers s :
  find_by_id id servers = Some s -> s ∈ servers /\ sv_ID s = id.
Proof.
  induction servers as [|s' rest IH]; simpl; [done|].
  case_bool_decide; intros Heq; [simplify_eq; split; [left|done]|].
  destruct (IH Heq). split; [by right|done].
Qed.

Lemma find_by_id_is_Some id servers :
  is_Some (find_by_id id servers) <-> id ∈ sv_ID <$> servers.
Proof.
  induction servers as [|s rest IH]; simpl; [split; [intros [? ?]; done|set_solver]|].
  case_bool_decide as Heq; [split; [set_solver|by intros _; eexists]|].
  rewrite IH, elem_of_cons. set_solver.
Qed.

Lemma find_by_id_filter (P : VLESSServer -> Prop) `{forall s, Decision (P s)} id servers :
  (forall s, sv_ID s = id -> P s) -> find_by_id id (filter P servers) = find_by_id id servers.
Proof.
  intros HP. induction servers as [|s rest IH]; [done|]. rewrite filter_cons. case_decide as Hs; simpl.
  - by rewrite IH.
  - rewrite IH. by rewrite bool_decide_eq_false_2 by auto.
Qed.

Lemma fmap_upsert srv servers :
  sv_ID <$> upsert_list srv servers =
  if bool_decide (sv_ID srv ∈ sv_ID <$> servers) then sv_ID <$> servers
  else (sv_ID <$> servers) ++ [sv_ID srv].
Proof.
  induction servers as [|s rest IH]; [done|]. cbn [upsert_list]. rewrite (fmap_cons _ s rest).
  destruct (decide (sv_ID s = sv_ID srv)) as [Heq|Hne].
  - rewrite !bool_decide_eq_true_2 by (rewrite ?elem_of_cons; auto). by rewrite fmap_cons, Heq.
  - rewrite (bool_decide_eq_false_2 (_ = _)) by done. rewrite fmap_cons, IH.
    destruct (decide (sv_ID srv ∈ sv_ID <$> rest)).
    + rewrite !bool_decide_eq_true_2; [done|by right|done].
    + rewrite !bool_decide_eq_false_2; [done| |done].
      intros [?|?]%elem_of_cons; congruence.
Qed.

(** *** Migration *)

Definition canonical `{ServerDigest} (s : VLESSServer) : Prop :=
  sv_ID s = serverFingerprint s /\ normalizeVLESSNetwork (sv_Network s) = sv_Network s.

(** What a catalog looks like after [migrateServerIDs]. *)
Definition migrated `{ServerDigest} (servers : list VLESSServer) : Prop :=
  NoDup (sv_ID <$> servers) /\ Forall canonical servers.

Definition migrate_inv `{ServerDigest} (seen : list VLESSServer) (acc : migrate_acc) : Prop :=
  mg_seen acc = list_to_set (sv_ID <$> mg_unique acc) /\
  migrated (mg_unique acc) /\
  (forall s, s ∈ seen -> serverFingerprint s ∈ sv_ID <$> mg_unique acc) /\
  (forall id, is_Some (mg_oldToNew acc !! id) <-> id <> "" /\ id ∈ sv_ID <$> seen) /\
  (forall id new, mg_oldToNew acc !! id = Some new -> new ∈ sv_ID <$> mg_unique acc).

Lemma canonical_new `{ServerDigest} s :
  canonical (s <| sv_Network ::= normalizeVLESSNetwork |> <| sv_ID := serverFingerprint s |>).
Proof.
  split; [|apply normalize_idem].
  rewrite fingerprint_ID, fingerprint_normalize. done.
Qed.

Lemma migrate_one_inv `{ServerDigest} seen s acc :
  migrate_inv seen acc -> migrate_inv (seen ++ [s]) (migrate_one acc s).
Proof.
  intros (Hseen & [Hnd Hcan] & Hall & Hdom & Hval). unfold migrate_one. cbv zeta.
  rewrite fingerprint_normalize. change (sv_ID (s <| sv_Network ::= _ |>)) with (sv_ID s).
  set (o2n := if bool_decide (sv_ID s = "") then _ else _).
  assert (Hdom' : forall id, is_Some (o2n !! id) <-> id <> "" /\ id ∈ sv_ID <$> (seen ++ [s])).
  { intros id. rewrite fmap_app, elem_of_app. cbn [fmap list_fmap].
    rewrite list_elem_of_singleton. subst o2n.
    destruct (decide (sv_ID s = "")) as [He|He].
    - rewrite bool_decide_eq_true_2, Hdom by done. naive_solver congruence.
    - rewrite bool_decide_eq_false_2 by done. destruct (decide (id = sv_ID s)) as [->|Hne].
      + rewrite lookup_insert_eq. split; [auto|by eexists].
      + rewrite lookup_insert_ne by done. rewrite Hdom. naive_solver. }
  assert (Hval' : forall id new, o2n !! id = Some new ->
            new = serverFingerprint s \/ new ∈ sv_ID <$> mg_unique acc).
  { intros id new. subst o2n. case_bool_decide; [eauto|].
    rewrite lookup_insert_Some. intros [[_ <-]|[_ ?]]; eauto. }
  rewrite Hseen. case_bool_decide as Hin; rewrite elem_of_list_to_set in Hin;
    unfold migrate_inv; cbn [mg_seen mg_unique mg_oldToNew].
  - repeat split; try done; try (by apply Hdom').
    + intros s' [? | ->]%elem_of_snoc; auto.
    + intros id new Ho. by destruct (Hval' _ _ Ho) as [->|?].
  - assert (Hids : sv_ID <$> (mg_unique acc ++
        [s <| sv_Network ::= normalizeVLESSNetwork |> <| sv_ID := serverFingerprint s |>])
      = (sv_ID <$> mg_unique acc) ++ [serverFingerprint s]) by by rewrite fmap_app.
    rewrite Hids. split; [|split; [split|split; [|split; [done|]]]].
    + rewrite list_to_set_app_L. cbn. set_solver.
    + rewrite Hids. by apply NoDup_snoc.
    + auto using canonical_new with vm.
    + intros s' [? | ->]%elem_of_snoc; apply elem_of_app; [left; auto|].
      right. by apply list_elem_of_singleton.
    + intros id new Ho. apply elem_of_app. destruct (Hval' _ _ Ho) as [->|?]; [|by left].
      right. by apply list_elem_of_singleton.
Qed.

Lemma migrate_fold_inv `{ServerDigest} servers :
  migrate_inv servers (foldl migrate_one (mkMigrate ∅ ∅ []) servers).
Proof.
  apply foldl_seen; [intros; by apply migrate_one_inv|].
  split; [done|]. split; [split; constructor|]. split; [set_solver|]. split; [|done].
  intros id. cbn. rewrite lookup_empty. split; [by intros []|set_solver].
Qed.

Lemma migrate_canonical `{ServerDigest} servers acc :
  Forall canonical servers -> NoDup (sv_ID <$> servers) ->
  (forall s, s ∈ servers -> sv_ID s ∉ mg_seen acc) ->
  (forall id new, mg_oldToNew acc !! id = Some new -> new = id) ->
  let out := foldl migrate_one acc servers in
  mg_unique out = mg_unique acc ++ servers /\
  (forall id new, mg_oldToNew out !! id = Some new -> new = id).
Proof.
  revert acc. induction servers as [|s rest IH]; intros acc Hcan Hnd Hfresh Hid; simpl.
  { by rewrite app_nil_r. }
  apply Forall_cons in Hcan as [[Hs1 Hs2] Hcan]. rewrite fmap_cons in Hnd.
  apply NoDup_cons in Hnd as [Hni Hnd].
  assert (Hs : s <| sv_Network ::= normalizeVLESSNetwork |> = s).
  { destruct s. reduce_server. by f_equal. }
  unfold migrate_one at 2 4. cbv zeta. rewrite Hs.
  rewrite (bool_decide_eq_false_2 (serverFingerprint s ∈ _))
    by (rewrite <- Hs1; apply Hfresh; left).
  assert (Hs' : s <| sv_ID := serverFingerprint s |> = s).
  { rewrite <- Hs1. by destruct s. }
  rewrite Hs'.
  edestruct IH as [H1 H2]; [done|done| | |split; [etrans; [exact H1|]|exact H2]].
  - cbn [mg_seen]. intros s' Hin. rewrite <- Hs1. apply not_elem_of_union. split.
    + apply not_elem_of_singleton. intros Heq. apply Hni. rewrite <- Heq.
      apply list_elem_of_fmap. eauto.
    + apply Hfresh. by right.
  - cbn [mg_oldToNew]. intros id new. case_bool_decide; [apply Hid|].
    rewrite lookup_insert_Some. intros [[<- <-]|[_ ?]]; [done|by apply Hid].
  - cbn [mg_unique]. by rewrite <- app_assoc.
Qed.

Lemma migrate_other `{ServerDigest} cfg :
  cfg_Settings (migrateServerIDs cfg) = cfg_Settings cfg /\
  cfg_Port (migrateServerIDs cfg) = cfg_Port cfg.
Proof. by destruct cfg. Qed.

(** *** Pruning *)

(** What a pruning loop keeps, when the test of an entry does not depend on
    the entries before it. *)
Definition prune_result (P : VLESSServer -> bool) (f : VLESSServer -> VLESSServer)
    (active : string) (servers : list VLESSServer) : prune_acc :=
  (f <$> filter (fun s => P s = true) servers,
   if existsb (fun s => negb (P s) && bool_decide (active = sv_ID s)) servers then "" else active,
   length (filter (fun s => P s = false) servers)).

Lemma existsb_false_empty (P : VLESSServer -> bool) servers :
  (if existsb (fun s => negb (P s) && bool_decide ("" = sv_ID s)) servers then "" else "") = "".
Proof. by case_match. Qed.

Lemma prune_fold (step : prune_acc -> VLESSServer -> prune_acc) (P : VLESSServer -> bool)
    (f : VLESSServer -> VLESSServer) servers out active n :
  (forall (out : list VLESSServer) (active : string) (n : nat) s, step (out, active, n) s =
    if P s then (out ++ [f s], active, n)
    else (out, if bool_decide (active = sv_ID s) then "" else active, S n)) ->
  foldl step (out, active, n) servers =
  let '(l, a, k) := prune_result P f active servers in (out ++ l, a, (n + k)%nat).
Proof.
  intros Hstep. revert out active n. induction servers as [|s rest IH]; intros out active n.
  { cbn. by rewrite app_nil_r, Nat.add_0_r. }
  cbn [foldl]. rewrite Hstep. unfold prune_result. rewrite !filter_cons. cbn [existsb].
  destruct (P s) eqn:HP; rewrite IH; unfold prune_result; cbn [negb andb orb].
  - rewrite decide_True, decide_False by done. rewrite fmap_cons, <- app_assoc. done.
  - rewrite decide_False, decide_True by done. cbn [length]. rewrite Nat.add_succ_r.
    case_bool_decide; cbn [andb orb]; [|done]. by rewrite existsb_false_empty.
Qed.

Definition stale_keeps (subs : list Subscription) (preserve : bool) (active : string)
    (s : VLESSServer) : bool :=
  sv_Manual s || bool_decide (sv_ID s ∈ catalog_ids subs) ||
  (preserve && bool_decide (active = sv_ID s)).

Lemma prune_stale_false cfg subs :
  foldl (prune_stale_one (catalog_ids subs) false) ([], cfg_ActiveServer cfg, O) (cfg_Servers cfg)
  = prune_result (stale_keeps subs false (cfg_ActiveServer cfg)) id (cfg_ActiveServer cfg)
      (cfg_Servers cfg).
Proof.
  rewrite (prune_fold _ (stale_keeps subs false (cfg_ActiveServer cfg)) id); [done|].
  intros. unfold prune_stale_one, stale_keeps. cbn. by rewrite orb_false_r.
Qed.

Lemma prune_stale_true_fold subs active servers out n :
  foldl (prune_stale_one (catalog_ids subs) true) (out, active, n) servers =
  (out ++ filter (fun s => stale_keeps subs true active s = true) servers, active,
   (n + length (filter (fun s => stale_keeps subs true active s = false) servers))%nat).
Proof.
  revert out n. induction servers as [|s rest IH]; intros out n.
  { cbn. by rewrite app_nil_r, Nat.add_0_r. }
  rewrite !filter_cons. cbn [foldl prune_stale_one].
  change (sv_Manual s || bool_decide (sv_ID s ∈ catalog_ids subs) ||
    (true && bool_decide (active = sv_ID s))) with (stale_keeps subs true active s).
  destruct (stale_keeps subs true active s) eqn:HP.
  - rewrite IH, decide_True, decide_False by done. by rewrite <- app_assoc.
  - rewrite decide_False, decide_True by done. unfold stale_keeps in HP. cbn in HP.
    rewrite bool_decide_eq_false_2.
    + rewrite IH. cbn [length]. by rewrite Nat.add_succ_r.
    + intros Heq. rewrite (bool_decide_eq_true_2 (active = _)), orb_true_r in HP by done. done.
Qed.

Lemma prune_stale_true cfg subs :
  foldl (prune_stale_one (catalog_ids subs) true) ([], cfg_ActiveServer cfg, O) (cfg_Servers cfg)
  = (filter (fun s => stale_keeps subs true (cfg_ActiveServer cfg) s = true) (cfg_Servers cfg),
     cfg_ActiveServer cfg,
     length (filter (fun s => stale_keeps subs true (cfg_ActiveServer cfg) s = false)
       (cfg_Servers cfg))).
Proof. by rewrite prune_stale_true_fold. Qed.

(** *** The index of [resyncServersFromSubs] *)

Lemma server_index_spec servers id i :
  server_index servers !! id = Some i -> exists s, servers !! i = Some s /\ sv_ID s = id.
Proof.
  unfold server_index. revert id i.
  apply (foldl_seen (fun _ m => forall id i, m !! id = Some i ->
    exists s, servers !! i = Some s /\ sv_ID s = id)); [|done].
  intros seen [j s] m Hpre IH id i. cbn. rewrite lookup_insert_Some.
  intros [[<- <-]|[_ H]]; [|by apply IH]. exists s. split; [|done].
  assert (Hin : (j, s) ∈ imap pair servers).
  { destruct Hpre as [k ->]. rewrite <- app_assoc. apply elem_of_app. right. left. }
  apply elem_of_lookup_imap in Hin as (j' & s' & [= -> ->] & ?). done.
Qed.

Lemma server_index_ids servers servers' :
  sv_ID <$> servers = sv_ID <$> servers' -> server_index servers = server_index servers'.
Proof.
  unfold server_index. generalize (∅ : gmap string nat) as m.
  assert (H : forall (n : nat) (m : gmap string nat), sv_ID <$> servers = sv_ID <$> servers' ->
    foldl (fun m p => <[sv_ID p.2 := p.1]> m) m (imap (fun i s => ((n + i)%nat, s)) servers) =
    foldl (fun m p => <[sv_ID p.2 := p.1]> m) m (imap (fun i s => ((n + i)%nat, s)) servers')).
  { revert servers'. induction servers as [|s rest IH]; intros [|s' rest'] n m Heq; try done.
    rewrite !fmap_cons in Heq. injection Heq as Hid Hrest. rewrite !imap_cons. cbn. rewrite Hid.
    rewrite (imap_ext _ (fun i s => ((S n + i)%nat, s)) rest),
      (imap_ext _ (fun i s => ((S n + i)%nat, s)) rest')
      by (intros; unfold compose; cbn; f_equal; lia).
    by apply IH. }
  intros m Heq. exact (H O m Heq).
Qed.

(** *** Resynchronisation *)

Lemma fmap_insert_same {A B} (f : A -> B) (l : list A) i x y :
  l !! i = Some y -> f x = f y -> f <$> <[i := x]> l = f <$> l.
Proof. intros Hl Hf. rewrite list_fmap_insert, Hf. apply list_insert_id. by rewrite list_lookup_fmap, Hl. Qed.

Section Resync.
Context `{ServerDigest} (idx : gmap string nat).

(** [idx] points at entries with the right identifiers. *)
Definition index_ok (servers : list VLESSServer) : Prop :=
  forall id i, idx !! id = Some i -> (sv_ID <$> servers) !! i = Some id.

Lemma resync_one_cases servers n fresh :
  index_ok servers ->
  match idx !! sv_ID fresh with
  | None => resync_one idx (servers, n) fresh = (servers, n)
  | Some i => exists existing, servers !! i = Some existing /\ sv_ID existing = sv_ID fresh /\
      resync_one idx (servers, n) fresh =
        if bool_decide (server_json existing = server_json fresh) then (servers, n)
        else (<[i := fresh]> servers, S n)
  end.
Proof.
  intros Hok. unfold resync_one. destruct (idx !! sv_ID fresh) as [i|] eqn:Hi; [|done].
  pose proof (Hok _ _ Hi) as Hl. rewrite list_lookup_fmap in Hl.
  destruct (servers !! i) as [s|] eqn:Hs; [|done]. injection Hl as Hl.
  exists s. cbn. rewrite Hs. done.
Qed.

(** The invariant of the loop over the catalog. *)
Definition resync_inv (servers : list VLESSServer) (seen : list VLESSServer)
    (acc : list VLESSServer * nat) : Prop :=
  sv_ID <$> acc.1 = sv_ID <$> servers /\
  (forall i s, acc.1 !! i = Some s -> servers !! i = Some s \/ s ∈ seen) /\
  (acc.2 = O -> acc.1 = servers) /\
  (NoDup (sv_ID <$> seen) -> forall f i, f ∈ seen -> idx !! sv_ID f = Some i ->
     exists s, acc.1 !! i = Some s /\ server_json s = server_json f).

Lemma resync_one_inv servers seen acc fresh :
  index_ok servers -> resync_inv servers seen acc ->
  resync_inv servers (seen ++ [fresh]) (resync_one idx acc fresh).
Proof.
  destruct acc as [cur n]. intros Hok (Hids & Hsrc & Hzero & Hdone). cbn [fst snd] in *.
  assert (Hok' : index_ok cur) by (intros id i Hi; rewrite Hids; by apply Hok).
  pose proof (resync_one_cases cur n fresh Hok') as Hc.
  assert (Hother : NoDup (sv_ID <$> seen ++ [fresh]) ->
    NoDup (sv_ID <$> seen) /\ forall f, f ∈ seen -> sv_ID f <> sv_ID fresh).
  { rewrite fmap_app, NoDup_app. intros (? & Hd & _). split; [done|].
    intros f Hf Heq. apply (Hd (sv_ID f)); [by apply list_elem_of_fmap_2|].
    apply list_elem_of_singleton. by rewrite Heq. }
  destruct (idx !! sv_ID fresh) as [i|] eqn:Hi; [destruct Hc as (existing & Hl & Hid & ->)|rewrite Hc];
    [case_bool_decide as Hj|]; unfold resync_inv; cbn [fst snd].
  - split; [done|]. split; [intros j s Hs; destruct (Hsrc j s Hs); [by left|right; set_solver]|].
    split; [done|]. intros [Hnd _]%Hother f j [Hf| ->]%elem_of_snoc Hfj;
      [by eapply Hdone|]. rewrite Hi in Hfj. injection Hfj as <-. eauto.
  - split; [rewrite <- Hids; by eapply fmap_insert_same|].
    split; [|split; [done|]].
    + intros j s [(-> & -> & _)|[_ Hs]]%list_lookup_insert_Some; [right; set_solver|].
      destruct (Hsrc j s Hs); [by left|right; set_solver].
    + intros [Hnd Hne]%Hother f j [Hf| ->]%elem_of_snoc Hfj.
      * destruct (Hdone Hnd f j Hf Hfj) as (s & Hs & Hjs). exists s. split; [|done].
        rewrite list_lookup_insert_ne; [done|]. intros <-.
        pose proof (Hok' _ _ Hfj) as Hl1. pose proof (Hok' _ _ Hi) as Hl2.
        rewrite Hl1 in Hl2. injection Hl2 as Hl2. by apply (Hne f Hf).
      * rewrite Hi in Hfj. injection Hfj as <-. exists fresh. split; [|done].
        apply list_lookup_insert_eq. by eapply lookup_lt_Some.
  - split; [done|]. split; [intros j s Hs; destruct (Hsrc j s Hs); [by left|right; set_solver]|].
    split; [done|]. intros [Hnd _]%Hother f j [Hf| ->]%elem_of_snoc Hfj;
      [by eapply Hdone|]. by rewrite Hi in Hfj.
Qed.

Lemma resync_fold_inv servers catalog :
  index_ok servers -> resync_inv servers catalog (foldl (resync_one idx) (servers, O) catalog).
Proof.
  intros Hok. apply foldl_seen; [intros; by apply resync_one_inv|].
  split; [done|]. split; [by left|]. split; [done|]. intros _ f i Hf. by apply not_elem_of_nil in Hf.
Qed.

Lemma resync_fold_stable servers n catalog :
  index_ok servers ->
  (forall f i, f ∈ catalog -> idx !! sv_ID f = Some i ->
     exists s, servers !! i = Some s /\ server_json s = server_json f) ->
  foldl (resync_one idx) (servers, n) catalog = (servers, n).
Proof.
  intros Hok. induction catalog as [|f rest IH]; intros Hall; [done|]. cbn [foldl].
  assert (Hf : resync_one idx (servers, n) f = (servers, n)).
  { pose proof (resync_one_cases servers n f Hok) as Hc.
    destruct (idx !! sv_ID f) as [i|] eqn:Hi; [|done]. destruct Hc as (e & He & _ & ->).
    destruct (Hall f i) as (s & Hs & Hj); [left|done|]. rewrite He in Hs. injection Hs as ->.
    by rewrite bool_decide_eq_true_2. }
  rewrite Hf. apply IH. intros f' i' Hin. apply Hall. by right.
Qed.
End Resync.

Lemma server_index_ok servers : index_ok (server_index servers) servers.
Proof.
  intros id i Hi. destruct (server_index_spec _ _ _ Hi) as (s & Hs & <-).
  by rewrite list_lookup_fmap, Hs.
Qed.

(** ** Properties *)

(** After [migrateServerIDs] every identifier is the fingerprint of its
    profile, transports have their canonical names and no two entries share
    an identifier; no profile is lost, a known active server stays known, and
    migrating again changes nothing. *)
Theorem migrateServerIDs_canonical `{ServerDigest} cfg :
  let out := migrateServerIDs cfg in
  migrated (cfg_Servers out) /\
  (forall s, s ∈ cfg_Servers cfg ->
     exists s', s' ∈ cfg_Servers out /\ sv_ID s' = serverFingerprint s) /\
  (cfg_ActiveServer cfg <> "" -> is_Some (activeServer cfg) -> is_Some (activeServer out)) /\
  migrateServerIDs out = out.
Proof.
  pose proof (migrate_fold_inv (cfg_Servers cfg)) as (_ & Hm & Hall & Hdom & Hval).
  intros out. assert (Hservers : cfg_Servers out
    = mg_unique (foldl migrate_one (mkMigrate ∅ ∅ []) (cfg_Servers cfg))) by done.
  split; [by rewrite Hservers|]. split; [|split].
  - intros s Hs. rewrite Hservers. apply Hall, list_elem_of_fmap in Hs as (s' & ? & ?). eauto.
  - unfold activeServer, findServer. rewrite !find_by_id_is_Some. intros Hne Hin.
    rewrite Hservers. unfold out, migrateServerIDs. cbn.
    destruct (proj2 (Hdom (cfg_ActiveServer cfg)) (conj Hne Hin)) as [new Hnew].
    rewrite Hnew. cbn. by eapply Hval.
  - rewrite <- Hservers in Hm. destruct Hm as [Hnd Hcan].
    destruct (migrate_canonical (cfg_Servers out) (mkMigrate ∅ ∅ [])) as [H1 H2]; [done..|].
    unfold migrateServerIDs. cbv zeta. rewrite H1.
    destruct (mg_oldToNew _ !! cfg_ActiveServer out) as [new|] eqn:Ho;
      [apply H2 in Ho as ->|]; by destruct out.
Qed.

(** Pruning after a refresh keeps, in order, the manual entries, the
    entries some subscription still lists and the active one, and never
    touches the active selection; outside a refresh an active entry that is
    pruned is deselected.  The result counts the entries removed. *)
Theorem pruneStaleServers_spec cfg subs preserve :
  let active := cfg_ActiveServer cfg in
  let keeps := stale_keeps subs preserve active in
  let '(out, pruned) := pruneStaleServersWithActivePolicy cfg subs preserve in
  cfg_Servers out = filter (fun s => keeps s = true) (cfg_Servers cfg) /\
  pruned = length (filter (fun s => keeps s = false) (cfg_Servers cfg)) /\
  cfg_ActiveServer out =
    (if negb preserve && existsb (fun s => negb (keeps s) && bool_decide (active = sv_ID s))
                           (cfg_Servers cfg) then "" else active) /\
  (preserve = true -> activeServer out = activeServer cfg) /\
  cfg_Settings out = cfg_Settings cfg.
Proof.
  intros active keeps. unfold pruneStaleServersWithActivePolicy. destruct preserve.
  - rewrite prune_stale_true. cbn. repeat split; [done..|].
    intros _. unfold activeServer, findServer. cbn. apply find_by_id_filter.
    intros s Hs. unfold stale_keeps. rewrite (bool_decide_eq_true_2 (_ = sv_ID s)) by done.
    by rewrite !orb_true_r.
  - rewrite prune_stale_false. unfold prune_result. cbn. rewrite list_fmap_id.
    by repeat split.
Qed.

(** Removing unsupported nodes leaves exactly the supported ones, with
    canonical transport names and in order, and deselects the active server
    when it is one of the removed. *)
Theorem pruneUnsupportedServers_spec cfg :
  let norm s := s <| sv_Network ::= normalizeVLESSNetwork |> in
  let '(out, pruned) := pruneUnsupportedServers cfg in
  cfg_Servers out = norm <$> filter (fun s => isSupportedServer s = true) (cfg_Servers cfg) /\
  Forall (fun s => isSupportedServer s = true) (cfg_Servers out) /\
  (length (cfg_Servers out) + pruned = length (cfg_Servers cfg))%nat /\
  cfg_ActiveServer out =
    (if existsb (fun s => negb (isSupportedServer s) && bool_decide (cfg_ActiveServer cfg = sv_ID s))
         (cfg_Servers cfg) then "" else cfg_ActiveServer cfg).
Proof.
  intros norm. unfold pruneUnsupportedServers.
  assert (Hsup : forall s, isSupportedServer (norm s) = isSupportedServer s).
  { intros s. rewrite (isSupportedServer_eq (norm s)), (isSupportedServer_eq s). unfold norm. cbn.
    unfold upd. cbn. by rewrite normalize_idem. }
  rewrite (prune_fold _ isSupportedServer norm).
  2: { intros. unfold prune_unsupported_one. cbv zeta. fold (norm s). by rewrite Hsup. }
  unfold prune_result. cbn. repeat split.
  - apply Forall_forall. intros s (s' & -> & [Hs _]%list_elem_of_filter)%list_elem_of_fmap.
    by rewrite Hsup.
  - rewrite length_fmap. apply length_filter_split.
Qed.

(** Resynchronising with the catalog never changes an identifier, so the
    active server stays known; every entry is the old one or a catalog entry;
    a count of zero means that nothing changed; and when the catalog lists each
    identifier once, a second pass finds nothing to do. *)
Theorem resyncServersFromSubs_converges `{ServerDigest} cfg subs :
  let catalog := subs ≫= sub_Servers in
  let '(out, changed) := resyncServersFromSubs cfg subs in
  sv_ID <$> cfg_Servers out = sv_ID <$> cfg_Servers cfg /\
  cfg_ActiveServer out = cfg_ActiveServer cfg /\
  (forall i s, cfg_Servers out !! i = Some s -> cfg_Servers cfg !! i = Some s \/ s ∈ catalog) /\
  (changed = O -> out = cfg) /\
  (NoDup (sv_ID <$> catalog) -> resyncServersFromSubs out subs = (out, O)).
Proof.
  intros catalog. unfold resyncServersFromSubs. cbv zeta. fold catalog.
  destruct (resync_fold_inv _ (cfg_Servers cfg) catalog (server_index_ok _))
    as (Hids & Hsrc & Hzero & Hdone).
  destruct (foldl _ _ catalog) as [servers changed]. cbn -[server_index resync_one] in *.
  repeat split; try done.
  - intros Hz. rewrite (Hzero Hz). by destruct cfg.
  - intros Hnd. rewrite (server_index_ids _ _ Hids).
    rewrite resync_fold_stable; [by destruct cfg| |by apply Hdone].
    rewrite <- (server_index_ids _ _ Hids). apply server_index_ok.
Qed.

(** A configuration that loads is one the program can run with: the port
    is a TCP port, the settings pass validation and have all their defaults,
    and the catalog is migrated.  A missing file is the default configuration,
    and an unreadable or undecodable one is an error, never an empty catalog. *)
Theorem loadConfig_establishes `{ServerDigest, URLParser, ConfigFile} file :
  match loadConfig file with
  | Ok cfg => file = NotExist /\ cfg = defaultConfig \/
      (1 <= cfg_Port cfg <= 65535)%Z /\ validate (cfg_Settings cfg) = None /\
      (fillDefaults (cfg_Settings cfg)).2 = false /\ migrated (cfg_Servers cfg)
  | Err e => (file = ReadFailed <-> e = ReadError) /\ file <> NotExist
  end.
Proof.
  unfold loadConfig. destruct file as [| |data]; [by left|done|].
  destruct (decode_config data defaultConfig) as [cfg|]; [|done]. cbn zeta.
  destruct (_ || _) eqn:Hport; [done|].
  destruct (validate _) eqn:Hv; [done|]. right.
  pose proof (migrate_fold_inv (cfg_Servers cfg)) as (_ & Hm & _).
  apply orb_false_iff in Hport as [Hlo%Z.ltb_ge Hhi%Z.ltb_ge].
  rewrite !(proj1 (migrate_other _)), (proj2 (migrate_other _)).
  split; [by split|]. split; [exact Hv|]. split; [|exact Hm].
  unfold upd. cbn [cfg_Settings]. by rewrite fillDefaults_fixed.
Qed.

(** ** Witnesses *)

Definition plain_config : Config :=
  defaultConfig <| cfg_ActiveServer := "old" |>
    <| cfg_Servers := [emptyServer <| sv_ID := "old" |> <| sv_Address := "a" |>;
                       emptyServer <| sv_ID := "dup" |> <| sv_Address := "a" |>] |>.

Example migrate_plain :
  (sv_ID <$> cfg_Servers (@migrateServerIDs plain_digest plain_config),
   cfg_ActiveServer (@migrateServerIDs plain_digest plain_config)) = (["a/tcp"], "a/tcp").
Proof. vm_compute. reflexivity. Qed.

Lemma migrateServerIDs_canonical_witness :
  is_Some (activeServer (@migrateServerIDs plain_digest plain_config)).
Proof.
  refine (proj1 (proj2 (proj2 (@migrateServerIDs_canonical plain_digest plain_config))) _ _);
    [done|vm_compute; by eexists].
Defined.

Definition plain_subscription : Subscription :=
  mkSubscription "s" "s" "" "" "https://sub.example/" [emptyServer <| sv_ID := "dup" |>
    <| sv_Address := "b" |>] zero_time "" None false [] 0 ∅.

Lemma pruneStaleServers_spec_witness :
  activeServer (pruneStaleServersPreservingActive plain_config [plain_subscription]).1
  = activeServer plain_config.
Proof.
  exact (proj1 (proj2 (proj2 (proj2
    (pruneStaleServers_spec plain_config [plain_subscription] true)))) eq_refl).
Defined.

Lemma resyncServersFromSubs_converges_witness :
  (@resyncServersFromSubs plain_digest plain_config [plain_subscription]).2 = 1%nat /\
  (@resyncServersFromSubs plain_digest
     (@resyncServersFromSubs plain_digest plain_config [plain_subscription]).1
     [plain_subscription]).2 = O.
Proof.
  split; [vm_compute; reflexivity|].
  pose proof (@resyncServersFromSubs_converges plain_digest plain_config [plain_subscription]) as H.
  change (@resyncServersFromSubs plain_digest plain_config [plain_subscription]) with
    ((@resyncServersFromSubs plain_digest plain_config [plain_subscription]).1, 1%nat) in H.
  refine (f_equal snd (proj2 (proj2 (proj2 (proj2 H))) _)).
  apply NoDup_singleton.
Defined.
