(* ===== verification/Auth.v ===== *)
(** * Authentication: [auth.go], and the guard and the login of [api.go]

    [authService] is what [a.mu] protects: the sessions and the failed attempts
    per client address.  Every method is one definition; the clock is an
    argument.  The router's own authentication ([Authenticate]), the random
    token and the order in which Go visits a map are parameters. *)

From Stdlib Require Import Ascii.
From S2P Require Import Prelude GoStrings Settings.

#[local] Open Scope Z_scope.

Record authSession := mkSession { ss_Login : string; ss_ExpiresAt : Time }.

Record authAttempt := mkAttempt {
  at_Failures : Z;
  at_BlockedTil : Time;
  at_LastSeen : Time
}.

Definition zeroAttempt : authAttempt := mkAttempt 0 zero_time zero_time.

Definition maxAuthSessions : nat := 128.
Definition maxAuthAttempts : nat := 256.

Record authService := mkAuth {
  au_sessions : gmap string authSession;
  au_attempts : gmap string authAttempt
}.
#[export] Instance authService_eta : Eta authService := fun a =>
  mkAuth (au_sessions a) (au_attempts a).

Definition newAuthService : authService := mkAuth ∅ ∅.

(** A Go [range] over a map: every entry once, in some order. *)
Class RangeOrder (A : Type) := range_order : gmap string A -> list (string * A).
Class RangeLaws {A} (R : RangeOrder A) : Prop :=
  range_entries : forall m, range_order m ≡ₚ map_to_list m.

(** ** The service *)

Definition session_live (now : Time) (s : authSession) : bool := now <? ss_ExpiresAt s.

Definition attempt_kept (now : Time) (t : authAttempt) : bool :=
  negb ((negb (IsZero (at_BlockedTil t)) && (at_BlockedTil t <=? now)) ||
        (IsZero (at_BlockedTil t) && negb (IsZero (at_LastSeen t)) &&
         (10 * Minute <? now - at_LastSeen t))).

Definition cleanupLocked (now : Time) (a : authService) : authService :=
  mkAuth (filter (fun p => session_live now p.2 = true) (au_sessions a))
         (filter (fun p => attempt_kept now p.2 = true) (au_attempts a)).

(** The key of the first least entry, in the order of the range; "" stands for
    "none yet", as in the code. *)
Definition oldest_step {A} (at_ : A -> Time) (acc : string * Time) (entry : string * A)
  : string * Time :=
  let '(key, t) := acc in
  if bool_decide (key = "") || (at_ entry.2 <? t) then (entry.1, at_ entry.2) else acc.

Definition oldest_key {A} `{RangeOrder A} (at_ : A -> Time) (m : gmap string A) : string :=
  (foldl (oldest_step at_) ("", zero_time) (range_order m)).1.

Section Service.
Context `{RangeOrder authSession, RangeOrder authAttempt}.

Definition deleteOldestSessionLocked (a : authService) : authService :=
  a <| au_sessions ::= delete (oldest_key ss_ExpiresAt (au_sessions a)) |>.
Definition deleteOldestAttemptLocked (a : authService) : authService :=
  a <| au_attempts ::= delete (oldest_key at_LastSeen (au_attempts a)) |>.

(** [rand.Read] gave the token, or failed. *)
Definition createSession (token : option string) (login : string) (ttl : Duration) (now : Time)
    (a : authService) : option (string * authSession) * authService :=
  match token with
  | None => (None, a)
  | Some token =>
      let session := mkSession login (now + ttl) in
      let a := cleanupLocked now a in
      let a := if (maxAuthSessions <=? size (au_sessions a))%nat
               then deleteOldestSessionLocked a else a in
      (Some (token, session), a <| au_sessions ::= insert token session |>)
  end.

Definition session (token : string) (ttl : Duration) (now : Time) (a : authService)
  : option authSession * authService :=
  if bool_decide (token = "") then (None, a)
  else
    let a := cleanupLocked now a in
    match au_sessions a !! token with
    | Some s =>
        if session_live now s then
          let s := mkSession (ss_Login s) (now + ttl) in
          (Some s, a <| au_sessions ::= insert token s |>)
        else (None, a <| au_sessions ::= delete token |>)
    | None => (None, a <| au_sessions ::= delete token |>)
    end.

Definition deleteSession (token : string) (a : authService) : authService :=
  a <| au_sessions ::= delete token |>.

(** The remaining time, when the client is blocked. *)
Definition blocked (client : string) (now : Time) (a : authService)
  : option Duration * authService :=
  let a := cleanupLocked now a in
  let attempt := default zeroAttempt (au_attempts a !! client) in
  let remaining := at_BlockedTil attempt - now in
  if 0 <? remaining then (Some remaining, a)
  else if IsZero (at_BlockedTil attempt) then (None, a)
  else (None, a <| au_attempts ::= delete client |>).

Definition fail_attempt (now : Time) (t : authAttempt) : authAttempt :=
  if 5 <=? at_Failures t + 1 then mkAttempt 0 (now + 30 * Second) now
  else mkAttempt (at_Failures t + 1) (at_BlockedTil t) now.

Definition failed (client : string) (now : Time) (a : authService) : authService :=
  let a := cleanupLocked now a in
  let a := match au_attempts a !! client with
           | Some _ => a
           | None => if (maxAuthAttempts <=? size (au_attempts a))%nat
                     then deleteOldestAttemptLocked a else a
           end in
  a <| au_attempts ::= insert client
         (fail_attempt now (default zeroAttempt (au_attempts a !! client))) |>.

Definition succeeded (client : string) (a : authService) : authService :=
  a <| au_attempts ::= delete client |>.

(** ** The guard *)

Definition isPublicAuthPath (path : string) : bool :=
  bool_decide (path = "/api/auth/status") || bool_decide (path = "/api/auth/login") ||
  bool_decide (path = "/api/auth/logout").

Definition session_ttl (st : AppSettings) : Duration := swrap 64 (AuthSessionTTLHours st * Hour).

(** [ServeHTTP] after the origin check: [true] lets the request through. *)
Definition authorize (st : AppSettings) (path : string) (cookie : option string) (now : Time)
    (a : authService) : bool * authService :=
  if HasPrefix path "/api/" && negb (isPublicAuthPath path) && AuthEnabled st then
    match cookie with
    | None => (false, a)
    | Some token => let '(s, a) := session token (session_ttl st) now a in
                    (match s with Some _ => true | None => false end, a)
    end
  else (true, a).

(** ** The login *)

Inductive auth_answer := AuthOk | AuthInvalid | AuthUnavailable.

Inductive login_reply :=
| NotEnabled
| TooManyAttempts (retry_after : Z)
| BadLogin
| InvalidCredentials
| BackendFailed
| NoSession
| LoggedIn (token : string) (s : authSession).

(** The part before the router is asked: a reply, or the request goes on. *)
Definition loginBegin (st : AppSettings) (diagnostics : bool) (client : string)
    (request : option (string * string)) (now : Time) (a : authService)
  : option login_reply * authService :=
  if negb (AuthEnabled st) && negb diagnostics then (Some NotEnabled, a)
  else
    let '(remaining, a) := blocked client now a in
    match remaining with
    | Some d => (Some (TooManyAttempts (Z.max 1 (Z.quot d Second))), a)
    | None =>
        match request with
        | None => (Some BadLogin, a)
        | Some (login, password) =>
            if bool_decide (TrimSpace login = "") || bool_decide (password = "")
            then (Some BadLogin, a) else (None, a)
        end
    end.

(** The router is asked again once, when it could not answer and there is time. *)
Definition askRouter (first second : auth_answer) (in_time : bool) : auth_answer :=
  match first with
  | AuthUnavailable => if in_time then second else AuthUnavailable
  | _ => first
  end.

Definition loginEnd (st : AppSettings) (client login : string) (answer : auth_answer)
    (token : option string) (now : Time) (a : authService) : login_reply * authService :=
  match answer with
  | AuthInvalid => (InvalidCredentials, failed client now a)
  | AuthUnavailable => (BackendFailed, a)
  | AuthOk =>
      let a := succeeded client a in
      match createSession token (TrimSpace login) (session_ttl st) now a with
      | (None, a) => (NoSession, a)
      | (Some (token, s), a) => (LoggedIn token s, a)
      end
  end.
End Service.

(** ** Runs of the service *)

Inductive auth_event :=
| Request (st : AppSettings) (path : string) (cookie : option string)
| StatusQuery (st : AppSettings) (cookie : option string)
| LoginChecked (st : AppSettings) (diagnostics : bool) (client : string)
    (request : option (string * string))
| LoginAnswered (st : AppSettings) (client login : string) (first second : auth_answer)
    (in_time : bool) (token : option string)
| Logout (cookie : option string).

(** What the caller sees of an event that matters here: it was let through, or
    its login went on to the router. *)
Definition auth_step `{RangeOrder authSession, RangeOrder authAttempt} (a : authService)
    (e : Time * auth_event) : bool * authService :=
  let now := e.1 in
  match e.2 with
  | Request st path cookie => authorize st path cookie now a
  | StatusQuery st cookie =>
      match cookie with
      | Some token => if AuthEnabled st
                      then let '(s, a) := session token (session_ttl st) now a in
                           (match s with Some _ => true | None => false end, a)
                      else (true, a)
      | None => (negb (AuthEnabled st), a)
      end
  | LoginChecked st d client request =>
      let '(reply, a) := loginBegin st d client request now a in
      (match reply with Some _ => false | None => true end, a)
  | LoginAnswered st client login first second in_time token =>
      let '(reply, a) :=
        loginEnd st client login (askRouter first second in_time) token now a in
      (match reply with LoggedIn _ _ => true | _ => false end, a)
  | Logout cookie =>
      (true, match cookie with Some token => deleteSession token a | None => a end)
  end.

Definition auth_run `{RangeOrder authSession, RangeOrder authAttempt}
    (a : authService) (trace : list (Time * auth_event)) : authService :=
  foldl (fun a e => (auth_step a e).2) a trace.

(** The reference: until when a token is good, from the history alone, newest
    event first.  A login sets the expiry, a use before the expiry moves it, a
    use after it or a logout ends it; an empty cookie names no session. *)
Definition renew (token token' : string) (now : Time) (ttl : Duration) (before : option Time)
  : option Time :=
  if bool_decide (token = token') && negb (bool_decide (token' = "")) then
    e ← before; if now <? e then Some (now + ttl) else None
  else before.

Fixpoint good_until (token : string) (history : list (Time * auth_event)) : option Time :=
  match history with
  | [] => None
  | (now, e) :: history =>
      let before := good_until token history in
      match e with
      | Request st path (Some token') =>
          if HasPrefix path "/api/" && negb (isPublicAuthPath path) && AuthEnabled st
          then renew token token' now (session_ttl st) before else before
      | StatusQuery st (Some token') =>
          if AuthEnabled st then renew token token' now (session_ttl st) before else before
      | LoginAnswered st _ _ first second in_time (Some token') =>
          match askRouter first second in_time with
          | AuthOk => if bool_decide (token = token') then Some (now + session_ttl st) else before
          | _ => before
          end
      | Logout (Some token') => if bool_decide (token = token') then None else before
      | _ => before
      end
  end.

(** ** Guessing passwords: one login after the other, all wrong *)

Record guess := mkGuess {
  gs_client : string; gs_login : string; gs_password : string;
  gs_checked : Time; gs_answered : Time
}.

(** The state and the guesses the router was asked about, newest first. *)
Definition guess_step `{RangeOrder authSession, RangeOrder authAttempt} (st : AppSettings)
    (acc : authService * list guess) (g : guess) : authService * list guess :=
  let '(a, asked) := acc in
  match loginBegin st false (gs_client g) (Some (gs_login g, gs_password g)) (gs_checked g) a with
  | (None, a) => ((loginEnd st (gs_client g) (gs_login g) AuthInvalid None (gs_answered g) a).2,
                  g :: asked)
  | (Some _, a) => (a, asked)
  end.

Definition guesses `{RangeOrder authSession, RangeOrder authAttempt} (st : AppSettings)
    (gs : list guess) : list guess :=
  (foldl (guess_step st) (newAuthService, []) gs).2.

(** Each guess is checked after the one before it was answered. *)
Fixpoint in_turn (now : Time) (gs : list guess) : Prop :=
  match gs with
  | [] => True
  | g :: gs => now <= gs_checked g /\ gs_checked g <= gs_answered g /\ in_turn (gs_answered g) gs
  end.

Definition of_client (c : string) (gs : list guess) : list guess :=
  filter (fun g => gs_client g = c) gs.

(** ** Lemmas *)

Lemma oldest_key_in {A} `{R : RangeOrder A, !RangeLaws R} (at_ : A -> Time) (m : gmap string A) :
  m <> ∅ -> is_Some (m !! oldest_key at_ m).
Proof.
  intros Hm. unfold oldest_key.
  assert (Hfold : forall (l : list (string * A)) acc,
    (foldl (oldest_step at_) acc l).1 ∈ acc.1 :: (fst <$> l) /\
    (l <> [] -> acc.1 = "" -> (foldl (oldest_step at_) acc l).1 ∈ fst <$> l)).
  { induction l as [|p l IH]; intros [key t]; cbn [foldl fst]; [split; [left|done]|].
    unfold oldest_step at 2 4. cbn [fst].
    destruct (bool_decide (key = "") || (at_ p.2 <? t)) eqn:Hc.
    - destruct (IH (p.1, at_ p.2)) as [H1 _]. cbn [fst] in H1. rewrite fmap_cons.
      split; [by right|done].
    - destruct (IH (key, t)) as [H1 H2]. cbn [fst] in *. split.
      + rewrite fmap_cons. apply elem_of_cons in H1 as [->|H1]; [left|by do 2 right].
      + intros _ ->. by rewrite bool_decide_eq_true_2 in Hc. }
  assert (Hne : range_order m <> []).
  { intros Hnil. apply Hm, map_to_list_empty_iff, Permutation_nil. by rewrite <- (range_entries m), Hnil. }
  destruct (Hfold (range_order m) ("", zero_time)) as [_ Hin].
  specialize (Hin Hne eq_refl). apply list_elem_of_fmap in Hin as ([k x] & -> & Hin).
  rewrite (range_entries m) in Hin. apply elem_of_map_to_list in Hin. by eexists.
Qed.

Lemma size_filter_le {A} (P : string * A -> Prop) `{forall p, Decision (P p)} (m : gmap string A) :
  (size (filter P m) <= size m)%nat.
Proof. rewrite <- !size_dom. apply subseteq_size, dom_filter_subseteq. Qed.

Lemma map_size_insert_le {A} (m : gmap string A) k x : (size (<[k := x]> m) <= S (size m))%nat.
Proof. rewrite map_size_insert. destruct (m !! k); cbn; lia. Qed.

Lemma size_delete_le {A} (m : gmap string A) k : (size (delete k m) <= size m)%nat.
Proof. rewrite map_size_delete. destruct (m !! k); cbn; lia. Qed.

Lemma size_insert_present {A} (m : gmap string A) k x y :
  m !! k = Some y -> size (<[k := x]> m) = size m.
Proof. intros Hk. by rewrite map_size_insert, Hk. Qed.

(** Makes room, then inserts. *)
Lemma size_insert_room {A} `{R : RangeOrder A, !RangeLaws R} (at_ : A -> Time) (m : gmap string A)
    (limit : nat) k x :
  (0 < limit)%nat -> (size m <= limit)%nat ->
  (size (<[k := x]> (if (limit <=? size m)%nat then delete (oldest_key at_ m) m else m)) <= limit)%nat.
Proof.
  intros Hpos Hle. destruct (Nat.leb_spec limit (size m)) as [Hfull|Hroom].
  - assert (Hne : m <> ∅) by (intros ->; rewrite map_size_empty in *; lia).
    destruct (oldest_key_in at_ m Hne) as [y Hy].
    assert (Hd : size m = S (size (delete (oldest_key at_ m) m))).
    { rewrite map_size_delete, Hy. cbn. destruct (size m); [lia|done]. }
    pose proof (map_size_insert_le (delete (oldest_key at_ m) m) k x). lia.
  - pose proof (map_size_insert_le m k x). lia.
Qed.

Lemma cleanup_sessions now a k s :
  au_sessions (cleanupLocked now a) !! k = Some s <->
  au_sessions a !! k = Some s /\ now < ss_ExpiresAt s.
Proof.
  unfold cleanupLocked, session_live; cbn [au_sessions]. rewrite map_lookup_filter_Some; cbn [snd].
  by rewrite Z.ltb_lt.
Qed.

Lemma cleanup_attempts now a k t :
  au_attempts (cleanupLocked now a) !! k = Some t <->
  au_attempts a !! k = Some t /\ attempt_kept now t = true.
Proof. unfold cleanupLocked; cbn [au_attempts]. by rewrite map_lookup_filter_Some. Qed.

Section Sound.
Context `{RangeOrder authSession, RangeOrder authAttempt}.

(** What the sessions claim is what the history gives. *)
Definition claims (good : string -> option Time) (a : authService) : Prop :=
  forall k s, au_sessions a !! k = Some s -> good k = Some (ss_ExpiresAt s).

Lemma claims_sub good a a' : au_sessions a' ⊆ au_sessions a -> claims good a -> claims good a'.
Proof. intros Hsub Ha k s Hk. eapply Ha, lookup_weaken; eassumption. Qed.

Lemma cleanup_sub now a : au_sessions (cleanupLocked now a) ⊆ au_sessions a.
Proof. apply map_filter_subseteq. Qed.

Lemma blocked_sessions client now a :
  au_sessions (blocked client now a).2 = au_sessions (cleanupLocked now a).
Proof. unfold blocked. cbv zeta. by repeat case_match. Qed.

Lemma failed_sessions client now a :
  au_sessions (failed client now a) = au_sessions (cleanupLocked now a).
Proof. unfold failed. cbv zeta. by repeat case_match. Qed.

Lemma loginBegin_sub st d client request now a :
  au_sessions (loginBegin st d client request now a).2 ⊆ au_sessions a.
Proof.
  unfold loginBegin. destruct (_ && _); [done|].
  pose proof (blocked_sessions client now a) as Hb. destruct (blocked client now a) as [r a'].
  cbn [snd] in Hb. pose proof (cleanup_sub now a) as Hsub. rewrite <- Hb in Hsub.
  by destruct r, request as [[login password]|]; repeat case_match.
Qed.

Lemma session_claims good token ttl now a :
  claims good a ->
  claims (fun k => renew k token now ttl (good k)) (session token ttl now a).2 /\
  (is_Some (session token ttl now a).1 -> exists e, good token = Some e /\ now < e).
Proof.
  intros Ha. unfold session, renew. cbv zeta. destruct (decide (token = "")) as [->|Hne].
  { rewrite bool_decide_eq_true_2 by done. split; [|by intros [? ?]].
    intros k s Hk. rewrite andb_false_r. by apply Ha. }
  rewrite (bool_decide_eq_false_2 (token = "")) by done. cbn [negb].
  assert (Hdel : claims (fun k => if bool_decide (k = token) && true then
      e ← good k; if now <? e then Some (now + ttl) else None else good k)
      (cleanupLocked now a <| au_sessions ::= delete token |>)).
  { intros k s. unfold upd; cbn [au_sessions]. intros [Hk Hs]%lookup_delete_Some.
    rewrite bool_decide_eq_false_2 by done. cbn [andb].
    by apply cleanup_sessions in Hs as [?%Ha _]. }
  destruct (au_sessions (cleanupLocked now a) !! token) as [s|] eqn:Hs;
    [|split; [done|by intros [? ?]]].
  apply cleanup_sessions in Hs as [Hs Hlive]. apply Ha in Hs.
  unfold session_live. rewrite (proj2 (Z.ltb_lt _ _) Hlive). split; [|by eexists].
  intros k s'. unfold upd; cbn [au_sessions snd].
  intros [[<- <-]|[Hk Hs']]%lookup_insert_Some.
  - rewrite bool_decide_eq_true_2 by done. cbn [andb]. rewrite Hs. cbn.
    by rewrite (proj2 (Z.ltb_lt _ _) Hlive).
  - rewrite bool_decide_eq_false_2 by done. cbn [andb]. by apply cleanup_sessions in Hs' as [?%Ha _].
Qed.

Lemma createSession_claims good token login ttl now a :
  claims good a ->
  claims (fun k => if bool_decide (Some k = token) then Some (now + ttl) else good k)
         (createSession token login ttl now a).2.
Proof.
  intros Ha k s. unfold createSession. destruct token as [token|]; cbn [snd].
  2: { rewrite bool_decide_eq_false_2 by done. apply Ha. }
  unfold upd; cbn [au_sessions]. intros [[<- <-]|[Hk Hs]]%lookup_insert_Some.
  - by rewrite bool_decide_eq_true_2.
  - rewrite bool_decide_eq_false_2 by congruence.
    apply (claims_sub good a _ (cleanup_sub now a) Ha). case_match; [|done].
    unfold deleteOldestSessionLocked, upd in Hs; cbn [au_sessions] in Hs.
    by apply lookup_delete_Some in Hs as [_ ?].
Qed.

Lemma auth_step_claims history a e :
  claims (fun k => good_until k history) a ->
  claims (fun k => good_until k (e :: history)) (auth_step a e).2.
Proof.
  intros Ha. destruct e as [now [st path cookie|st cookie|st d client request
    |st client login first second in_time token|cookie]]; unfold auth_step; cbn [fst snd good_until].
  - unfold authorize. destruct (_ && _) eqn:Hg; [|by destruct cookie].
    destruct cookie as [token|]; [|done].
    pose proof (session_claims _ token (session_ttl st) now a Ha) as [Hs _]. by destruct (session _ _ _ _).
  - destruct cookie as [token|]; [|done]. destruct (AuthEnabled st); [|done].
    pose proof (session_claims _ token (session_ttl st) now a Ha) as [Hs _]. by destruct (session _ _ _ _).
  - pose proof (claims_sub _ a _ (loginBegin_sub st d client request now a) Ha) as Hs.
    by destruct (loginBegin _ _ _ _ _ _).
  - unfold loginEnd. destruct (askRouter first second in_time); cbn [snd].
    + pose proof (createSession_claims _ token (TrimSpace login) (session_ttl st) now
        (succeeded client a) Ha) as Hs.
      destruct (createSession _ _ _ _ _) as [[[? ?]|] a']; cbn [snd] in Hs |- *; intros k s' Hk;
        specialize (Hs k s' Hk); destruct token as [token|]; try done;
        destruct (decide (k = token)) as [->|Hne].
      all: try by rewrite !bool_decide_eq_true_2 in * by done.
      all: by rewrite !bool_decide_eq_false_2 in * by congruence.
    + assert (Hsub : au_sessions (failed client now a) ⊆ au_sessions a)
        by (rewrite failed_sessions; apply cleanup_sub).
      pose proof (claims_sub _ a _ Hsub Ha). by destruct token.
    + by destruct token.
  - destruct cookie as [token|]; [|done]. intros k s. unfold deleteSession, upd; cbn [au_sessions snd].
    intros [Hk Hs]%lookup_delete_Some. rewrite bool_decide_eq_false_2 by done. by apply Ha.
Qed.

Lemma auth_run_snoc a trace e :
  auth_run a (trace ++ [e]) = (auth_step (auth_run a trace) e).2.
Proof. unfold auth_run. by rewrite foldl_app. Qed.

Lemma auth_run_claims trace :
  claims (fun k => good_until k (reverse trace)) (auth_run newAuthService trace).
Proof.
  induction trace as [|e trace IH] using rev_ind; [by intros k s ?|].
  rewrite auth_run_snoc, reverse_snoc. by apply auth_step_claims.
Qed.
End Sound.

Section Bounded.
Context `{RS : RangeOrder authSession, RA : RangeOrder authAttempt, !RangeLaws RS, !RangeLaws RA}.

Definition bounded (a : authService) : Prop :=
  (size (au_sessions a) <= maxAuthSessions)%nat /\ (size (au_attempts a) <= maxAuthAttempts)%nat.

Lemma cleanup_bounded now a : bounded a -> bounded (cleanupLocked now a).
Proof.
  intros [Hs Ht]. split; cbn; (etransitivity; [apply size_filter_le|done]).
Qed.

Lemma session_bounded token ttl now a : bounded a -> bounded (session token ttl now a).2.
Proof.
  intros Ha. unfold session. cbv zeta. destruct (bool_decide _); [done|].
  destruct (cleanup_bounded now a Ha) as [Hs Ht].
  destruct (au_sessions (cleanupLocked now a) !! token) eqn:Hk;
    [destruct (session_live _ _)|]; (split; [|exact Ht]); unfold upd; cbn [au_sessions snd].
  2,3: pose proof (size_delete_le (au_sessions (cleanupLocked now a)) token); lia.
  by erewrite size_insert_present by done.
Qed.

Lemma createSession_bounded token login ttl now a :
  bounded a -> bounded (createSession token login ttl now a).2.
Proof using Type*.
  intros Ha. unfold createSession. destruct token as [token|]; [|done].
  destruct (cleanup_bounded now a Ha) as [Hs Ht]. cbv zeta. cbn [snd].
  assert (Hroom : (0 < maxAuthSessions)%nat) by (unfold maxAuthSessions; lia).
  pose proof (size_insert_room ss_ExpiresAt (au_sessions (cleanupLocked now a)) maxAuthSessions
    token (mkSession login (now + ttl)) Hroom Hs) as Hi.
  destruct (_ <=? _)%nat; (split; [exact Hi|exact Ht]).
Qed.

Lemma blocked_bounded client now a : bounded a -> bounded (blocked client now a).2.
Proof.
  intros Ha. destruct (cleanup_bounded now a Ha) as [Hs Ht]. unfold blocked. cbv zeta.
  repeat case_match; try done. split; [done|]. unfold upd; cbn [au_attempts snd].
  pose proof (size_delete_le (au_attempts (cleanupLocked now a)) client). lia.
Qed.

Lemma failed_bounded client now a : bounded a -> bounded (failed client now a).
Proof using Type*.
  intros Ha. destruct (cleanup_bounded now a Ha) as [Hs Ht]. unfold failed. cbv zeta.
  destruct (au_attempts (cleanupLocked now a) !! client) eqn:Hk.
  - split; [exact Hs|]. unfold upd; cbn [au_attempts]. by erewrite size_insert_present by done.
  - assert (Hroom : (0 < maxAuthAttempts)%nat) by (unfold maxAuthAttempts; lia).
    destruct (_ <=? _)%nat eqn:Hfull; (split; [exact Hs|]);
      unfold upd; cbn [au_attempts];
      epose proof (size_insert_room at_LastSeen (au_attempts (cleanupLocked now a)) maxAuthAttempts
        client _ Hroom Ht) as Hi; rewrite Hfull in Hi; exact Hi.
Qed.

Lemma auth_step_bounded a e : bounded a -> bounded (auth_step a e).2.
Proof using Type*.
  intros Ha. destruct e as [now [st path cookie|st cookie|st d client request
    |st client login first second in_time token|cookie]]; unfold auth_step; cbn [fst snd].
  - unfold authorize. destruct (_ && _); [|done]. destruct cookie as [token|]; [|done].
    pose proof (session_bounded token (session_ttl st) now a Ha). by destruct (session _ _ _ _).
  - destruct cookie as [token|]; [|done]. destruct (AuthEnabled st); [|done].
    pose proof (session_bounded token (session_ttl st) now a Ha). by destruct (session _ _ _ _).
  - unfold loginBegin. destruct (_ && _); [done|].
    pose proof (blocked_bounded client now a Ha). destruct (blocked _ _ _) as [[?|] ?]; [done|].
    destruct request as [[? ?]|]; [|done]. by destruct (_ || _).
  - unfold loginEnd. destruct (askRouter first second in_time); [|by apply failed_bounded|done].
    assert (Hd : bounded (succeeded client a)).
    { destruct Ha as [Hs Ht]. split; [done|]. unfold succeeded, upd; cbn [au_attempts].
      pose proof (size_delete_le (au_attempts a) client). lia. }
    pose proof (createSession_bounded token (TrimSpace login) (session_ttl st) now _ Hd).
    by destruct (createSession _ _ _ _ _) as [[[? ?]|] ?].
  - destruct cookie as [token|]; [|done]. destruct Ha as [Hs Ht]. split; [|done].
    unfold deleteSession, upd; cbn [au_sessions snd].
    pose proof (size_delete_le (au_sessions a) token). lia.
Qed.

Lemma auth_run_bounded trace : bounded (auth_run newAuthService trace).
Proof using Type*.
  induction trace as [|e trace IH] using rev_ind.
  - split; cbn; rewrite map_size_empty; lia.
  - rewrite auth_run_snoc. by apply auth_step_bounded.
Qed.
End Bounded.

(** C25. A request let through carries a session that the history gives; the two
    tables never outgrow their limits. *)
Theorem sessions_sound `{RS : RangeOrder authSession, RA : RangeOrder authAttempt,
    !RangeLaws RS, !RangeLaws RA} trace :
  let a := auth_run newAuthService trace in
  let good token := good_until token (reverse trace) in
  (size (au_sessions a) <= maxAuthSessions)%nat /\
  (size (au_attempts a) <= maxAuthAttempts)%nat /\
  (forall token s, au_sessions a !! token = Some s -> good token = Some (ss_ExpiresAt s)) /\
  (forall st path cookie now,
     HasPrefix path "/api/" = true -> isPublicAuthPath path = false -> AuthEnabled st = true ->
     (authorize st path cookie now a).1 = true ->
     exists token e, cookie = Some token /\ good token = Some e /\ now < e).
Proof.
  cbv zeta. destruct (auth_run_bounded trace) as [Hs Ht]. repeat split; [done|done| |].
  - apply auth_run_claims.
  - intros st path cookie now Hapi Hpublic Hon. unfold authorize. rewrite Hapi, Hpublic, Hon.
    cbn [negb andb]. destruct cookie as [token|]; [|done].
    destruct (session_claims _ token (session_ttl st) now _ (auth_run_claims trace)) as [_ Hgood].
    destruct (session _ _ _ _) as [[s|] a']; [|done]. intros _.
    destruct Hgood as (e & He & Hlt); [by eexists|]. by exists token, e.
Qed.

(** ** The lockout *)

Section Lockout.
Context `{RS : RangeOrder authSession, RA : RangeOrder authAttempt}.

Definition attempt_of (a : authService) (c : string) : authAttempt :=
  default zeroAttempt (au_attempts a !! c).

Definition cleaned (now : Time) (t : authAttempt) : authAttempt :=
  if attempt_kept now t then t else zeroAttempt.

Lemma attempt_of_cleanup now a c : attempt_of (cleanupLocked now a) c = cleaned now (attempt_of a c).
Proof.
  unfold attempt_of, cleaned. destruct (au_attempts (cleanupLocked now a) !! c) as [t|] eqn:Ht.
  - apply cleanup_attempts in Ht as [-> Hk]. change (default zeroAttempt (Some t)) with t. by rewrite Hk.
  - destruct (au_attempts a !! c) as [t|] eqn:Ha.
    + change (default zeroAttempt (Some t)) with t. destruct (attempt_kept now t) eqn:Hk; [|done].
      exfalso. rewrite (proj2 (cleanup_attempts now a c t)) in Ht by done. done.
    + by case_match.
Qed.

(** [asked]: the guesses of one client the router was asked about, newest
    first: those counted in [Failures], then older ones. *)
Definition accounted (now : Time) (t : authAttempt) (asked : list guess) : Prop :=
  exists recent older, asked = recent ++ older /\ Z.of_nat (length recent) = at_Failures t /\
    (length recent <= 4)%nat /\ at_LastSeen t <= now /\
    Forall (fun g => gs_answered g <= at_LastSeen t) recent /\
    (at_BlockedTil t = zero_time /\ Forall (fun g => gs_answered g + 30 * Second <= now) older \/
     recent = [] /\ at_BlockedTil t <> zero_time /\
     Forall (fun g => gs_answered g + 30 * Second <= at_BlockedTil t) older).

Definition spaced (asked : list guess) : Prop :=
  forall i g g', asked !! i = Some g -> asked !! (i + 5)%nat = Some g' ->
    gs_answered g' + 30 * Second <= gs_checked g.

Lemma accounted_start now : 0 <= now -> accounted now zeroAttempt [].
Proof. intros Hnow. exists [], []. cbn. unfold zero_time. repeat split; try done; [lia|]. by left. Qed.

Lemma accounted_cleaned now now' t asked :
  now <= now' -> 0 <= now' -> accounted now t asked -> accounted now' (cleaned now' t) asked.
Proof.
  intros Hnow Hpos (recent & older & -> & Hlen & Hmax & Hseen & Hrecent & Hcase).
  unfold cleaned, attempt_kept, IsZero. destruct Hcase as [[Hb Hold]|(-> & Hb & Hold)].
  - rewrite Hb, Z.eqb_refl. cbn [negb andb orb].
    destruct (negb (at_LastSeen t =? zero_time) && (10 * Minute <? now' - at_LastSeen t)) eqn:Hc;
      cbn [negb].
    + exists [], (recent ++ older). apply andb_true_iff in Hc as [_ Hc%Z.ltb_lt].
      repeat split; [cbn; lia|done|constructor|left; split; [done|]].
      apply Forall_app. unfold Minute, Second in *. split.
      * eapply Forall_impl; [exact Hrecent|]. cbn. intros g Hg. lia.
      * eapply Forall_impl; [exact Hold|]. cbn. intros g Hg. lia.
    + exists recent, older. repeat split; try done; [lia|]. left. split; [done|].
      eapply Forall_impl; [exact Hold|]. cbn. intros g Hg. lia.
  - rewrite (proj2 (Z.eqb_neq _ _) Hb). cbn [negb andb orb]. rewrite orb_false_r.
    destruct (at_BlockedTil t <=? now') eqn:Hc; cbn [negb].
    + apply Z.leb_le in Hc. exists [], older. repeat split; [cbn; lia|done|constructor|left; split; [done|]].
      eapply Forall_impl; [exact Hold|]. cbn. intros g Hg. lia.
    + exists [], older. repeat split; try done; [lia|]. by right.
Qed.

Lemma accounted_fail now now' t g asked :
  now <= now' -> 0 <= now' -> gs_answered g = now' -> at_BlockedTil t = zero_time ->
  accounted now t asked -> accounted now' (fail_attempt now' t) (g :: asked).
Proof.
  intros Hnow Hpos Hg Hb (recent & older & -> & Hlen & Hmax & Hseen & Hrecent & Hcase).
  destruct Hcase as [[_ Hold]|(_ & Hb' & _)]; [|done].
  unfold fail_attempt. destruct (5 <=? at_Failures t + 1) eqn:Hc.
  - exists [], (g :: recent ++ older). cbn [at_Failures at_LastSeen at_BlockedTil].
    unfold zero_time, Second in *. repeat split; [cbn; lia|lia|constructor|right].
    repeat split; [lia|]. constructor; [lia|]. apply Forall_app. split.
    + eapply Forall_impl; [exact Hrecent|]. cbn. intros g' Hg'. lia.
    + eapply Forall_impl; [exact Hold|]. cbn. intros g' Hg'. lia.
  - apply Z.leb_gt in Hc. exists (g :: recent), older. cbn [at_Failures at_LastSeen at_BlockedTil length].
    repeat split; [lia|lia|lia| |].
    + constructor; [lia|]. eapply Forall_impl; [exact Hrecent|]. cbn. intros g' Hg'. lia.
    + left. split; [done|]. eapply Forall_impl; [exact Hold|]. cbn. intros g' Hg'. lia.
Qed.

Lemma accounted_spaced now t g asked :
  now <= gs_checked g -> at_BlockedTil t = zero_time ->
  accounted now t asked -> spaced asked -> spaced (g :: asked).
Proof.
  intros Hnow Hb (recent & older & -> & Hlen & Hmax & _ & _ & Hcase) Hsp [|i] g1 g2.
  - intros [= <-] H5. change ((recent ++ older) !! 4%nat = Some g2) in H5. destruct Hcase as [[_ Hold]|(_ & Hb' & _)]; [|done].
    rewrite lookup_app_r in H5 by lia. apply list_elem_of_lookup_2 in H5.
    rewrite Forall_forall in Hold. specialize (Hold _ H5). lia.
  - apply (Hsp i).
Qed.

Lemma attempt_of_succ c c' t a :
  attempt_of (a <| au_attempts ::= insert c t |>) c' =
  if decide (c' = c) then t else attempt_of a c'.
Proof.
  unfold attempt_of, upd; cbn [au_attempts]. case_decide as Hc.
  - subst. by rewrite lookup_insert_eq.
  - by rewrite lookup_insert_ne by done.
Qed.

Lemma blocked_free client now a :
  (blocked client now a).1 = None ->
  (blocked client now a).2 = cleanupLocked now a /\
  at_BlockedTil (attempt_of (cleanupLocked now a) client) = zero_time.
Proof.
  unfold blocked. cbv zeta. fold (attempt_of (cleanupLocked now a) client).
  set (t := attempt_of (cleanupLocked now a) client).
  assert (Ht : attempt_kept now t = true).
  { unfold t. rewrite attempt_of_cleanup. unfold cleaned. by case_match. }
  destruct (0 <? at_BlockedTil t - now) eqn:Hr; [done|]. apply Z.ltb_ge in Hr.
  unfold attempt_kept, IsZero in Ht |- *.
  destruct (at_BlockedTil t =? zero_time) eqn:Hz; [by apply Z.eqb_eq in Hz|].
  rewrite (proj2 (Z.leb_le (at_BlockedTil t) now)) in Ht by lia. done.
Qed.

(** With the clients among [clients], a table that holds them all never evicts. *)
Lemma failed_attempts client clients now a :
  dom (au_attempts a) ⊆ clients -> client ∈ clients -> (size clients <= maxAuthAttempts)%nat ->
  dom (au_attempts (failed client now a)) ⊆ clients /\
  forall c, attempt_of (failed client now a) c =
    let t := cleaned now (attempt_of a c) in
    if decide (c = client) then fail_attempt now t else t.
Proof.
  intros Hdom Hin Hsize. unfold failed. cbv zeta.
  assert (Hsub : dom (au_attempts (cleanupLocked now a)) ⊆ clients).
  { etransitivity; [|exact Hdom]. apply dom_filter_subseteq. }
  assert (Hroom : match au_attempts (cleanupLocked now a) !! client with
      | Some _ => cleanupLocked now a
      | None => if (maxAuthAttempts <=? size (au_attempts (cleanupLocked now a)))%nat
                then deleteOldestAttemptLocked (cleanupLocked now a) else cleanupLocked now a
      end = cleanupLocked now a).
  { destruct (_ !! client) eqn:Hc; [done|].
    rewrite (proj2 (Nat.leb_gt _ _)); [done|]. rewrite <- size_dom.
    apply not_elem_of_dom in Hc.
    assert (Hs : {[client]} ∪ dom (au_attempts (cleanupLocked now a)) ⊆ clients) by set_solver.
    apply subseteq_size in Hs. rewrite size_union, size_singleton in Hs by set_solver. lia. }
  rewrite Hroom. split.
  - unfold upd; cbn [au_attempts]. rewrite dom_insert. set_solver.
  - intros c. rewrite attempt_of_succ. case_decide as Hc; [subst|]; by rewrite <- attempt_of_cleanup.
Qed.

Definition guesses_ok (clients : gset string) (now : Time) (a : authService) (asked : list guess)
  : Prop :=
  dom (au_attempts a) ⊆ clients /\
  forall c, accounted now (attempt_of a c) (of_client c asked) /\ spaced (of_client c asked).

Lemma accounted_mono now now' t asked :
  now <= now' -> accounted now t asked -> accounted now' t asked.
Proof.
  intros Hnow (recent & older & -> & Hlen & Hmax & Hseen & Hrecent & Hcase).
  exists recent, older. repeat split; try done; [lia|].
  destruct Hcase as [[Hb Hold]|?]; [left; split; [done|]|by right].
  eapply Forall_impl; [exact Hold|]. cbn. intros g Hg. lia.
Qed.

Lemma loginBegin_attempts st d client request now a :
  let r := loginBegin st d client request now a in
  (r.2 = a /\ is_Some r.1) \/
  (r.2 = cleanupLocked now a /\
   (r.1 = None -> at_BlockedTil (attempt_of (cleanupLocked now a) client) = zero_time)).
Proof.
  cbv zeta. unfold loginBegin. destruct (_ && _); [left; split; [done|by eexists]|right].
  pose proof (blocked_free client now a) as Hfree.
  assert (Hsome : is_Some (blocked client now a).1 -> (blocked client now a).2 = cleanupLocked now a).
  { unfold blocked. cbv zeta. repeat case_match; intros [? ?]; done. }
  destruct (blocked client now a) as [[r|] a']; cbn [fst snd] in *.
  - split; [apply Hsome; by eexists|done].
  - destruct (Hfree eq_refl) as [-> Hz]. destruct request as [[? ?]|]; [|done].
    destruct (_ || _); by split.
Qed.

Lemma of_client_cons c g gs :
  of_client c (g :: gs) = if decide (gs_client g = c) then g :: of_client c gs else of_client c gs.
Proof. unfold of_client. rewrite filter_cons. done. Qed.

Lemma guess_step_ok st clients now a asked g :
  (size clients <= maxAuthAttempts)%nat -> gs_client g ∈ clients -> 0 <= now ->
  now <= gs_checked g -> gs_checked g <= gs_answered g ->
  guesses_ok clients now a asked ->
  let '(a', asked') := guess_step st (a, asked) g in guesses_ok clients (gs_answered g) a' asked'.
Proof.
  intros Hsize Hin Hnow Hck Han [Hdom Hok]. unfold guess_step.
  pose proof (loginBegin_attempts st false (gs_client g) (Some (gs_login g, gs_password g))
    (gs_checked g) a) as Hb.
  destruct (loginBegin _ _ _ _ _ _) as [reply a1]; cbn [fst snd] in Hb.
  assert (Hclean : guesses_ok clients (gs_checked g) (cleanupLocked (gs_checked g) a) asked).
  { split; [etransitivity; [apply dom_filter_subseteq|done]|]. intros c. destruct (Hok c) as [Hacc Hsp].
    split; [|done]. rewrite attempt_of_cleanup. apply (accounted_cleaned now); [lia|lia|done]. }
  assert (Hlater : forall now a, now <= gs_answered g -> guesses_ok clients now a asked ->
    guesses_ok clients (gs_answered g) a asked).
  { intros now' a' Hle [Hd Ha']. split; [done|]. intros c. destruct (Ha' c) as [Hacc Hsp].
    split; [|done]. by apply (accounted_mono now'). }
  destruct Hb as [[-> [r ->]]|[-> Hfree]]; [apply (Hlater now); [lia|by split]|].
  destruct reply as [r|]; [by apply (Hlater (gs_checked g))|]. specialize (Hfree eq_refl).
  cbn [loginEnd snd]. destruct Hclean as [Hd Hok'].
  destruct (failed_attempts (gs_client g) clients (gs_answered g) _ Hd Hin Hsize) as [Hd' Hat].
  split; [exact Hd'|]. intros c. rewrite Hat, of_client_cons. cbv zeta. destruct (Hok' c) as [Hacc Hsp].
  assert (Hacc' : accounted (gs_answered g)
    (cleaned (gs_answered g) (attempt_of (cleanupLocked (gs_checked g) a) c)) (of_client c asked)).
  { apply (accounted_cleaned (gs_checked g)); [lia|lia|done]. }
  destruct (decide (gs_client g = c)) as [<-|Hne].
  - rewrite decide_True by done. split.
    + apply (accounted_fail (gs_answered g)); try done; [lia|]. unfold cleaned. by case_match.
    + eapply accounted_spaced; [|exact Hfree|exact Hacc|exact Hsp]. lia.
  - rewrite decide_False by done. by split.
Qed.

Lemma guesses_run_ok st clients gs now a asked :
  (size clients <= maxAuthAttempts)%nat -> Forall (fun g => gs_client g ∈ clients) gs -> 0 <= now ->
  in_turn now gs -> guesses_ok clients now a asked ->
  exists now' a', guesses_ok clients now' a' (foldl (guess_step st) (a, asked) gs).2.
Proof.
  intros Hsize. revert now a asked. induction gs as [|g gs IH]; intros now a asked Hall Hnow Hturn Hok.
  { by exists now, a. }
  apply Forall_cons in Hall as [Hg Hall]. destruct Hturn as (Hck & Han & Hturn). cbn [foldl].
  pose proof (guess_step_ok st clients now a asked g Hsize Hg Hnow Hck Han Hok) as Hstep.
  destruct (guess_step st (a, asked) g) as [a' asked']. eapply IH; [done| |done|done]. lia.
Qed.
End Lockout.


(** The check and the count are two sections: logins that start together are
    all checked before any is counted, and every one of them asks the router. *)
Theorem login_race `{RangeOrder authSession, RangeOrder authAttempt} st client login password now n :
  AuthEnabled st = true -> TrimSpace login <> "" -> password <> "" -> 0 <= now ->
  let begin := (now, LoginChecked st false client (Some (login, password))) in
  Forall (fun a => (auth_step a begin).1 = true)
    (map (fun k => auth_run newAuthService (repeat begin k)) (seq 0 n)).
Proof.
  intros Hon Hlogin Hpass Hnow. cbv zeta.
  set (begin := (now, LoginChecked st false client (Some (login, password)))).
  assert (Hstep : auth_step newAuthService begin = (true, newAuthService)).
  { unfold auth_step, loginBegin, begin. cbn [fst snd]. rewrite Hon. cbn [negb andb].
    unfold blocked. cbv zeta.
    assert (Hc : cleanupLocked now newAuthService = newAuthService) by (unfold cleanupLocked; cbn; by rewrite !map_filter_empty).
    rewrite Hc. cbn [newAuthService au_attempts]. rewrite lookup_empty. cbn [default].
    rewrite !bool_decide_eq_false_2 by done.
    change (at_BlockedTil (default zeroAttempt None)) with zero_time. cbn [orb].
    cbn [at_BlockedTil zeroAttempt].
    by destruct (Z.ltb_spec 0 (zero_time - now)); [unfold zero_time in *; lia|]. }
  assert (Hrun : forall k, auth_run newAuthService (repeat begin k) = newAuthService).
  { induction k as [|k IH]; [done|]. cbn [repeat]. unfold auth_run in *. cbn [foldl]. by rewrite Hstep. }
  apply Forall_forall. intros a (k & -> & _)%list_elem_of_fmap. by rewrite Hrun, Hstep.
Qed.

(** ** Concrete runs *)

Definition any_order {A} : RangeOrder A := map_to_list.

Lemma any_order_laws {A} : @RangeLaws A any_order.
Proof. by intros m. Qed.

Definition guarded : AppSettings := defaultSettings <| AuthEnabled := true |>.

Definition one_login : list (Time * auth_event) :=
  [(1, LoginAnswered guarded "10.0.0.2" "admin" AuthUnavailable AuthOk true (Some "token"))].

Lemma sessions_sound_witness :
  (authorize guarded "/api/status" (Some "token") 2
     (@auth_run any_order any_order newAuthService one_login)).1 = true /\
  exists token e, Some "token" = Some token /\
    good_until token (reverse one_login) = Some e /\ 2 < e.
Proof.
  assert (Hok : (authorize guarded "/api/status" (Some "token") 2
     (@auth_run any_order any_order newAuthService one_login)).1 = true) by (vm_compute; reflexivity).
  split; [exact Hok|].
  destruct (@sessions_sound any_order any_order any_order_laws any_order_laws one_login)
    as (_ & _ & _ & Hguard).
  exact (Hguard guarded "/api/status" (Some "token") 2 eq_refl eq_refl eq_refl Hok).
Defined.

Definition wrong (second : Z) : guess :=
  mkGuess "10.0.0.2" "admin" "guess" (second * Second) (second * Second).


Lemma login_race_witness :
  Forall (fun a => (@auth_step any_order any_order a
      (0, LoginChecked guarded false "10.0.0.2" (Some ("admin", "guess")))).1 = true)
    (map (fun k => @auth_run any_order any_order newAuthService
      (repeat (0, LoginChecked guarded false "10.0.0.2" (Some ("admin", "guess"))) k)) (seq 0 100)).
Proof. apply (@login_race any_order any_order guarded); [reflexivity|vm_compute; discriminate|discriminate|lia]. Defined.
