(* ===== verification/ServiceLog.v ===== *)
(** * The service log: the ring buffer of [process.go]

    [ringBuffer] keeps the last [logBufSize] entries in an array used as a
    ring.  [contents] is the list a reader sees; the refinement theorem says
    that appending to the ring appends to that list and drops its oldest
    entry when it is full, and that [Entries] is the filter it promises.

    A log field carries the text [fmt.Sprint] gives for its value, [None] for a
    [nil] value.  The mutex makes every operation atomic.  The text of an entry
    and the handler of [api.go] that gives entries out are at the end. *)

From Stdlib Require Import Ascii.
From S2P Require Import Prelude GoStrings.

Definition logBufSize : nat := 500.

Inductive serviceLogLevel :=
| serviceLogError
| serviceLogWarn
| serviceLogInfo
| serviceLogDebug
| serviceLogTrace.

#[export] Instance serviceLogLevel_dec : EqDecision serviceLogLevel.
Proof. solve_decision. Defined.

(** The [iota] value of a level. *)
Definition level_value (l : serviceLogLevel) : nat :=
  match l with
  | serviceLogError => 0
  | serviceLogWarn => 1
  | serviceLogInfo => 2
  | serviceLogDebug => 3
  | serviceLogTrace => 4
  end.

Definition parseServiceLogLevel (value : string) : serviceLogLevel :=
  if bool_decide (value = "error") then serviceLogError
  else if bool_decide (value = "warn") then serviceLogWarn
  else if bool_decide (value = "debug") then serviceLogDebug
  else if bool_decide (value = "trace") then serviceLogTrace
  else serviceLogInfo.

Definition serviceLogLevelName (level : serviceLogLevel) : string :=
  match level with
  | serviceLogError => "ERROR"
  | serviceLogWarn => "WARN"
  | serviceLogDebug => "DEBUG"
  | serviceLogTrace => "TRACE"
  | serviceLogInfo => "INFO"
  end.

Record serviceLogEntry := mkEntry {
  le_Seq : nat;
  le_Timestamp : Time;
  le_Level : string;
  le_Component : string;
  le_Event : string;
  le_Message : string;
  le_Fields : gmap string string
}.

Definition emptyEntry : serviceLogEntry := mkEntry 0 zero_time "" "" "" "" ∅.

Record logField := mkField { lf_key : string; lf_value : option string }.

Record ringBuffer := mkRing {
  rb_entries : list serviceLogEntry;
  rb_head : nat;
  rb_count : nat;
  rb_seq : nat;
  rb_minLevel : serviceLogLevel
}.

#[export] Instance ringBuffer_eta : Eta ringBuffer := fun r =>
  mkRing (rb_entries r) (rb_head r) (rb_count r) (rb_seq r) (rb_minLevel r).

Definition newRingBuffer : ringBuffer :=
  mkRing (replicate logBufSize emptyEntry) 0 0 0 serviceLogInfo.

Definition setLevel (r : ringBuffer) (value : string) : ringBuffer :=
  r <| rb_minLevel := parseServiceLogLevel value |>.

Definition clearRing (r : ringBuffer) : ringBuffer :=
  mkRing (replicate (length (rb_entries r)) emptyEntry) 0 0 (rb_seq r) (rb_minLevel r).

Definition entryFields (fields : list logField) : gmap string string :=
  foldl (fun m f =>
    match lf_value f with
    | Some v => if bool_decide (lf_key f = "") then m else <[lf_key f := v]> m
    | None => m
    end) ∅ fields.

Definition newEntry (seq : nat) (now : Time) (level : serviceLogLevel)
    (component event message : string) (fields : list logField) : serviceLogEntry :=
  mkEntry seq now (serviceLogLevelName level) component event message (entryFields fields).

Definition appendEventLocked (r : ringBuffer) (now : Time) (level : serviceLogLevel)
    (component event message : string) (fields : list logField) : ringBuffer :=
  let seq := S (rb_seq r) in
  let entry := newEntry seq now level component event message fields in
  if bool_decide (rb_count r = logBufSize) then
    mkRing (<[rb_head r := entry]> (rb_entries r)) ((rb_head r + 1) mod logBufSize)
      (rb_count r) seq (rb_minLevel r)
  else
    mkRing (<[(rb_head r + rb_count r) mod logBufSize := entry]> (rb_entries r)) (rb_head r)
      (S (rb_count r)) seq (rb_minLevel r).

Definition logEvent (r : ringBuffer) (now : Time) (level : serviceLogLevel)
    (component event message : string) (fields : list logField) : ringBuffer :=
  if (level_value (rb_minLevel r) <? level_value level)%nat then r
  else appendEventLocked r now level component event message fields.

(** [logEventUnfiltered] takes the lock and appends whatever the level. *)
Definition logEventUnfiltered := appendEventLocked.

Definition splitLogComponent (line : string) : string * string :=
  if HasPrefix line "[" then
    match IndexByte line "]"%char with
    | Some e => if (1 <? e)%nat
                then (string_of (take (e - 1) (drop 1 (bytes_of line))),
                      TrimSpace (string_drop (S e) line))
                else ("manager", line)
    | None => ("manager", line)
    end
  else ("manager", line).

Definition logLine (r : ringBuffer) (now : Time) (level : serviceLogLevel) (line : string)
  : ringBuffer :=
  let '(component, message) := splitLogComponent line in
  logEvent r now level component "message" message [].

Definition Entries (r : ringBuffer) (since : Z) : list serviceLogEntry * nat :=
  let seq := rb_seq r in
  if (Z.of_nat seq <=? since)%Z || (rb_count r =? 0)%nat then ([], seq)
  else
    let start := (Z.of_nat seq - Z.of_nat (rb_count r))%Z in
    let offset := if (start <? since)%Z then Z.to_nat (since - start) else O in
    ((fun i => default emptyEntry (rb_entries r !! ((rb_head r + offset + i) mod logBufSize)))
       <$> List.seq 0 (rb_count r - offset), seq).

(** ** The list a ring stands for *)

Definition slot (r : ringBuffer) (i : nat) : serviceLogEntry :=
  default emptyEntry (rb_entries r !! ((rb_head r + i) mod logBufSize)).

Definition contents (r : ringBuffer) : list serviceLogEntry :=
  slot r <$> List.seq 0 (rb_count r).

(** The entries carry consecutive numbers that end at [rb_seq]. *)
Definition ring_wf (r : ringBuffer) : Prop :=
  length (rb_entries r) = logBufSize /\
  rb_head r < logBufSize /\
  rb_count r <= logBufSize /\
  (rb_count r < logBufSize -> rb_head r = 0) /\
  rb_count r <= rb_seq r /\
  (forall i, i < rb_count r -> le_Seq (slot r i) = rb_seq r - rb_count r + i + 1).

(** The last [n] elements. *)
Definition lastn {A} (n : nat) (l : list A) : list A := drop (length l - n) l.

Lemma size_pos : 0 < logBufSize.
Proof. unfold logBufSize. lia. Qed.
#[local] Opaque logBufSize.

Lemma length_contents r : length (contents r) = rb_count r.
Proof. unfold contents. by rewrite length_fmap, length_seq. Qed.

Lemma contents_lookup r i : i < rb_count r -> contents r !! i = Some (slot r i).
Proof.
  intros Hi. unfold contents. rewrite list_lookup_fmap, lookup_seq_lt by done. done.
Qed.

Lemma slot_insert r i j e :
  length (rb_entries r) = logBufSize ->
  default emptyEntry (<[i := e]> (rb_entries r) !! j) =
  if bool_decide (i = j /\ i < logBufSize) then e
  else default emptyEntry (rb_entries r !! j).
Proof.
  intros Hlen. case_bool_decide as H.
  - destruct H as [-> Hlt]. by rewrite list_lookup_insert_eq by lia.
  - destruct (decide (i = j)) as [->|Hne]; [|by rewrite list_lookup_insert_ne].
    rewrite list_insert_ge; [done|]. rewrite Hlen. destruct (decide (j < logBufSize)); [|lia].
    exfalso. auto.
Qed.

Lemma mod_succ_ne h i :
  h < logBufSize -> S i < logBufSize -> (h + S i) mod logBufSize <> h.
Proof.
  intros Hh Hi Heq. pose proof size_pos.
  destruct (decide (h + S i < logBufSize)) as [Hlt|Hge].
  - rewrite Nat.mod_small in Heq by done. lia.
  - replace (h + S i) with ((h + S i - logBufSize) + 1 * logBufSize) in Heq by lia.
    rewrite Nat.Div0.mod_add, Nat.mod_small in Heq by lia. lia.
Qed.

Lemma mod_full h : h < logBufSize -> (h + logBufSize) mod logBufSize = h.
Proof.
  intros Hh. replace (h + logBufSize) with (h + 1 * logBufSize) by lia.
  by rewrite Nat.Div0.mod_add, Nat.mod_small.
Qed.

Lemma append_slots r now level c e m fs :
  ring_wf r ->
  let r' := appendEventLocked r now level c e m fs in
  let entry := newEntry (S (rb_seq r)) now level c e m fs in
  (rb_count r = logBufSize ->
     rb_count r' = logBufSize /\ forall i, i < logBufSize ->
     slot r' i = if bool_decide (S i = logBufSize) then entry else slot r (S i)) /\
  (rb_count r < logBufSize ->
     rb_count r' = S (rb_count r) /\ rb_head r' = 0 /\ forall i, i <= rb_count r ->
     slot r' i = if bool_decide (i = rb_count r) then entry else slot r i).
Proof.
  intros (Hlen & Hh & Hc & Hh0 & _) r' entry. subst r'. unfold appendEventLocked. cbv zeta.
  fold entry. pose proof size_pos. split; intros Hcase.
  - rewrite bool_decide_eq_true_2 by done. split; [done|]. intros i Hi.
    unfold slot. cbn [rb_entries rb_head]. rewrite slot_insert by done.
    rewrite Nat.Div0.add_mod_idemp_l.
    replace (rb_head r + 1 + i) with (rb_head r + S i) by lia.
    destruct (decide (S i = logBufSize)) as [Hlast|Hne].
    + rewrite Hlast, mod_full by done. by rewrite !bool_decide_eq_true_2.
    + rewrite (bool_decide_eq_false_2 (S i = _)) by done.
      rewrite bool_decide_eq_false_2; [done|]. intros [Heq _].
      symmetry in Heq. apply mod_succ_ne in Heq; [done|done|lia].
  - rewrite bool_decide_eq_false_2 by lia. split; [done|]. split; [by apply Hh0|]. intros i Hi.
    unfold slot. cbn [rb_entries rb_head]. rewrite Hh0 by done. rewrite !Nat.add_0_l.
    rewrite slot_insert by done. rewrite !Nat.mod_small by lia.
    destruct (decide (i = rb_count r)) as [->|Hne].
    + by rewrite !bool_decide_eq_true_2.
    + rewrite !bool_decide_eq_false_2; [done|done|]. intros [? _]. by subst.
Qed.

Lemma append_contents r now level c e m fs :
  ring_wf r ->
  let r' := appendEventLocked r now level c e m fs in
  ring_wf r' /\
  contents r' =
    lastn logBufSize (contents r ++ [newEntry (S (rb_seq r)) now level c e m fs]).
Proof.
  intros Hwf r'. pose proof Hwf as (Hlen & Hh & Hc & Hh0 & Hseq & Hslots). pose proof size_pos.
  destruct (append_slots r now level c e m fs Hwf) as [Hfull Hroom]. fold r' in Hfull, Hroom.
  set (entry := newEntry _ _ _ _ _ _ _) in *.
  assert (Hr' : length (rb_entries r') = logBufSize /\ rb_seq r' = S (rb_seq r)).
  { unfold r', appendEventLocked. case_bool_decide; cbn; by rewrite length_insert. }
  destruct Hr' as [Hlen' Hseq'].
  destruct (decide (rb_count r = logBufSize)) as [Heq|Hne].
  - destruct (Hfull Heq) as [Hcnt Hs]. split.
    + split; [done|]. split; [unfold r', appendEventLocked; rewrite bool_decide_eq_true_2 by done;
        cbn; apply Nat.mod_upper_bound; lia|].
      split; [lia|]. split; [lia|]. split; [lia|]. rewrite Hcnt, Hseq'. intros i Hi.
      rewrite Hs by done. case_bool_decide; [cbn; lia|]. rewrite Hslots by lia. lia.
    + apply list_eq. intros i. unfold lastn. rewrite lookup_drop, length_app, length_contents.
      cbn [length]. replace (rb_count r + 1 - logBufSize + i) with (S i) by lia.
      destruct (decide (i < logBufSize)) as [Hi|Hi].
      * rewrite contents_lookup, Hs by lia. case_bool_decide as Hlast.
        -- rewrite lookup_app_r by (rewrite length_contents; lia).
           rewrite length_contents. by replace (S i - rb_count r) with 0 by lia.
        -- rewrite lookup_app_l by (rewrite length_contents; lia).
           by rewrite contents_lookup by lia.
      * rewrite !lookup_ge_None_2; [done| |rewrite length_contents; lia].
        rewrite length_app, length_contents. cbn. lia.
  - destruct Hroom as (Hcnt & Hh' & Hs); [lia|]. split.
    + split; [done|]. rewrite Hcnt, Hh', Hseq'. repeat (split; [lia|]). intros i Hi.
      rewrite Hs by lia. case_bool_decide; [cbn; lia|]. rewrite Hslots by lia. lia.
    + apply list_eq. intros i. unfold lastn. rewrite lookup_drop, length_app, length_contents.
      cbn [length]. replace (rb_count r + 1 - logBufSize + i) with i by lia.
      destruct (decide (i <= rb_count r)) as [Hi|Hi].
      * rewrite contents_lookup, Hs by lia. case_bool_decide as Hlast.
        -- subst i. rewrite lookup_app_r by (rewrite length_contents; lia).
           by rewrite length_contents, Nat.sub_diag.
        -- rewrite lookup_app_l by (rewrite length_contents; lia).
           by rewrite contents_lookup by lia.
      * rewrite !lookup_ge_None_2; [done| |rewrite length_contents; lia].
        rewrite length_app, length_contents. cbn. lia.
Qed.

(** ** The specification: an unbounded log *)

Inductive log_op :=
| OpSetLevel (value : string)
| OpClear
| OpLog (now : Time) (level : serviceLogLevel) (component event message : string)
    (fields : list logField)
| OpUnfiltered (now : Time) (level : serviceLogLevel) (component event message : string)
    (fields : list logField).

Definition ring_step (r : ringBuffer) (op : log_op) : ringBuffer :=
  match op with
  | OpSetLevel v => setLevel r v
  | OpClear => clearRing r
  | OpLog now l c e m fs => logEvent r now l c e m fs
  | OpUnfiltered now l c e m fs => logEventUnfiltered r now l c e m fs
  end.

(** Everything logged since the last clear, the number of entries ever
    written, and the level. *)
Record spec_log := mkSpecLog {
  sp_all : list serviceLogEntry;
  sp_seq : nat;
  sp_level : serviceLogLevel
}.

Definition spec_append (s : spec_log) now level c e m fs : spec_log :=
  mkSpecLog (sp_all s ++ [newEntry (S (sp_seq s)) now level c e m fs]) (S (sp_seq s)) (sp_level s).

Definition spec_step (s : spec_log) (op : log_op) : spec_log :=
  match op with
  | OpSetLevel v => mkSpecLog (sp_all s) (sp_seq s) (parseServiceLogLevel v)
  | OpClear => mkSpecLog [] (sp_seq s) (sp_level s)
  | OpLog now l c e m fs =>
      if (level_value l <=? level_value (sp_level s))%nat then spec_append s now l c e m fs else s
  | OpUnfiltered now l c e m fs => spec_append s now l c e m fs
  end.

Definition log_refines (r : ringBuffer) (s : spec_log) : Prop :=
  ring_wf r /\ contents r = lastn logBufSize (sp_all s) /\
  rb_seq r = sp_seq s /\ rb_minLevel r = sp_level s.

Lemma lastn_snoc {A} n (l : list A) x : lastn n (lastn n l ++ [x]) = lastn n (l ++ [x]).
Proof.
  unfold lastn. rewrite !length_app, length_drop. cbn [length].
  destruct (decide (length l <= n)) as [Hle|Hgt].
  - replace (length l - n) with 0 by lia. rewrite drop_0. by replace (length l - 0) with (length l) by lia.
  - replace (length l - (length l - n) + 1 - n) with 1 by lia.
    replace (length l + 1 - n) with (S (length l - n)) by lia.
    destruct n as [|n].
    + rewrite Nat.sub_0_r, drop_all. cbn. by rewrite drop_ge by (rewrite length_app; cbn; lia).
    + rewrite !drop_app_le by (rewrite ?length_drop; lia). rewrite drop_drop. f_equal. f_equal. lia.
Qed.

Lemma append_refines r s now l c e m fs :
  log_refines r s -> log_refines (appendEventLocked r now l c e m fs) (spec_append s now l c e m fs).
Proof.
  intros (Hwf & Hc & Hs & Hl). destruct (append_contents r now l c e m fs Hwf) as [Hwf' Hc'].
  split; [done|]. rewrite Hc', Hc, lastn_snoc, Hs. split; [done|].
  unfold appendEventLocked. by case_bool_decide; cbn; rewrite Hs, Hl.
Qed.

Lemma step_refines r s op : log_refines r s -> log_refines (ring_step r op) (spec_step s op).
Proof.
  intros Href. pose proof Href as ((Hlen & Hh & Hcnt & Hh0 & Hseq & Hslots) & Hc & Hs & Hl).
  destruct op as [v| |now l c e m fs|now l c e m fs]; cbn [ring_step spec_step].
  - repeat split; try done.
  - unfold clearRing. pose proof size_pos.
    repeat split; cbn; try lia; try done; by rewrite length_replicate.
  - unfold logEvent. rewrite Hl.
    destruct (Nat.ltb_spec (level_value (sp_level s)) (level_value l)) as [Hlt|Hge].
    + rewrite (proj2 (Nat.leb_gt _ _)) by lia. done.
    + rewrite (proj2 (Nat.leb_le _ _)) by lia. by apply append_refines.
  - by apply append_refines.
Qed.

Lemma new_refines : log_refines newRingBuffer (mkSpecLog [] 0 serviceLogInfo).
Proof.
  pose proof size_pos. repeat split; cbn; try lia; try done; by rewrite length_replicate.
Qed.

Lemma filter_seq_drop (f : nat -> serviceLogEntry) (n a : nat) (start since : Z) :
  (forall i : nat, (i < n)%nat -> Z.of_nat (le_Seq (f (a + i)%nat)) = (start + Z.of_nat i + 1)%Z) ->
  filter (fun e => (since < Z.of_nat (le_Seq e))%Z) (f <$> List.seq a n) =
  f <$> List.seq (a + (if (start <? since)%Z then Z.to_nat (since - start) else 0))
          (n - (if (start <? since)%Z then Z.to_nat (since - start) else 0)).
Proof.
  revert a start. induction n as [|n IH]; intros a start Hf; [done|].
  cbn [List.seq]. rewrite fmap_cons, filter_cons.
  pose proof (Hf 0 ltac:(lia)) as H0. rewrite Nat.add_0_r in H0.
  rewrite (IH (S a) (start + 1)%Z).
  2: { intros i Hi. replace (S a + i) with (a + S i) by lia. rewrite Hf by lia. lia. }
  destruct (Z.ltb_spec start since) as [Hlt|Hge].
  - rewrite decide_False by lia.
    destruct (Z.ltb_spec (start + 1) since).
    + replace (Z.to_nat (since - start)) with (S (Z.to_nat (since - (start + 1)))) by lia.
      f_equal. f_equal; lia.
    + replace (Z.to_nat (since - start)) with 1 by lia. f_equal. f_equal; lia.
  - rewrite decide_True by lia. rewrite (proj2 (Z.ltb_ge (start + 1) since)) by lia.
    rewrite !Nat.add_0_r, !Nat.sub_0_r. done.
Qed.

Lemma Entries_filter r since :
  ring_wf r ->
  Entries r since =
  (filter (fun e => (since < Z.of_nat (le_Seq e))%Z) (contents r), rb_seq r).
Proof.
  intros (Hlen & Hh & Hcnt & Hh0 & Hseq & Hslots). unfold Entries, contents. cbv zeta.
  rewrite (filter_seq_drop (slot r) (rb_count r) 0 (Z.of_nat (rb_seq r) - Z.of_nat (rb_count r))).
  2: { intros i Hi. rewrite Nat.add_0_l, Hslots by done. lia. }
  destruct (_ || _) eqn:Hcond.
  - f_equal. apply orb_true_iff in Hcond as [Hge%Z.leb_le|Hz%Nat.eqb_eq].
    + rewrite (proj2 (Nat.sub_0_le _ _)); [done|].
      destruct (Z.ltb_spec (Z.of_nat (rb_seq r) - Z.of_nat (rb_count r)) since); lia.
    + by rewrite Hz.
  - f_equal. set (off := if (_ <? since)%Z then _ else O). rewrite Nat.add_0_l.
    apply list_eq. intros i. rewrite !list_lookup_fmap.
    destruct (decide (i < rb_count r - off)) as [Hi|Hi].
    + rewrite !lookup_seq_lt by done. cbn. unfold slot. by rewrite !Nat.add_assoc.
    + by rewrite !lookup_seq_ge by lia.
Qed.

(** ** Properties *)

(** C30. After any sequence of log calls, level changes and clears, the ring
    holds exactly the last 500 entries accepted since the last clear, and a
    reader that has seen entries up to [since] gets exactly the later ones, in
    order, with the number to poll from next. *)
Theorem ring_refines_log ops since :
  let r := foldl ring_step newRingBuffer ops in
  let s := foldl spec_step (mkSpecLog [] 0 serviceLogInfo) ops in
  contents r = lastn logBufSize (sp_all s) /\
  Entries r since =
    (filter (fun e => (since < Z.of_nat (le_Seq e))%Z) (lastn logBufSize (sp_all s)), sp_seq s).
Proof.
  intros r s. assert (Href : log_refines r s).
  { unfold r, s. generalize new_refines.
    generalize newRingBuffer as r0, (mkSpecLog [] 0 serviceLogInfo) as s0.
    induction ops as [|op ops IH]; intros r0 s0 H0; [done|]. cbn. apply IH. by apply step_refines. }
  pose proof Href as (Hwf & Hc & Hs & _). split; [done|]. by rewrite Entries_filter, Hc, Hs.
Qed.

(** ** Giving entries out *)

(** [time.RFC3339Nano] and [strconv.Quote]. *)
Class LogFormats := {
  FormatRFC3339Nano : Time -> string;
  Quote : string -> string
}.

Definition linebreak : ascii := "010"%char.
Definition one_line (s : string) : Prop := linebreak ∉ bytes_of s.

(** A timestamp has no line break; a quoted text has its control characters
    escaped. *)
Class LogFormatLaws (F : LogFormats) : Prop := {
  timestamp_one_line now : one_line (FormatRFC3339Nano now);
  quote_one_line s : one_line (Quote s)
}.

Definition formatServiceLogEntry `{LogFormats} (entry : serviceLogEntry) : string :=
  let b := FormatRFC3339Nano (le_Timestamp entry) +:+ " level=" +:+ le_Level entry +:+ " component="
             +:+ le_Component entry +:+ " event=" +:+ le_Event entry in
  let keys := merge_sort String.le (map_to_list (le_Fields entry)).*1 in
  let b := foldl (fun b key => b +:+ " " +:+ key +:+ "=" +:+ Quote (default "" (le_Fields entry !! key))) b keys in
  if bool_decide (le_Message entry = "") then b else b +:+ " msg=" +:+ Quote (le_Message entry).

(** [GET /api/logs]: the lines, the entries, the number to ask from next. *)
Record logs_reply := mkLogs { lg_lines : list string; lg_entries : list serviceLogEntry; lg_seq : nat }.

Definition handleLogsGet `{LogFormats} (since : Z) (structured : bool) (r : ringBuffer) : logs_reply :=
  let '(entries, seq) := Entries r since in
  mkLogs (if structured then [] else formatServiceLogEntry <$> entries) entries seq.

Definition handleLogsDelete (r : ringBuffer) : nat * ringBuffer :=
  let r := clearRing r in ((Entries r 0).2, r).

Lemma one_line_app s t : one_line (s +:+ t) <-> one_line s /\ one_line t.
Proof. unfold one_line. rewrite bytes_of_app, not_elem_of_app. done. Qed.

#[local] Instance one_line_dec s : Decision (one_line s).
Proof. unfold one_line. apply _. Defined.

Ltac plain_text :=
  rewrite ?one_line_app; repeat split;
  first [done | apply timestamp_one_line | apply quote_one_line | apply (bool_decide_unpack _); by vm_compute].

(** What the program writes into an entry apart from the message and the values. *)
Definition plain_entry (entry : serviceLogEntry) : Prop :=
  one_line (le_Level entry) /\ one_line (le_Component entry) /\ one_line (le_Event entry) /\
  forall key, is_Some (le_Fields entry !! key) -> one_line key.

Lemma format_one_line `{F : LogFormats, !LogFormatLaws F} entry :
  plain_entry entry -> one_line (formatServiceLogEntry entry).
Proof.
  intros (Hl & Hc & He & Hk). unfold formatServiceLogEntry. cbv zeta.
  assert (Hkeys : Forall one_line (merge_sort String.le (map_to_list (le_Fields entry)).*1)).
  { apply Forall_forall. intros key Hin. rewrite merge_sort_Permutation in Hin.
    apply list_elem_of_fmap in Hin as ([k v] & -> & Hin). apply Hk. apply elem_of_map_to_list in Hin. by exists v. }
  assert (Hhead : one_line (FormatRFC3339Nano (le_Timestamp entry) +:+ " level=" +:+ le_Level entry +:+ " component="
             +:+ le_Component entry +:+ " event=" +:+ le_Event entry)).
  { plain_text. }
  match goal with |- context [foldl ?f ?b ?l] => assert (Hbody : one_line (foldl f b l)) end.
  { revert Hhead Hkeys. generalize (merge_sort String.le (map_to_list (le_Fields entry)).*1).
    match goal with |- forall l, one_line ?b -> _ => generalize b end.
    intros b l. revert b. induction l as [|key l IH]; intros b Hb Hl'; [done|].
    apply Forall_cons in Hl' as [Hkey Hl']. cbn [foldl]. apply IH; [plain_text|done]. }
  destruct (bool_decide _); [done|]. plain_text.
Qed.

(** What a run adds does not depend on what was there. *)
Lemma spec_run_new ops : forall all added seq level seq0,
  Forall (fun e => (seq0 < le_Seq e)%nat) added -> (seq0 <= seq)%nat ->
  let s := foldl spec_step (mkSpecLog (all ++ added) seq level) ops in
  let t := foldl spec_step (mkSpecLog added seq level) ops in
  (sp_all s = all ++ sp_all t \/ sp_all s = sp_all t) /\ sp_seq s = sp_seq t /\
  Forall (fun e => (seq0 < le_Seq e)%nat) (sp_all t).
Proof.
  induction ops as [|op ops IH]; intros all added seq level seq0 Hadded Hseq; [cbn; auto|].
  assert (Hnew : forall now l c e m fs,
    Forall (fun e => (seq0 < le_Seq e)%nat) (added ++ [newEntry (S seq) now l c e m fs])).
  { intros. apply Forall_snoc; [done|]. cbn. lia. }
  destruct op as [v| |now l c e m fs|now l c e m fs]; cbn [foldl spec_step].
  - by apply IH.
  - specialize (IH [] [] seq level seq0 (proj2 (Forall_nil _) I) Hseq). cbn in IH. naive_solver.
  - cbn [sp_level]. destruct (_ <=? _)%nat; [|by apply IH]. unfold spec_append. cbn. rewrite <- app_assoc.
    apply IH; [done|lia].
  - unfold spec_append. cbn. rewrite <- app_assoc. apply IH; [done|lia].
Qed.

Lemma lastn_app {A} n (l k : list A) : exists m, lastn n (l ++ k) = lastn m l ++ lastn n k.
Proof.
  exists (n - length k). unfold lastn. rewrite length_app, drop_app.
  f_equal; [|f_equal; lia]. destruct (decide (length k <= n)); [f_equal; lia|]. by rewrite !drop_ge by lia.
Qed.

Lemma run_refines ops : forall r s,
  log_refines r s -> log_refines (foldl ring_step r ops) (foldl spec_step s ops).
Proof. induction ops as [|op ops IH]; intros r s Hr; [done|]. cbn. by apply IH, step_refines. Qed.

Lemma spec_run_numbers ops : forall s,
  Forall (fun e => (le_Seq e <= sp_seq s)%nat) (sp_all s) ->
  let t := foldl spec_step s ops in Forall (fun e => (le_Seq e <= sp_seq t)%nat) (sp_all t).
Proof.
  assert (Happ : forall s now l c e m fs, Forall (fun x => (le_Seq x <= sp_seq s)%nat) (sp_all s) ->
    Forall (fun x => (le_Seq x <= sp_seq (spec_append s now l c e m fs))%nat) (sp_all (spec_append s now l c e m fs))).
  { intros s now l c e m fs Hs. unfold spec_append. cbn. apply Forall_snoc; [|cbn; lia].
    eapply Forall_impl; [exact Hs|]. cbn. lia. }
  induction ops as [|op ops IH]; intros s Hs; [done|]. cbn [foldl]. apply IH.
  destruct op as [v| |now l c e m fs|now l c e m fs]; cbn [spec_step]; [done|by apply Forall_nil| |by apply Happ].
  destruct (_ <=? _)%nat; [by apply Happ|done].
Qed.

Lemma filter_since l (seq : nat) :
  (Forall (fun e => (le_Seq e <= seq)%nat) l -> filter (fun e => (Z.of_nat seq < Z.of_nat (le_Seq e))%Z) l = []) /\
  (Forall (fun e => (seq < le_Seq e)%nat) l -> filter (fun e => (Z.of_nat seq < Z.of_nat (le_Seq e))%Z) l = l).
Proof.
  split; intros Hl; [apply filter_none|apply filter_all]; (eapply Forall_impl; [exact Hl|]); cbn; lia.
Qed.

Lemma Forall_lastn {A} (P : A -> Prop) n l : Forall P l -> Forall P (lastn n l).
Proof. unfold lastn. by apply Forall_drop. Qed.

(** A reader that asks with the number of its last answer gets what was logged
    since, up to the last 500 entries, once and in order; a text answer has one
    line per entry. *)
Theorem poll_logs `{F : LogFormats, !LogFormatLaws F} before since structured ops :
  let r := foldl ring_step newRingBuffer before in
  let first := handleLogsGet since true r in
  let second := handleLogsGet (Z.of_nat (lg_seq first)) structured (foldl ring_step r ops) in
  lg_entries second = lastn logBufSize (sp_all (foldl spec_step (mkSpecLog [] (rb_seq r) (rb_minLevel r)) ops)) /\
  (forall e, e ∈ lg_entries first -> (le_Seq e <= lg_seq first)%nat) /\
  (forall e, e ∈ lg_entries second -> (lg_seq first < le_Seq e)%nat) /\
  (Forall plain_entry (lg_entries second) -> structured = false ->
   length (lg_lines second) = length (lg_entries second) /\ Forall one_line (lg_lines second)).
Proof.
  pose proof (run_refines before _ _ new_refines) as Hr.
  pose proof (spec_run_numbers before (mkSpecLog [] 0 serviceLogInfo) (proj2 (Forall_nil _) I)) as Hold.
  intros r first second. fold r in Hr.
  set (s := foldl spec_step (mkSpecLog [] 0 serviceLogInfo) before) in *.
  pose proof (run_refines ops _ _ Hr) as Hr'. pose proof Hr as (Hwf & Hc & Hs & Hl). pose proof Hr' as (Hwf' & Hc' & _).
  assert (Hn : lg_seq first = rb_seq r) by (unfold first, handleLogsGet; by rewrite Entries_filter).
  assert (He1 : lg_entries first = filter (fun e => (since < Z.of_nat (le_Seq e))%Z) (contents r))
    by (unfold first, handleLogsGet; by rewrite Entries_filter).
  clearbody first. unfold second, handleLogsGet. rewrite !Entries_filter by done. cbn [lg_entries lg_seq lg_lines].
  destruct (spec_run_new ops (sp_all s) [] (sp_seq s) (sp_level s) (sp_seq s) (proj2 (Forall_nil _) I) ltac:(lia))
    as (Hall & _ & Hnew). rewrite app_nil_r in Hall.
  assert (Heta : mkSpecLog (sp_all s) (sp_seq s) (sp_level s) = s) by by destruct s. rewrite Heta in Hall.
  set (N := sp_all (foldl spec_step (mkSpecLog [] (sp_seq s) (sp_level s)) ops)) in *.
  assert (Hsecond : filter (fun e => (Z.of_nat (rb_seq r) < Z.of_nat (le_Seq e))%Z) (contents (foldl ring_step r ops)) =
    lastn logBufSize N).
  { rewrite Hc', Hs. destruct Hall as [-> | ->].
    - destruct (lastn_app logBufSize (sp_all s) N) as [m ->]. rewrite filter_app.
      rewrite (proj1 (filter_since _ _)) by (by apply Forall_lastn).
      by rewrite (proj2 (filter_since _ _)) by (by apply Forall_lastn).
    - by rewrite (proj2 (filter_since _ _)) by (by apply Forall_lastn). }
  rewrite Hn, Hsecond, Hl, Hs. fold N. split; [done|]. split; [|split].
  - intros e He. rewrite He1 in He. apply list_elem_of_filter in He as [_ He]. rewrite Hc in He.
    by apply (Forall_lastn _ logBufSize) in Hold; apply (proj1 (Forall_forall _ _) Hold).
  - intros e. apply (Forall_lastn _ logBufSize) in Hnew. by apply (proj1 (Forall_forall _ _) Hnew).
  - intros Hplain ->. split; [by rewrite length_fmap|]. apply Forall_fmap.
    eapply Forall_impl; [exact Hplain|]. intros e. apply format_one_line.
Qed.
