(* ===== verification/Process.v ===== *)
(** * The tunnel process: [process.go] (type [ProcessManager])

    The embedded Xray instance, the name resolver and the routing commands are
    the environment of a call: [start_env] and [stop_env] hold what they
    answered.  Every operation is the body of one critical section of
    [pm.mu] and returns the manager's next state with the effects it had, in
    order; [Stop] releases the mutex before it closes the engine, so it is two
    sections, and [lifecycleMu] is the [m_closing] field of a machine.  Log
    lines are not recorded. *)

From S2P Require Import Prelude GoStrings Settings Servers Config.

(** [engineHandle]: an engine, by its serial number. *)
Abbreviation engine := nat (only parsing).

Record ProcessManager := mkPM {
  pm_box : option engine;
  pm_running : bool;
  pm_startedAt : Time;
  pm_lastErr : string;
  pm_routeHost : string;
  pm_routeReady : bool;
  pm_routeMode : string;
  pm_guardStarted : bool;
  pm_generation : Z
}.

#[export] Instance ProcessManager_eta : Eta ProcessManager := fun p =>
  mkPM (pm_box p) (pm_running p) (pm_startedAt p) (pm_lastErr p) (pm_routeHost p)
    (pm_routeReady p) (pm_routeMode p) (pm_guardStarted p) (pm_generation p).

Definition NewProcessManager : ProcessManager := mkPM None false zero_time "" "" false "" false 0.

Definition routeTPROXY : string := "tproxy".

Record ProcessStatus := mkStatus {
  ps_Generation : Z;
  ps_Running : bool;
  ps_RouteReady : bool;
  ps_PID : Z;
  ps_UptimeSec : Z;
  ps_Error : string;
  ps_RoutingMode : string
}.

(** [int64(d.Seconds())] truncates towards zero. *)
Definition whole_seconds (d : Duration) : Z := Z.quot d Second.

Definition Status (now : Time) (pm : ProcessManager) : ProcessStatus :=
  mkStatus (pm_generation pm) (pm_running pm) (pm_routeReady pm) 0
    (if pm_running pm then whole_seconds (now - pm_startedAt pm) else 0%Z)
    (pm_lastErr pm)
    (if pm_running pm then pm_routeMode pm else "").

Definition TunnelRunning (pm : ProcessManager) : bool := pm_running pm.

(** ** Pinning the endpoint to an address

    [Resolver] is [ResolveAddrs] (the IPv4 addresses of a host) with the test
    [net.ParseIP(host) != nil]. *)

Class Resolver := {
  ResolveAddrs : string -> list string;
  isIPLiteral : string -> bool
}.

Inductive pin_error :=
| NoResolvableMembers (name : string)
| NoIPv4Address (host : string).

Definition pinLeaf `{Resolver} (srv : VLESSServer) : result pin_error (VLESSServer * string) :=
  match ResolveAddrs (sv_Address srv) with
  | [] => Err (NoIPv4Address (sv_Address srv))
  | ip :: _ =>
      let pinned := srv <| sv_Address := ip |> in
      let pinned :=
        if isIPLiteral (sv_Address srv) then pinned
        else
          let pinned :=
            if bool_decide (sv_SNI srv = "") &&
               (bool_decide (sv_Security srv = "tls") || bool_decide (sv_Security srv = "reality"))
            then pinned <| sv_SNI := sv_Address srv |> else pinned in
          if bool_decide (sv_Host srv = "") &&
             bool_decide (sv_Network srv ∈ ["ws"; "http"; "h2"; "httpupgrade"])
          then pinned <| sv_Host := sv_Address srv |> else pinned in
      Ok (pinned, ip)
  end.

Definition pinMember (acc : VLESSServer * string) (pin : VLESSServer * string)
  : VLESSServer * string :=
  let '(pinned, firstIP) := acc in
  let '(member, dialIP) := pin in
  if bool_decide (firstIP = "")
  then (pinned <| sv_Address := sv_Address member |> <| sv_Port := sv_Port member |>, dialIP)
  else (pinned, firstIP).

Fixpoint pinVLESSServer `{Resolver} (srv : VLESSServer)
  : result pin_error (VLESSServer * string) :=
  match sv_Members srv with
  | [] => pinLeaf srv
  | members =>
      let pins := omap (fun r => match r with Ok p => Some p | Err _ => None end)
                    (map pinVLESSServer members) in
      match pins with
      | [] => Err (NoResolvableMembers (sv_Name srv))
      | _ =>
          let '(pinned, firstIP) := foldl pinMember (srv, "") pins in
          Ok (pinned <| sv_Members := pins.*1 |>, firstIP)
      end
  end.

(** ** Starting *)

Inductive start_error :=
| AlreadyRunning
| NoActiveServer
| ResolveActive (e : pin_error)
| TProxyUnavailable (e : string)
| GenerateConfig (e : string)
| EngineStart (e : string)
| EnableRoute (e : string).

(** [EnableGlobalRoute] fails before it changes a rule (no address, no
    interface list), or after it has removed every rule again. *)
Inductive enable_result :=
| EnableOk
| EnableUntouched (e : string)
| EnableCleaned (e : string).

(** What the environment answers to one [Start]: the clock when the start is
    over, [ensureTProxySupport], [generateXrayConfig], [startEmbedded] and
    [EnableGlobalRoute]. *)
Record start_env := mkStartEnv {
  se_now : Time;
  se_tproxy : option string;
  se_generate : Config -> VLESSServer -> result string string;
  se_engine : string -> result string engine;
  se_enable : string -> enable_result
}.

Inductive effect :=
| EngineStarted (h : engine)
| EngineClosed (h : engine)
| RouteEnabled (host : string)
| RouteEnableFailed (host : string) (cleaned : bool)
| RouteDisabled
| GuardLaunched.

Definition Start `{Resolver} (env : start_env) (cfg : Config) (pm : ProcessManager)
  : option start_error * ProcessManager * list effect :=
  if pm_running pm then (Some AlreadyRunning, pm, [])
  else match activeServer cfg with
  | None => (Some NoActiveServer, pm, [])
  | Some srv =>
  match pinVLESSServer srv with
  | Err e => (Some (ResolveActive e), pm, [])
  | Ok (dialServer, dialIP) =>
  match se_tproxy env with
  | Some e => (Some (TProxyUnavailable e), pm <| pm_lastErr := e |>, [])
  | None =>
  match se_generate env cfg dialServer with
  | Err e => (Some (GenerateConfig e), pm, [])
  | Ok data =>
  match se_engine env data with
  | Err e => (Some (EngineStart e), pm <| pm_lastErr := e |>, [])
  | Ok bh =>
  match se_enable env dialIP with
  | EnableUntouched e =>
      (Some (EnableRoute e), pm <| pm_lastErr := e |>,
       [EngineStarted bh; RouteEnableFailed dialIP false; EngineClosed bh])
  | EnableCleaned e =>
      (Some (EnableRoute e), pm <| pm_lastErr := e |>,
       [EngineStarted bh; RouteEnableFailed dialIP true; EngineClosed bh])
  | EnableOk =>
      (None,
       mkPM (Some bh) true (se_now env) "" dialIP true routeTPROXY true
         (uwrap 64 (pm_generation pm + 1)),
       [EngineStarted bh; RouteEnabled dialIP] ++
       (if pm_guardStarted pm then [] else [GuardLaunched]))
  end end end end end end.

(** ** Stopping *)

(** The first critical section of [Stop]: the engine to close, if any. *)
Definition stopBegin (pm : ProcessManager) : option engine * ProcessManager * list effect :=
  match pm_running pm, pm_box pm with
  | true, Some bh =>
      (Some bh,
       pm <| pm_box := None |> <| pm_running := false |>
          <| pm_generation := uwrap 64 (pm_generation pm + 1) |>
          <| pm_routeHost := "" |> <| pm_routeReady := false |>,
       [RouteDisabled])
  | _, _ => (None, pm, [])
  end.

(** Closing the engine, which may fail; the error is remembered. *)
Definition stopFinish (bh : engine) (close_error : option string) (pm : ProcessManager)
  : option string * ProcessManager * list effect :=
  match close_error with
  | Some e => (Some e, pm <| pm_lastErr := e |>, [EngineClosed bh])
  | None => (None, pm, [EngineClosed bh])
  end.

Definition Stop (close_error : option string) (pm : ProcessManager)
  : option string * ProcessManager * list effect :=
  match stopBegin pm with
  | (None, pm, effs) => (None, pm, effs)
  | (Some bh, pm, effs) =>
      let '(err, pm, effs') := stopFinish bh close_error pm in (err, pm, effs ++ effs')
  end.

(** ** The route guard and the bypass rules *)

(** One tick of [routeGuard]: [ready] is [GlobalRouteReady], [enable] the result
    of [EnableGlobalRoute]. *)
Definition guardTick (ready : bool) (enable : string -> enable_result) (pm : ProcessManager)
  : ProcessManager * list effect :=
  if negb (pm_running pm) || bool_decide (pm_routeHost pm = "") then (pm, [])
  else if ready then (pm <| pm_routeReady := true |>, [])
  else match enable (pm_routeHost pm) with
       | EnableUntouched e => (pm <| pm_routeReady := false |> <| pm_lastErr := e |>,
                               [RouteEnableFailed (pm_routeHost pm) false])
       | EnableCleaned e => (pm <| pm_routeReady := false |> <| pm_lastErr := e |>,
                             [RouteEnableFailed (pm_routeHost pm) true])
       | EnableOk => (pm <| pm_routeReady := true |>, [RouteEnabled (pm_routeHost pm)])
       end.

Inductive bypass_error := NoRuleUpdates | RuleUpdateFailed (e : string).

(** [updater] is the engine's [UpdateBypassRules], when it has one. *)
Definition UpdateBypassRules (updater : option (Config -> option string)) (cfg : Config)
    (pm : ProcessManager) : option bypass_error :=
  match pm_running pm, pm_box pm with
  | true, Some _ =>
      match updater with
      | None => Some NoRuleUpdates
      | Some update => RuleUpdateFailed <$> update cfg
      end
  | _, _ => None
  end.

Record outboundTrafficSnapshot := mkOutbound {
  ot_VPNDownload : Z;
  ot_VPNUpload : Z;
  ot_BypassDownload : Z;
  ot_BypassUpload : Z
}.

Definition TrafficSnapshot (engine_snapshot : engine -> outboundTrafficSnapshot)
    (pm : ProcessManager) : outboundTrafficSnapshot * bool :=
  match pm_running pm, pm_box pm with
  | true, Some bh => (engine_snapshot bh, true)
  | _, _ => (mkOutbound 0 0 0 0, false)
  end.

(** ** The machine: calls in any order *)

Record machine := mkMachine {
  m_pm : ProcessManager;
  m_closing : option engine;
  m_trace : list effect
}.

Definition initial : machine := mkMachine NewProcessManager None [].

Inductive call :=
| CallStart (env : start_env) (cfg : Config)
| CallStopBegin
| CallStopFinish (close_error : option string)
| CallGuard (ready : bool) (enable : string -> enable_result).

(** [lifecycleMu] admits one [Start] or [Stop] at a time; the guard only needs
    [mu].  A call that is not admitted waits, and the machine does not move. *)
Definition machine_step `{Resolver} (m : machine) (c : call) : machine :=
  match c, m_closing m with
  | CallStart env cfg, None =>
      let '(_, pm, effs) := Start env cfg (m_pm m) in
      mkMachine pm None (m_trace m ++ effs)
  | CallStopBegin, None =>
      let '(bh, pm, effs) := stopBegin (m_pm m) in
      mkMachine pm bh (m_trace m ++ effs)
  | CallStopFinish close_error, Some bh =>
      let '(_, pm, effs) := stopFinish bh close_error (m_pm m) in
      mkMachine pm None (m_trace m ++ effs)
  | CallGuard ready enable, closing =>
      let '(pm, effs) := guardTick ready enable (m_pm m) in
      mkMachine pm closing (m_trace m ++ effs)
  | _, _ => m
  end.

Definition run_machine `{Resolver} (calls : list call) : machine :=
  foldl machine_step initial calls.

(** The engines a trace leaves running, oldest first. *)
Definition open_engines (trace : list effect) : list engine :=
  foldl (fun acc e =>
    match e with
    | EngineStarted h => acc ++ [h]
    | EngineClosed h => filter (fun x => x <> h) acc
    | _ => acc
    end) [] trace.

(** The host the routing rules of a trace point at: a failed [EnableGlobalRoute]
    has removed every rule it had installed. *)
Definition routed_host (trace : list effect) : option string :=
  foldl (fun acc e =>
    match e with
    | RouteEnabled host => Some host
    | RouteEnableFailed _ cleaned => if cleaned then None else acc
    | RouteDisabled => None
    | _ => acc
    end) None trace.

(** ** Lemmas *)

(** The manager's own consistency: an engine exactly when running. *)
Definition pm_wf (pm : ProcessManager) : Prop :=
  (pm_running pm = true <-> is_Some (pm_box pm)) /\
  (pm_running pm = false -> pm_routeHost pm = "" /\ pm_routeReady pm = false) /\
  (0 <= pm_generation pm < 2 ^ 64)%Z.

(** What the trace says about the outside against what the manager believes. *)
Definition machine_inv (m : machine) : Prop :=
  pm_wf (m_pm m) /\
  (is_Some (m_closing m) -> pm_running (m_pm m) = false) /\
  open_engines (m_trace m) = option_list (union (pm_box (m_pm m)) (m_closing m)) /\
  (forall host, routed_host (m_trace m) = Some host ->
     pm_running (m_pm m) = true /\ host = pm_routeHost (m_pm m)).

Lemma wrap_gen g : (0 <= uwrap 64 (g + 1) < 2 ^ 64)%Z.
Proof. by apply uwrap_range. Qed.

(** The shapes of a start: refused, undone, or done. *)
Lemma Start_cases `{Resolver} env cfg pm :
  let '(err, pm', effs) := Start env cfg pm in
  match err with
  | Some AlreadyRunning => pm_running pm = true /\ pm' = pm /\ effs = []
  | Some e => pm_running pm = false /\ (exists msg, pm' = pm \/ pm' = pm <| pm_lastErr := msg |>) /\
      (effs = [] \/ exists bh host cleaned,
         effs = [EngineStarted bh; RouteEnableFailed host cleaned; EngineClosed bh])
  | None => pm_running pm = false /\ exists srv dial host bh data,
      activeServer cfg = Some srv /\ pinVLESSServer srv = Ok (dial, host) /\
      se_generate env cfg dial = Ok data /\ se_engine env data = Ok bh /\
      se_enable env host = EnableOk /\
      pm' = mkPM (Some bh) true (se_now env) "" host true routeTPROXY true
              (uwrap 64 (pm_generation pm + 1)) /\
      effs = [EngineStarted bh; RouteEnabled host] ++
             (if pm_guardStarted pm then [] else [GuardLaunched])
  end.
Proof.
  assert (Hrefused : forall pm', (exists msg, pm' = pm \/ pm' = pm <| pm_lastErr := msg |>) ->
    (exists msg, pm' = pm \/ pm' = pm <| pm_lastErr := msg |>) /\
    (([] : list effect) = [] \/ exists bh host cleaned, ([] : list effect) =
       [EngineStarted bh; RouteEnableFailed host cleaned; EngineClosed bh])) by (split; [done|by left]).
  assert (Hkept : exists msg, pm = pm \/ pm = pm <| pm_lastErr := msg |>) by (exists ""; by left).
  unfold Start. destruct (pm_running pm) eqn:Hr; [done|].
  destruct (activeServer cfg) as [srv|] eqn:Ha; [|by split; [|apply Hrefused]].
  destruct (pinVLESSServer srv) as [[dial host]|] eqn:Hp; [|by split; [|apply Hrefused]].
  destruct (se_tproxy env) as [e|]; [split; [done|]; apply Hrefused; exists e; by right|].
  destruct (se_generate env cfg dial) as [data|] eqn:Hg; [|by split; [|apply Hrefused]].
  destruct (se_engine env data) as [bh|e] eqn:He;
    [|split; [done|]; apply Hrefused; exists e; by right].
  destruct (se_enable env host) as [|e|e] eqn:Hn.
  - split; [done|]. exists srv, dial, host, bh, data. by repeat split.
  - split; [done|]. split; [exists e; by right|]. right. by exists bh, host, false.
  - split; [done|]. split; [exists e; by right|]. right. by exists bh, host, true.
Qed.

Lemma open_engines_snoc trace e :
  open_engines (trace ++ [e]) =
  match e with
  | EngineStarted h => open_engines trace ++ [h]
  | EngineClosed h => filter (fun x => x <> h) (open_engines trace)
  | _ => open_engines trace
  end.
Proof. unfold open_engines. by rewrite foldl_app. Qed.

Lemma routed_host_snoc trace e :
  routed_host (trace ++ [e]) =
  match e with
  | RouteEnabled host => Some host
  | RouteEnableFailed _ cleaned => if cleaned then None else routed_host trace
  | RouteDisabled => None
  | _ => routed_host trace
  end.
Proof. unfold routed_host. by rewrite foldl_app. Qed.

(** Evaluates the two readings of a trace on a few appended effects. *)
Ltac read_trace :=
  repeat match goal with
  | |- context [?t ++ ?x :: ?y :: ?l] =>
      replace (t ++ x :: y :: l) with ((t ++ [x]) ++ y :: l) by (by rewrite <- app_assoc)
  end;
  rewrite ?app_nil_r, ?open_engines_snoc, ?routed_host_snoc.

Lemma start_inv `{Resolver} m env cfg :
  machine_inv m -> machine_inv (machine_step m (CallStart env cfg)).
Proof.
  intros Hinv. pose proof Hinv as (Hwf & Hcl & Hopen & Hroute). unfold machine_step.
  destruct (m_closing m) eqn:Hc; [exact Hinv|].
  pose proof (Start_cases env cfg (m_pm m)) as Hs.
  destruct (Start env cfg (m_pm m)) as [[err pm'] effs].
  assert (Hbox : pm_running (m_pm m) = false -> pm_box (m_pm m) = None).
  { intros Hr. apply eq_None_not_Some. rewrite <- (proj1 Hwf). by rewrite Hr. }
  destruct err as [err|].
  - assert (Hsame : pm_wf pm' /\ pm_box pm' = pm_box (m_pm m) /\
      pm_running pm' = pm_running (m_pm m) /\ pm_routeHost pm' = pm_routeHost (m_pm m) /\
      (effs = [] \/ pm_running (m_pm m) = false /\ exists bh host cleaned,
         effs = [EngineStarted bh; RouteEnableFailed host cleaned; EngineClosed bh])).
    { assert (Hcases : pm' = m_pm m /\ effs = [] \/ pm_running (m_pm m) = false /\
        (exists msg, pm' = m_pm m \/ pm' = m_pm m <| pm_lastErr := msg |>) /\
        (effs = [] \/ exists bh host cleaned,
           effs = [EngineStarted bh; RouteEnableFailed host cleaned; EngineClosed bh]))
        by (destruct err; [left; by destruct Hs as (_ & ? & ?)|right; exact Hs..]).
      destruct Hcases as [[-> ->]|(Hr & [msg [-> | ->]] & He)];
        (split; [exact Hwf|]); do 3 (split; [done|]); [by left|destruct He; auto..]. }
    clear Hs. destruct Hsame as (Hwf' & Hb & Hr' & Hh & He).
    unfold machine_inv. cbn [m_pm m_closing m_trace]. rewrite Hb, Hr', Hh.
    split; [done|]. split; [by intros []|].
    destruct He as [->|(Hr & bh & host & cleaned & ->)]; [by rewrite app_nil_r|].
    read_trace. rewrite Hopen, (Hbox Hr). cbn. split.
    + by rewrite decide_False by auto.
    + intros h. destruct cleaned; [done|]. apply Hroute.
  - destruct Hs as (Hr & srv & dial & host & bh & data & _ & _ & _ & _ & _ & -> & ->).
    unfold machine_inv. cbn [m_pm m_closing m_trace pm_box pm_running pm_routeHost].
    split; [split; [by eauto|split; [done|apply wrap_gen]]|]. split; [by intros []|].
    assert (Hread : forall t, open_engines ((m_trace m ++ [EngineStarted bh; RouteEnabled host]) ++ t)
      = foldl (fun acc e => match e with EngineStarted h => acc ++ [h]
          | EngineClosed h => filter (fun x => x <> h) acc | _ => acc end)
          (open_engines (m_trace m) ++ [bh]) t /\
      routed_host ((m_trace m ++ [EngineStarted bh; RouteEnabled host]) ++ t)
      = foldl (fun acc e => match e with RouteEnabled host => Some host
          | RouteEnableFailed _ cleaned => if cleaned then None else acc
          | RouteDisabled => None | _ => acc end) (Some host) t).
    { intros t. unfold open_engines, routed_host. by rewrite !foldl_app. }
    rewrite app_assoc. destruct (Hread (if pm_guardStarted (m_pm m) then [] else [GuardLaunched]))
      as [-> ->]. rewrite Hopen, (Hbox Hr).
    destruct (pm_guardStarted (m_pm m)); cbn; (split; [done|intros h [= <-]; done]).
Qed.

Lemma stop_begin_inv `{Resolver} m :
  machine_inv m -> machine_inv (machine_step m CallStopBegin).
Proof.
  intros Hinv. pose proof Hinv as (Hwf & Hcl & Hopen & Hroute). unfold machine_step.
  destruct (m_closing m) eqn:Hc; [exact Hinv|]. unfold stopBegin.
  destruct (pm_running (m_pm m)) eqn:Hr; [destruct (pm_box (m_pm m)) as [bh|] eqn:Hb|].
  - unfold machine_inv. cbn. read_trace. rewrite Hopen, ?Hb.
    split; [split; [split; [done|by intros []]|split; [done|apply wrap_gen]]|]. done.
  - destruct (proj1 (proj1 Hwf) Hr) as [? ?]. congruence.
  - unfold machine_inv. cbn. rewrite app_nil_r, Hr. by split; [|split].
Qed.

Lemma stop_finish_inv `{Resolver} m err :
  machine_inv m -> machine_inv (machine_step m (CallStopFinish err)).
Proof.
  intros Hinv. pose proof Hinv as (Hwf & Hcl & Hopen & Hroute). unfold machine_step.
  destruct (m_closing m) as [bh|] eqn:Hc; [|exact Hinv].
  pose proof (Hcl ltac:(by eexists)) as Hr.
  assert (Hbox : pm_box (m_pm m) = None).
  { apply eq_None_not_Some. rewrite <- (proj1 Hwf). by rewrite Hr. }
  rewrite Hbox in Hopen.
  destruct err as [e|]; cbn; unfold machine_inv; cbn [m_pm m_closing m_trace pm_box]; read_trace;
    rewrite Hopen; cbn; rewrite Hbox, decide_False by auto; (split; [exact Hwf|]); done.
Qed.

Lemma guard_inv `{Resolver} m ready enable :
  machine_inv m -> machine_inv (machine_step m (CallGuard ready enable)).
Proof.
  intros Hinv. pose proof Hinv as (Hwf & Hcl & Hopen & Hroute). unfold machine_step, guardTick.
  destruct (pm_running (m_pm m)) eqn:Hr; cbn [negb orb].
  2: { unfold machine_inv. cbn. rewrite app_nil_r, Hr. by split; [|split]. }
  assert (Hwf' : forall ready' err, pm_wf (m_pm m <| pm_routeReady := ready' |> <| pm_lastErr := err |>)
     /\ pm_wf (m_pm m <| pm_routeReady := ready' |>)).
  { intros. unfold pm_wf in *. cbn. rewrite Hr in *. naive_solver. }
  case_bool_decide as Hh.
  { unfold machine_inv. cbn. rewrite app_nil_r, Hr. by split; [|split]. }
  destruct ready; [|destruct (enable _) as [|e|e]]; unfold machine_inv; cbn; read_trace; rewrite ?Hr;
    (split; [apply (Hwf' _ "")|| apply Hwf'|]); (split; [done|]); (split; [done|]).
  - done.
  - by intros h [= <-].
  - done.
  - done.
Qed.

Lemma machine_step_inv `{Resolver} m c : machine_inv m -> machine_inv (machine_step m c).
Proof.
  destruct c; [apply start_inv|apply stop_begin_inv|apply stop_finish_inv|apply guard_inv].
Qed.

Lemma run_machine_inv `{Resolver} calls : machine_inv (run_machine calls).
Proof.
  unfold run_machine. assert (Hi : machine_inv initial).
  { split; [|split; [by intros []|split; done]]. split; [split; [done|by intros []]|]. by split. }
  revert Hi. generalize initial. induction calls as [|c calls IH]; intros m Hm; [done|].
  cbn. apply IH. by apply machine_step_inv.
Qed.

(** The fields a status reader identifies a tunnel by. *)
Definition identity (pm : ProcessManager) :=
  (pm_running pm, pm_box pm, pm_startedAt pm, pm_routeHost pm, pm_routeMode pm).

Lemma machine_step_identity `{Resolver} m c :
  let m' := machine_step m c in
  identity (m_pm m') = identity (m_pm m) /\ pm_generation (m_pm m') = pm_generation (m_pm m) \/
  pm_generation (m_pm m') = uwrap 64 (pm_generation (m_pm m) + 1).
Proof.
  intros m'. subst m'. destruct c as [env cfg| |err|ready enable]; cbn [machine_step].
  - destruct (m_closing m); [by left|].
    pose proof (Start_cases env cfg (m_pm m)) as Hs.
    destruct (Start env cfg (m_pm m)) as [[[err|] pm'] effs]; cbn [m_pm].
    + left. assert (Hpm : pm' = m_pm m \/ exists msg, pm' = m_pm m <| pm_lastErr := msg |>).
      { destruct err; [left; by destruct Hs as (_ & -> & _)|
          destruct Hs as (_ & [msg [-> | ->]] & _); eauto..]. }
      by destruct Hpm as [-> | [msg ->]].
    + right. destruct Hs as (_ & srv & dial & host & bh & data & _ & _ & _ & _ & _ & -> & _). done.
  - destruct (m_closing m); [by left|]. unfold stopBegin.
    destruct (pm_running (m_pm m)); [|by left]. destruct (pm_box (m_pm m)); [by right|by left].
  - destruct (m_closing m); [|by left]. left. by destruct err.
  - left. unfold guardTick. destruct (_ || _); [done|]. destruct ready; [done|].
    by destruct (enable _).
Qed.

Lemma machine_run_identity `{Resolver} calls m :
  let m' := foldl machine_step m calls in
  exists k, (0 <= k <= Z.of_nat (length calls))%Z /\
    (k = 0%Z -> identity (m_pm m') = identity (m_pm m)) /\
    (pm_generation (m_pm m') mod 2 ^ 64 = (pm_generation (m_pm m) + k) mod 2 ^ 64)%Z.
Proof.
  revert m. induction calls as [|c calls IH]; intros m.
  { exists 0%Z. cbn. rewrite Z.add_0_r. split; [lia|done]. }
  cbn [foldl length]. destruct (IH (machine_step m c)) as (k & Hk & Hid & Hgen).
  destruct (machine_step_identity m c) as [[Hi Hg]|Hg].
  - exists k. rewrite Hgen, Hg. split; [lia|]. split; [|done]. intros Hz. by rewrite Hid.
  - exists (k + 1)%Z. split; [lia|]. split; [lia|]. rewrite Hgen, Hg. unfold uwrap.
    rewrite Zplus_mod_idemp_l. f_equal. lia.
Qed.

Lemma pinLeaf_Ok `{Resolver} srv p ip :
  pinLeaf srv = Ok (p, ip) ->
  head (ResolveAddrs (sv_Address srv)) = Some ip /\ sv_Address p = ip /\ sv_Port p = sv_Port srv /\
  sv_UUID p = sv_UUID srv /\
  sv_SNI p = (if negb (isIPLiteral (sv_Address srv)) && bool_decide (sv_SNI srv = "") &&
                (bool_decide (sv_Security srv = "tls") || bool_decide (sv_Security srv = "reality"))
              then sv_Address srv else sv_SNI srv).
Proof.
  unfold pinLeaf. destruct (ResolveAddrs _) as [|ip' rest]; [done|]. intros Heq.
  injection Heq as <- <-. cbn [head]. destruct (isIPLiteral _); [done|]. cbn [negb andb].
  destruct (bool_decide (sv_SNI srv = "")), (_ || _); cbn [andb];
    destruct (bool_decide (sv_Host srv = "")), (bool_decide (sv_Network srv ∈ _)); done.
Qed.

Lemma pins_members `{Resolver} members :
  (omap (fun r => match r with Ok p => Some p | Err _ => None end)
     (map pinVLESSServer members)).*1 =
  omap (fun m => match pinVLESSServer m with Ok q => Some q.1 | Err _ => None end) members.
Proof.
  induction members as [|x xs IH]; [done|]. cbn.
  destruct (pinVLESSServer x) as [[q i]|]; cbn; [f_equal|]; exact IH.
Qed.

Lemma pins_none `{Resolver} members :
  omap (fun r => match r with Ok p => Some p | Err _ => None end)
    (map pinVLESSServer members) = [] ->
  Forall (fun m => is_ok (pinVLESSServer m) = false) members.
Proof.
  induction members as [|x xs IH]; intros Hn; [done|]. cbn in Hn.
  destruct (pinVLESSServer x) as [q|] eqn:Hq; [done|]. constructor; [by rewrite Hq|by apply IH].
Qed.

(** ** Properties *)

(** C4. However starts, stops, engine closings and guard ticks interleave,
    the manager is running exactly when it holds an engine, the engines open
    in the outside world are that engine or the one being closed (never two),
    and rules left in the router's tables belong to the running tunnel. *)
Theorem manager_owns_engine_and_routes `{Resolver} calls :
  let m := run_machine calls in
  (pm_running (m_pm m) = true <-> is_Some (pm_box (m_pm m))) /\
  open_engines (m_trace m) = option_list (union (pm_box (m_pm m)) (m_closing m)) /\
  (length (open_engines (m_trace m)) <= 1)%nat /\
  (forall host, routed_host (m_trace m) = Some host ->
     pm_running (m_pm m) = true /\ host = pm_routeHost (m_pm m)).
Proof.
  intros m. destruct (run_machine_inv calls : machine_inv m) as (Hwf & _ & Hopen & Hroute).
  split; [apply Hwf|]. split; [done|]. split; [|done]. rewrite Hopen.
  destruct (union _ _); cbn; lia.
Qed.

(** A start that fails leaves the tunnel, its generation and its routes as
    they were: at most the error text changes, and an engine it had launched
    is closed again.  A start that succeeds runs the configured active server
    on the pinned address, under a new generation, with a clean error.  A stop
    always ends with no engine and no routes, whatever closing reports. *)
Theorem start_stop_outcomes `{Resolver} env cfg close_error pm :
  pm_wf pm ->
  (let '(err, pm', effs) := Start env cfg pm in
   pm_wf pm' /\
   match err with
   | Some _ => identity pm' = identity pm /\ pm_generation pm' = pm_generation pm /\
       open_engines effs = []
   | None => pm_running pm = false /\ pm_running pm' = true /\ pm_routeReady pm' = true /\
       pm_lastErr pm' = "" /\ pm_generation pm' = uwrap 64 (pm_generation pm + 1) /\
       option_list (pm_box pm') = open_engines effs /\
       exists srv dial, activeServer cfg = Some srv /\
         pinVLESSServer srv = Ok (dial, pm_routeHost pm') /\
         routed_host effs = Some (pm_routeHost pm')
   end) /\
  (let '(err, pm', effs) := Stop close_error pm in
   pm_wf pm' /\ pm_running pm' = false /\ pm_box pm' = None /\ pm_routeHost pm' = "" /\
   (pm_running pm = true -> pm_generation pm' = uwrap 64 (pm_generation pm + 1) /\
      err = close_error /\ exists bh, pm_box pm = Some bh /\ effs = [RouteDisabled; EngineClosed bh]) /\
   (pm_running pm = false -> pm' = pm /\ err = None /\ effs = [])).
Proof.
  intros Hwf. pose proof Hwf as (Hrun & Hoff & Hgen). split.
  - pose proof (Start_cases env cfg pm) as Hs.
    destruct (Start env cfg pm) as [[[err|] pm'] effs].
    + assert (Hcases : (pm' = pm \/ exists msg, pm' = pm <| pm_lastErr := msg |>) /\
        open_engines effs = []).
      { destruct err; [by destruct Hs as (_ & -> & ->); split; [left|]|
          destruct Hs as (_ & [msg [-> | ->]] & [-> | (bh & host & cl & ->)]);
            (split; [eauto|]); cbn; rewrite ?decide_False by auto; done..]. }
      destruct Hcases as [[-> | [msg ->]] ->]; by repeat split; try apply Hwf.
    + destruct Hs as (Hr & srv & dial & host & bh & data & Ha & Hp & _ & _ & _ & -> & ->).
      split; [split; [cbn; by eauto|split; [done|apply wrap_gen]]|].
      repeat split; try done; [by destruct (pm_guardStarted pm)|].
      exists srv, dial. repeat split; try done. by destruct (pm_guardStarted pm).
  - unfold Stop, stopBegin. destruct (pm_running pm) eqn:Hr.
    + destruct (pm_box pm) as [bh|] eqn:Hb; [|by destruct (proj1 Hrun eq_refl)].
      destruct close_error; cbn; (split; [split; [split; [done|by intros []]|
        split; [done|apply wrap_gen]]|]); repeat split; try done; eauto.
    + destruct (Hoff eq_refl) as [Hh _]. assert (Hb : pm_box pm = None).
      { apply eq_None_not_Some. by rewrite <- Hrun. }
      by repeat split; try apply Hwf.
Qed.

(** The generation a reader saw identifies the tunnel: if fewer than 2^64
    calls happened since and the generation is the same, it is the same
    engine, started at the same time, with the same route. *)
Theorem generation_identifies_tunnel `{Resolver} m calls :
  machine_inv m -> (Z.of_nat (length calls) < 2 ^ 64)%Z ->
  let m' := foldl machine_step m calls in
  pm_generation (m_pm m') = pm_generation (m_pm m) ->
  identity (m_pm m') = identity (m_pm m).
Proof.
  intros Hinv Hlen m' Heq. subst m'.
  destruct (machine_run_identity calls m) as (k & Hk & Hid & Hgen). apply Hid.
  rewrite Heq, Z.add_mod in Hgen by lia.
  pose proof Hinv as ((_ & _ & Hg) & _). rewrite (Z.mod_small (pm_generation _)) in Hgen by lia.
  rewrite (Z.mod_small k) in Hgen by lia.
  destruct (decide (pm_generation (m_pm m) + k < 2 ^ 64)%Z).
  - rewrite Z.mod_small in Hgen by lia. lia.
  - rewrite <- (Z.mod_unique _ (2 ^ 64) 1 (pm_generation (m_pm m) + k - 2 ^ 64)) in Hgen by lia. lia.
Qed.

(** The outbound of a started tunnel dials an address: a leaf dials the
    first address of its host, and a TLS or Reality leaf without a server name
    keeps its host name as the server name; a profile keeps exactly the
    members that resolve, in order and at least one, and fails only when none
    does. *)
Theorem pinVLESSServer_spec `{Resolver} srv :
  match sv_Members srv, pinVLESSServer srv with
  | [], Ok (p, ip) =>
      head (ResolveAddrs (sv_Address srv)) = Some ip /\ sv_Address p = ip /\
      sv_Port p = sv_Port srv /\ sv_UUID p = sv_UUID srv /\
      sv_SNI p = (if negb (isIPLiteral (sv_Address srv)) && bool_decide (sv_SNI srv = "") &&
                    (bool_decide (sv_Security srv = "tls") ||
                     bool_decide (sv_Security srv = "reality"))
                  then sv_Address srv else sv_SNI srv)
  | [], Err _ => ResolveAddrs (sv_Address srv) = []
  | members, Ok (p, ip) =>
      sv_Members p <> [] /\
      sv_Members p = omap (fun m => match pinVLESSServer m with Ok q => Some q.1 | Err _ => None end)
                       members
  | members, Err _ => Forall (fun m => is_ok (pinVLESSServer m) = false) members
  end.
Proof.
  destruct (sv_Members srv) as [|m ms] eqn:Hm.
  - assert (Hp : pinVLESSServer srv = pinLeaf srv) by (destruct srv; cbn in Hm; by subst).
    rewrite Hp. destruct (pinLeaf srv) as [[p ip]|e] eqn:Hl; [by apply pinLeaf_Ok|].
    unfold pinLeaf in Hl. by destruct (ResolveAddrs _).
  - set (members := m :: ms) in *.
    set (pins := omap (fun r => match r with Ok p => Some p | Err _ => None end)
                   (map pinVLESSServer members)).
    assert (Hp : pinVLESSServer srv = match pins with
      | [] => Err (NoResolvableMembers (sv_Name srv))
      | _ => let '(pinned, firstIP) := foldl pinMember (srv, "") pins in
             Ok (pinned <| sv_Members := pins.*1 |>, firstIP) end).
    { destruct srv. cbn in Hm. by subst. }
    pose proof (pins_members members) as Hpins. fold pins in Hpins.
    rewrite Hp. destruct pins as [|pin pins'] eqn:Hpe; [by apply pins_none|].
    destruct (foldl _ _ _) as [pinned firstIP]. split; [done|exact Hpins].
Qed.

(** ** Witnesses *)

Definition plain_resolver : Resolver := {|
  ResolveAddrs := fun h => if bool_decide (h = "down.example") then [] else ["192.0.2.1"];
  isIPLiteral := fun _ => false
|}.

Definition plain_start : start_env :=
  mkStartEnv 5 None (fun _ _ => Ok "{}") (fun _ => Ok 7%nat) (fun _ => EnableOk).

Definition one_server : Config :=
  defaultConfig <| cfg_ActiveServer := "id" |>
    <| cfg_Servers := [emptyServer <| sv_ID := "id" |> <| sv_Address := "host.example" |>] |>.

Lemma start_stop_outcomes_witness :
  (@Start plain_resolver plain_start one_server NewProcessManager).1.1 = None /\
  pm_generation (@Start plain_resolver plain_start one_server NewProcessManager).1.2 = 1%Z.
Proof.
  split; [vm_compute; reflexivity|].
  assert (Hwf : pm_wf NewProcessManager).
  { split; [split; [done|by intros []]|]. by split. }
  pose proof (proj1 (@start_stop_outcomes plain_resolver plain_start one_server None
    NewProcessManager Hwf)) as H.
  set (out := @Start plain_resolver plain_start one_server NewProcessManager) in *.
  vm_compute in out. subst out. exact (proj1 (proj2 (proj2 (proj2 (proj2 (proj2 H)))))).
Defined.

Lemma generation_identifies_tunnel_witness :
  identity (m_pm (foldl (@machine_step plain_resolver) initial [CallGuard true (fun _ => EnableOk)]))
  = identity NewProcessManager.
Proof.
  apply (@generation_identifies_tunnel plain_resolver initial
    [CallGuard true (fun _ => EnableOk)]); [|done|done].
  split; [|split; [by intros []|split; done]]. split; [split; [done|by intros []]|]. by split.
Defined.
