(* ===== verification/Routing.v ===== *)
(** * Kernel routing: [routing.go]

    The rules that hand the LAN's traffic to the engine, and their removal.
    The kernel is a state [K] and a function [command] that runs one command
    line on it: what [iptables], [ip], [ndmc], [modprobe] do is not modelled,
    only what the program asks of them and in which order.  What the removal
    relies on is the class [KernelLaws]; how a chain is read (the first rule
    that matches decides) is the definition [verdict]. *)

From Stdlib Require Import Ascii.
From S2P Require Import Prelude GoStrings Settings Servers Config Process.

(** ** Constants *)

Definition lanIfaces : list string := ["br0"; "br-lan"].
Definition tunnelProtocols : list string := ["tcp"; "udp"].
Definition vlessMangleChain : string := "VLESS_TPROXY".
Definition vlessOutputChain : string := "VLESS_OUTPUT".
Definition vlessInputChain : string := "VLESS_IN".
Definition vlessTCPChain : string := "VLESS_TCP".
Definition vlessTCPInput : string := "VLESS_TCP_IN".
Definition tunRtTable : string := "100".
Definition tunIface : string := "tun0".
Definition tcpRedirectPort : string := "7892".

Definition privateCIDRs : list string := [
  "192.168.0.0/16"; "10.0.0.0/8"; "172.16.0.0/12"; "127.0.0.0/8";
  "169.254.0.0/16"; "224.0.0.0/4"; "255.255.255.255/32"; "0.0.0.0/8"].

(** [net.InterfaceByName] succeeds for the names in [exists_iface]. *)
Definition chooseLanIface (exists_iface : string -> bool) : string :=
  default "br0" (snd <$> list_find (fun i => exists_iface i = true) lanIfaces).

(** ** Addresses *)

(** An IPv4 address is its 32 bits. *)
Definition show_ipv4 (ip : Z) : string :=
  Join ((fun sh => pretty (Z.land (Z.shiftr ip sh) 255)) <$> [24; 16; 8; 0]%Z) ".".

(** [net.ParseIP] and [To4] on a text: [None] when it is no IPv4 address. *)
Class NetIP := ParseIP4 : string -> option Z.

(** The dotted decimal base of a constant network. *)
Definition parse_base (s : string) : option Z :=
  parts ← mapM (fun p => ParseUint p 10 8) (Split s char_dot);
  if (length parts =? 4)%nat
  then Some (foldl (fun acc b => Z.lor (Z.shiftl acc 8) b) 0%Z parts) else None.

Definition in_cidr (ip : Z) (cidr : string) : bool :=
  match Cut cidr "/"%char with
  | Some (base, bits) =>
      match parse_base base, ParseUint bits 10 8 with
      | Some b, Some n => (Z.shiftr ip (32 - n) =? Z.shiftr b (32 - n))%Z
      | _, _ => false
      end
  | None => false
  end.

Definition local_address (acc : list string * gset string) (addr : option Z)
  : list string * gset string :=
  let '(result, seen) := acc in
  match addr with
  | None => acc
  | Some ip =>
      let value := show_ipv4 ip in
      if negb (existsb (in_cidr ip) privateCIDRs) && negb (bool_decide (value ∈ seen))
      then (result ++ [value], {[value]} ∪ seen) else acc
  end.

(** [addrs] are the interface addresses, [None] for one that is not IPv4. *)
Definition localIPv4Addresses (addrs : option (list (option Z))) : option (list string) :=
  l ← addrs; Some (foldl local_address ([], ∅) l).1.

Definition dns_line `{NetIP} (acc : list string * gset string) (line : string) : list string * gset string :=
  let '(servers, seen) := acc in
  match Cut (TrimSpace line) char_colon with
  | None => acc
  | Some (key, value) =>
      if bool_decide (TrimSpace key = "address") then
        match ParseIP4 (TrimSpace value) with
        | Some ip =>
            let address := show_ipv4 ip in
            if bool_decide (address ∈ seen) then acc
            else (servers ++ [address], {[address]} ∪ seen)
        | None => acc
        end
      else acc
  end.

(** The output of [ndmc -c "show ip name-server"], [None] when it failed. *)
Definition keeneticUpstreamDNSServers `{NetIP} (output : option string) : list string :=
  match output with
  | None => []
  | Some text => (foldl dns_line ([], ∅) (Split text newline)).1
  end.

(** ** The plan *)

Definition bypass_rules (dnsServers endpointIPs localIPs : list string) : list (list string) :=
  ((fun cidr => ["-d"; cidr; "-j"; "RETURN"]) <$> privateCIDRs) ++
  ((fun ip => ["-d"; ip +:+ "/32"; "-j"; "RETURN"]) <$> endpointIPs ++ localIPs) ++
  (dnsServers ≫= fun ip => (fun protocol =>
     ["-d"; ip +:+ "/32"; "-p"; protocol; "--dport"; "53"; "-j"; "RETURN"]) <$> tunnelProtocols).

Definition capture_rule (chain protocol : string) : list string :=
  if bool_decide (chain = vlessMangleChain)
  then ["-p"; protocol; "-j"; "TPROXY"; "--on-port"; tcpRedirectPort; "--on-ip"; "127.0.0.1";
        "--tproxy-mark"; "0x1/0xffffffff"]
  else ["-p"; protocol; "-j"; "MARK"; "--set-mark"; "0x1/0xffffffff"].

Definition mark_rule : list string := ["-m"; "mark"; "--mark"; "0x9911"; "-j"; "RETURN"].

Definition chain_commands (dnsServers endpointIPs localIPs : list string) (chain : string)
  : list (list string) :=
  let append := fun spec => ["iptables"; "-t"; "mangle"; "-A"; chain] ++ spec in
  ["iptables"; "-t"; "mangle"; "-N"; chain] ::
  (append <$> mark_rule :: bypass_rules dnsServers endpointIPs localIPs ++
              (capture_rule chain <$> tunnelProtocols)).

Definition accept_marked (iface : string) : list string :=
  ["-i"; iface; "-m"; "mark"; "--mark"; "0x1"; "-j"; "ACCEPT"].

Definition input_commands (lanIface : string) : list (list string) :=
  let mangle := fun spec => ["iptables"; "-t"; "mangle"; "-A"; vlessInputChain] ++ spec in
  let filter := fun spec => ["iptables"; "-A"; vlessInputChain] ++ spec in
  [["iptables"; "-t"; "mangle"; "-N"; vlessInputChain]] ++
  (mangle <$> (accept_marked <$> [lanIface; "lo"]) ++ [["-j"; "RETURN"]]) ++
  [["iptables"; "-N"; vlessInputChain]] ++
  (filter <$> (accept_marked <$> [lanIface; "lo"]) ++
    ((fun protocol => ["-p"; protocol; "--dport"; tcpRedirectPort; "-j"; "DROP"]) <$> tunnelProtocols) ++
    [["-j"; "RETURN"]]).

Definition hook_commands (lanIface : string) : list (list string) := [
  ["iptables"; "-I"; "INPUT"; "1"; "-j"; vlessInputChain];
  ["iptables"; "-t"; "mangle"; "-I"; "INPUT"; "1"; "-j"; vlessInputChain];
  ["iptables"; "-t"; "mangle"; "-I"; "PREROUTING"; "1"; "-i"; "lo"; "-j"; vlessMangleChain];
  ["iptables"; "-t"; "mangle"; "-I"; "PREROUTING"; "1"; "-i"; lanIface; "-j"; vlessMangleChain];
  ["iptables"; "-t"; "mangle"; "-I"; "OUTPUT"; "1"; "-j"; vlessOutputChain]].

Definition globalRouteCommands (lanIface : string) (dnsServers endpointIPs localIPs : list string)
  : list (list string) :=
  [["ip"; "rule"; "add"; "fwmark"; "0x1"; "lookup"; tunRtTable; "pref"; "1"];
   ["ip"; "rule"; "add"; "fwmark"; "0x9911"; "lookup"; "main"; "pref"; "2"];
   ["ip"; "route"; "add"; "local"; "0.0.0.0/0"; "dev"; "lo"; "table"; tunRtTable]] ++
  ([vlessMangleChain; vlessOutputChain] ≫= chain_commands dnsServers endpointIPs localIPs) ++
  input_commands lanIface ++ hook_commands lanIface.

(** ** Is the plan in force? *)

(** [key]: the fields of a rule in the spelling [iptables -S] prints. *)
Fixpoint rule_key (fields : list string) : list string :=
  match fields with
  | [] => []
  | f :: rest =>
      let one := if bool_decide (f = "--set-mark") then "--set-xmark" else f in
      if bool_decide (f = "-m") then
        match rest with
        | p :: rest' => if bool_decide (p = "tcp") || bool_decide (p = "udp")
                        then rule_key rest' else one :: rule_key rest
        | [] => [one]
        end
      else one :: rule_key rest
  end.

Definition iptablesSnapshotHasRule (snapshot : string) (rule : list string) : bool :=
  let want := Join (rule_key rule) " " in
  existsb (fun line => bool_decide (Join (rule_key (Fields line)) " " = want)) (Split snapshot newline).

Fixpoint first_chain_rule (lines : list string) (hook : list string) : bool :=
  match lines with
  | [] => false
  | line :: rest =>
      match Fields line with
      | a :: chain :: more =>
          if bool_decide (a = "-A") && bool_decide (Some chain = head hook)
          then bool_decide (Join (chain :: more) " " = Join hook " ")
          else first_chain_rule rest hook
      | _ => first_chain_rule rest hook
      end
  end.

Definition firstChainRuleMatches (output : string) (hook : list string) : bool :=
  first_chain_rule (Split output newline) hook.

Definition outputLineHasTokens (output : string) (required : list string) : bool :=
  existsb (fun line => forallb (fun token => existsb (fun f => bool_decide (f = token)) (Fields line)) required)
    (Split output newline).

(** The rule a command of the plan leaves in the listing of its table. *)
Definition listed_rule (args : list string) : option (bool * list string) :=
  match args with
  | "iptables" :: rest =>
      let '(mangle, rule) := match rest with
        | "-t" :: _ :: rule => if (2 <? length rest)%nat then (true, rule) else (false, rest)
        | _ => (false, rest)
        end in
      Some (mangle, match rule with
                    | "-I" :: chain :: _ :: spec => "-A" :: chain :: spec
                    | _ => rule
                    end)
  | _ => None
  end.

(** ** The commands at work *)

Class Kernel (K : Type) := command : list string -> K -> bool * string * K.

Section Commands.
Context {K : Type} `{!Kernel K}.

(** A command whose result the code ignores. *)
Definition ignored (args : list string) (k : K) : K := (command args k).2.

Fixpoint installGlobalRoute (plan : list (list string)) (cleanup : K -> K) (k : K)
  : option (list string * string) * K :=
  match plan with
  | [] => (None, k)
  | args :: rest =>
      match command args k with
      | (true, _, k) => installGlobalRoute rest cleanup k
      | (false, output, k) => (Some (args, output), cleanup k)
      end
  end.

(** [remove]: the same deletion, at most five times and until it fails. *)
Fixpoint remove_upto (n : nat) (args : list string) (k : K) : K :=
  match n with
  | O => k
  | S n => match command args k with
           | (true, _, k) => remove_upto n args k
           | (false, _, k) => k
           end
  end.

Inductive cleanup_step :=
| Remove (args : list string)
| Once (args : list string).

Definition cleanup_run (k : K) (s : cleanup_step) : K :=
  match s with Remove args => remove_upto 5 args k | Once args => ignored args k end.

Definition disable_script : list cleanup_step :=
  let mangle := fun args => "iptables" :: "-t" :: "mangle" :: args in
  let nat := fun args => "iptables" :: "-t" :: "nat" :: args in
  [Remove (mangle ["-D"; "OUTPUT"; "-j"; vlessOutputChain]);
   Remove (mangle ["-D"; "OUTPUT"; "-j"; vlessMangleChain])] ++
  ((fun iface => Remove (mangle ["-D"; "PREROUTING"; "-i"; iface; "-j"; vlessMangleChain])) <$>
     lanIfaces ++ ["lo"]) ++
  [Remove ["iptables"; "-D"; "INPUT"; "-j"; vlessInputChain];
   Remove (mangle ["-D"; "INPUT"; "-j"; vlessInputChain])] ++
  ([vlessMangleChain; vlessOutputChain; vlessInputChain; "VLESS_PROBE"] ≫= fun chain =>
     [Once (mangle ["-F"; chain]); Once (mangle ["-X"; chain])]) ++
  [Once ["iptables"; "-F"; vlessInputChain]; Once ["iptables"; "-X"; vlessInputChain]] ++
  ((fun mark => Remove ["ip"; "rule"; "del"; "fwmark"; mark; "lookup"; tunRtTable]) <$> ["0x1"; "0x1/0x1"]) ++
  [Remove ["ip"; "rule"; "del"; "fwmark"; "0x9911"; "lookup"; "main"];
   Once ["ip"; "route"; "flush"; "table"; tunRtTable]] ++
  (lanIfaces ≫= fun iface =>
     [Remove (nat ["-D"; "PREROUTING"; "-i"; iface; "-p"; "tcp"; "-j"; vlessTCPChain]);
      Remove ["iptables"; "-D"; "FORWARD"; "-i"; iface; "-o"; tunIface; "-j"; "ACCEPT"]]) ++
  [Remove (nat ["-D"; "OUTPUT"; "-p"; "tcp"; "-j"; vlessTCPChain]);
   Remove ["iptables"; "-D"; "INPUT"; "-p"; "tcp"; "--dport"; tcpRedirectPort; "-j"; vlessTCPInput];
   Once (nat ["-F"; vlessTCPChain]); Once (nat ["-X"; vlessTCPChain]);
   Once ["iptables"; "-F"; vlessTCPInput]; Once ["iptables"; "-X"; vlessTCPInput];
   Remove ["iptables"; "-D"; "FORWARD"; "-i"; tunIface; "-j"; "ACCEPT"];
   Remove ["iptables"; "-D"; "INPUT"; "-i"; tunIface; "-j"; "ACCEPT"];
   Remove (nat ["-D"; "POSTROUTING"; "-o"; tunIface; "-j"; "RETURN"])] ++
  ((fun protocol => Remove (mangle ["-D"; "PREROUTING"; "-p"; protocol; "-m"; "socket"; "-j"; "VLESS_DIVERT"]))
     <$> tunnelProtocols) ++
  [Once (mangle ["-F"; "VLESS_DIVERT"]); Once (mangle ["-X"; "VLESS_DIVERT"])].

Definition disableGlobalRoute (k : K) : K := foldl cleanup_run k disable_script.

(** The texts name what failed; the error [exec] adds to them is left out.  What [EnableGlobalRoute] reads: the resolver's answer for the server, the
    interface addresses and names. *)
Record route_env := mkRouteEnv {
  re_resolve : string -> list string;
  re_addrs : option (list (option Z));
  re_iface : string -> bool
}.

Definition EnableGlobalRoute `{NetIP} (env : route_env) (vlessHost : string) (k : K)
  : enable_result * K :=
  match re_resolve env vlessHost with
  | [] => (EnableUntouched ("resolve VPN server " +:+ vlessHost +:+ ": no IPv4 addresses"), k)
  | serverAddrs =>
      match localIPv4Addresses (re_addrs env) with
      | None => (EnableUntouched "read local IPv4 addresses", k)
      | Some localIPs =>
          let k := disableGlobalRoute k in
          let '(ok, output, k) := command ["ndmc"; "-c"; "show ip name-server"] k in
          let dns := keeneticUpstreamDNSServers (if ok : bool then Some output else None) in
          let plan := globalRouteCommands (chooseLanIface (re_iface env)) dns serverAddrs localIPs in
          match installGlobalRoute plan disableGlobalRoute k with
          | (None, k) => (EnableOk, k)
          | (Some (args, output), k) =>
              (EnableCleaned ("install route " +:+ Join args " " +:+ ": " +:+ output), k)
          end
      end
  end.

Definition globalRouteReady (env : route_env) (k : K) : bool * K :=
  match command ["iptables"; "-t"; "mangle"; "-S"] k with
  | (false, _, k) => (false, k)
  | (true, mangle, k) =>
  match command ["iptables"; "-S"] k with
  | (false, _, k) => (false, k)
  | (true, filter, k) =>
  match localIPv4Addresses (re_addrs env) with
  | None => (false, k)
  | Some localIPs =>
  let lan := chooseLanIface (re_iface env) in
  if negb (forallb (fun args => match listed_rule args with
        | None => true
        | Some (m, rule) => iptablesSnapshotHasRule (if m : bool then mangle else filter) rule
        end) (globalRouteCommands lan [] [] localIPs))
  then (false, k)
  else if negb (firstChainRuleMatches mangle ["OUTPUT"; "-j"; vlessOutputChain]) ||
          negb (firstChainRuleMatches mangle ["PREROUTING"; "-i"; lan; "-j"; vlessMangleChain]) ||
          negb (firstChainRuleMatches mangle ["INPUT"; "-j"; vlessInputChain]) ||
          negb (firstChainRuleMatches filter ["INPUT"; "-j"; vlessInputChain])
  then (false, k)
  else
    let '(rules_ok, rules, k) := command ["ip"; "rule"; "show"] k in
    if negb rules_ok || negb (outputLineHasTokens rules ["fwmark"; "0x1"; "lookup"; tunRtTable]) ||
       negb (outputLineHasTokens rules ["fwmark"; "0x9911"; "lookup"; "main"])
    then (false, k)
    else
      let '(routes_ok, routes, k) := command ["ip"; "route"; "show"; "table"; tunRtTable] k in
      (routes_ok && (outputLineHasTokens routes ["local"; "default"; "dev"; "lo"] ||
                     outputLineHasTokens routes ["local"; "0.0.0.0/0"; "dev"; "lo"]), k)
  end end end.

Definition probe_rule (protocol : string) : list string :=
  ["iptables"; "-t"; "mangle"; "-A"; "VLESS_PROBE"; "-p"; protocol; "-j"; "TPROXY"; "--on-port";
   tcpRedirectPort; "--tproxy-mark"; "0x1/0xffffffff"].

(** Loads the kernel module, by both ways, before the second attempt. *)
Definition load_module (k : K) : K :=
  let k := ignored ["modprobe"; "xt_TPROXY"] k in
  let '(ok, release, k) := command ["uname"; "-r"] k in
  let release := TrimSpace release in
  if ok && negb (bool_decide (release = "")) &&
     negb (existsb (fun c => bool_decide (c = "/"%char) || bool_decide (c = "\"%char) ||
                             is_byte 10 c || is_byte 13 c) (bytes_of release))
  then ignored ["insmod"; "/lib/modules/" +:+ release +:+ "/xt_TPROXY.ko"] k else k.

Fixpoint probe_protocols (protocols : list string) (k : K) : option (string * string) * K :=
  match protocols with
  | [] => (None, k)
  | protocol :: rest =>
      match command (probe_rule protocol) k with
      | (true, _, k) => probe_protocols rest k
      | (false, _, k) =>
          match command (probe_rule protocol) (load_module k) with
          | (true, _, k) => probe_protocols rest k
          | (false, output, k) => (Some (protocol, output), k)
          end
      end
  end.

Definition ensureTProxySupport (k : K) : option string * K :=
  let flush := ignored ["iptables"; "-t"; "mangle"; "-F"; "VLESS_PROBE"] in
  let delete := ignored ["iptables"; "-t"; "mangle"; "-X"; "VLESS_PROBE"] in
  let k := delete (flush k) in
  match command ["iptables"; "-t"; "mangle"; "-N"; "VLESS_PROBE"] k with
  | (false, output, k) => (Some ("create TPROXY probe: " +:+ output), k)
  | (true, _, k) =>
      let '(err, k) := probe_protocols tunnelProtocols k in
      ((fun e : string * string => "kernel TPROXY " +:+ e.1 +:+ ": " +:+ e.2) <$> err, delete (flush k))
  end.
End Commands.

(** ** Installing and removing *)

(** The commands succeed one after the other. *)
Fixpoint run_all {K} `{!Kernel K} (plan : list (list string)) (k : K) : option K :=
  match plan with
  | [] => Some k
  | args :: rest => match command args k with
                    | (true, _, k) => run_all rest k
                    | (false, _, _) => None
                    end
  end.

Lemma install_spec {K} `{!Kernel K} plan cleanup (k : K) :
  match installGlobalRoute plan cleanup k with
  | (None, k') => run_all plan k = Some k'
  | (Some (args, output), k') => exists before rest k1 k2,
      plan = before ++ args :: rest /\ run_all before k = Some k1 /\
      command args k1 = (false, output, k2) /\ k' = cleanup k2
  end.
Proof.
  revert k. induction plan as [|args plan IH]; intros k; cbn [installGlobalRoute run_all]; [done|].
  destruct (command args k) as [[[|] output] k1] eqn:Hc.
  - specialize (IH k1). destruct (installGlobalRoute plan cleanup k1) as [[[args' output']|] k']; [|done].
    destruct IH as (before & rest & k2 & k3 & -> & Hrun & Hfail & ->).
    exists (args :: before), rest, k2, k3. cbn [run_all app]. by rewrite Hc.
  - exists [], plan, k, k1. by split_and!.
Qed.

(** A rule of a table: the table's arguments, and the chain with the rule. *)
Definition hook : Type := list string * list string.
Definition delete_command (h : hook) : list string := "iptables" :: h.1 ++ "-D" :: h.2.

Definition adds_rule (args : list string) : bool :=
  existsb (fun a => bool_decide (a = "-A") || bool_decide (a = "-I")) args.

(** [iptables]: [-D] removes one copy of a rule and fails when there is none;
    only [-A] and [-I] add rules. *)
Class KernelLaws (K : Type) `{!Kernel K} := {
  copies : K -> hook -> nat;
  delete_one : forall k h,
    match copies k h with
    | O => (command (delete_command h) k).1.1 = false
    | S n => (command (delete_command h) k).1.1 = true /\
             copies (command (delete_command h) k).2 h = n
    end;
  others_do_not_add : forall k h args,
    adds_rule args = false -> copies (command args k).2 h <= copies k h
}.

(** The hooks of the plan, as rules. *)
Definition plan_hooks (lanIface : string) : list hook := [
  ([], ["INPUT"; "-j"; vlessInputChain]);
  (["-t"; "mangle"], ["INPUT"; "-j"; vlessInputChain]);
  (["-t"; "mangle"], ["PREROUTING"; "-i"; "lo"; "-j"; vlessMangleChain]);
  (["-t"; "mangle"], ["PREROUTING"; "-i"; lanIface; "-j"; vlessMangleChain]);
  (["-t"; "mangle"], ["OUTPUT"; "-j"; vlessOutputChain])].

Definition insert_command (h : hook) : list string :=
  "iptables" :: h.1 ++ "-I" :: match h.2 with
                               | chain :: spec => chain :: "1" :: spec
                               | [] => []
                               end.

Lemma hook_commands_eq lan : hook_commands lan = insert_command <$> plan_hooks lan.
Proof. done. Qed.

Section Removal.
Context {K : Type} `{!Kernel K} `{!KernelLaws K}.

Definition step_command (s : cleanup_step) : list string :=
  match s with Remove args | Once args => args end.

Lemma remove_upto_le n args k h :
  adds_rule args = false -> copies (remove_upto n args k) h <= copies k h.
Proof.
  intros Ha. revert k. induction n as [|n IH]; intros k; cbn [remove_upto]; [done|].
  pose proof (others_do_not_add k h args Ha) as Hle.
  destruct (command args k) as [[[|] output] k']; cbn in Hle; [|done].
  etrans; [apply IH|done].
Qed.

Lemma remove_upto_clears n h k :
  adds_rule (delete_command h) = false -> copies k h <= n ->
  copies (remove_upto n (delete_command h) k) h = 0.
Proof.
  intros Ha. revert k. induction n as [|n IH]; intros k Hk; cbn [remove_upto]; [lia|].
  pose proof (delete_one k h) as Hd. pose proof (others_do_not_add k h _ Ha) as Hle.
  destruct (command (delete_command h) k) as [[ok output] k'].
  destruct (copies k h) as [|m] eqn:Hc; cbn [fst snd] in Hd, Hle.
  - subst ok. lia.
  - destruct Hd as [-> Hm]. apply IH. lia.
Qed.

Lemma cleanup_run_le k s h :
  adds_rule (step_command s) = false -> copies (cleanup_run k s) h <= copies k h.
Proof. destruct s; intros; [by apply remove_upto_le|by apply others_do_not_add]. Qed.

Lemma script_clears script k h :
  Forall (fun s => adds_rule (step_command s) = false) script ->
  Remove (delete_command h) ∈ script -> copies k h <= 5 ->
  copies (foldl cleanup_run k script) h = 0.
Proof.
  intros Hall Hin Hk.
  assert (Hle : forall l k, Forall (fun s => adds_rule (step_command s) = false) l ->
    copies (foldl cleanup_run k l) h <= copies k h).
  { clear. induction l as [|s l IH]; intros k Hall; cbn [foldl]; [done|].
    apply Forall_cons in Hall as [Hs Hall]. etrans; [by apply IH|by apply cleanup_run_le]. }
  apply list_elem_of_split in Hin as (l1 & l2 & ->).
  apply Forall_app in Hall as [H1 H2]. apply Forall_cons in H2 as [Hs H2].
  rewrite foldl_app. cbn [foldl cleanup_run].
  pose proof (Hle l1 k H1) as Hle1.
  pose proof (Hle l2 (remove_upto 5 (delete_command h) (foldl cleanup_run k l1)) H2) as Hle2.
  rewrite remove_upto_clears in Hle2; [lia|done|lia].
Qed.

Lemma script_adds_nothing : Forall (fun s => adds_rule (step_command s) = false) disable_script.
Proof. by repeat (apply Forall_cons; split; [vm_compute; reflexivity|]). Qed.

Lemma hook_in_script lan h :
  lan ∈ lanIfaces -> h ∈ plan_hooks lan -> Remove (delete_command h) ∈ disable_script.
Proof.
  intros Hlan Hh. unfold plan_hooks in Hh. apply list_elem_of_In in Hlan, Hh.
  cbn in Hlan, Hh. apply list_elem_of_In.
  assert (Hd : forall s, existsb (fun s' => bool_decide (step_command s' = step_command s) &&
      match s' with Remove _ => true | _ => false end) disable_script = true ->
    match s with Remove _ => True | _ => False end -> In s disable_script).
  { intros s He Hs. apply existsb_exists in He as (s' & Hin & He).
    apply andb_true_iff in He as [He%bool_decide_eq_true Hr].
    destruct s, s'; try done. cbn in He. by subst. }
  destruct Hlan as [<-|[<-|[]]];
    destruct Hh as [<-|[<-|[<-|[<-|[<-|[]]]]]]; apply Hd; done || (vm_compute; reflexivity).
Qed.

End Removal.

Lemma chooseLanIface_lan exists_iface : chooseLanIface exists_iface ∈ lanIfaces.
Proof.
  unfold chooseLanIface, lanIfaces. cbn. repeat case_decide; cbn; by repeat constructor.
Qed.

(** C32. Switching the routes on is all or nothing.  It reports success only
    when every command of the plan succeeded, in order, after the old rules
    were removed; it reports "untouched" exactly when it ran no command at all;
    and when it fails half-way, no later command of the plan is run and the
    removal runs after the failed one, so that none of the plan's hooks is left
    attached (at most five copies of each being there). *)
Theorem EnableGlobalRoute_all_or_nothing {K} `{!Kernel K, !KernelLaws K, !NetIP} env host (k : K) :
  let '(outcome, k') := EnableGlobalRoute env host k in
  let kd := disableGlobalRoute k in
  let plan := globalRouteCommands (chooseLanIface (re_iface env))
    (keeneticUpstreamDNSServers (if (command ["ndmc"; "-c"; "show ip name-server"] kd).1.1
       then Some (command ["ndmc"; "-c"; "show ip name-server"] kd).1.2 else None))
    (re_resolve env host) (default [] (localIPv4Addresses (re_addrs env))) in
  match outcome with
  | EnableOk =>
      run_all plan (command ["ndmc"; "-c"; "show ip name-server"] kd).2 = Some k' /\
      re_resolve env host <> []
  | EnableUntouched _ => k' = k /\ (re_resolve env host = [] \/ re_addrs env = None)
  | EnableCleaned _ => exists before failed rest k1 k2,
      plan = before ++ failed :: rest /\
      run_all before (command ["ndmc"; "-c"; "show ip name-server"] kd).2 = Some k1 /\
      (command failed k1).1.1 = false /\ k2 = (command failed k1).2 /\ k' = disableGlobalRoute k2 /\
      (forall h, h ∈ plan_hooks (chooseLanIface (re_iface env)) -> copies k2 h <= 5 -> copies k' h = 0)
  end.
Proof.
  unfold EnableGlobalRoute.
  destruct (re_resolve env host) as [|a addrs] eqn:Hr; [by split; [|left]|].
  unfold localIPv4Addresses. destruct (re_addrs env) as [l|] eqn:Hl; [|by split; [|right]].
  change (Some l ≫= ?f) with (f l). cbv beta zeta. change (default [] (Some ?x)) with x.
  destruct (command ["ndmc"; "-c"; "show ip name-server"] (disableGlobalRoute k))
    as [[ok output] kn] eqn:Hn. cbn [fst snd].
  set (plan := globalRouteCommands _ _ _ _). clearbody plan.
  pose proof (install_spec plan disableGlobalRoute kn) as Hi.
  destruct (installGlobalRoute plan disableGlobalRoute kn) as [[[args out]|] k']; [|by split].
  destruct Hi as (before & rest & k1 & k2 & Hp & Hrun & Hfail & ->).
  exists before, args, rest, k1, k2. rewrite Hfail. split_and!; try done.
  intros h Hh Hc. apply script_clears; [apply script_adds_nothing| |done].
  eapply hook_in_script; [apply chooseLanIface_lan|done].
Qed.

(** ** Reading the plan's chains *)

(** The rules a plan appends to a chain of the mangle table, or of the filter
    table. *)
Definition mangle_rules (plan : list (list string)) (chain : string) : list (list string) :=
  omap (fun args => match args with
    | "iptables" :: "-t" :: "mangle" :: "-A" :: c :: spec => if bool_decide (c = chain) then Some spec else None
    | _ => None
    end) plan.

Definition filter_rules (plan : list (list string)) (chain : string) : list (list string) :=
  omap (fun args => match args with
    | "iptables" :: "-A" :: c :: spec => if bool_decide (c = chain) then Some spec else None
    | _ => None
    end) plan.

(** The kernel reads a chain from the top; the first rule that matches
    decides. *)
Definition verdict {P} (matches : list string -> P -> bool) (rules : list (list string)) (p : P)
  : option (list string) := snd <$> list_find (fun r => matches r p = true) rules.

Lemma verdict_cons {P} matches r rules (p : P) :
  verdict matches (r :: rules) p = if matches r p then Some r else verdict matches rules p.
Proof.
  unfold verdict. cbn [list_find]. destruct (matches r p);
    [by rewrite decide_True|rewrite decide_False by done].
  by destruct (list_find _ rules) as [[i x]|].
Qed.

Lemma verdict_app {P} matches rules1 rules2 (p : P) :
  verdict matches (rules1 ++ rules2) p =
  match verdict matches rules1 p with Some r => Some r | None => verdict matches rules2 p end.
Proof.
  induction rules1 as [|r rules1 IH]; [done|]. cbn [app]. rewrite !verdict_cons.
  by destruct (matches r p).
Qed.

Lemma verdict_Some {P} matches rules (p : P) r :
  verdict matches rules p = Some r -> r ∈ rules /\ matches r p = true.
Proof.
  induction rules as [|r' rules IH]; [done|]. rewrite verdict_cons.
  destruct (matches r' p) eqn:Hm.
  - intros [= <-]. split; [left|done].
  - intros Hv. destruct (IH Hv). split; [by right|done].
Qed.

Lemma verdict_is_Some {P} matches rules (p : P) r :
  r ∈ rules -> matches r p = true -> is_Some (verdict matches rules p).
Proof.
  induction rules as [|r' rules IH]; [by intros ?%elem_of_nil|]. intros Hr Hm. rewrite verdict_cons.
  destruct (matches r' p) eqn:Hm'; [by eexists|]. apply elem_of_cons in Hr as [->|Hr]; [congruence|auto].
Qed.

Lemma mangle_rules_app p1 p2 chain :
  mangle_rules (p1 ++ p2) chain = mangle_rules p1 chain ++ mangle_rules p2 chain.
Proof. apply omap_app. Qed.

Lemma filter_rules_app p1 p2 chain :
  filter_rules (p1 ++ p2) chain = filter_rules p1 chain ++ filter_rules p2 chain.
Proof. apply omap_app. Qed.

Lemma mangle_rules_append c chain spec plan :
  mangle_rules ((["iptables"; "-t"; "mangle"; "-A"; c] ++ spec) :: plan) chain =
  if bool_decide (c = chain) then spec :: mangle_rules plan chain else mangle_rules plan chain.
Proof. unfold mangle_rules. cbn. by case_bool_decide. Qed.

Lemma chain_commands_mangle dns ends locals c chain :
  mangle_rules (chain_commands dns ends locals c) chain =
  if bool_decide (c = chain)
  then mark_rule :: bypass_rules dns ends locals ++ (capture_rule c <$> tunnelProtocols) else [].
Proof.
  unfold chain_commands. cbv zeta. generalize (mark_rule :: bypass_rules dns ends locals ++ (capture_rule c <$> tunnelProtocols)).
  intros specs. change (mangle_rules (?x :: ?l) chain) with (mangle_rules l chain).
  induction specs as [|spec specs IH]; [by case_match|].
  rewrite fmap_cons, mangle_rules_append, IH. by case_bool_decide.
Qed.

Lemma chain_commands_filter dns ends locals c chain :
  filter_rules (chain_commands dns ends locals c) chain = [].
Proof.
  unfold chain_commands. cbv zeta. generalize (mark_rule :: bypass_rules dns ends locals ++ (capture_rule c <$> tunnelProtocols)).
  intros specs. change (filter_rules (?x :: ?l) chain) with (filter_rules l chain).
  induction specs as [|spec specs IH]; [done|]. rewrite fmap_cons. exact IH.
Qed.

Lemma bypass_returns dns ends locals r : r ∈ bypass_rules dns ends locals -> last r = Some "RETURN".
Proof.
  unfold bypass_rules. intros [Hr|[Hr|Hr]%elem_of_app]%elem_of_app.
  - by apply list_elem_of_fmap in Hr as (? & -> & _).
  - by apply list_elem_of_fmap in Hr as (? & -> & _).
  - apply list_elem_of_bind in Hr as (ip & Hr & _). by apply list_elem_of_fmap in Hr as (? & -> & _).
Qed.

(** A command that puts a rule at the top of a chain. *)
Definition insertion (args : list string) : bool :=
  match args with
  | "iptables" :: "-I" :: _ | "iptables" :: "-t" :: _ :: "-I" :: _ => true
  | _ => false
  end.

Lemma setup_inserts_nothing lan dns ends locals :
  forallb (fun args => negb (insertion args)) (chain_commands dns ends locals vlessMangleChain ++
    chain_commands dns ends locals vlessOutputChain ++ input_commands lan) = true.
Proof.
  rewrite !forallb_app, !andb_true_iff.
  assert (Hc : forall c, forallb (fun args => negb (insertion args)) (chain_commands dns ends locals c) = true).
  { intros c. unfold chain_commands. cbv zeta.
    generalize (mark_rule :: bypass_rules dns ends locals ++ (capture_rule c <$> tunnelProtocols)).
    intros specs. cbn [forallb]. induction specs as [|spec specs IH]; [done|]. exact IH. }
  by split_and!.
Qed.

Lemma plan_mangle_rules lan dns ends locals chain :
  chain = vlessMangleChain \/ chain = vlessOutputChain ->
  mangle_rules (globalRouteCommands lan dns ends locals) chain =
  mark_rule :: bypass_rules dns ends locals ++ [capture_rule chain "tcp"; capture_rule chain "udp"].
Proof.
  intros Hchain. unfold globalRouteCommands. cbn [mbind list_bind].
  rewrite !mangle_rules_app, !chain_commands_mangle.
  destruct Hchain as [-> | ->].
  - rewrite bool_decide_eq_true_2, bool_decide_eq_false_2 by done. cbn [app].
    change (mangle_rules (input_commands lan) _) with (@nil (list string)).
    change (mangle_rules (hook_commands lan) _) with (@nil (list string)).
    change (mangle_rules [_; _; _] _) with (@nil (list string)). by rewrite !app_nil_r.
  - rewrite bool_decide_eq_false_2, bool_decide_eq_true_2 by done. cbn [app].
    change (mangle_rules (input_commands lan) _) with (@nil (list string)).
    change (mangle_rules (hook_commands lan) _) with (@nil (list string)).
    change (mangle_rules [_; _; _] _) with (@nil (list string)). by rewrite !app_nil_r.
Qed.

Lemma plan_filter_rules lan dns ends locals :
  filter_rules (globalRouteCommands lan dns ends locals) vlessInputChain =
  [accept_marked lan; accept_marked "lo"; ["-p"; "tcp"; "--dport"; tcpRedirectPort; "-j"; "DROP"];
   ["-p"; "udp"; "--dport"; tcpRedirectPort; "-j"; "DROP"]; ["-j"; "RETURN"]].
Proof.
  unfold globalRouteCommands. cbn [mbind list_bind].
  by rewrite !filter_rules_app, !chain_commands_filter.
Qed.

(** What the plan does with a packet, whatever the kernel's matching is.
    In both capture chains a packet with the engine's own mark, and a packet to
    a private, endpoint, local or (port 53) upstream name-server address, is
    returned; every other one is decided by the capture rules, one for each
    protocol.  In the filter's input chain a packet that no rule for marked
    packets accepts and that a rule of the listener matches is dropped.  The
    commands that hook the chains in are the last ones of the plan and the only
    insertions, so no packet ever sees a chain half built. *)
Theorem plan_protects lan dns ends locals :
  let plan := globalRouteCommands lan dns ends locals in
  (exists setup, plan = setup ++ hook_commands lan /\
     forallb (fun args => negb (insertion args)) setup = true) /\
  forall P (matches : list string -> P -> bool) (p : P),
    (forall chain, chain = vlessMangleChain \/ chain = vlessOutputChain ->
       ((matches mark_rule p = true \/ exists r, r ∈ bypass_rules dns ends locals /\ matches r p = true) ->
        exists r, verdict matches (mangle_rules plan chain) p = Some r /\ last r = Some "RETURN") /\
       (matches mark_rule p = false ->
        (forall r, r ∈ bypass_rules dns ends locals -> matches r p = false) ->
        verdict matches (mangle_rules plan chain) p =
          verdict matches [capture_rule chain "tcp"; capture_rule chain "udp"] p)) /\
    (forall protocol, protocol ∈ tunnelProtocols ->
       matches (accept_marked lan) p = false -> matches (accept_marked "lo") p = false ->
       matches ["-p"; protocol; "--dport"; tcpRedirectPort; "-j"; "DROP"] p = true ->
       exists r, verdict matches (filter_rules plan vlessInputChain) p = Some r /\ last r = Some "DROP").
Proof.
  cbv zeta. split.
  - eexists. split; [unfold globalRouteCommands; by rewrite !app_assoc|].
    pose proof (setup_inserts_nothing lan dns ends locals) as Hs.
    cbn [mbind list_bind]. rewrite app_nil_r, <- !app_assoc. exact Hs.
  - intros P matches p. split.
    + intros chain Hchain. rewrite (plan_mangle_rules lan dns ends locals chain Hchain), verdict_cons.
      rewrite verdict_app. split.
      * destruct (matches mark_rule p) eqn:Hm; [intros _; by exists mark_rule|].
        intros [?|(r & Hr & Hrm)]; [done|].
        destruct (verdict_is_Some _ _ _ _ Hr Hrm) as [r' Hv]. rewrite Hv. exists r'. split; [done|].
        eapply bypass_returns. by apply verdict_Some in Hv as [? _].
      * intros -> Hb. destruct (verdict matches (bypass_rules dns ends locals) p) as [r|] eqn:Hv; [|done].
        apply verdict_Some in Hv as [Hr Hm]. rewrite Hb in Hm by done. done.
    + intros protocol Hp Hlan Hlo Hd. rewrite plan_filter_rules, !verdict_cons, Hlan, Hlo.
      apply elem_of_cons in Hp as [->|[->|[]%elem_of_nil]%elem_of_cons].
      * rewrite Hd. by eexists.
      * rewrite Hd. case_match; by eexists.
Qed.

(** ** Witnesses *)

(** A kernel that keeps its rules as the commands that would delete them. *)
Definition toy_rule (args : list string) : list string :=
  omap (fun a => if bool_decide (a = "-I") then Some "-D"
                 else if bool_decide (a = "1") then None else Some a) args.

Definition toy_command (args : list string) (k : list (list string)) : bool * string * list (list string) :=
  if bool_decide ("-D" ∈ args) then
    match list_find (fun r => r = args) k with
    | Some (i, _) => (true, "", delete i k)
    | None => (false, "no such rule", k)
    end
  else if bool_decide ("-I" ∈ args) then (true, "", toy_rule args :: k)
  else (true, "", k).

#[export] Instance toy_kernel : Kernel (list (list string)) := toy_command.

Definition toy_copies (k : list (list string)) (h : hook) : nat :=
  length (filter (fun r => r = delete_command h) k).

Lemma toy_copies_delete i rule (k : list (list string)) (h : hook) :
  k !! i = Some rule ->
  toy_copies k h = (if bool_decide (rule = delete_command h) then 1 else 0) + toy_copies (delete i k) h.
Proof.
  unfold toy_copies. revert i. induction k as [|r k IH]; intros [|i] Hi; [done|done| |].
  - injection Hi as ->. cbn [delete list_delete]. rewrite filter_cons.
    case_bool_decide; case_decide; done.
  - cbn in Hi. change (delete (S i) (r :: k)) with (r :: delete i k). rewrite !filter_cons.
    specialize (IH i Hi). destruct (decide (r = delete_command h)); cbn [length]; lia.
Qed.

Lemma toy_copies_zero (k : list (list string)) h : toy_copies k h = 0 <-> delete_command h ∉ k.
Proof.
  unfold toy_copies. rewrite length_zero_iff_nil. split.
  - intros Hnil Hin. apply (not_elem_of_nil (delete_command h)). rewrite <- Hnil.
    by apply list_elem_of_filter.
  - intros Hn. destruct (filter _ k) as [|r l] eqn:Hf; [done|].
    assert (Hr : r ∈ filter (fun r => r = delete_command h) k) by (rewrite Hf; left).
    by apply list_elem_of_filter in Hr as [-> ?].
Qed.

#[export] Instance toy_laws : KernelLaws (list (list string)).
Proof.
  refine {| copies := toy_copies |}.
  - intros k h. unfold command, toy_kernel, toy_command.
    assert (Hd : "-D" ∈ delete_command h) by (unfold delete_command; set_solver).
    rewrite bool_decide_eq_true_2 by done.
    destruct (list_find _ k) as [[i r]|] eqn:Hf.
    + apply list_find_Some in Hf as (Hl & -> & _). rewrite (toy_copies_delete i _ k h Hl).
      by rewrite bool_decide_eq_true_2.
    + rewrite list_find_None in Hf.
      assert (Hz : toy_copies k h = 0); [|by rewrite Hz].
      apply toy_copies_zero. intros Hin. rewrite Forall_forall in Hf. by apply (Hf _ Hin).
  - intros k h args Ha. unfold command, toy_kernel, toy_command.
    destruct (decide ("-D" ∈ args)).
    + rewrite bool_decide_eq_true_2 by done. destruct (list_find _ k) as [[i r]|] eqn:Hf; [|done].
      apply list_find_Some in Hf as (Hl & _ & _). change (toy_copies (delete i k) h <= toy_copies k h).
      rewrite (toy_copies_delete i _ k h Hl). case_bool_decide; lia.
    + rewrite bool_decide_eq_false_2 by done. case_bool_decide as Hin; [|done]. exfalso.
      unfold adds_rule in Ha. rewrite <- not_true_iff_false in Ha. apply Ha, existsb_exists.
      exists "-I". split; [by apply list_elem_of_In|by rewrite orb_true_r].
Defined.

Definition hooked : list (list string) := delete_command <$> plan_hooks "br0" ++ plan_hooks "br0".


(** The listing of the installed plan, as the kernel prints it, is recognised:
    the round trip of the guard on a concrete set of addresses. *)
Definition listing (mangle : bool) (plan : list (list string)) : string :=
  let rules := omap (fun args => match listed_rule args with
    | Some (m, rule) => if Bool.eqb m mangle then Some (insertion args, Join rule " ") else None
    | None => None end) plan in
  Join ((reverse (snd <$> filter (fun r => r.1 = true) rules)) ++
        (snd <$> filter (fun r => r.1 = false) rules)) (string_of [newline]).

#[local] Instance listing_kernel : Kernel (list (list string)) := fun args plan =>
  (true,
   if bool_decide (args = ["iptables"; "-t"; "mangle"; "-S"]) then listing true plan
   else if bool_decide (args = ["iptables"; "-S"]) then listing false plan
   else if bool_decide (args = ["ip"; "rule"; "show"])
   then "1: from all fwmark 0x1 lookup 100" +:+ string_of [newline] +:+ "2: from all fwmark 0x9911 lookup main"
   else "local default dev lo scope host", plan).

Definition plain_route_env : route_env := mkRouteEnv (fun _ => ["198.51.100.1"])
  (Some [Some 3232235777%Z; None; Some 3405803777%Z]) (fun i => bool_decide (i = "br-lan")).

Example local_addresses_plain : localIPv4Addresses (re_addrs plain_route_env) = Some ["203.0.113.1"].
Proof. vm_compute. reflexivity. Qed.

Example ready_plain :
  (@globalRouteReady _ listing_kernel plain_route_env
     (globalRouteCommands "br-lan" ["203.0.113.53"] ["198.51.100.1"] ["203.0.113.1"])).1 = true /\
  (@globalRouteReady _ listing_kernel plain_route_env
     (globalRouteCommands "br-lan" ["203.0.113.53"] ["198.51.100.1"] [])).1 = false.
Proof. vm_compute. done. Qed.
