(* ===== verification/Failover.v ===== *)
(** * Automatic failover: [failover.go], and [ProbeResult] and [InternetStatus]
      of [health.go]

    The controller decides whether the VPN should be on from probes that
    bypass it (the outer tick) and replaces the server of a running VPN that
    stops carrying traffic (the health tick).

    - [failoverController] is the state [fc.mu] protects.  Every critical
      section of the code is one Definition on it.
    - [FailoverEnv] is everything else: the clock, the settings snapshot, the
      probe calls, and the tunnel functions ([statusFn], [startFn], [stopFn],
      [chooseFn], [startSelectedFn]) acting on a world [W].
    - [outerTick] and [healthTick] compose the sections as the code does;
      [sys] is the same code cut at every point where another goroutine can
      run, with [outerMu] and [healthMu] as the two program counters.

    [Reason] keeps the parts of a reason text apart instead of formatting them.
    Log events are not recorded. *)

From S2P Require Import Prelude GoStrings Settings Servers Config Process.

(** ** Data *)

Record ProbeResult := mkProbe {
  pr_URL : string;
  pr_OK : bool;
  pr_LatencyMS : Z;
  pr_Error : string
}.

Inductive Reason :=
| RWaiting
| RPolicyOff
| RBase (base : string)
| RPolicyDisabled (base : string)
| RConfirming (base : string) (pending limit : Z)
| RBackoff (base : string) (remaining : Duration)
| RSwitching (base : string)
| RStartFailed (err : string) (backoff : Duration).

Record FailoverState := mkFState {
  fs_Enabled : bool;
  fs_TunnelFailoverEnabled : bool;
  fs_VPNOn : bool;
  fs_OpenProbes : list ProbeResult;
  fs_WhitelistProbes : list ProbeResult;
  fs_OpenOK : bool;
  fs_WhitelistOK : bool;
  fs_VPNHealthOK : bool;
  fs_VPNHealthCheck : Time;
  fs_VPNHealthLatencyMS : Z;
  fs_VPNHealthFails : Z;
  fs_VPNHealthURL : string;
  fs_VPNHealthFailLimit : Z;
  fs_Reason : Reason;
  fs_LastCheck : Time;
  fs_Pending : Z
}.

#[export] Instance FailoverState_eta : Eta FailoverState := fun s =>
  mkFState (fs_Enabled s) (fs_TunnelFailoverEnabled s) (fs_VPNOn s) (fs_OpenProbes s)
    (fs_WhitelistProbes s) (fs_OpenOK s) (fs_WhitelistOK s) (fs_VPNHealthOK s)
    (fs_VPNHealthCheck s) (fs_VPNHealthLatencyMS s) (fs_VPNHealthFails s) (fs_VPNHealthURL s)
    (fs_VPNHealthFailLimit s) (fs_Reason s) (fs_LastCheck s) (fs_Pending s).

(** Channels are numbered as they are made. *)
Record failoverController := mkFC {
  fc_enabled : bool;
  fc_tunnelEnabled : bool;
  fc_running : bool;
  fc_state : FailoverState;
  fc_proposedOn : bool;
  fc_pending : Z;
  fc_nextStartAttempt : Time;
  fc_nextSwapAttempt : Time;
  fc_healthGeneration : Z;
  fc_stopCh : nat;
  fc_channels : nat;
  fc_closed : list nat;
  fc_reload : bool
}.

#[export] Instance failoverController_eta : Eta failoverController := fun f =>
  mkFC (fc_enabled f) (fc_tunnelEnabled f) (fc_running f) (fc_state f) (fc_proposedOn f)
    (fc_pending f) (fc_nextStartAttempt f) (fc_nextSwapAttempt f) (fc_healthGeneration f)
    (fc_stopCh f) (fc_channels f) (fc_closed f) (fc_reload f).

Definition newFailoverController (settings : AppSettings) (enabled tunnelEnabled : bool)
  : failoverController :=
  mkFC enabled tunnelEnabled false
    (mkFState enabled tunnelEnabled false [] [] false false false zero_time (-1) 0 ""
       (FailoverVPNSwapAfterFails settings) (if enabled then RWaiting else RPolicyOff) zero_time 0)
    false 0 zero_time zero_time 0 0 1 [] false.

(** ** Controls *)

Inductive goroutine := GoRun | GoOuterTick | GoHealthTick.

Definition make_stopCh (fc : failoverController) : failoverController :=
  fc <| fc_stopCh := fc_channels fc |> <| fc_channels ::= S |>.

Definition SetEnabled (on : bool) (fc : failoverController) : failoverController * list goroutine :=
  let fc := fc <| fc_enabled := on |> <| fc_state ::= fun s => s <| fs_Enabled := on |> |> in
  if negb on then
    (fc <| fc_state ::= fun s => s <| fs_Reason := RPolicyOff |> |>,
     if fc_running fc then [GoOuterTick] else [])
  else if negb (fc_running fc) then (make_stopCh fc, [GoRun])
  else (fc, [GoOuterTick]).

Definition reset_health (s : FailoverState) : FailoverState :=
  s <| fs_VPNHealthOK := false |> <| fs_VPNHealthFails := 0%Z |>
    <| fs_VPNHealthCheck := zero_time |> <| fs_VPNHealthLatencyMS := (-1)%Z |>
    <| fs_VPNHealthURL := "" |>.

Definition SetTunnelFailoverEnabled (on : bool) (fc : failoverController)
  : failoverController * list goroutine :=
  let launch := negb (fc_running fc) in
  let fc := fc <| fc_tunnelEnabled := on |>
               <| fc_state ::= fun s => s <| fs_TunnelFailoverEnabled := on |> |> in
  let fc := if on then fc else fc <| fc_state ::= reset_health |> in
  if launch then (make_stopCh fc, [GoRun])
  else (fc, if on then [GoHealthTick] else []).

Definition ReloadSettings (fc : failoverController) : failoverController :=
  fc <| fc_reload := true |>.

Definition ResetBackoff (fc : failoverController) : failoverController :=
  fc <| fc_nextStartAttempt := zero_time |> <| fc_nextSwapAttempt := zero_time |>.

Definition State (status : ProcessStatus) (fc : failoverController) : FailoverState :=
  let state := fc_state fc <| fs_VPNOn := ps_Running status |> in
  if negb (ps_Running status) || negb (ps_Generation status =? fc_healthGeneration fc)%Z
  then state <| fs_VPNHealthOK := false |> <| fs_VPNHealthCheck := zero_time |>
             <| fs_VPNHealthLatencyMS := (-1)%Z |>
  else state.

(** ** The [Run] loop *)

(** [None] when the loop is already live: the call returns at once. *)
Definition runBegin (fc : failoverController) : option (nat * failoverController) :=
  if fc_running fc then None else Some (fc_stopCh fc, fc <| fc_running := true |>).

Definition runEnd (stopCh : nat) (fc : failoverController) : failoverController :=
  let fc := fc <| fc_running := false |> in
  if bool_decide (fc_stopCh fc = stopCh) then make_stopCh fc else fc.

Definition StopRun (fc : failoverController) : failoverController :=
  if fc_running fc && negb (bool_decide (fc_stopCh fc ∈ fc_closed fc))
  then fc <| fc_closed ::= cons (fc_stopCh fc) |> else fc.

(** The periods the two tickers run with, after an event of the loop. *)
Inductive run_event := EvReload | EvOuter | EvHealth.

Definition retime (reload : bool) (cur d : Duration) : Duration :=
  if (reload || negb (d =? cur)%Z) && (0 <? d)%Z then d else cur.

Definition runEvent (ev : run_event) (st : AppSettings) (cur : Duration * Duration)
  : Duration * Duration :=
  let reload := match ev with EvReload => true | _ => false end in
  (retime reload cur.1 (OuterInterval st), retime reload cur.2 (HealthInterval st)).

(** ** Probes *)

(** The outcome of one [wanProbeCall]: success, elapsed time, error text. *)
Record probe_call := mkCall {
  pc_ok : bool;
  pc_elapsed : Duration;
  pc_error : option string
}.

Definition milliseconds (d : Duration) : Z := Z.quot d Millisecond.

Definition probe_result (url : string) (c : probe_call) : ProbeResult :=
  match pc_error c with
  | Some e => mkProbe url (pc_ok c) (-1) e
  | None => mkProbe url (pc_ok c) (milliseconds (pc_elapsed c)) ""
  end.

(** Every address is probed by its own goroutine, which fills its own slot. *)
Definition runProbes (call : nat -> string -> probe_call) (urls : list string)
  : list ProbeResult * bool :=
  let results := imap (fun i u => probe_result u (call i u)) urls in
  (results, existsb pr_OK results).

(** The error of each of the three requests of [vpnProbe]. *)
Definition vpnProbe (dial : option string) (request : nat -> option string)
  : bool * option string :=
  match dial with
  | Some e => (false, Some e)
  | None =>
      let results := request <$> List.seq 0 3 in
      let successes := length (filter (fun r => r = None) results) in
      if (2 <=? successes)%nat then (true, None)
      else (false, last (omap id results))
  end.

Record InternetStatusT := mkInternet {
  is_OK : bool;
  is_Reachable : Z;
  is_Total : Z;
  is_LatencyMS : Z;
  is_CheckedAt : Time;
  is_Probes : list ProbeResult
}.

Definition InternetStatus (s : FailoverState) : InternetStatusT :=
  let '(reachable, bestLat) :=
    foldl (fun '(n, best) p =>
      if pr_OK p then
        ((n + 1)%Z, if (best <? 0)%Z || (pr_LatencyMS p <? best)%Z then pr_LatencyMS p else best)
      else (n, best)) (0, -1)%Z (fs_OpenProbes s) in
  mkInternet (0 <? reachable)%Z reachable (Z.of_nat (length (fs_OpenProbes s))) bestLat
    (fs_LastCheck s) (fs_OpenProbes s).

(** ** The outer tick, section by section *)

(** [checkWAN], once the probes and the status are in: publishes and returns
    the state. *)
Definition checkWAN_publish (openR whR : list ProbeResult) (openOK whOK running : bool)
    (now : Time) (fc : failoverController) : failoverController :=
  fc <| fc_state ::= fun s =>
    mkFState (fs_Enabled s) (fs_TunnelFailoverEnabled s) running openR whR openOK whOK
      (fs_VPNHealthOK s) (fs_VPNHealthCheck s) (fs_VPNHealthLatencyMS s) (fs_VPNHealthFails s)
      (fs_VPNHealthURL s) (fs_VPNHealthFailLimit s) (fs_Reason s) now (fs_Pending s) |>.

(** The verdict of the operator policy: whether the VPN should be on, and why. *)
Definition outerVerdict (openOK whOK running : bool) : bool * string :=
  if openOK then (false, "Свободный интернет — VPN не нужен")
  else if whOK then (true, "Whitelist активен — VPN нужен")
  else (true, if running then "Прямой доступ недоступен — сохраняю работающий VPN"
              else "Прямой доступ недоступен — пробую VPN").

Definition set_reason (r : Reason) (fc : failoverController) : failoverController :=
  fc <| fc_state ::= fun s => s <| fs_Reason := r |> |>.

Definition set_pending (n : Z) (fc : failoverController) : failoverController :=
  fc <| fc_pending := n |> <| fc_state ::= fun s => s <| fs_Pending := n |> |>.

(** The section that decides; [true] means the decision is to be applied. *)
Definition outerDecide (st : AppSettings) (wantOn running : bool) (reason : string) (now : Time)
    (fc : failoverController) : failoverController * bool :=
  if negb (fc_enabled fc) then (set_pending 0 (set_reason (RPolicyDisabled reason) fc), false)
  else if Bool.eqb wantOn running then (set_pending 0 (set_reason (RBase reason) fc), false)
  else
    let fc :=
      if Bool.eqb (fc_proposedOn fc) wantOn then set_pending (fc_pending fc + 1) fc
      else set_pending 1 (fc <| fc_proposedOn := wantOn |>) in
    if (fc_pending fc <? FailoverHysteresis st)%Z
    then (set_reason (RConfirming reason (fc_pending fc) (FailoverHysteresis st)) fc, false)
    else if wantOn && (now <? fc_nextStartAttempt fc)%Z
    then (set_pending 0 (set_reason (RBackoff reason
            ((fc_nextStartAttempt fc - now) - (fc_nextStartAttempt fc - now) mod Second)%Z) fc), false)
    else (set_pending 0 (set_reason (RSwitching reason) fc), true).

(** The last section: records what [startFn] or [stopFn] answered. *)
Definition outerFinish (st : AppSettings) (wantOn : bool) (reason : string)
    (err : option string) (now : Time) (fc : failoverController) : failoverController :=
  if wantOn then
    match err with
    | Some e =>
        fc <| fc_nextStartAttempt := (now + StartBackoff st)%Z |>
           <| fc_state ::= fun s => s <| fs_Reason := RStartFailed e (StartBackoff st) |>
                                      <| fs_VPNOn := false |> |>
    | None => fc <| fc_state ::= fun s => s <| fs_VPNOn := true |> <| fs_Reason := RBase reason |> |>
    end
  else fc <| fc_state ::= fun s => s <| fs_VPNOn := false |> <| fs_Reason := RBase reason |> |>.

(** ** The health tick, section by section *)

Definition healthSkip (fc : failoverController) : failoverController :=
  fc <| fc_state ::= fun s => reset_health s <| fs_VPNOn := false |> |>.

(** The status reread under the lock is still the probed tunnel's. *)
Definition same_tunnel (fc : failoverController) (generation : Z) (current : ProcessStatus) : bool :=
  fc_tunnelEnabled fc && ps_Running current && (ps_Generation current =? generation)%Z.

(** The outcome of publishing a probe: nothing more to do, or the number of
    consecutive failures. *)
Definition healthPublish (st : AppSettings) (generation : Z) (current : ProcessStatus)
    (ok : bool) (latencyMS : Z) (now : Time) (fc : failoverController)
  : failoverController * option Z :=
  if negb (same_tunnel fc generation current) then (fc, None)
  else
    let fails0 := if (fc_healthGeneration fc =? generation)%Z
                  then fs_VPNHealthFails (fc_state fc) else 0%Z in
    let fails := if ok then 0%Z else (fails0 + 1)%Z in
    (fc <| fc_healthGeneration := generation |>
        <| fc_state ::= fun s =>
             mkFState (fs_Enabled s) (fs_TunnelFailoverEnabled s) true (fs_OpenProbes s)
               (fs_WhitelistProbes s) (fs_OpenOK s) (fs_WhitelistOK s) ok now
               (if ok then latencyMS else (-1)%Z) fails (PingTestURL st)
               (FailoverVPNSwapAfterFails st) (fs_Reason s) (fs_LastCheck s) (fs_Pending s) |>,
     if ok then None else Some fails).

(** After the whitelist probe: go on only with the same tunnel and a working
    underlay. *)
Definition healthUnderlay (generation : Z) (current : ProcessStatus) (whR : list ProbeResult)
    (whitelistOK : bool) (fc : failoverController) : failoverController * bool :=
  if negb (same_tunnel fc generation current) then (fc, false)
  else (fc <| fc_state ::= fun s => s <| fs_WhitelistProbes := whR |>
                                      <| fs_WhitelistOK := whitelistOK |> |>, whitelistOK).

Definition set_fails (n : Z) (fc : failoverController) : failoverController :=
  fc <| fc_state ::= fun s => s <| fs_VPNHealthFails := n |> |>.

Definition healthSwapGate (st : AppSettings) (now : Time) (fc : failoverController)
  : failoverController * bool :=
  if (now <? fc_nextSwapAttempt fc)%Z then (set_fails 0 fc, false)
  else (fc <| fc_nextSwapAttempt := (now + StartBackoff st)%Z |>, true).

Definition replaceBegin (st : AppSettings) (now : Time) (fc : failoverController)
  : failoverController :=
  fc <| fc_nextSwapAttempt := (now + StartBackoff st)%Z |>.

(** ** The environment *)

Class FailoverEnv (W : Type) := {
  env_now : W -> Time;
  env_settings : W -> AppSettings;
  env_status : W -> ProcessStatus;
  env_probe : list string -> Duration -> W -> (nat -> string -> probe_call) * W;
  env_vpnProbe : string -> Duration -> W -> option string * (nat -> option string) * W;
  env_start : W -> option string * W;
  env_stop : W -> option string * W;
  env_choose : W -> string * W;
  env_sleep : W -> W;
  env_startSelected : W -> option string * W
}.

(** What a controller did to the tunnel, for the traces. *)
Inductive action :=
| ActStart
| ActStop
| ActSwapStop
| ActSwapChoose (name : string)
| ActSwapStart.

Section Ticks.
Context {W : Type} `{FailoverEnv W}.

Definition runProbesFn (urls : list string) (timeout : Duration) (w : W)
  : list ProbeResult * bool * W :=
  let '(call, w) := env_probe urls timeout w in (runProbes call urls, w).

Definition checkWAN (st : AppSettings) (fc : failoverController) (w : W)
  : failoverController * W :=
  let '((openR, openOK), w) := runProbesFn (OpenProbes st) (ProbeTimeout st) w in
  let '((whR, whOK), w) := runProbesFn (WhitelistProbes st) (ProbeTimeout st) w in
  (checkWAN_publish openR whR openOK whOK (ps_Running (env_status w)) (env_now w) fc, w).

Definition CheckInternet (fc : failoverController) (w : W)
  : InternetStatusT * failoverController * W :=
  let '(fc, w) := checkWAN (env_settings w) fc w in (InternetStatus (fc_state fc), fc, w).

Definition outerTick (fc : failoverController) (w : W) : failoverController * W * list action :=
  let st := env_settings w in
  let '(fc, w) := checkWAN st fc w in
  let running := fs_VPNOn (fc_state fc) in
  let '(wantOn, reason) := outerVerdict (fs_OpenOK (fc_state fc)) (fs_WhitelistOK (fc_state fc)) running in
  let '(fc, apply) := outerDecide st wantOn running reason (env_now w) fc in
  if negb apply then (fc, w, [])
  else
    let '(err, w) := (if wantOn then env_start else env_stop) w in
    (outerFinish st wantOn reason err (env_now w) fc, w, [if wantOn then ActStart else ActStop]).

Definition replaceStoppedTunnel (st : AppSettings) (fc : failoverController) (w : W)
  : failoverController * W * list action :=
  let fc := replaceBegin st (env_now w) fc in
  let '(newName, w) := env_choose w in
  if bool_decide (newName = "") then (set_fails 0 fc, w, [ActSwapChoose newName])
  else
    let w := env_sleep w in
    let '(_, w) := env_startSelected w in
    (set_fails 0 fc, w, [ActSwapChoose newName; ActSwapStart]).

Definition healthTick (fc : failoverController) (w : W) : failoverController * W * list action :=
  if negb (fc_tunnelEnabled fc) then (fc, w, [])
  else
    let tunnel := env_status w in
    if negb (ps_Running tunnel) then (healthSkip fc, w, [])
    else
      let st := env_settings w in
      let started := env_now w in
      let '(dial, request, w) := env_vpnProbe (PingTestURL st) (HealthTimeout st) w in
      let '(ok, _) := vpnProbe dial request in
      let latencyMS := milliseconds (env_now w - started) in
      match healthPublish st (ps_Generation tunnel) (env_status w) ok latencyMS (env_now w) fc with
      | (fc, None) => (fc, w, [])
      | (fc, Some fails) =>
          if (fails <? FailoverVPNSwapAfterFails st)%Z then (fc, w, [])
          else
            let '((whR, whOK), w) := runProbesFn (WhitelistProbes st) (ProbeTimeout st) w in
            match healthUnderlay (ps_Generation tunnel) (env_status w) whR whOK fc with
            | (fc, false) => (fc, w, [])
            | (fc, true) =>
                match healthSwapGate st (env_now w) fc with
                | (fc, false) => (fc, w, [])
                | (fc, true) =>
                    let '(_, w) := env_stop w in
                    let '(fc, w, acts) := replaceStoppedTunnel st fc w in
                    (fc, w, ActSwapStop :: acts)
                end
            end
      end.
End Ticks.

(** ** The controller among other goroutines

    [sys] cuts the ticks where they hold no lock: between two commands any
    other goroutine may use the controller or change the world.  Two
    histories record what the decisions were based on, newest first. *)

Record decision := mkDecision {
  dc_enabled : bool;
  dc_wantOn : bool;
  dc_running : bool;
  dc_limit : Z
}.

(** A published tunnel probe: the generation it was for and its success. *)
Record tunnel_probe := mkTunnelProbe { tp_generation : Z; tp_ok : bool }.

Inductive outer_pc :=
| OIdle
| OProbed (st : AppSettings) (openR whR : list ProbeResult) (openOK whOK running : bool)
| ODecide (st : AppSettings) (openOK whOK running : bool)
| OCall (st : AppSettings) (wantOn : bool) (reason : string)
| OFinish (st : AppSettings) (wantOn : bool) (reason : string) (err : option string).

Inductive health_pc :=
| HIdle
| HStatus
| HProbe (generation : Z)
| HPublish (st : AppSettings) (generation : Z) (ok : bool) (latencyMS : Z)
| HCount (st : AppSettings) (generation fails : Z) (seen : list tunnel_probe)
| HUnderlay (st : AppSettings) (generation : Z) (seen : list tunnel_probe)
    (whR : list ProbeResult) (whOK : bool)
| HGate (st : AppSettings) (generation : Z) (seen : list tunnel_probe)
| HStop (st : AppSettings) (generation : Z) (seen : list tunnel_probe)
| HReplace (st : AppSettings)
| HChoose (st : AppSettings)
| HStart (st : AppSettings)
| HReset.

(** An action with the history it was decided on. *)
Inductive event :=
| EvOuterAction (on : bool) (seen : list decision)
| EvSwapStop (limit generation : Z) (seen : list tunnel_probe)
| EvSwap (a : action).

Inductive command (W : Type) :=
| COuter
| CHealth
| CSetEnabled (on : bool)
| CSetTunnel (on : bool)
| CResetBackoff
| CRunBegin
| CRunEnd (stopCh : nat)
| CStopRun
| CWorld (w : W).
Arguments COuter {W}.
Arguments CHealth {W}.
Arguments CSetEnabled {W} on.
Arguments CSetTunnel {W} on.
Arguments CResetBackoff {W}.
Arguments CRunBegin {W}.
Arguments CRunEnd {W} stopCh.
Arguments CStopRun {W}.
Arguments CWorld {W} w.

Record sys (W : Type) := mkSys {
  s_fc : failoverController;
  s_w : W;
  s_outer : outer_pc;
  s_health : health_pc;
  s_decisions : list decision;
  s_probes : list tunnel_probe;
  s_events : list event
}.
Arguments mkSys {W} _ _ _ _ _ _ _.
Arguments s_fc {W} _.
Arguments s_w {W} _.
Arguments s_outer {W} _.
Arguments s_health {W} _.
Arguments s_decisions {W} _.
Arguments s_probes {W} _.
Arguments s_events {W} _.

Section System.
Context {W : Type} `{FailoverEnv W}.

Definition outer_step (s : sys W) : sys W :=
  let 'mkSys fc w o h ds ps es := s in
  match o with
  | OIdle =>
      let st := env_settings w in
      let '((openR, openOK), w) := runProbesFn (OpenProbes st) (ProbeTimeout st) w in
      let '((whR, whOK), w) := runProbesFn (WhitelistProbes st) (ProbeTimeout st) w in
      mkSys fc w (OProbed st openR whR openOK whOK (ps_Running (env_status w))) h ds ps es
  | OProbed st openR whR openOK whOK running =>
      mkSys (checkWAN_publish openR whR openOK whOK running (env_now w) fc) w
        (ODecide st openOK whOK running) h ds ps es
  | ODecide st openOK whOK running =>
      let '(wantOn, reason) := outerVerdict openOK whOK running in
      let '(fc', apply) := outerDecide st wantOn running reason (env_now w) fc in
      mkSys fc' w (if apply then OCall st wantOn reason else OIdle) h
        (mkDecision (fc_enabled fc) wantOn running (FailoverHysteresis st) :: ds) ps es
  | OCall st wantOn reason =>
      let '(err, w) := (if wantOn then env_start else env_stop) w in
      mkSys fc w (OFinish st wantOn reason err) h ds ps (es ++ [EvOuterAction wantOn ds])
  | OFinish st wantOn reason err =>
      mkSys (outerFinish st wantOn reason err (env_now w) fc) w OIdle h ds ps es
  end.

Definition health_step (s : sys W) : sys W :=
  let 'mkSys fc w o h ds ps es := s in
  match h with
  | HIdle => mkSys fc w o (if fc_tunnelEnabled fc then HStatus else HIdle) ds ps es
  | HStatus =>
      let tunnel := env_status w in
      if negb (ps_Running tunnel) then mkSys (healthSkip fc) w o HIdle ds ps es
      else mkSys fc w o (HProbe (ps_Generation tunnel)) ds ps es
  | HProbe generation =>
      let st := env_settings w in
      let started := env_now w in
      let '(dial, request, w) := env_vpnProbe (PingTestURL st) (HealthTimeout st) w in
      mkSys fc w o (HPublish st generation (vpnProbe dial request).1
                      (milliseconds (env_now w - started))) ds ps es
  | HPublish st generation ok latencyMS =>
      match healthPublish st generation (env_status w) ok latencyMS (env_now w) fc with
      | (fc', None) =>
          mkSys fc' w o HIdle ds
            (if same_tunnel fc generation (env_status w) then mkTunnelProbe generation ok :: ps else ps) es
      | (fc', Some fails) =>
          mkSys fc' w o (HCount st generation fails (mkTunnelProbe generation ok :: ps)) ds
            (mkTunnelProbe generation ok :: ps) es
      end
  | HCount st generation fails seen =>
      if (fails <? FailoverVPNSwapAfterFails st)%Z then mkSys fc w o HIdle ds ps es
      else
        let '((whR, whOK), w) := runProbesFn (WhitelistProbes st) (ProbeTimeout st) w in
        mkSys fc w o (HUnderlay st generation seen whR whOK) ds ps es
  | HUnderlay st generation seen whR whOK =>
      let '(fc, go) := healthUnderlay generation (env_status w) whR whOK fc in
      mkSys fc w o (if go then HGate st generation seen else HIdle) ds ps es
  | HGate st generation seen =>
      let '(fc, go) := healthSwapGate st (env_now w) fc in
      mkSys fc w o (if go then HStop st generation seen else HIdle) ds ps es
  | HStop st generation seen =>
      let '(_, w) := env_stop w in
      mkSys fc w o (HReplace st) ds ps
        (es ++ [EvSwapStop (FailoverVPNSwapAfterFails st) generation seen])
  | HReplace st => mkSys (replaceBegin st (env_now w) fc) w o (HChoose st) ds ps es
  | HChoose st =>
      let '(newName, w) := env_choose w in
      mkSys fc w o (if bool_decide (newName = "") then HReset else HStart st) ds ps
        (es ++ [EvSwap (ActSwapChoose newName)])
  | HStart st =>
      let '(_, w) := env_startSelected (env_sleep w) in
      mkSys fc w o HReset ds ps (es ++ [EvSwap ActSwapStart])
  | HReset => mkSys (set_fails 0 fc) w o HIdle ds ps es
  end.

Definition on_fc (f : failoverController -> failoverController) (s : sys W) : sys W :=
  let 'mkSys fc w o h ds ps es := s in mkSys (f fc) w o h ds ps es.

Definition sys_step (s : sys W) (c : command W) : sys W :=
  match c with
  | COuter => outer_step s
  | CHealth => health_step s
  | CSetEnabled on => on_fc (fun fc => (SetEnabled on fc).1) s
  | CSetTunnel on => on_fc (fun fc => (SetTunnelFailoverEnabled on fc).1) s
  | CResetBackoff => on_fc ResetBackoff s
  | CRunBegin => on_fc (fun fc => match runBegin fc with Some (_, fc) => fc | None => fc end) s
  | CRunEnd stopCh => on_fc (runEnd stopCh) s
  | CStopRun => on_fc StopRun s
  | CWorld w => let 'mkSys fc _ o h ds ps es := s in mkSys fc w o h ds ps es
  end.
End System.

(** ** Invariants *)

(** A decision that calls for a change. *)
Definition wants (on : bool) (d : decision) : Prop :=
  dc_enabled d = true /\ dc_wantOn d = on /\ dc_running d = negb on.

(** The last [n] entries of a history satisfy [P]. *)
Definition recent {A} (P : A -> Prop) (n : Z) (l : list A) : Prop :=
  (0 <= n <= Z.of_nat (length l))%Z /\ Forall P (take (Z.to_nat n) l).

Definition failed_probe (generation : Z) (p : tunnel_probe) : Prop :=
  tp_generation p = generation /\ tp_ok p = false.

(** The decisions an outer action rests on: one call for the same change per
    unit of hysteresis, the latest included. *)
Definition sustained (on : bool) (ds : list decision) : Prop :=
  exists d rest, ds = d :: rest /\ wants on d /\ recent (wants on) (Z.max 1 (dc_limit d)) ds.

Definition event_ok (e : event) : Prop :=
  match e with
  | EvOuterAction on ds => sustained on ds
  | EvSwapStop limit generation ps => recent (failed_probe generation) (Z.max 1 limit) ps
  | EvSwap _ => True
  end.

Definition outer_ok (ds : list decision) (o : outer_pc) : Prop :=
  match o with OCall _ wantOn _ => sustained wantOn ds | _ => True end.

Definition health_ok (h : health_pc) : Prop :=
  match h with
  | HCount _ generation fails seen => (1 <= fails)%Z /\ recent (failed_probe generation) fails seen
  | HUnderlay st generation seen _ _ | HGate st generation seen | HStop st generation seen =>
      recent (failed_probe generation) (Z.max 1 (FailoverVPNSwapAfterFails st)) seen
  | _ => True
  end.

(** The controller against the histories. *)
Definition fc_ok (fc : failoverController) (ds : list decision) (ps : list tunnel_probe) : Prop :=
  fs_Enabled (fc_state fc) = fc_enabled fc /\
  fs_TunnelFailoverEnabled (fc_state fc) = fc_tunnelEnabled fc /\
  fs_Pending (fc_state fc) = fc_pending fc /\
  recent (wants (fc_proposedOn fc)) (fc_pending fc) ds /\
  recent (failed_probe (fc_healthGeneration fc)) (fs_VPNHealthFails (fc_state fc)) ps.

Definition sys_inv {W} (s : sys W) : Prop :=
  fc_ok (s_fc s) (s_decisions s) (s_probes s) /\
  outer_ok (s_decisions s) (s_outer s) /\ health_ok (s_health s) /\
  Forall event_ok (s_events s).

Lemma recent_0 {A} (P : A -> Prop) l : recent P 0 l.
Proof. split; [lia|]. constructor. Qed.

Lemma recent_cons {A} (P : A -> Prop) n x l :
  (0 <= n)%Z -> P x -> recent P n l -> recent P (n + 1) (x :: l).
Proof.
  intros Hn Hx [Hlen Hall]. split; [cbn [length]; lia|].
  replace (Z.to_nat (n + 1)) with (S (Z.to_nat n)) by lia. cbn [take]. by constructor.
Qed.

Lemma recent_le {A} (P : A -> Prop) m n l : (0 <= m <= n)%Z -> recent P n l -> recent P m l.
Proof.
  intros Hm [Hlen Hall]. split; [lia|].
  replace (Z.to_nat m) with (Nat.min (Z.to_nat m) (Z.to_nat n)) by lia.
  rewrite <- take_take. by apply Forall_take.
Qed.

Lemma recent_nonneg {A} (P : A -> Prop) n l : recent P n l -> (0 <= n)%Z.
Proof. intros [? _]. lia. Qed.

#[local] Hint Resolve recent_0 : core.

(** Closes a conjunction part by part without unfolding the parts. *)
Ltac parts := unfold fc_ok; cbn; repeat (split; [solve [done | auto | congruence]|]); solve [done | auto | congruence].

(** The deciding section keeps the counter honest, and only decides to act on
    a sustained verdict. *)
Lemma outerDecide_ok st wantOn running reason now fc ds ps :
  fc_ok fc ds ps ->
  let d := mkDecision (fc_enabled fc) wantOn running (FailoverHysteresis st) in
  let '(fc', apply) := outerDecide st wantOn running reason now fc in
  fc_ok fc' (d :: ds) ps /\
  (apply = true -> sustained wantOn (d :: ds) /\ fc_enabled fc = true /\
     (wantOn = true -> (fc_nextStartAttempt fc <= now)%Z)).
Proof.
  intros (Hen & Htu & Hpe & Hds & Hps) d. unfold outerDecide.
  destruct (fc_enabled fc) eqn:He; cbn [negb]; [|split; [parts|done]].
  destruct (Bool.eqb_spec wantOn running) as [Heq|Hne]; [split; [parts|done]|].
  assert (Hd : wants wantOn d) by (split; [done|split; [done|cbn; by destruct wantOn, running]]).
  set (fc1 := if Bool.eqb (fc_proposedOn fc) wantOn then _ else _).
  assert (H1 : fc_proposedOn fc1 = wantOn /\ recent (wants wantOn) (fc_pending fc1) (d :: ds) /\
    (1 <= fc_pending fc1)%Z /\ fc_enabled fc1 = true /\ fc_tunnelEnabled fc1 = fc_tunnelEnabled fc /\
    fc_healthGeneration fc1 = fc_healthGeneration fc /\
    fs_VPNHealthFails (fc_state fc1) = fs_VPNHealthFails (fc_state fc) /\
    fs_Enabled (fc_state fc1) = true /\
    fs_TunnelFailoverEnabled (fc_state fc1) = fc_tunnelEnabled fc /\
    fs_Pending (fc_state fc1) = fc_pending fc1 /\
    fc_nextStartAttempt fc1 = fc_nextStartAttempt fc).
  { pose proof (recent_nonneg _ _ _ Hds) as Hnn. subst fc1.
    destruct (Bool.eqb_spec (fc_proposedOn fc) wantOn) as [<-|Hp].
    - cbn. split; [done|]. split; [by apply recent_cons|]. split; [lia|]. parts.
    - cbn. split; [done|]. split; [by apply (recent_cons _ 0)|]. split; [lia|]. parts. }
  clearbody fc1. destruct H1 as (Hp1 & Hr1 & Hge & He1 & Ht1 & Hg1 & Hf1 & Hfe1 & Hft1 & Hfp1 & Hn1).
  destruct (Z.ltb_spec (fc_pending fc1) (FailoverHysteresis st)) as [Hlt|Hge'].
  { split; [|done]. unfold fc_ok. cbn. rewrite Hp1, Hg1, Hf1, He1, Ht1. parts. }
  rewrite Hn1. destruct wantOn; cbn [andb].
  - destruct (Z.ltb_spec now (fc_nextStartAttempt fc)) as [Hb|Hb].
    + split; [|done]. unfold fc_ok. cbn. rewrite Hg1, Hf1, He1, Ht1. parts.
    + split; [unfold fc_ok; cbn; rewrite Hg1, Hf1, He1, Ht1; parts|].
      intros _. split; [|done]. exists d, ds. split; [done|]. split; [done|].
      apply (recent_le _ _ (fc_pending fc1)); [cbn; lia|done].
  - split; [unfold fc_ok; cbn; rewrite Hg1, Hf1, He1, Ht1; parts|].
    intros _. split; [|done]. exists d, ds. split; [done|]. split; [done|].
    apply (recent_le _ _ (fc_pending fc1)); [cbn; lia|done].
Qed.

(** Publishing a tunnel probe keeps the failure counter honest. *)
Lemma healthPublish_ok st generation current ok latencyMS now fc ds ps :
  fc_ok fc ds ps ->
  let p := mkTunnelProbe generation ok in
  let '(fc', out) := healthPublish st generation current ok latencyMS now fc in
  if same_tunnel fc generation current then
    fc_ok fc' ds (p :: ps) /\
    match out with
    | None => ok = true
    | Some fails => ok = false /\ fails = fs_VPNHealthFails (fc_state fc') /\ (1 <= fails)%Z /\
        recent (failed_probe generation) fails (p :: ps)
    end
  else fc' = fc /\ out = None.
Proof.
  intros (Hen & Htu & Hpe & Hds & Hps) p. unfold healthPublish.
  destruct (same_tunnel fc generation current); cbn [negb]; [|done].
  set (fails0 := if (_ =? _)%Z then _ else 0%Z).
  assert (H0 : recent (failed_probe generation) fails0 ps).
  { subst fails0. destruct (Z.eqb_spec (fc_healthGeneration fc) generation) as [<-|]; done. }
  clearbody fails0. destruct ok.
  - split; [parts|done].
  - assert (H1 : recent (failed_probe generation) (fails0 + 1) (p :: ps)).
    { apply recent_cons; [by eapply recent_nonneg|done|done]. }
    pose proof (recent_nonneg _ _ _ H0).
    split; [parts|]. cbn. split; [done|]. split; [done|]. split; [lia|done].
Qed.

(** Sections that touch neither counter, other than to clear the failures. *)
Lemma fc_ok_frame fc fc' ds ps :
  fc_ok fc ds ps ->
  fs_Enabled (fc_state fc') = fc_enabled fc' ->
  fs_TunnelFailoverEnabled (fc_state fc') = fc_tunnelEnabled fc' ->
  fs_Pending (fc_state fc') = fs_Pending (fc_state fc) ->
  fc_pending fc' = fc_pending fc -> fc_proposedOn fc' = fc_proposedOn fc ->
  fc_healthGeneration fc' = fc_healthGeneration fc ->
  fs_VPNHealthFails (fc_state fc') = fs_VPNHealthFails (fc_state fc) \/
  fs_VPNHealthFails (fc_state fc') = 0%Z ->
  fc_ok fc' ds ps.
Proof.
  intros (Hen & Htu & Hpe & Hds & Hps) H1 H2 H3 H4 H5 H6 H7. unfold fc_ok.
  rewrite H1, H2, H3, H4, H5, H6. repeat (split; [done|]).
  by destruct H7 as [-> | ->].
Qed.

Ltac frame := eapply fc_ok_frame; [eassumption|cbn; try done; by auto..].

Section SystemInvariant.
Context {W : Type} `{FailoverEnv W}.

Lemma outer_step_inv (s : sys W) : sys_inv s -> sys_inv (outer_step s).
Proof.
  destruct s as [fc w o h ds ps es]. intros (Hfc & Ho & Hh & Hes). cbn in *.
  destruct o as [|st openR whR openOK whOK running|st openOK whOK running|st wantOn reason|
                 st wantOn reason err]; cbn [outer_step].
  - destruct (runProbesFn _ _ w) as [[openR openOK] w1].
    destruct (runProbesFn _ _ w1) as [[whR whOK] w2]. done.
  - split; [|done]. destruct Hfc as (H1 & H2 & H3 & H4 & H5). cbn. by unfold fc_ok.
  - destruct (outerVerdict openOK whOK running) as [wantOn reason].
    pose proof (outerDecide_ok st wantOn running reason (env_now w) fc ds ps Hfc) as Hd.
    destruct (outerDecide _ _ _ _ _ fc) as [fc' apply]. destruct Hd as [Hfc' Happly].
    split; [done|]. split; [|done]. cbn. destruct apply; [|done]. by apply Happly.
  - destruct ((if wantOn then env_start else env_stop) w) as [err w'].
    split; [done|]. split; [done|]. split; [done|]. cbn. apply Forall_app. split; [done|].
    by constructor.
  - split; [|done]. cbn. destruct Hfc as (H1 & H2 & H3 & H4 & H5).
    unfold outerFinish. destruct wantOn; [destruct err|]; parts.
Qed.

Lemma health_step_inv (s : sys W) : sys_inv s -> sys_inv (health_step s).
Proof.
  destruct s as [fc w o h ds ps es]. intros (Hfc & Ho & Hh & Hes). cbn in *.
  pose proof Hfc as (H1 & H2 & H3 & H4 & H5).
  destruct h; cbn [health_step health_ok] in *.
  - split; [done|]. split; [done|]. split; [by destruct (fc_tunnelEnabled fc)|done].
  - destruct (negb _); [|done]. split; [|done]. parts.
  - destruct (env_vpnProbe _ _ w) as [[dial request] w']. done.
  - pose proof (healthPublish_ok st generation (env_status w) ok latencyMS (env_now w) fc ds ps Hfc) as Hp.
    destruct (healthPublish _ _ _ _ _ _ fc) as [fc' [fails|]].
    + destruct (same_tunnel fc generation (env_status w)); [|by destruct Hp].
      destruct Hp as (Hfc' & -> & _ & Hge & Hrec). by repeat (split; [done|]).
    + destruct (same_tunnel fc generation (env_status w)); [|destruct Hp as [-> _]; done].
      by destruct Hp as [Hfc' _].
  - destruct (Z.ltb_spec fails (FailoverVPNSwapAfterFails st)); [done|].
    destruct (runProbesFn _ _ w) as [[whR whOK] w']. split; [done|]. split; [done|]. split; [|done].
    cbn. apply (recent_le _ _ fails); [lia|apply Hh].
  - unfold healthUnderlay. destruct (negb _); [done|].
    split; [by unfold fc_ok; cbn|]. split; [done|]. split; [by destruct whOK|done].
  - unfold healthSwapGate. destruct (_ <? _)%Z; [|done].
    split; [|done]. parts.
  - destruct (env_stop w) as [? w']. split; [done|]. split; [done|]. split; [done|]. cbn.
    by auto with vm.
  - done.
  - destruct (env_choose w) as [name w']. split; [done|]. split; [done|].
    split; [by destruct (bool_decide _)|]. cbn. by auto with vm.
  - destruct (env_startSelected _) as [? w']. split; [done|]. split; [done|]. split; [done|]. cbn.
    by auto with vm.
  - split; [|done]. parts.
Qed.

Lemma control_fc_ok fc ds ps :
  fc_ok fc ds ps ->
  (forall on, fc_ok (SetEnabled on fc).1 ds ps) /\
  (forall on, fc_ok (SetTunnelFailoverEnabled on fc).1 ds ps) /\
  fc_ok (ResetBackoff fc) ds ps /\
  fc_ok (match runBegin fc with Some (_, fc) => fc | None => fc end) ds ps /\
  (forall stopCh, fc_ok (runEnd stopCh fc) ds ps) /\
  fc_ok (StopRun fc) ds ps.
Proof.
  intros Hok. pose proof Hok as (H1 & H2 & H3 & H4 & H5).
  split; [|split; [|split; [|split; [|split]]]].
  - intros on. unfold SetEnabled. destruct on; cbn [negb fst]; [|done].
    destruct (fc_running _); done.
  - intros on. unfold SetTunnelFailoverEnabled.
    destruct on, (fc_running fc); cbn [negb fst]; parts.
  - done.
  - unfold runBegin. by destruct (fc_running fc).
  - intros stopCh. unfold runEnd. by case_bool_decide.
  - unfold StopRun. by destruct (_ && _).
Qed.

Lemma sys_step_inv (s : sys W) c : sys_inv s -> sys_inv (sys_step s c).
Proof.
  intros Hs. destruct c; cbn [sys_step]; [by apply outer_step_inv|by apply health_step_inv|..];
    destruct s as [fc w' o h ds ps es]; destruct Hs as (Hfc & Ho & Hh & Hes);
    cbn [s_fc s_w s_outer s_health s_decisions s_probes s_events] in *;
    destruct (control_fc_ok fc ds ps Hfc) as (K1 & K2 & K3 & K4 & K5 & K6);
    (split; [|done]); cbn [on_fc s_fc s_decisions s_probes]; done.
Qed.
End SystemInvariant.

Definition start_sys {W} (settings : AppSettings) (enabled tunnelEnabled : bool) (w : W) : sys W :=
  mkSys (newFailoverController settings enabled tunnelEnabled) w OIdle HIdle [] [] [].

Lemma run_sys_inv {W} `{FailoverEnv W} settings enabled tunnelEnabled w cmds :
  sys_inv (foldl sys_step (start_sys settings enabled tunnelEnabled w) cmds).
Proof.
  apply foldl_preserve; [intros; by apply sys_step_inv|].
  split; [|done]. parts.
Qed.

(** ** Lemmas about whole ticks *)

Lemma outerDecide_cases st wantOn running reason now fc :
  let '(fc', apply) := outerDecide st wantOn running reason now fc in
  (apply = true ->
     fc_enabled fc = true /\ wantOn = negb running /\
     (wantOn = true -> (fc_nextStartAttempt fc <= now)%Z) /\
     fs_Reason (fc_state fc') = RSwitching reason) /\
  (fc_enabled fc = false ->
     fc_pending fc' = 0%Z /\ fs_Reason (fc_state fc') = RPolicyDisabled reason) /\
  fs_OpenProbes (fc_state fc') = fs_OpenProbes (fc_state fc) /\
  fs_WhitelistProbes (fc_state fc') = fs_WhitelistProbes (fc_state fc) /\
  fs_LastCheck (fc_state fc') = fs_LastCheck (fc_state fc) /\
  fs_VPNOn (fc_state fc') = fs_VPNOn (fc_state fc).
Proof.
  unfold outerDecide. destruct (fc_enabled fc) eqn:He; cbn [negb]; [|done].
  destruct (Bool.eqb_spec wantOn running) as [Heq|Hne]; [done|].
  set (fc1 := if Bool.eqb (fc_proposedOn fc) wantOn then _ else _).
  assert (H1 : fs_OpenProbes (fc_state fc1) = fs_OpenProbes (fc_state fc) /\
    fs_WhitelistProbes (fc_state fc1) = fs_WhitelistProbes (fc_state fc) /\
    fs_LastCheck (fc_state fc1) = fs_LastCheck (fc_state fc) /\
    fs_VPNOn (fc_state fc1) = fs_VPNOn (fc_state fc) /\
    fc_nextStartAttempt fc1 = fc_nextStartAttempt fc).
  { subst fc1. by destruct (Bool.eqb _ _). }
  clearbody fc1. destruct H1 as (E1 & E2 & E3 & E4 & E5).
  assert (Hw : wantOn = negb running) by (by destruct wantOn, running).
  destruct (_ <? FailoverHysteresis st)%Z; [by repeat split|]. rewrite E5.
  destruct wantOn; cbn [andb]; [|by repeat split].
  destruct (Z.ltb_spec now (fc_nextStartAttempt fc)); by repeat split.
Qed.

(** Decisions in a row, all with the same verdict, until one is applied. *)
Fixpoint decide_upto (n : nat) (st : AppSettings) (wantOn : bool) (reason : string) (now : Time)
    (fc : failoverController) : bool :=
  match n with
  | O => false
  | S n =>
      let '(fc, apply) := outerDecide st wantOn (negb wantOn) reason now fc in
      apply || decide_upto n st wantOn reason now fc
  end.

Lemma decide_upto_reacts n st wantOn reason now fc :
  fc_enabled fc = true -> (wantOn = true -> (fc_nextStartAttempt fc <= now)%Z) ->
  (0 <= fc_pending fc)%Z ->
  (FailoverHysteresis st <=
     (if Bool.eqb (fc_proposedOn fc) wantOn then fc_pending fc else 0) + Z.of_nat n)%Z ->
  (0 < n)%nat ->
  decide_upto n st wantOn reason now fc = true.
Proof.
  revert fc. induction n as [|n IH]; intros fc He Hb Hp Hn Hpos; [lia|]. cbn [decide_upto].
  unfold outerDecide. rewrite He. cbn [negb].
  destruct (Bool.eqb_spec wantOn (negb wantOn)) as [Heq|_]; [by destruct wantOn|].
  set (fc1 := if Bool.eqb (fc_proposedOn fc) wantOn then _ else _).
  assert (H1 : fc_enabled fc1 = true /\ fc_nextStartAttempt fc1 = fc_nextStartAttempt fc /\
    fc_proposedOn fc1 = wantOn /\
    fc_pending fc1 = ((if Bool.eqb (fc_proposedOn fc) wantOn then fc_pending fc else 0) + 1)%Z).
  { subst fc1. destruct (Bool.eqb_spec (fc_proposedOn fc) wantOn); by repeat split. }
  clearbody fc1. destruct H1 as (E1 & E2 & E3 & E4).
  destruct (Z.ltb_spec (fc_pending fc1) (FailoverHysteresis st)) as [Hlt|Hge].
  - apply orb_true_iff. right. apply IH; cbn; rewrite ?E1, ?E2, ?E3; try done;
      [destruct (Bool.eqb _ _); lia| |destruct (Bool.eqb _ _); lia].
    rewrite Bool.eqb_reflx. destruct (Bool.eqb (fc_proposedOn fc) wantOn); lia.
  - rewrite E2. destruct wantOn; cbn [andb]; [|done].
    by rewrite (proj2 (Z.ltb_ge now (fc_nextStartAttempt fc))) by auto.
Qed.

Section TickRuns.
Context {W : Type} `{FailoverEnv W}.

Lemma outerTick_runs fc w h ds ps es :
  exists n ds' es',
    foldl sys_step (mkSys fc w OIdle h ds ps es) (replicate n COuter) =
    mkSys (outerTick fc w).1.1 (outerTick fc w).1.2 OIdle h ds' ps es' /\
    (exists d, ds' = d :: ds) /\
    ((outerTick fc w).2 = [] /\ es' = es \/
     exists on : bool, (outerTick fc w).2 = [if on then ActStart else ActStop] /\
       es' = es ++ [EvOuterAction on ds']).
Proof.
  unfold outerTick, checkWAN.
  destruct (runProbesFn (OpenProbes _) _ w) as [[openR openOK] w1] eqn:Ho.
  destruct (runProbesFn (WhitelistProbes _) _ w1) as [[whR whOK] w2] eqn:Hw.
  set (fc1 := checkWAN_publish openR whR openOK whOK (ps_Running (env_status w2)) (env_now w2) fc).
  change (fs_VPNOn (fc_state fc1)) with (ps_Running (env_status w2)).
  change (fs_OpenOK (fc_state fc1)) with openOK.
  change (fs_WhitelistOK (fc_state fc1)) with whOK.
  set (running := ps_Running (env_status w2)).
  destruct (outerVerdict openOK whOK running) as [wantOn reason] eqn:Hv.
  set (d := mkDecision (fc_enabled fc1) wantOn running (FailoverHysteresis (env_settings w))).
  assert (H3 : foldl sys_step (mkSys fc w OIdle h ds ps es) (replicate 3 (COuter (W:=W))) =
    let '(fc2, apply) := outerDecide (env_settings w) wantOn running reason (env_now w2) fc1 in
    mkSys fc2 w2 (if apply then OCall (env_settings w) wantOn reason else OIdle) h
      (d :: ds) ps es).
  { cbn [replicate foldl sys_step outer_step]. rewrite Ho, Hw. cbn [sys_step outer_step].
    fold running. fold fc1. rewrite Hv. done. }
  destruct (outerDecide _ _ _ _ _ fc1) as [fc2 [|]]; cbn [negb].
  - destruct ((if wantOn then env_start else env_stop) w2) as [err w3] eqn:Hs.
    exists 5%nat, (d :: ds), (es ++ [EvOuterAction wantOn (d :: ds)]).
    change (replicate 5 (@COuter W)) with (replicate 3 (@COuter W) ++ replicate 2 (@COuter W)).
    rewrite foldl_app, H3. cbn [replicate foldl sys_step outer_step]. rewrite Hs.
    cbn [sys_step outer_step]. split; [done|]. split; [by eexists|]. right. by exists wantOn.
  - exists 3%nat, (d :: ds), es. rewrite H3. split; [done|]. split; [by eexists|]. by left.
Qed.

Definition health_events (acts : list action) (limit generation : Z) (seen : list tunnel_probe)
  : list event :=
  (fun a => match a with ActSwapStop => EvSwapStop limit generation seen | _ => EvSwap a end) <$> acts.

Lemma replace_runs st fc w o ds ps es :
  exists n,
    foldl sys_step (mkSys fc w o (HReplace st) ds ps es) (replicate n CHealth) =
    mkSys (replaceStoppedTunnel st fc w).1.1 (replaceStoppedTunnel st fc w).1.2 o HIdle ds ps
      (es ++ (EvSwap <$> (replaceStoppedTunnel st fc w).2)).
Proof.
  unfold replaceStoppedTunnel. destruct (env_choose w) as [name w1] eqn:Hc.
  destruct (bool_decide (name = "")) eqn:Hn.
  - exists 3%nat. cbn [replicate foldl sys_step health_step]. rewrite Hc, Hn.
    cbn [sys_step health_step]. done.
  - destruct (env_startSelected (env_sleep w1)) as [err w2] eqn:Hs.
    exists 4%nat. cbn [replicate foldl sys_step health_step]. rewrite Hc, Hn.
    cbn [sys_step health_step]. rewrite Hs. cbn [sys_step health_step].
    by rewrite <- app_assoc.
Qed.

Lemma run_more n m s s' :
  foldl sys_step s (replicate n CHealth) = s' ->
  foldl sys_step s (replicate (n + m) CHealth) = foldl sys_step s' (replicate m CHealth).
Proof. intros <-. by rewrite replicate_add, foldl_app. Qed.

(** The first three sections of a tick that reaches its probe. *)
Lemma health_probe_runs fc w o ds ps es dial request w1 ok perr :
  fc_tunnelEnabled fc = true -> ps_Running (env_status w) = true ->
  env_vpnProbe (PingTestURL (env_settings w)) (HealthTimeout (env_settings w)) w = (dial, request, w1) -> vpnProbe dial request = (ok, perr) ->
  foldl sys_step (mkSys fc w o HIdle ds ps es) (replicate 3 CHealth) =
  mkSys fc w1 o (HPublish (env_settings w) (ps_Generation (env_status w)) ok (milliseconds (env_now w1 - env_now w)))
    ds ps es.
Proof.
  intros Ht Hr Hv Hok. cbn [replicate foldl sys_step health_step]. rewrite Ht. cbn [sys_step health_step].
  rewrite Hr. cbn [negb sys_step health_step]. by rewrite Hv, Hok.
Qed.

Lemma replace_acts st fc w :
  Forall (fun a => a <> ActSwapStop) (replaceStoppedTunnel st fc w).2.
Proof.
  unfold replaceStoppedTunnel. destruct (env_choose w) as [nm w5].
  destruct (bool_decide (nm = "")); [|destruct (env_startSelected _)]; cbn; by repeat constructor.
Qed.

Lemma healthTick_runs fc w o ds ps es :
  exists n ps' limit generation seen,
    foldl sys_step (mkSys fc w o HIdle ds ps es) (replicate n CHealth) =
    mkSys (healthTick fc w).1.1 (healthTick fc w).1.2 o HIdle ds ps'
      (es ++ health_events (healthTick fc w).2 limit generation seen).
Proof.
  unfold healthTick. destruct (fc_tunnelEnabled fc) eqn:Ht; cbn [negb].
  2: { exists 1%nat, ps, 0%Z, 0%Z, []. cbn. by rewrite Ht, app_nil_r. }
  destruct (ps_Running (env_status w)) eqn:Hr; cbn [negb].
  2: { exists 2%nat, ps, 0%Z, 0%Z, []. cbn -[healthSkip]. rewrite Ht. cbn -[healthSkip].
       by rewrite Hr, app_nil_r. }
  destruct (env_vpnProbe _ _ w) as [[dial request] w1] eqn:Hv.
  destruct (vpnProbe dial request) as [ok perr] eqn:Hok.
  set (st := env_settings w) in *. set (lat := milliseconds (env_now w1 - env_now w)).
  set (g := ps_Generation (env_status w)).
  pose proof (health_probe_runs fc w o ds ps es _ _ _ _ _ Ht Hr Hv Hok) as H3. fold st g lat in H3.
  destruct (healthPublish st g (env_status w1) ok lat (env_now w1) fc) as [fc1 [fails|]] eqn:Hp.
  2: { exists (3 + 1)%nat. eexists _, 0%Z, 0%Z, []. rewrite (run_more 3 1 _ _ H3).
       cbn [replicate foldl sys_step health_step]. rewrite Hp. cbn. by rewrite app_nil_r. }
  set (seen := mkTunnelProbe g ok :: ps).
  assert (H4 : foldl sys_step (mkSys fc w o HIdle ds ps es) (replicate (3 + 1) CHealth) =
    mkSys fc1 w1 o (HCount st g fails seen) ds seen es).
  { rewrite (run_more 3 1 _ _ H3). cbn [replicate foldl sys_step health_step]. by rewrite Hp. }
  destruct (fails <? FailoverVPNSwapAfterFails st)%Z eqn:Hlim.
  { exists (4 + 1)%nat, seen, 0%Z, 0%Z, []. rewrite (run_more 4 1 _ _ H4).
    cbn [replicate foldl sys_step health_step]. by rewrite Hlim, app_nil_r. }
  destruct (runProbesFn _ _ w1) as [[whR whOK] w2] eqn:Hw.
  destruct (healthUnderlay g (env_status w2) whR whOK fc1) as [fc2 go] eqn:Hu.
  assert (H6 : foldl sys_step (mkSys fc w o HIdle ds ps es) (replicate (4 + 2) CHealth) =
    mkSys fc2 w2 o (if go then HGate st g seen else HIdle) ds seen es).
  { rewrite (run_more 4 2 _ _ H4). cbn [replicate foldl sys_step health_step]. rewrite Hlim, Hw.
    cbn [sys_step health_step]. by rewrite Hu. }
  destruct go.
  2: { exists (4 + 2)%nat, seen, 0%Z, 0%Z, []. rewrite H6. cbn. by rewrite app_nil_r. }
  destruct (healthSwapGate st (env_now w2) fc2) as [fc3 go] eqn:Hg.
  destruct go.
  2: { exists (6 + 1)%nat, seen, 0%Z, 0%Z, []. rewrite (run_more 6 1 _ _ H6).
       cbn [replicate foldl sys_step health_step]. rewrite Hg. cbn. by rewrite app_nil_r. }
  destruct (env_stop w2) as [serr w3] eqn:Hs.
  set (es' := es ++ [EvSwapStop (FailoverVPNSwapAfterFails st) g seen]).
  destruct (replace_runs st fc3 w3 o ds seen es') as [n Hn].
  destruct (replaceStoppedTunnel st fc3 w3) as [[fc4 w4] acts] eqn:Hre.
  exists (6 + (2 + n))%nat, seen, (FailoverVPNSwapAfterFails st), g, seen.
  rewrite (run_more 6 (2 + n) _ _ H6). cbn [replicate Nat.add foldl sys_step health_step]. rewrite Hg. cbn [sys_step health_step]. rewrite Hs.
  fold es'. rewrite Hn. cbn [fst snd]. f_equal. unfold es'. rewrite <- app_assoc. f_equal.
  pose proof (replace_acts st fc3 w3) as Hacts. rewrite Hre in Hacts.
  unfold health_events. rewrite fmap_cons. cbn. f_equal.
  apply list_fmap_ext. intros i a Ha. apply Forall_lookup_1 with (i := i) (x := a) in Hacts; [|done].
  by destruct a.
Qed.
End TickRuns.

(** ** Properties *)


(** C14. One outer tick publishes the probes it made, whatever the policy; with
    the policy off it never touches the tunnel; it stops the VPN only when the
    open internet answers, so losing every probe never stops a working tunnel;
    and it starts a VPN only while none runs, the open internet does not
    answer and no backoff is pending. *)
Theorem outerTick_safe {W} `{FailoverEnv W} fc w :
  let st := env_settings w in
  let '((openR, openOK), w1) := runProbesFn (OpenProbes st) (ProbeTimeout st) w in
  let '((whR, whOK), w2) := runProbesFn (WhitelistProbes st) (ProbeTimeout st) w1 in
  let running := ps_Running (env_status w2) in
  let '(fc', w', acts) := outerTick fc w in
  fs_OpenProbes (fc_state fc') = openR /\ fs_WhitelistProbes (fc_state fc') = whR /\
  fs_LastCheck (fc_state fc') = env_now w2 /\
  (fc_enabled fc = false -> acts = [] /\ w' = w2 /\ fs_VPNOn (fc_state fc') = running) /\
  (acts = [] \/
   acts = [ActStop] /\ openOK = true /\ running = true /\ fs_VPNOn (fc_state fc') = false \/
   acts = [ActStart] /\ openOK = false /\ running = false /\
     (fc_nextStartAttempt fc <= env_now w2)%Z /\
     (fs_VPNOn (fc_state fc') = true \/
      fc_nextStartAttempt fc' = (env_now w' + StartBackoff st)%Z)).
Proof.
  intros st. unfold outerTick, checkWAN. fold st.
  destruct (runProbesFn _ _ w) as [[openR openOK] w1].
  destruct (runProbesFn _ _ w1) as [[whR whOK] w2].
  set (running := ps_Running (env_status w2)).
  set (fc1 := checkWAN_publish openR whR openOK whOK running (env_now w2) fc).
  change (fs_VPNOn (fc_state fc1)) with running.
  change (fs_OpenOK (fc_state fc1)) with openOK.
  change (fs_WhitelistOK (fc_state fc1)) with whOK.
  destruct (outerVerdict openOK whOK running) as [wantOn reason] eqn:Hv.
  pose proof (outerDecide_cases st wantOn running reason (env_now w2) fc1) as Hd.
  destruct (outerDecide _ _ _ _ _ fc1) as [fc2 apply].
  destruct Hd as (Happly & Hoff & E1 & E2 & E3 & E4).
  change (fc_enabled fc1) with (fc_enabled fc) in *.
  change (fc_nextStartAttempt fc1) with (fc_nextStartAttempt fc) in Happly.
  destruct apply; cbn [negb]; [|split; [done|split; [done|split; [done|split; [done|by left]]]]].
  destruct (Happly eq_refl) as (He & Hwant & Hback & _).
  destruct ((if wantOn then env_start else env_stop) w2) as [err w3].
  assert (Hopen : wantOn = negb openOK).
  { unfold outerVerdict in Hv. destruct openOK, whOK; by injection Hv as <- <-. }
  assert (Hkeep : forall f, f = outerFinish st wantOn reason err (env_now w3) fc2 ->
    fs_OpenProbes (fc_state f) = openR /\ fs_WhitelistProbes (fc_state f) = whR /\
    fs_LastCheck (fc_state f) = env_now w2).
  { intros f ->. unfold outerFinish. destruct wantOn; [destruct err|]; cbn; by rewrite E1, E2, E3. }
  destruct (Hkeep _ eq_refl) as (K1 & K2 & K3). split; [done|]. split; [done|]. split; [done|].
  split; [by rewrite He|]. right. destruct wantOn; cbn [negb] in *.
  - right. split; [done|]. split; [by destruct openOK|]. split; [by destruct running|].
    split; [by apply Hback|]. unfold outerFinish. destruct err; [by right|by left].
  - left. split; [done|]. split; [by destruct openOK|]. split; [by destruct running|done].
Qed.

(** A health tick touches the tunnel only when monitoring is on, the
    tunnel was running and its probe failed, the published failures have
    reached the limit, the same tunnel is still running after the underlay
    probe, the operator's whitelist answers and the swap backoff is over.
    Then it stops the tunnel first, and afterwards the failure count is zero
    and a new backoff runs. *)
Theorem healthTick_swap_conditions {W} `{FailoverEnv W} fc w :
  let st := env_settings w in
  let '(fc', w', acts) := healthTick fc w in
  acts <> [] ->
  fc_tunnelEnabled fc = true /\ ps_Running (env_status w) = true /\
  (let '(dial, request, w1) := env_vpnProbe (PingTestURL st) (HealthTimeout st) w in
   (vpnProbe dial request).1 = false /\
   same_tunnel fc (ps_Generation (env_status w)) (env_status w1) = true /\
   let fails0 := if (fc_healthGeneration fc =? ps_Generation (env_status w))%Z
                 then fs_VPNHealthFails (fc_state fc) else 0%Z in
   (FailoverVPNSwapAfterFails st <= fails0 + 1)%Z /\
   let '((_, whOK), w2) := runProbesFn (WhitelistProbes st) (ProbeTimeout st) w1 in
   whOK = true /\
   same_tunnel fc (ps_Generation (env_status w)) (env_status w2) = true /\
   (fc_nextSwapAttempt fc <= env_now w2)%Z /\
   fc_nextSwapAttempt fc' = (env_now (env_stop w2).2 + StartBackoff st)%Z) /\
  (exists name, acts = [ActSwapStop; ActSwapChoose name] /\ name = "" \/
     acts = [ActSwapStop; ActSwapChoose name; ActSwapStart] /\ name <> "") /\
  fs_VPNHealthFails (fc_state fc') = 0%Z.
Proof.
  intros st. unfold healthTick. destruct (fc_tunnelEnabled fc) eqn:Ht; [cbn [negb]|done].
  destruct (ps_Running (env_status w)) eqn:Hr; [cbn [negb]|done]. fold st.
  destruct (env_vpnProbe _ _ w) as [[dial request] w1].
  destruct (vpnProbe dial request) as [ok perr] eqn:Hok.
  unfold healthPublish. set (g := ps_Generation (env_status w)).
  destruct (same_tunnel fc g (env_status w1)) eqn:Hs1; [cbn [negb]|done].
  destruct ok; [done|]. set (fails := if (_ =? _)%Z then _ else 0%Z).
  destruct (Z.ltb_spec (fails + 1) (FailoverVPNSwapAfterFails st)) as [|Hlim]; [done|].
  destruct (runProbesFn _ _ w1) as [[whR whOK] w2]. unfold healthUnderlay.
  match goal with |- context [same_tunnel ?f g (env_status w2)] =>
    change (same_tunnel f g (env_status w2)) with (same_tunnel fc g (env_status w2)) end.
  destruct (same_tunnel fc g (env_status w2)) eqn:Hs2; [cbn [negb]|done].
  destruct whOK; [|done]. unfold healthSwapGate.
  match goal with |- context [(env_now w2 <? fc_nextSwapAttempt ?f)%Z] =>
    change (fc_nextSwapAttempt f) with (fc_nextSwapAttempt fc) end.
  destruct (Z.ltb_spec (env_now w2) (fc_nextSwapAttempt fc)) as [|Hgate]; [done|].
  destruct (env_stop w2) as [serr w3]. unfold replaceStoppedTunnel.
  destruct (env_choose w3) as [name w4].
  destruct (decide (name = "")) as [Hn|Hn];
    [rewrite bool_decide_eq_true_2 by done|rewrite bool_decide_eq_false_2 by done];
    [|destruct (env_startSelected _) as [e w5]]; intros _;
    (split; [done|]); (split; [done|]); (split; [by repeat (split; [done|])|]);
    (split; [exists name|done]); [by left|by right].
Qed.

(** The machine and the code agree: run alone, with no other goroutine in
    between, the sections of [sys] compose to exactly [outerTick] and
    [healthTick], their final controller and world included. *)
Theorem ticks_refine_machine {W} `{FailoverEnv W} fc w h o ds ps es :
  (exists n ds' es',
     foldl sys_step (mkSys fc w OIdle h ds ps es) (replicate n COuter) =
     mkSys (outerTick fc w).1.1 (outerTick fc w).1.2 OIdle h ds' ps es') /\
  (exists n ps' limit generation seen,
     foldl sys_step (mkSys fc w o HIdle ds ps es) (replicate n CHealth) =
     mkSys (healthTick fc w).1.1 (healthTick fc w).1.2 o HIdle ds ps'
       (es ++ health_events (healthTick fc w).2 limit generation seen)).
Proof.
  split; [|apply healthTick_runs].
  destruct (outerTick_runs fc w h ds ps es) as (n & ds' & es' & Hrun & _). eauto.
Qed.

(** C40. The policy reacts: with the policy on, no backoff pending and the same
    verdict each time, the change is applied within [FailoverHysteresis]
    decisions. *)
Theorem policy_reacts_within_hysteresis st wantOn reason now fc ds ps :
  fc_ok fc ds ps -> fc_enabled fc = true -> (1 <= FailoverHysteresis st)%Z ->
  (wantOn = true -> (fc_nextStartAttempt fc <= now)%Z) ->
  decide_upto (Z.to_nat (FailoverHysteresis st)) st wantOn reason now fc = true.
Proof.
  intros (_ & _ & _ & Hds & _) He Hh Hb. apply recent_nonneg in Hds.
  apply decide_upto_reacts; try done; [|lia]. destruct (Bool.eqb _ _); lia.
Qed.

(** The state shown to the user is the process's own: VPN is shown on
    exactly when it runs, and a health result is shown only for the tunnel it
    was measured on. *)
Theorem State_authoritative status fc :
  let s := State status fc in
  fs_VPNOn s = ps_Running status /\
  (fs_VPNHealthOK s = true ->
     ps_Running status = true /\ ps_Generation status = fc_healthGeneration fc /\
     fs_VPNHealthOK (fc_state fc) = true) /\
  (ps_Running status = false \/ ps_Generation status <> fc_healthGeneration fc ->
     fs_VPNHealthLatencyMS s = (-1)%Z /\ fs_VPNHealthCheck s = zero_time) /\
  fs_Reason s = fs_Reason (fc_state fc).
Proof.
  unfold State. destruct (ps_Running status) eqn:Hr; cbn [negb orb].
  - destruct (Z.eqb_spec (ps_Generation status) (fc_healthGeneration fc)) as [Heq|Hne]; cbn [negb];
      (split; [done|]); (split; [by intros Hok|]); (split; [by intros [?|?]|done]).
  - split; [done|]. split; [done|]. by split.
Qed.

(** ** Witnesses and a race *)

(** A world for the examples: a clock, a generation, whether the VPN runs,
    whether the open probes, the whitelist and the tunnel answer. *)
Record demo := mkDemo {
  dm_now : Time;
  dm_generation : Z;
  dm_running : bool;
  dm_open : bool;
  dm_white : bool;
  dm_tunnel : bool
}.

Definition demo_env : FailoverEnv demo := {|
  env_now := dm_now;
  env_settings := fun _ => defaultSettings;
  env_status := fun w => mkStatus (dm_generation w) (dm_running w) true 0 0 "" "";
  env_probe := fun urls _ w =>
    (fun _ u => mkCall (if bool_decide (u ∈ WhitelistProbes defaultSettings)
                        then dm_white w else dm_open w) 1000000 None, w);
  env_vpnProbe := fun _ _ w =>
    (None, fun _ => if dm_tunnel w then None else Some "timeout", w);
  env_start := fun w => (None, mkDemo (dm_now w) (dm_generation w + 1) true
                           (dm_open w) (dm_white w) (dm_tunnel w));
  env_stop := fun w => (None, mkDemo (dm_now w) (dm_generation w + 1) false
                          (dm_open w) (dm_white w) (dm_tunnel w));
  env_choose := fun w => ("backup", w);
  env_sleep := fun w => w;
  env_startSelected := fun w => (None, mkDemo (dm_now w) (dm_generation w + 1) true
                                   (dm_open w) (dm_white w) (dm_tunnel w))
|}.

#[local] Existing Instance demo_env.

Definition demo_fc : failoverController := newFailoverController defaultSettings true true.

(** The whitelist answers and the open internet does not: two ticks start the VPN. *)
Definition blocked : demo := mkDemo 1000000 4 false false true true.

Example two_ticks_start :
  let '(fc1, w1, acts1) := outerTick demo_fc blocked in
  (acts1, (outerTick fc1 w1).2) = ([], [ActStart]).
Proof. vm_compute. reflexivity. Qed.

Lemma policy_reacts_within_hysteresis_witness :
  decide_upto 2 defaultSettings true "" 1000000 demo_fc = true.
Proof.
  assert (Hok : fc_ok demo_fc [] []).
  { repeat (split; [reflexivity|]). split; apply recent_0. }
  refine (policy_reacts_within_hysteresis defaultSettings true "" 1000000 demo_fc [] [] Hok
    eq_refl _ _); [discriminate|intros _; discriminate].
Defined.

(** A running VPN whose tunnel is dead. *)
Definition dead : demo := mkDemo 1000000 4 true false true false.

Lemma healthTick_swap_conditions_witness :
  let fc := (healthTick demo_fc dead).1.1 in
  (healthTick fc dead).2 = [ActSwapStop; ActSwapChoose "backup"; ActSwapStart] /\
  fs_VPNHealthFails (fc_state (healthTick fc dead).1.1) = 0%Z.
Proof.
  set (fc := (healthTick demo_fc dead).1.1). split; [vm_compute; reflexivity|].
  pose proof (healthTick_swap_conditions fc dead) as H.
  destruct (healthTick fc dead) as [[fc' w'] acts] eqn:E.
  assert (Hacts : acts <> []).
  { change acts with (fc', w', acts).2. rewrite <- E. vm_compute. discriminate. }
  exact (proj2 (proj2 (proj2 (proj2 (H Hacts))))).
Defined.

Lemma outerTick_safe_witness :
  (outerTick (demo_fc <| fc_enabled := false |>) blocked).2 = [].
Proof.
  pose proof (outerTick_safe (demo_fc <| fc_enabled := false |>) blocked) as H. cbv zeta in H.
  destruct (runProbesFn (OpenProbes _) _ blocked) as [[? ?] w1].
  destruct (runProbesFn (WhitelistProbes _) _ w1) as [[? ?] w2].
  destruct (outerTick (demo_fc <| fc_enabled := false |>) blocked) as [[fc' w'] acts].
  destruct H as (_ & _ & _ & H & _). exact (proj1 (H eq_refl)).
Defined.

Lemma State_authoritative_witness :
  fs_VPNHealthLatencyMS (State (mkStatus 5 false true 0 0 "" "") demo_fc) = (-1)%Z.
Proof.
  refine (proj1 (proj1 (proj2 (proj2 (State_authoritative (mkStatus 5 false true 0 0 "" "") demo_fc)))
    _)). by left.
Defined.

(** The swap is not atomic with its last check of the tunnel: a user who
    reconnects between that check and the stop has the new, healthy tunnel
    stopped, on evidence that only concerns the old generation. *)
Theorem swap_race :
  let s0 := start_sys defaultSettings true true dead in
  let s1 := foldl sys_step s0 (replicate 4 CHealth ++ replicate 8 CHealth) in
  let reconnected := mkDemo 1000000 6 true false true true in
  let s2 := foldl sys_step s1 [CWorld reconnected; CHealth] in
  s_health s1 = HStop defaultSettings 4 [mkTunnelProbe 4 false; mkTunnelProbe 4 false] /\
  dm_running (s_w s2) = false /\
  s_events s2 = [EvSwapStop 2 4 [mkTunnelProbe 4 false; mkTunnelProbe 4 false]].
Proof. vm_compute. repeat split. Qed.
