(* ===== verification/Operations.v ===== *)
(** * The operation coordinator: [operations.go]

    Heavy work (pings, refreshes, updates) runs one operation at a time.  The
    coordinator is a queue, the operation being executed, and the keys of the
    deduplicated operations.  Every critical section of [c.mu] is a Definition
    on [operationCoordinator], and [op_step] lets the callers of [Run], the
    worker, the stall watcher and the cancelling handlers take them in any
    order.

    An operation is identified by the number [nextOperationID] gave it.  A
    caller's context is the set [oc_cancelled] of operations whose context is
    done; a result sent on [op.done] is an entry of [oc_results]. *)

From S2P Require Import Prelude GoStrings.

#[local] Open Scope Z_scope.

(** ** Data *)

Definition defaultStallLimit : Duration := 90 * Second.

Record operationRequest := mkRequest {
  rq_Kind : string;
  rq_Title : string;
  rq_Source : string;
  rq_DedupeKey : string;
  rq_Cancellable : bool;
  rq_StallLimit : Duration
}.

#[export] Instance operationRequest_eta : Eta operationRequest := fun r =>
  mkRequest (rq_Kind r) (rq_Title r) (rq_Source r) (rq_DedupeKey r) (rq_Cancellable r)
    (rq_StallLimit r).

Record operationProgress := mkProgress {
  pg_Done : Z;
  pg_Total : Z;
  pg_Current : string;
  pg_Message : string
}.

Record operationView := mkView {
  ov_ID : nat;
  ov_Kind : string;
  ov_Title : string;
  ov_Source : string;
  ov_State : string;
  ov_Done : Z;
  ov_Total : Z;
  ov_Progress : Z;
  ov_Current : string;
  ov_Message : string;
  ov_Cancellable : bool;
  ov_CancelRequested : bool;
  ov_StartedAt : Time;
  ov_UpdatedAt : Time;
  ov_QueuedAt : Time
}.

#[export] Instance operationView_eta : Eta operationView := fun v =>
  mkView (ov_ID v) (ov_Kind v) (ov_Title v) (ov_Source v) (ov_State v) (ov_Done v) (ov_Total v)
    (ov_Progress v) (ov_Current v) (ov_Message v) (ov_Cancellable v) (ov_CancelRequested v)
    (ov_StartedAt v) (ov_UpdatedAt v) (ov_QueuedAt v).

Record queuedOperation := mkQueued { qo_view : operationView; qo_req : operationRequest }.

#[export] Instance queuedOperation_eta : Eta queuedOperation := fun o =>
  mkQueued (qo_view o) (qo_req o).

Definition qo_id (op : queuedOperation) : nat := ov_ID (qo_view op).
Definition qo_key (op : queuedOperation) : string := rq_DedupeKey (qo_req op).

Inductive op_error :=
| OpCancelled
| OpStalled (limit : Duration)
| OpContext
| OpFailed (e : string).

(** [oc_taken] is the operation the worker has taken off the queue and not yet
    made active; [oc_stop] tells that its run context was cancelled. *)
Record operationCoordinator := mkOC {
  oc_queue : list queuedOperation;
  oc_taken : option queuedOperation;
  oc_active : option queuedOperation;
  oc_stop : bool;
  oc_dedupe : gset string;
  oc_next : nat;
  oc_cancelled : gset nat;
  oc_results : list (nat * option op_error)
}.

#[export] Instance operationCoordinator_eta : Eta operationCoordinator := fun c =>
  mkOC (oc_queue c) (oc_taken c) (oc_active c) (oc_stop c) (oc_dedupe c) (oc_next c)
    (oc_cancelled c) (oc_results c).

Definition newOperationCoordinator : operationCoordinator := mkOC [] None None false ∅ 1 ∅ [].

(** ** Queueing *)

(** The defaults [Run] fills in. *)
Definition fill_request (req : operationRequest) : operationRequest :=
  let source := if bool_decide (rq_Source req = "") then "manual" else rq_Source req in
  let limit := if rq_StallLimit req <=? 0 then defaultStallLimit else rq_StallLimit req in
  let key := if bool_decide (rq_DedupeKey req = "") && bool_decide (source = "background")
             then rq_Kind req else rq_DedupeKey req in
  mkRequest (rq_Kind req) (rq_Title req) source key (rq_Cancellable req) limit.

Definition new_operation (id : nat) (req : operationRequest) (now : Time) : queuedOperation :=
  mkQueued (mkView id (rq_Kind req) (rq_Title req) (rq_Source req) "queued" 0 0 0 ""
              "Ожидает запуска" (rq_Cancellable req) false zero_time now now) req.

(** The first half of [Run]: the operation's number, or [None] when an equal
    one is already there and [Run] returns at once. *)
Definition enqueue (req : operationRequest) (now : Time) (c : operationCoordinator)
  : option nat * operationCoordinator :=
  let req := fill_request req in
  let op := new_operation (oc_next c) req now in
  if negb (bool_decide (rq_DedupeKey req = "")) && bool_decide (rq_DedupeKey req ∈ oc_dedupe c)
  then (None, c <| oc_next ::= S |>)
  else
    (Some (oc_next c),
     mkOC (oc_queue c ++ [op]) (oc_taken c) (oc_active c) (oc_stop c)
       (if bool_decide (rq_DedupeKey req = "") then oc_dedupe c
        else {[rq_DedupeKey req]} ∪ oc_dedupe c)
       (S (oc_next c)) (oc_cancelled c) (oc_results c)).

Definition finishQueuedLocked (op : queuedOperation) (dedupe : gset string) : gset string :=
  if bool_decide (qo_key op = "") then dedupe else dedupe ∖ {[qo_key op]}.

(** Takes the first operation satisfying [p] out of a queue. *)
Fixpoint remove_first (p : queuedOperation -> bool) (queue : list queuedOperation)
  : option (queuedOperation * list queuedOperation) :=
  match queue with
  | [] => None
  | op :: rest =>
      if p op then Some (op, rest)
      else match remove_first p rest with
           | Some (found, rest) => Some (found, op :: rest)
           | None => None
           end
  end.

Definition removeQueued (id : nat) (c : operationCoordinator) : bool * operationCoordinator :=
  match remove_first (fun op => (qo_id op =? id)%nat) (oc_queue c) with
  | Some (op, rest) =>
      (true, c <| oc_queue := rest |> <| oc_dedupe ::= finishQueuedLocked op |>)
  | None => (false, c)
  end.

(** The second half of [Run] when the caller's context is done: an operation
    still queued is withdrawn with the context's error. *)
Definition withdraw (id : nat) (c : operationCoordinator) : operationCoordinator :=
  if bool_decide (id ∈ oc_cancelled c) then
    match removeQueued id c with
    | (true, c) => c <| oc_results ::= fun l => l ++ [(id, Some OpContext)] |>
    | (false, c) => c
    end
  else c.

(** ** The worker *)

Definition is_manual (op : queuedOperation) : bool :=
  negb (bool_decide (rq_Source (qo_req op) = "background")).

(** What [next] picks: the first operation that is not maintenance, else the
    first. *)
Definition pick (queue : list queuedOperation) : option (queuedOperation * list queuedOperation) :=
  match remove_first is_manual queue with
  | Some r => Some r
  | None => remove_first (fun _ => true) queue
  end.

(** The loop of [next]; the fuel is the length of the queue, which every turn
    shortens. *)
Fixpoint next_loop (fuel : nat) (cancelled : gset nat) (queue : list queuedOperation)
    (dedupe : gset string) (results : list (nat * option op_error))
  : option queuedOperation * list queuedOperation * gset string * list (nat * option op_error) :=
  match fuel with
  | O => (None, queue, dedupe, results)
  | S fuel =>
      match pick queue with
      | None => (None, queue, dedupe, results)
      | Some (op, rest) =>
          if bool_decide (qo_id op ∈ cancelled)
          then next_loop fuel cancelled rest (finishQueuedLocked op dedupe)
                 (results ++ [(qo_id op, Some OpContext)])
          else (Some op, rest, dedupe, results)
      end
  end.

Definition next (c : operationCoordinator) : operationCoordinator :=
  let '(op, queue, dedupe, results) :=
    next_loop (length (oc_queue c)) (oc_cancelled c) (oc_queue c) (oc_dedupe c) (oc_results c) in
  mkOC queue op (oc_active c) (oc_stop c) dedupe (oc_next c) (oc_cancelled c) results.

Definition executeBegin (now : Time) (c : operationCoordinator) : operationCoordinator :=
  match oc_taken c with
  | Some op =>
      let op := op <| qo_view ::= fun v =>
        v <| ov_State := "running" |> <| ov_Message := "Выполняется" |>
          <| ov_StartedAt := now |> <| ov_UpdatedAt := now |> |> in
      c <| oc_taken := None |> <| oc_active := Some op |>
        <| oc_stop := bool_decide (qo_id op ∈ oc_cancelled c) |>
  | None => c
  end.

(** What the operation's function returned. *)
Inductive fn_result := FnOk | FnCanceled | FnFailed (e : string).

Definition executeEnd (r : fn_result) (c : operationCoordinator) : operationCoordinator :=
  match oc_active c with
  | Some op =>
      let err :=
        if bool_decide (ov_State (qo_view op) = "stalled")
        then Some (OpStalled (rq_StallLimit (qo_req op)))
        else match r with
             | FnOk => None
             | FnCanceled => Some OpCancelled
             | FnFailed e => Some (OpFailed e)
             end in
      mkOC (oc_queue c) (oc_taken c) None false (finishQueuedLocked op (oc_dedupe c)) (oc_next c)
        (oc_cancelled c) (oc_results c ++ [(qo_id op, err)])
  | None => c
  end.

(** ** Progress and cancellation *)

(** [int] is [w] bits wide: the product may wrap. *)
Definition operationPercent (w done total : Z) : Z :=
  if total <=? 0 then 0
  else
    let percent := Z.quot (swrap w (done * 100)) total in
    if 100 <? percent then 100 else if percent <? 0 then 0 else percent.

Definition show_progress (w : Z) (p : operationProgress) (now : Time) (op : queuedOperation)
  : queuedOperation :=
  op <| qo_view ::= fun v =>
    mkView (ov_ID v) (ov_Kind v) (ov_Title v) (ov_Source v) (ov_State v) (pg_Done p) (pg_Total p)
      (operationPercent w (pg_Done p) (pg_Total p)) (pg_Current p) (pg_Message p)
      (ov_Cancellable v) (ov_CancelRequested v) (ov_StartedAt v) now (ov_QueuedAt v) |>.

(** The [report] closure of operation [id]. *)
Definition report (w : Z) (id : nat) (p : operationProgress) (now : Time)
    (c : operationCoordinator) : operationCoordinator :=
  match oc_active c with
  | Some op => if (qo_id op =? id)%nat
               then c <| oc_active := Some (show_progress w p now op) |> else c
  | None => c
  end.

Definition Progress (w : Z) (kind : string) (p : operationProgress) (now : Time)
    (c : operationCoordinator) : operationCoordinator :=
  match oc_active c with
  | Some op => if bool_decide (rq_Kind (qo_req op) = kind)
               then c <| oc_active := Some (show_progress w p now op) |> else c
  | None => c
  end.

Definition set_view_state (state message : string) (cancel : bool) (now : Time)
    (op : queuedOperation) : queuedOperation :=
  op <| qo_view ::= fun v =>
    mkView (ov_ID v) (ov_Kind v) (ov_Title v) (ov_Source v) state (ov_Done v) (ov_Total v)
      (ov_Progress v) (ov_Current v) message (ov_Cancellable v) (cancel || ov_CancelRequested v)
      (ov_StartedAt v) now (ov_QueuedAt v) |>.

Definition stallInterval (limit : Duration) : Duration := Z.max Second (Z.quot limit 4).

(** One tick of [watchStall] for operation [id]. *)
Definition stallCheck (id : nat) (now : Time) (c : operationCoordinator) : operationCoordinator :=
  match oc_active c with
  | Some op =>
      if (qo_id op =? id)%nat && (rq_StallLimit (qo_req op) <? now - ov_UpdatedAt (qo_view op))
      then c <| oc_active := Some (set_view_state "stalled"
                   "Нет прогресса, операция остановлена" false now op) |>
             <| oc_stop := true |>
      else c
  | None => c
  end.

Definition cancel_running (now : Time) (op : queuedOperation) (c : operationCoordinator)
  : operationCoordinator :=
  c <| oc_active := Some (set_view_state "cancelling" "Останавливается" true now op) |>
    <| oc_stop := true |>.

Definition CancelActive (now : Time) (c : operationCoordinator) : bool * operationCoordinator :=
  match oc_active c with
  | Some op => if rq_Cancellable (qo_req op) then (true, cancel_running now op c) else (false, c)
  | None => (false, c)
  end.

Definition kind_matches (kind : string) (op : queuedOperation) : bool :=
  bool_decide (rq_Kind (qo_req op) = kind) && rq_Cancellable (qo_req op).

(** The loop of [CancelKind] over the queue. *)
Definition cancelQueued (kind : string) (c : operationCoordinator) : bool * operationCoordinator :=
  match remove_first (kind_matches kind) (oc_queue c) with
  | Some (op, rest) =>
      (true, c <| oc_queue := rest |> <| oc_dedupe ::= finishQueuedLocked op |>
               <| oc_results ::= fun l => l ++ [(qo_id op, Some OpCancelled)] |>)
  | None => (false, c)
  end.

Definition CancelKind (kind : string) (now : Time) (c : operationCoordinator)
  : bool * operationCoordinator :=
  match oc_active c with
  | Some op => if kind_matches kind op then (true, cancel_running now op c) else cancelQueued kind c
  | None => cancelQueued kind c
  end.

(** [Snapshot], without the load average. *)
Definition Snapshot (c : operationCoordinator) : option operationView * list operationView :=
  (qo_view <$> oc_active c, qo_view <$> oc_queue c).

(** ** Everybody at once *)

Inductive op_cmd :=
| CmdRun (req : operationRequest) (now : Time)
| CmdCallerDone (id : nat)
| CmdWithdraw (id : nat)
| CmdNext
| CmdBegin (now : Time)
| CmdEnd (r : fn_result)
| CmdReport (w : Z) (id : nat) (p : operationProgress) (now : Time)
| CmdProgress (w : Z) (kind : string) (p : operationProgress) (now : Time)
| CmdStall (id : nat) (now : Time)
| CmdCancelActive (now : Time)
| CmdCancelKind (kind : string) (now : Time).

(** The worker is one goroutine: it calls [next] with nothing in hand. *)
Definition op_step (c : operationCoordinator) (cmd : op_cmd) : operationCoordinator :=
  match cmd with
  | CmdRun req now => (enqueue req now c).2
  | CmdCallerDone id => c <| oc_cancelled ::= fun s => {[id]} ∪ s |>
  | CmdWithdraw id => withdraw id c
  | CmdNext => match oc_taken c, oc_active c with None, None => next c | _, _ => c end
  | CmdBegin now => match oc_active c with None => executeBegin now c | Some _ => c end
  | CmdEnd r => executeEnd r c
  | CmdReport w id p now => report w id p now c
  | CmdProgress w kind p now => Progress w kind p now c
  | CmdStall id now => stallCheck id now c
  | CmdCancelActive now => (CancelActive now c).2
  | CmdCancelKind kind now => (CancelKind kind now c).2
  end.

(** The operations the coordinator knows, and every number it answers for. *)
Definition present (c : operationCoordinator) : list queuedOperation :=
  oc_queue c ++ option_list (oc_taken c) ++ option_list (oc_active c).
Definition account (c : operationCoordinator) : list nat :=
  (qo_id <$> present c) ++ (oc_results c).*1.

Definition keys (ops : list queuedOperation) : list string :=
  filter (fun k => k <> "") (qo_key <$> ops).

(** The set of keys is the keys of the operations, none twice. *)
Definition tracked (ops : list queuedOperation) (dedupe : gset string) : Prop :=
  NoDup (keys ops) /\ (forall k, k ∈ dedupe <-> k ∈ keys ops).

Definition percent_ok (op : queuedOperation) : Prop := 0 <= ov_Progress (qo_view op) <= 100.

Definition oc_inv (c : operationCoordinator) : Prop :=
  NoDup (account c) /\ Forall (fun id => (id < oc_next c)%nat) (account c) /\
  tracked (present c) (oc_dedupe c) /\
  (is_Some (oc_taken c) -> oc_active c = None) /\
  Forall percent_ok (present c).

(** ** Lemmas *)

Lemma keys_cons op ops :
  keys (op :: ops) = if bool_decide (qo_key op = "") then keys ops else qo_key op :: keys ops.
Proof.
  unfold keys. rewrite fmap_cons, filter_cons.
  by destruct (decide (qo_key op = "")); [rewrite decide_False, bool_decide_eq_true_2 by auto|
    rewrite decide_True, bool_decide_eq_false_2 by auto].
Qed.

Lemma keys_perm ops ops' : ops ≡ₚ ops' -> keys ops ≡ₚ keys ops'.
Proof. intros Hp. unfold keys. by rewrite Hp. Qed.

#[export] Instance tracked_proper : Proper (Permutation ==> eq ==> iff) tracked.
Proof.
  intros ops ops' Hp d ? <-. unfold tracked. pose proof (keys_perm _ _ Hp) as Hk.
  rewrite Hk. split; intros [? Hd]; (split; [done|]); intros k; rewrite Hd, Hk; done.
Qed.

Lemma tracked_finish op ops dedupe :
  tracked (op :: ops) dedupe -> tracked ops (finishQueuedLocked op dedupe).
Proof.
  unfold tracked, finishQueuedLocked. rewrite keys_cons. case_bool_decide; [done|].
  intros [[Hni Hnd]%NoDup_cons Hd]. split; [done|]. intros k. rewrite elem_of_difference, Hd.
  rewrite elem_of_cons, elem_of_singleton. split; [intros [[?|?] ?]; done|].
  intros Hk. split; [by right|]. intros ->. done.
Qed.

Lemma tracked_add op ops dedupe :
  tracked ops dedupe -> (qo_key op = "" \/ qo_key op ∉ dedupe) ->
  tracked (op :: ops) (if bool_decide (qo_key op = "") then dedupe else {[qo_key op]} ∪ dedupe).
Proof.
  unfold tracked. rewrite keys_cons. intros [Hnd Hd] Hnew. case_bool_decide as He; [done|].
  destruct Hnew as [?|Hni]; [done|]. split.
  - apply NoDup_cons. by rewrite <- Hd.
  - intros k. by rewrite elem_of_union, elem_of_singleton, elem_of_cons, Hd.
Qed.

Lemma remove_first_Some p queue op rest :
  remove_first p queue = Some (op, rest) ->
  p op = true /\ queue ≡ₚ op :: rest /\
  exists l1 l2, queue = l1 ++ op :: l2 /\ rest = l1 ++ l2 /\ Forall (fun x => p x = false) l1.
Proof.
  revert rest. induction queue as [|x queue IH]; intros rest; cbn; [done|].
  destruct (p x) eqn:Hx.
  - intros [= <- <-]. split; [done|]. split; [done|]. by exists [], queue.
  - destruct (remove_first p queue) as [[found r]|]; [|done]. intros [= -> <-].
    destruct (IH r eq_refl) as (Hp & Hperm & l1 & l2 & -> & -> & Hall). split; [done|].
    split; [rewrite Hperm; constructor|]. exists (x :: l1), l2. by repeat split; [..|constructor].
Qed.

Lemma remove_first_None p queue :
  remove_first p queue = None -> Forall (fun x => p x = false) queue.
Proof.
  induction queue as [|x queue IH]; cbn; [done|]. destruct (p x) eqn:Hx; [done|].
  destruct (remove_first p queue) as [[]|]; [done|]. intros _. constructor; [done|by apply IH].
Qed.

(** The order in which the worker takes a queue. *)
Definition priority (queue : list queuedOperation) : list queuedOperation :=
  filter (fun op => is_manual op = true) queue ++ filter (fun op => is_manual op = false) queue.


Lemma pick_priority queue :
  match pick queue with
  | Some (op, rest) => priority queue = op :: priority rest /\ queue ≡ₚ op :: rest
  | None => queue = []
  end.
Proof.
  unfold pick. destruct (remove_first is_manual queue) as [[op rest]|] eqn:Hm.
  - destruct (remove_first_Some _ _ _ _ Hm) as (Hp & Hperm & l1 & l2 & -> & -> & Hall).
    split; [|done]. unfold priority. rewrite !filter_app, !filter_cons, Hp.
    rewrite decide_True, decide_False by done.
    rewrite (filter_none (fun op => is_manual op = true) l1); [done|].
    eapply Forall_impl; [exact Hall|]. cbn. congruence.
  - apply remove_first_None in Hm. destruct queue as [|op rest]; [done|]. cbn [remove_first].
    split; [|done]. apply Forall_cons in Hm as [Hop Hrest]. unfold priority.
    rewrite !filter_cons, Hop, decide_False, decide_True by done.
    rewrite (filter_none (fun op => is_manual op = true) rest); [done|].
    eapply Forall_impl; [exact Hrest|]. cbn. congruence.
Qed.

Lemma next_loop_spec fuel cancelled queue dedupe results :
  (length queue <= fuel)%nat ->
  let '(op, rest, dedupe', results') := next_loop fuel cancelled queue dedupe results in
  exists dropped,
    priority queue = dropped ++ option_list op ++ priority rest /\
    queue ≡ₚ dropped ++ option_list op ++ rest /\
    Forall (fun x => qo_id x ∈ cancelled) dropped /\
    (forall x, op = Some x -> qo_id x ∉ cancelled) /\
    (op = None -> rest = []) /\
    results' = results ++ ((fun x => (qo_id x, Some OpContext)) <$> dropped) /\
    (forall others, tracked (queue ++ others) dedupe ->
       tracked (option_list op ++ rest ++ others) dedupe').
Proof.
  revert queue dedupe results. induction fuel as [|fuel IH]; intros queue dedupe results Hlen; cbn [next_loop].
  { destruct queue; [|cbn in Hlen; lia]. exists []. cbn. rewrite app_nil_r. do 6 (split; [done|]). done. }
  pose proof (pick_priority queue) as Hpick. destruct (pick queue) as [[op rest]|].
  2: { subst. exists []. cbn. rewrite app_nil_r. do 6 (split; [done|]). done. }
  destruct Hpick as [Hprio Hperm]. case_bool_decide as Hc.
  - assert (Hl : (length rest <= fuel)%nat).
    { apply Permutation_length in Hperm. cbn in Hperm. lia. }
    specialize (IH rest (finishQueuedLocked op dedupe) (results ++ [(qo_id op, Some OpContext)]) Hl).
    destruct (next_loop _ _ _ _ _) as [[[found rest'] dedupe'] results'].
    destruct IH as (dropped & H1 & H2 & H3 & H4 & H5 & H6 & H7).
    exists (op :: dropped). split; [by rewrite Hprio, H1|]. split; [by rewrite Hperm, H2|].
    split; [by constructor|]. split; [done|]. split; [done|].
    split; [by rewrite H6, <- app_assoc|]. intros others Ht. apply H7, tracked_finish.
    by rewrite Hperm in Ht.
  - exists []. cbn. rewrite app_nil_r. split; [done|]. split; [done|]. split; [done|].
    split; [by intros x [= <-]|]. split; [done|]. split; [done|]. intros others Ht.
    by rewrite Hperm in Ht.
Qed.

Lemma percent_range w done total : 0 <= operationPercent w done total <= 100.
Proof.
  unfold operationPercent. destruct (total <=? 0); [lia|]. cbv zeta.
  destruct (Z.ltb_spec 100 (Z.quot (swrap w (done * 100)) total)); [lia|].
  destruct (Z.ltb_spec (Z.quot (swrap w (done * 100)) total) 0); lia.
Qed.

(** Removing one operation, with or without answering for it. *)
Lemma inv_remove c c' op result :
  oc_inv c -> present c ≡ₚ op :: present c' ->
  oc_results c' = oc_results c ++ [(qo_id op, result)] ->
  oc_dedupe c' = finishQueuedLocked op (oc_dedupe c) -> oc_next c' = oc_next c ->
  (is_Some (oc_taken c') -> oc_active c' = None) ->
  oc_inv c' /\ account c' ≡ₚ account c.
Proof.
  intros (Hnd & Hlt & Ht & _ & Hpc) Hp Hr Hd Hn Htaken.
  assert (Hacc : account c' ≡ₚ account c).
  { unfold account. rewrite Hp, Hr, fmap_app, fmap_cons. cbn [fmap list_fmap fst].
    rewrite app_assoc, (Permutation_app_comm _ [qo_id op]). done. }
  split; [|done]. split; [by rewrite Hacc|]. split; [rewrite Hn; by rewrite Hacc|].
  split; [rewrite Hd; apply tracked_finish; by rewrite <- Hp|]. split; [done|].
  rewrite Hp in Hpc. by apply Forall_cons in Hpc as [_ ?].
Qed.

(** Replacing one operation by one with the same number and key. *)
Lemma inv_replace c c' op op' ops :
  oc_inv c -> present c ≡ₚ op :: ops -> present c' ≡ₚ op' :: ops ->
  qo_id op' = qo_id op -> qo_key op' = qo_key op -> percent_ok op' ->
  oc_results c' = oc_results c -> oc_dedupe c' = oc_dedupe c -> oc_next c' = oc_next c ->
  (is_Some (oc_taken c') -> oc_active c' = None) ->
  oc_inv c' /\ account c' ≡ₚ account c.
Proof.
  intros (Hnd & Hlt & Ht & _ & Hpc) Hp Hp' Hid Hkey Hper Hr Hd Hn Htaken.
  assert (Hacc : account c' ≡ₚ account c).
  { unfold account. by rewrite Hp, Hp', Hr, !fmap_cons, Hid. }
  split; [|done]. split; [by rewrite Hacc|]. split; [rewrite Hn; by rewrite Hacc|].
  split.
  - rewrite Hd, Hp'. rewrite Hp in Ht. unfold tracked in *. rewrite keys_cons in *. by rewrite Hkey.
  - split; [done|]. rewrite Hp'. rewrite Hp in Hpc. apply Forall_cons in Hpc as [_ ?]. by constructor.
Qed.

Lemma inv_same c c' :
  oc_inv c -> present c' ≡ₚ present c -> oc_results c' = oc_results c ->
  oc_dedupe c' = oc_dedupe c -> oc_next c' = oc_next c ->
  (is_Some (oc_taken c') -> oc_active c' = None) ->
  oc_inv c' /\ account c' ≡ₚ account c.
Proof.
  intros (Hnd & Hlt & Ht & _ & Hpc) Hp Hr Hd Hn Htaken.
  assert (Hacc : account c' ≡ₚ account c) by (unfold account; by rewrite Hp, Hr).
  split; [|done]. split; [by rewrite Hacc|]. split; [rewrite Hn; by rewrite Hacc|].
  split; [by rewrite Hd, Hp|]. split; [done|]. by rewrite Hp.
Qed.

Lemma present_active c op :
  oc_active c = Some op -> present c ≡ₚ op :: oc_queue c ++ option_list (oc_taken c).
Proof.
  intros Ha. unfold present. rewrite Ha, app_assoc. cbn. by rewrite Permutation_app_comm.
Qed.

Lemma enqueue_inv req now c :
  oc_inv c ->
  let '(id, c') := enqueue req now c in
  oc_inv c' /\
  match id with
  | Some id => id = oc_next c /\ account c' ≡ₚ id :: account c
  | None => account c' ≡ₚ account c
  end.
Proof.
  intros Hinv. pose proof Hinv as (Hnd & Hlt & Ht & Hex & Hpc). unfold enqueue.
  set (r := fill_request req). set (op := new_operation (oc_next c) r now).
  destruct (_ && _) eqn:Hdup; cbn [fst snd].
  - split; [|done]. split; [done|]. split; [|by split].
    eapply Forall_impl; [exact Hlt|]. cbn. lia.
  - set (c' := mkOC _ _ _ _ _ _ _ _).
    assert (Hp : present c' ≡ₚ op :: present c).
    { unfold present, c'. cbn. rewrite <- app_assoc. cbn [app].
      symmetry. apply Permutation_middle. }
    assert (Hacc : account c' ≡ₚ oc_next c :: account c).
    { unfold account. by rewrite Hp, fmap_cons. }
    split; [|done]. split; [|split; [|split; [|split; [done|]]]].
    + rewrite Hacc. apply NoDup_cons. split; [|done]. intros Hin.
      rewrite Forall_forall in Hlt. specialize (Hlt _ Hin). lia.
    + rewrite Hacc. constructor; [cbn; lia|]. eapply Forall_impl; [exact Hlt|]. cbn. lia.
    + rewrite Hp. apply (tracked_add op); [done|]. apply andb_false_iff in Hdup as [He|Hni].
      * left. by apply negb_false_iff, bool_decide_eq_true in He.
      * right. by apply bool_decide_eq_false in Hni.
    + rewrite Hp. constructor; [unfold percent_ok; cbn; lia|done].
Qed.

Lemma removed_present c op rest :
  oc_queue c ≡ₚ op :: rest -> present c ≡ₚ op :: present (c <| oc_queue := rest |>).
Proof. intros Hq. unfold present. cbn. by rewrite Hq. Qed.

Lemma next_inv c :
  oc_inv c -> oc_taken c = None -> oc_active c = None ->
  oc_inv (next c) /\ account (next c) ≡ₚ account c.
Proof.
  intros (Hnd & Hlt & Ht & _ & Hpc) Htk Hact. unfold next.
  pose proof (next_loop_spec (length (oc_queue c)) (oc_cancelled c) (oc_queue c) (oc_dedupe c)
    (oc_results c) ltac:(done)) as Hs.
  destruct (next_loop _ _ _ _ _) as [[[op rest] dedupe'] results'].
  destruct Hs as (dropped & _ & Hperm & _ & _ & _ & Hres & Htr).
  set (c' := mkOC _ _ _ _ _ _ _ _).
  assert (Hp : present c ≡ₚ dropped ++ present c').
  { unfold present, c'. cbn. rewrite Htk, Hact. cbn. rewrite !app_nil_r, Hperm.
    by rewrite (Permutation_app_comm (option_list op)). }
  assert (Hacc : account c' ≡ₚ account c).
  { unfold account. rewrite Hp. unfold c' at 2. cbn [oc_results]. rewrite Hres, !fmap_app.
    rewrite <- list_fmap_compose. cbn.
    rewrite (list_fmap_ext _ qo_id dropped) by done.
    rewrite app_assoc, (Permutation_app_comm _ (qo_id <$> dropped)). by rewrite app_assoc. }
  split; [|done]. split; [by rewrite Hacc|]. split; [by rewrite Hacc|]. split; [|split].
  - assert (Hq : tracked (oc_queue c ++ []) (oc_dedupe c)).
    { unfold present in Ht. rewrite Htk, Hact in Ht. done. }
    apply Htr in Hq. rewrite app_nil_r in Hq. unfold present, c'. cbn. rewrite Hact. cbn.
    rewrite app_nil_r. by rewrite (Permutation_app_comm rest).
  - intros _. exact Hact.
  - rewrite Hp in Hpc. by apply Forall_app in Hpc as [_ ?].
Qed.

Lemma active_inv c op op' :
  oc_inv c -> oc_active c = Some op ->
  qo_id op' = qo_id op -> qo_key op' = qo_key op -> percent_ok op' ->
  oc_inv (c <| oc_active := Some op' |>) /\ account (c <| oc_active := Some op' |>) ≡ₚ account c.
Proof.
  intros Hinv Ha Hid Hkey Hper. pose proof Hinv as (_ & _ & _ & Hex & _).
  eapply (inv_replace c _ op op'); [done|by apply present_active| |done..| | | |].
  - exact (present_active (c <| oc_active := Some op' |>) op' eq_refl).
  - done.
  - done.
  - done.
  - cbn. intros Hs. specialize (Hex Hs). congruence.
Qed.

Lemma active_percent c op : oc_inv c -> oc_active c = Some op -> percent_ok op.
Proof.
  intros (_ & _ & _ & _ & Hpc) Ha. rewrite (present_active c op Ha) in Hpc.
  by apply Forall_cons in Hpc as [? _].
Qed.

(** Every step accounts for the same operations, plus the one it accepted. *)
Definition accepted (c : operationCoordinator) (cmd : op_cmd) : list nat :=
  match cmd with CmdRun req now => option_list (enqueue req now c).1 | _ => [] end.

Lemma cancel_running_inv now op c :
  oc_inv c -> oc_active c = Some op ->
  oc_inv (cancel_running now op c) /\ account (cancel_running now op c) ≡ₚ account c.
Proof.
  intros Hinv Ha.
  destruct (active_inv c op (set_view_state "cancelling" "Останавливается" true now op))
    as [Hi Hacc]; try done.
  by apply (active_percent c op).
Qed.

Lemma CancelKind_inv kind now c :
  oc_inv c -> oc_inv (CancelKind kind now c).2 /\ account (CancelKind kind now c).2 ≡ₚ account c.
Proof.
  intros Hinv. pose proof Hinv as (_ & _ & _ & Hex & _). unfold CancelKind.
  assert (Hq : oc_inv (cancelQueued kind c).2 /\ account (cancelQueued kind c).2 ≡ₚ account c).
  { unfold cancelQueued. destruct (remove_first _ (oc_queue c)) as [[op rest]|] eqn:Hr; [|done].
    destruct (remove_first_Some _ _ _ _ Hr) as (_ & Hperm & _). cbn [snd].
    apply (inv_remove c _ op (Some OpCancelled)); try done.
    exact (removed_present c op rest Hperm). }
  destruct (oc_active c) as [op|] eqn:Ha; [|done]. destruct (kind_matches kind op); [|done].
  by apply cancel_running_inv.
Qed.

Lemma op_step_inv c cmd :
  oc_inv c -> oc_inv (op_step c cmd) /\ account (op_step c cmd) ≡ₚ accepted c cmd ++ account c.
Proof.
  intros Hinv. pose proof Hinv as (_ & _ & _ & Hex & _).
  destruct cmd as [req now|id|id| |now|r|w id p now|w kind p now|id now|now|kind now];
    cbn [op_step accepted app].
  - pose proof (enqueue_inv req now c Hinv) as He.
    destruct (enqueue req now c) as [[id|] c']; destruct He as [Hi Ha]; [|done].
    destruct Ha as [-> Hacc]. done.
  - by apply (inv_same c).
  - unfold withdraw, removeQueued. case_bool_decide; [|done].
    destruct (remove_first _ (oc_queue c)) as [[op rest]|] eqn:Hr; [|done].
    destruct (remove_first_Some _ _ _ _ Hr) as (Hid%Nat.eqb_eq & Hperm & _). subst id.
    apply (inv_remove c _ op (Some OpContext)); try done.
    exact (removed_present c op rest Hperm).
  - destruct (oc_taken c) eqn:Ht; [done|]. destruct (oc_active c) eqn:Ha; [done|].
    by apply next_inv.
  - destruct (oc_active c) eqn:Ha; [done|]. unfold executeBegin.
    destruct (oc_taken c) as [op|] eqn:Ht; [|done].
    assert (Hp : present c ≡ₚ op :: oc_queue c).
    { unfold present. rewrite Ht, Ha. cbn. by rewrite Permutation_app_comm. }
    eapply (inv_replace c _ op); [done|exact Hp|..].
    + unfold present. cbn. symmetry. apply Permutation_cons_append.
    + done.
    + done.
    + destruct Hinv as (_ & _ & _ & _ & Hpc). rewrite Hp in Hpc. by apply Forall_cons in Hpc as [? _].
    + done.
    + done.
    + done.
    + intros [? ?]. done.
  - unfold executeEnd. destruct (oc_active c) as [op|] eqn:Ha; [|done].
    eapply (inv_remove c _ op); try done.
    rewrite (present_active c op Ha). unfold present. cbn. by rewrite app_nil_r.
  - unfold report. destruct (oc_active c) as [op|] eqn:Ha; [|done]. destruct (_ =? _)%nat; [|done].
    apply active_inv with op; try done. apply percent_range.
  - unfold Progress. destruct (oc_active c) as [op|] eqn:Ha; [|done]. case_bool_decide; [|done].
    apply active_inv with op; try done. apply percent_range.
  - unfold stallCheck. destruct (oc_active c) as [op|] eqn:Ha; [|done]. destruct (_ && _); [|done].
    destruct (active_inv c op (set_view_state "stalled"
      "Нет прогресса, операция остановлена" false now op)) as [Hi Hacc]; try done.
    by apply (active_percent c op).
  - unfold CancelActive. destruct (oc_active c) as [op|] eqn:Ha; [|done].
    destruct (rq_Cancellable _); [|done]. by apply cancel_running_inv.
  - by apply CancelKind_inv.
Qed.

Lemma new_inv : oc_inv newOperationCoordinator.
Proof.
  split; [apply NoDup_nil_2|]. split; [by apply Forall_nil|].
  split; [split; [apply NoDup_nil_2|set_solver]|]. split; [by intros []|by apply Forall_nil].
Qed.

Definition run_ops (cmds : list op_cmd) : operationCoordinator :=
  foldl op_step newOperationCoordinator cmds.

(** The operations accepted along a run, newest first. *)
Fixpoint accepted_along (c : operationCoordinator) (cmds : list op_cmd) : list nat :=
  match cmds with
  | [] => []
  | cmd :: cmds => accepted_along (op_step c cmd) cmds ++ accepted c cmd
  end.

Lemma run_ops_inv cmds c :
  oc_inv c ->
  oc_inv (foldl op_step c cmds) /\
  account (foldl op_step c cmds) ≡ₚ accepted_along c cmds ++ account c.
Proof.
  revert c. induction cmds as [|cmd cmds IH]; intros c Hc; [done|]. cbn.
  destruct (op_step_inv c cmd Hc) as [Hi Ha]. destruct (IH _ Hi) as [Hi' Ha'].
  split; [done|]. by rewrite Ha', Ha, app_assoc.
Qed.

(** One turn of the worker on a coordinator at rest: take, begin, end. *)
Definition worker_turn (now : Time) (c : operationCoordinator) : operationCoordinator :=
  op_step (op_step (op_step c CmdNext) (CmdBegin now)) (CmdEnd FnOk).

Lemma worker_turn_inv now c : oc_inv c -> oc_inv (worker_turn now c) /\ account (worker_turn now c) ≡ₚ account c.
Proof.
  intros Hc. exact (run_ops_inv [CmdNext; CmdBegin now; CmdEnd FnOk] c Hc).
Qed.

Lemma worker_turn_shrinks now c :
  oc_taken c = None -> oc_active c = None ->
  let c' := worker_turn now c in
  oc_taken c' = None /\ oc_active c' = None /\
  (length (oc_queue c') <= length (oc_queue c) - 1)%nat.
Proof.
  intros Ht Ha c'. subst c'. unfold worker_turn. cbn [op_step]. rewrite Ht, Ha. unfold next.
  pose proof (next_loop_spec (length (oc_queue c)) (oc_cancelled c) (oc_queue c) (oc_dedupe c)
    (oc_results c) ltac:(done)) as Hs.
  destruct (next_loop _ _ _ _ _) as [[[op rest] dedupe'] results'].
  destruct Hs as (dropped & _ & Hperm & _ & _ & Hnone & _).
  apply Permutation_length in Hperm. rewrite !length_app in Hperm.
  destruct op as [op|]; cbn in *; rewrite ?Ha; cbn.
  - split; [done|]. split; [done|]. lia.
  - rewrite (Hnone eq_refl). cbn. rewrite ?Ha. cbn. split; [done|]. split; [done|lia].
Qed.

Lemma worker_drains n now c :
  oc_inv c -> oc_taken c = None -> oc_active c = None -> (length (oc_queue c) <= n)%nat ->
  let c' := Nat.iter n (worker_turn now) c in
  present c' = [] /\ account c' ≡ₚ account c.
Proof.
  revert c. induction n as [|n IH]; intros c Hc Ht Ha Hlen.
  { cbn. unfold present. rewrite Ht, Ha. by destruct (oc_queue c); [|cbn in Hlen; lia]. }
  rewrite Nat.iter_succ_r. destruct (worker_turn_shrinks now c Ht Ha) as (Ht' & Ha' & Hl).
  destruct (worker_turn_inv now c Hc) as [Hc' Hacc].
  destruct (IH _ Hc' Ht' Ha' ltac:(lia)) as [Hp Hacc']. split; [done|]. by rewrite Hacc', Hacc.
Qed.

(** ** Properties *)

(** C12. Whatever the callers, the worker, the watcher and the handlers do, in
    any order: at most one operation is being executed; every accepted
    operation is queued, in the worker's hands or answered exactly once, and
    nothing else is; no two operations with the same dedupe key are ever
    present, and the key set is exactly theirs; progress stays a percentage. *)
Theorem operations_accounted cmds :
  let c := run_ops cmds in
  account c ≡ₚ accepted_along newOperationCoordinator cmds /\ NoDup (account c) /\
  (is_Some (oc_taken c) -> oc_active c = None) /\
  NoDup (keys (present c)) /\ (forall k, k ∈ oc_dedupe c <-> k ∈ keys (present c)) /\
  Forall percent_ok (present c).
Proof.
  intros c. destruct (run_ops_inv cmds _ new_inv) as [(Hnd & _ & [Hk Hd] & Hex & Hpc) Hacc].
  fold (run_ops cmds) in *. fold c in Hnd, Hk, Hd, Hex, Hpc, Hacc.
  split; [by rewrite Hacc, app_nil_r|]. by repeat (split; [done|]).
Qed.

(** The worker takes the user's operations first, in the order they were
    queued, then maintenance in its order; operations whose caller has gone
    are skipped and answered with the caller's context error, and it comes
    back empty-handed only when nothing is left. *)
Theorem next_order c :
  let c' := next c in
  exists dropped,
    priority (oc_queue c) = dropped ++ option_list (oc_taken c') ++ priority (oc_queue c') /\
    Forall (fun op => qo_id op ∈ oc_cancelled c) dropped /\
    (forall op, oc_taken c' = Some op -> qo_id op ∉ oc_cancelled c) /\
    (oc_taken c' = None -> oc_queue c' = []) /\
    oc_results c' = oc_results c ++ ((fun op => (qo_id op, Some OpContext)) <$> dropped).
Proof.
  unfold next.
  pose proof (next_loop_spec (length (oc_queue c)) (oc_cancelled c) (oc_queue c) (oc_dedupe c)
    (oc_results c) ltac:(done)) as Hs.
  destruct (next_loop _ _ _ _ _) as [[[op rest] dedupe'] results'].
  destruct Hs as (dropped & H1 & _ & H3 & H4 & H5 & H6 & _). by exists dropped.
Qed.

(** C39. The queue drains: from any state a run can reach with the worker at
    rest, as many turns as there are queued operations leave nothing behind,
    so every operation accepted along the run has been answered exactly once. *)
Theorem worker_answers_everything cmds now :
  let c := run_ops cmds in
  oc_taken c = None -> oc_active c = None ->
  let c' := Nat.iter (length (oc_queue c)) (worker_turn now) c in
  present c' = [] /\ (oc_results c').*1 ≡ₚ accepted_along newOperationCoordinator cmds.
Proof.
  intros c Ht Ha c'. destruct (run_ops_inv cmds _ new_inv) as [Hc Hacc].
  destruct (worker_drains (length (oc_queue c)) now c Hc Ht Ha ltac:(done)) as [Hp Hacc'].
  split; [exact Hp|]. transitivity (account c').
  - unfold account, c'. by rewrite Hp.
  - etrans; [exact Hacc'|]. etrans; [exact Hacc|]. by rewrite app_nil_r.
Qed.

(** A percentage is always between 0 and 100, even when the product of a
    [w]-bit [int] wraps; without a wrap it is the rounded-down share, and it
    is 100 as soon as everything is done. *)
Theorem operationPercent_range w done total :
  0 <= operationPercent w done total <= 100 /\
  (1 < w -> 0 <= done -> 0 < total -> done * 100 < 2 ^ (w - 1) ->
   operationPercent w done total = Z.min 100 (done * 100 / total)).
Proof.
  split; [apply percent_range|]. intros Hw Hd Ht Hb. unfold operationPercent.
  rewrite swrap_id by lia. rewrite (proj2 (Z.leb_gt _ _)) by lia. cbv zeta.
  rewrite Z.quot_div_nonneg by lia. pose proof (Z.div_pos (done * 100) total ltac:(lia) Ht).
  destruct (Z.ltb_spec 100 (done * 100 / total)); [lia|].
  destruct (Z.ltb_spec (done * 100 / total) 0); lia.
Qed.

(** Cancelling by kind acts on one operation and tells the truth: it
    stops the executing operation of that kind, or withdraws the first queued
    one and answers it as cancelled; it reports failure only when no
    cancellable operation of that kind is executing or queued, and then
    nothing changes. *)
Theorem CancelKind_spec kind now c :
  match CancelKind kind now c with
  | (false, c') => c' = c /\
      Forall (fun op => kind_matches kind op = false) (oc_queue c ++ option_list (oc_active c))
  | (true, c') =>
      (exists op, oc_active c = Some op /\ kind_matches kind op = true /\ oc_stop c' = true /\
         oc_queue c' = oc_queue c /\ oc_results c' = oc_results c /\
         (forall op', oc_active c' = Some op' ->
            qo_id op' = qo_id op /\ ov_State (qo_view op') = "cancelling" /\
            ov_CancelRequested (qo_view op') = true)) \/
      (exists l1 op l2, oc_queue c = l1 ++ op :: l2 /\ oc_queue c' = l1 ++ l2 /\
         kind_matches kind op = true /\ Forall (fun x => kind_matches kind x = false) l1 /\
         oc_active c' = oc_active c /\
         oc_results c' = oc_results c ++ [(qo_id op, Some OpCancelled)])
  end.
Proof.
  assert (Hq : match cancelQueued kind c with
    | (false, c') => c' = c /\ Forall (fun op => kind_matches kind op = false) (oc_queue c)
    | (true, c') => exists l1 op l2, oc_queue c = l1 ++ op :: l2 /\ oc_queue c' = l1 ++ l2 /\
         kind_matches kind op = true /\ Forall (fun x => kind_matches kind x = false) l1 /\
         oc_active c' = oc_active c /\
         oc_results c' = oc_results c ++ [(qo_id op, Some OpCancelled)] end).
  { unfold cancelQueued. destruct (remove_first _ (oc_queue c)) as [[op rest]|] eqn:Hr.
    - destruct (remove_first_Some _ _ _ _ Hr) as (Hm & _ & l1 & l2 & Hl & -> & Hall).
      by exists l1, op, l2.
    - split; [done|by apply remove_first_None]. }
  unfold CancelKind. destruct (oc_active c) as [op|] eqn:Ha.
  - destruct (kind_matches kind op) eqn:Hm.
    + left. exists op. repeat (split; [done|]). intros op' Heq. cbn in Heq.
      injection Heq as <-. done.
    + destruct (cancelQueued kind c) as [[|] c']; [right|].
      * destruct Hq as (l1 & op1 & l2 & ? & ? & ? & ? & ? & ?). exists l1, op1, l2.
        repeat (split; [done|]). done.
      * destruct Hq as [-> Hall]. split; [done|]. apply Forall_app. split; [done|]. by constructor.
  - destruct (cancelQueued kind c) as [[|] c']; [right|].
    + destruct Hq as (l1 & op1 & l2 & ? & ? & ? & ? & ? & ?). exists l1, op1, l2.
      repeat (split; [done|]). done.
    + destruct Hq as [-> Hall]. split; [done|]. by rewrite app_nil_r.
Qed.

(** ** Witnesses, and an operation no cancellation can see *)

Definition ping_request : operationRequest := mkRequest "ping" "Пинг" "" "" true 0.

Lemma worker_answers_everything_witness :
  present (Nat.iter 1 (worker_turn 2) (run_ops [CmdRun ping_request 1])) = [].
Proof.
  exact (proj1 (worker_answers_everything [CmdRun ping_request 1] 2 eq_refl eq_refl)).
Defined.

Lemma operationPercent_range_witness : operationPercent 32 1 3 = 33.
Proof.
  refine (eq_trans (proj2 (operationPercent_range 32 1 3) _ _ _ _) _); reflexivity || discriminate.
Defined.

Lemma operations_accounted_witness :
  oc_active (run_ops [CmdRun ping_request 1; CmdNext]) = None.
Proof.
  refine (proj1 (proj2 (proj2 (operations_accounted [CmdRun ping_request 1; CmdNext]))) _).
  vm_compute. by eexists.
Defined.

Lemma next_order_witness : oc_queue (next newOperationCoordinator) = [].
Proof.
  destruct (next_order newOperationCoordinator) as (dropped & _ & _ & _ & H & _).
  exact (H eq_refl).
Defined.

(** Between [next] and the start of [execute] the operation is neither queued
    nor active: a cancellation of its kind reports that there is nothing to
    cancel, and the operation runs. *)
Theorem CancelKind_misses_taken :
  let c := run_ops [CmdRun ping_request 1; CmdNext] in
  (CancelKind "ping" 2 c).1 = false /\
  (qo_view <$> oc_active (op_step (CancelKind "ping" 2 c).2 (CmdBegin 3))) <> None /\
  oc_stop (op_step (CancelKind "ping" 2 c).2 (CmdBegin 3)) = false.
Proof. vm_compute. repeat split. discriminate. Qed.
