(* ===== verification/Lease.v ===== *)
(** * Holding the slot of heavy operations: [Acquire] and [operationLease] of
    [operations.go]

    [Acquire] runs an operation whose function only waits for the lease.  Its
    goroutine and the caller meet on four channels; here they are a system of
    two processes, with the contexts.  A channel with a buffer of one is a
    flag, a closed one too; a [select] with several ready cases takes any. *)

From S2P Require Import Prelude Operations.

(** The function: not executed yet, in one of its three [select]s, waiting for
    the release after a cancellation, returned. *)
Inductive lease_fn := FnQueued | FnStarting | FnWaiting | FnHolding | FnStopping | FnReturned.

(** The caller: in the [select] of [Acquire], refused, holding the lease, or
    done with it. *)
Inductive lease_caller := CallerWaiting | CallerRefused | CallerHolds | CallerFinished.

(** [lz_ctx] and [lz_run]: the caller's context and the operation's are done;
    [lz_completed]: [Run] has returned. *)
Record lease_sys := mkLease {
  lz_fn : lease_fn;
  lz_caller : lease_caller;
  lz_ctx : bool;
  lz_run : bool;
  lz_started : bool;
  lz_claimed : bool;
  lz_released : bool;
  lz_completed : bool
}.
#[export] Instance lease_sys_eta : Eta lease_sys := fun s =>
  mkLease (lz_fn s) (lz_caller s) (lz_ctx s) (lz_run s) (lz_started s) (lz_claimed s) (lz_released s) (lz_completed s).

Definition new_lease : lease_sys := mkLease FnQueued CallerWaiting false false false false false false.

(** The steps of the function; a returned function cancels its context. *)
Inductive fn_step : lease_sys -> lease_sys -> Prop :=
| fn_started s : lz_fn s = FnStarting -> fn_step s (s <| lz_fn := FnWaiting |> <| lz_started := true |>)
| fn_claimed s : lz_fn s = FnWaiting -> lz_claimed s = true -> fn_step s (s <| lz_fn := FnHolding |>)
| fn_released s :
    lz_fn s = FnHolding \/ lz_fn s = FnStopping -> lz_released s = true ->
    fn_step s (s <| lz_fn := FnReturned |> <| lz_run := true |> <| lz_released := false |>)
| fn_stopping s : lz_fn s = FnHolding -> lz_run s = true -> fn_step s (s <| lz_fn := FnStopping |>)
| fn_cancelled s :
    lz_fn s = FnStarting \/ lz_fn s = FnWaiting -> lz_run s = true -> fn_step s (s <| lz_fn := FnReturned |>).

Inductive lease_step : lease_sys -> lease_sys -> Prop :=
| lease_fn_step s s' : fn_step s s' -> lease_step s s'
(** The worker executes the operation, whose context is the caller's child. *)
| lease_execute s : lz_fn s = FnQueued -> lz_completed s = false -> lease_step s (s <| lz_fn := FnStarting |>)
(** The caller's request ends; somebody cancels the operation, or it stalls. *)
| lease_ctx_done s : lease_step s (s <| lz_ctx := true |> <| lz_run := true |>)
| lease_cancelled s : lz_fn s <> FnQueued -> lease_step s (s <| lz_run := true |>)
(** [Run] returns: the function has, or the operation never ran (withdrawn,
    cancelled in the queue, or an equal one is there already). *)
| lease_completed s :
    lz_fn s = FnReturned \/ lz_fn s = FnQueued -> lease_step s (s <| lz_completed := true |>)
| lease_take s :
    lz_caller s = CallerWaiting -> lz_started s = true ->
    lease_step s (if lz_ctx s then s <| lz_started := false |> <| lz_caller := CallerRefused |>
                  else s <| lz_started := false |> <| lz_claimed := true |> <| lz_caller := CallerHolds |>)
| lease_refused s :
    lz_caller s = CallerWaiting -> lz_completed s = true \/ lz_ctx s = true ->
    lease_step s (s <| lz_caller := CallerRefused |>)
| lease_finish s :
    lz_caller s = CallerHolds ->
    lease_step s (s <| lz_released := true |> <| lz_caller := CallerFinished |>).

(** The operation is executing: it has the slot. *)
Definition occupies (s : lease_sys) : bool :=
  match lz_fn s with FnQueued | FnReturned => false | _ => true end.

(** What every reachable state satisfies, as a test. *)
Definition lease_ok (s : lease_sys) : bool :=
  let '(mkLease fn caller ctx run started claimed released completed) := s in
  implb ctx run &&
  match fn with
  | FnQueued => negb started && negb claimed
  | FnStarting => negb started && negb claimed && negb completed
  | FnWaiting => negb completed
  | FnHolding => claimed && negb completed
  | FnStopping => claimed && run && negb completed
  | FnReturned => run
  end &&
  match caller with
  | CallerWaiting => negb claimed && negb released
  | CallerRefused => negb claimed && negb released && (run || completed)
  | CallerHolds => claimed && negb released
  | CallerFinished => claimed && (released || negb (occupies s))
  end.

Ltac lease_cases s := destruct s as [[] [] [] [] [] [] [] []].

Lemma fn_step_ok s s' : fn_step s s' -> lease_ok s = true -> lease_ok s' = true.
Proof.
  intros Hstep. destruct Hstep as [s Hf|s Hf Hc|s Hf Hr|s Hf Hr|s Hf Hr];
    lease_cases s; try discriminate; try (destruct Hf; discriminate); cbn; done.
Qed.

Lemma lease_step_ok s s' : lease_step s s' -> lease_ok s = true -> lease_ok s' = true.
Proof.
  intros Hstep. destruct Hstep as [s s' Hfn|s Hf Hc|s|s Hf|s Hf|s Hf Hst|s Hf Hc|s Hf]; [by apply fn_step_ok|..];
    lease_cases s; try discriminate; try done; try (destruct Hf; discriminate); try (destruct Hc; discriminate).
Qed.

Lemma reachable_ok s : rtc lease_step new_lease s -> lease_ok s = true.
Proof.
  apply (rtc_ind_r (fun s => lease_ok s = true)); [done|].
  intros x y _. apply lease_step_ok.
Qed.

(** How many steps the function has left. *)
Definition fn_rank (f : lease_fn) : nat :=
  match f with FnQueued => 0 | FnStarting => 4 | FnWaiting => 3 | FnHolding => 2 | FnStopping => 1 | FnReturned => 0 end.

Lemma fn_step_rank s s' : fn_step s s' -> (fn_rank (lz_fn s') < fn_rank (lz_fn s))%nat.
Proof. intros [t Hf|t Hf _|t Hf _|t Hf _|t Hf _]; cbn; try (rewrite Hf; cbn; lia); destruct Hf as [->| ->]; cbn; lia. Qed.

Lemma fn_step_caller s s' : fn_step s s' -> lz_caller s' = lz_caller s.
Proof. by intros []. Qed.

(** A caller that is gone does not keep the function waiting. *)
Lemma fn_can_go s :
  lease_ok s = true -> lz_caller s = CallerRefused \/ lz_caller s = CallerFinished -> occupies s = true ->
  exists s', fn_step s s'.
Proof.
  intros Hok Hc Ho. lease_cases s; try discriminate; try (destruct Hc; discriminate); eexists;
    first [by apply fn_started|by apply fn_claimed|by (apply fn_released; auto)|by (apply fn_cancelled; auto)].
Qed.

(** The lease and the slot: whatever is cancelled when, the slot is not
    given up under a lease that was taken over, unless the lease's own context
    was cancelled; and when the caller was refused or has finished, the
    function returns by its own steps alone, so that the slot is always freed. *)
Theorem lease_slot s :
  rtc lease_step new_lease s ->
  (lz_caller s = CallerHolds -> occupies s = true \/ lz_run s = true) /\
  (lz_caller s = CallerHolds -> lz_fn s = FnHolding \/ lz_fn s = FnStopping ->
   forall s', lease_step s s' -> lz_caller s' = CallerHolds -> occupies s' = true) /\
  (lz_caller s = CallerRefused \/ lz_caller s = CallerFinished ->
   exists s', rtc fn_step s s' /\ occupies s' = false).
Proof.
  intros Hok%reachable_ok. split; [|split].
  - intros Hc. lease_cases s; try discriminate; auto.
  - intros Hc Hf s' Hstep Hc'. pose proof (lease_step_ok _ _ Hstep Hok) as Hok'.
    assert (Hr : lz_released s = false).
    { clear -Hok Hc. lease_cases s; try discriminate; done. }
    destruct Hstep as [t t' Hfn|t Hq _|t|t Hq|t Hq|t Hq _|t Hq _|t Hq]; unfold occupies in *; cbn in *;
      try (destruct Hf as [Hf|Hf]; rewrite Hf in *; done);
      try (destruct Hf as [Hf|Hf]; destruct (lz_ctx t); cbn; rewrite Hf; done).
    destruct Hfn as [t Hq|t Hq _|t Hq Hrel|t Hq _|t Hq _]; cbn; try done; [congruence|].
    destruct Hf as [Hf|Hf], Hq as [Hq|Hq]; congruence.
  - intros Hc. remember (fn_rank (lz_fn s)) as n eqn:Hn. revert s Hok Hc Hn.
    induction n as [n IH] using lt_wf_ind. intros s Hok Hc ->. destruct (occupies s) eqn:Ho; [|by exists s].
    destruct (fn_can_go s Hok Hc Ho) as [s1 Hs1].
    destruct (IH (fn_rank (lz_fn s1)) (fn_step_rank _ _ Hs1) s1) as (s' & Hr & Hfree); [..|done|].
    + by apply (fn_step_ok s).
    + by rewrite (fn_step_caller _ _ Hs1).
    + exists s'. split; [by eapply rtc_l|done].
Qed.

(** The first point is sharp: an operation cancelled between the two [select]s
    has returned, and its caller still gets a lease, over a slot that another
    operation may have by now; its context is cancelled already. *)
Theorem lease_without_slot :
  exists s, rtc lease_step new_lease s /\ lz_caller s = CallerHolds /\ occupies s = false /\ lz_ctx s = false.
Proof.
  eexists. split.
  - eapply rtc_l; [by apply lease_execute|].
    eapply rtc_l; [by apply lease_fn_step, fn_started|].
    eapply rtc_l; [by apply lease_cancelled|].
    eapply rtc_l; [apply lease_fn_step, fn_cancelled; [by right|done]|].
    eapply rtc_l; [by apply lease_take|]. apply rtc_refl.
  - by vm_compute.
Qed.
