(* ===== verification/IPMatch.v ===== *)
(** * Matching addresses: [ip_matcher.go] of the engine's [common/geodata]

    A rule for networks is a set of prefixes.  The set itself is the library
    [go4.org/netipx], a parameter ([IPSetLib]) with its documented behaviour
    ([IPSetLaws]); what the code adds is the shortcut of [AnyMatch] and [Matches],
    which looks at one address of a /24 or /64 block for all of them when no
    prefix of the set is longer.  A [net.IP] is its bytes. *)

From S2P Require Import Prelude.

#[local] Open Scope Z_scope.

(** ** Addresses and prefixes *)

Abbreviation IP := (list Z) (only parsing).

(** [netip.Addr]: the number an address is. *)
Inductive Addr := Addr4 (n : Z) | Addr6 (n : Z).
#[export] Instance Addr_dec : EqDecision Addr.
Proof. solve_decision. Defined.

Record Prefix := mkPrefix { px_addr : Addr; px_bits : Z }.

(** Network byte order. *)
Definition number (ip : IP) : Z := foldl (fun n b => n * 256 + b) 0 ip.

Definition is_byte (b : Z) : Prop := 0 <= b < 256.

(** [net.IP.To4] and [To16]. *)
Definition To4 (ip : IP) : option IP :=
  if (length ip =? 4)%nat then Some ip
  else if (length ip =? 16)%nat && bool_decide (take 12 ip = replicate 10 0 ++ [255; 255])
  then Some (drop 12 ip) else None.

Definition To16 (ip : IP) : option IP :=
  if (length ip =? 4)%nat then Some (replicate 10 0 ++ [255; 255] ++ ip)
  else if (length ip =? 16)%nat then Some ip else None.

(** [netip.AddrFromSlice]. *)
Definition AddrFromSlice (ip : IP) : option Addr :=
  if (length ip =? 4)%nat then Some (Addr4 (number ip))
  else if (length ip =? 16)%nat then Some (Addr6 (number ip)) else None.

(** [netip.PrefixFrom] and [IsValid]; [netip.Prefix.Contains]. *)
Definition prefix_valid (p : Prefix) : bool :=
  (0 <=? px_bits p) && (px_bits p <=? match px_addr p with Addr4 _ => 32 | Addr6 _ => 128 end).

Definition prefix_contains (p : Prefix) (a : Addr) : bool :=
  match px_addr p, a with
  | Addr4 b, Addr4 x => Z.shiftr x (32 - px_bits p) =? Z.shiftr b (32 - px_bits p)
  | Addr6 b, Addr6 x => Z.shiftr x (128 - px_bits p) =? Z.shiftr b (128 - px_bits p)
  | _, _ => false
  end.

(** [netipx]: sets of addresses, and the address of a [net.IP]. *)
Class IPSetLib := {
  NetipxSet : Type;
  ipset_build : list Prefix -> option NetipxSet;
  ipset_contains : NetipxSet -> Addr -> bool;
  ipset_prefixes : NetipxSet -> list Prefix;
  FromStdIP : IP -> option Addr
}.

(** ** The matcher *)

Section Matcher.
Context `{IPSetLib}.

Record IPSet := mkIPSet { is_ipv4 : NetipxSet; is_ipv6 : NetipxSet; is_max4 : Z; is_max6 : Z }.

Record HeuristicIPMatcher := mkIPMatcher { im_ipset : IPSet; im_reverse : bool }.

Definition matchAddr (m : HeuristicIPMatcher) (ipx : Addr) : bool :=
  match ipx with
  | Addr4 _ =>
      if is_max4 (im_ipset m) =? 255 then false
      else negb (Bool.eqb (ipset_contains (is_ipv4 (im_ipset m)) ipx) (im_reverse m))
  | Addr6 _ =>
      if is_max6 (im_ipset m) =? 255 then false
      else negb (Bool.eqb (ipset_contains (is_ipv6 (im_ipset m)) ipx) (im_reverse m))
  end.

Definition Match (m : HeuristicIPMatcher) (ip : IP) : bool :=
  match FromStdIP ip with Some ipx => matchAddr m ipx | None => false end.

(** The block of an address: its family and the first three or eight bytes. *)
Definition prefixKeyFromIP (ip : IP) : option (list Z) :=
  match To4 ip with
  | Some ip4 => Some (4 :: take 3 ip4 ++ replicate 5 0)
  | None => match To16 ip with Some ip16 => Some (6 :: take 8 ip16) | None => None end
  end.

Definition heur4 (m : HeuristicIPMatcher) : bool := is_max4 (im_ipset m) <=? 24.
Definition heur6 (m : HeuristicIPMatcher) : bool := is_max6 (im_ipset m) <=? 64.

(** May one address of the block stand for all? *)
Definition heuristic (m : HeuristicIPMatcher) (key : list Z) : bool :=
  match key with k :: _ => (k =? 4) && heur4 m || (k =? 6) && heur6 m | [] => false end.

Fixpoint any_loop (m : HeuristicIPMatcher) (buckets : list (list Z)) (ips : list IP) : bool :=
  match ips with
  | [] => false
  | ip :: ips =>
      match prefixKeyFromIP ip with
      | None => any_loop m buckets ips
      | Some key =>
          if heuristic m key && bool_decide (key ∈ buckets) then any_loop m buckets ips
          else match FromStdIP ip with
          | None => any_loop m buckets ips
          | Some ipx =>
              if matchAddr m ipx then true
              else any_loop m (if heuristic m key then key :: buckets else buckets) ips
          end
      end
  end.

Definition AnyMatch (m : HeuristicIPMatcher) (ips : list IP) : bool :=
  match ips with
  | [] => false
  | [ip] => Match m ip
  | _ => if negb (heur4 m) && negb (heur6 m)
         then existsb (fun ip => match FromStdIP ip with Some ipx => matchAddr m ipx | None => false end) ips
         else any_loop m [] ips
  end.

(** The addresses [Matches] looks at: the first of every block that is shared,
    and every other one; [None]: an address is invalid. *)
Fixpoint views (m : HeuristicIPMatcher) (buckets : list (list Z * Addr)) (precise : list Addr) (ips : list IP)
  : option (list (list Z * Addr) * list Addr) :=
  match ips with
  | [] => Some (buckets, precise)
  | ip :: ips =>
      key ← prefixKeyFromIP ip;
      if heuristic m key then
        if bool_decide (key ∈ buckets.*1) then views m buckets precise ips
        else ipx ← FromStdIP ip; views m (buckets ++ [(key, ipx)]) precise ips
      else ipx ← FromStdIP ip; views m buckets (precise ++ [ipx]) ips
  end.

Definition Matches (m : HeuristicIPMatcher) (ips : list IP) : bool :=
  match ips with
  | [] => false
  | [ip] => Match m ip
  | _ =>
      if negb (heur4 m) && negb (heur6 m)
      then forallb (fun ip => match FromStdIP ip with Some ipx => matchAddr m ipx | None => false end) ips
      else match views m [] [] ips with
           | None => false
           | Some (buckets, precise) => forallb (fun b => matchAddr m b.2) buckets && forallb (matchAddr m) precise
           end
  end.

(** ** Building a set *)

(** [createFrom]: the valid prefixes by family, the longest of each; 255 says
    there is none, 254 that the only one is the whole space. *)
Definition cidr_prefixes (cidrs : list (IP * Z)) : list Prefix :=
  omap (fun c => addr ← AddrFromSlice c.1;
                 let p := mkPrefix addr c.2 in if prefix_valid p then Some p else None) cidrs.

Definition is_v4 (p : Prefix) : bool := match px_addr p with Addr4 _ => true | Addr6 _ => false end.

Definition longest (ps : list Prefix) : Z :=
  match ps with
  | [] => 255
  | _ => let m := foldl (fun m p => if m <? px_bits p then px_bits p else m) 0 ps in if m =? 0 then 254 else m
  end.

Definition createFrom (cidrs : list (IP * Z)) : option IPSet :=
  let ps := cidr_prefixes cidrs in
  ipv4 ← ipset_build (filter (fun p => is_v4 p = true) ps);
  ipv6 ← ipset_build (filter (fun p => is_v4 p = false) ps);
  Some (mkIPSet ipv4 ipv6 (uwrap 8 (longest (ipset_prefixes ipv4))) (uwrap 8 (longest (ipset_prefixes ipv6)))).
End Matcher.

(** ** What [netipx] promises

    A set contains what its prefixes contain; [Prefixes] is such a list for the
    set, of the same family; [FromStdIP] unmaps an IPv4 address written in
    sixteen bytes. *)
Class IPSetLaws (L : IPSetLib) : Prop := {
  ipset_total : forall ps, Forall (fun p => prefix_valid p = true) ps -> is_Some (ipset_build ps);
  ipset_contains_build : forall ps s a, ipset_build ps = Some s ->
    ipset_contains s a = existsb (fun p => prefix_contains p a) ps;
  ipset_prefixes_cover : forall ps s a, ipset_build ps = Some s ->
    existsb (fun p => prefix_contains p a) (ipset_prefixes s) = ipset_contains s a;
  ipset_prefixes_valid : forall ps s, ipset_build ps = Some s -> Forall (fun p => prefix_valid p = true) ps ->
    Forall (fun p => prefix_valid p = true) (ipset_prefixes s);
  FromStdIP_spec : forall ip, FromStdIP ip =
    match To4 ip with Some b => Some (Addr4 (number b)) | None => AddrFromSlice ip end
}.

(** ** Blocks *)

Lemma number_app l t : number (l ++ t) = number l * 256 ^ Z.of_nat (length t) + number t.
Proof.
  unfold number. rewrite foldl_app. generalize (foldl (fun n b => n * 256 + b) 0 l). intros n. revert n.
  induction t as [|b t IH] using rev_ind; intros n; [cbn; lia|].
  rewrite !foldl_app, length_app. cbn [foldl length]. rewrite IH.
  replace (Z.of_nat (length t + 1)) with (Z.of_nat (length t) + 1) by lia. rewrite Z.pow_add_r by lia. lia.
Qed.

Lemma number_range ip : Forall is_byte ip -> 0 <= number ip < 256 ^ Z.of_nat (length ip).
Proof.
  induction ip as [|b ip IH] using rev_ind; intros Hb; [cbn; lia|].
  apply Forall_app in Hb as [Hb Hl]. rewrite Forall_singleton in Hl. specialize (IH Hb).
  rewrite number_app, length_app. cbn [length]. unfold is_byte in Hl.
  replace (Z.of_nat (length ip + 1)) with (Z.of_nat (length ip) + 1) by lia. rewrite Z.pow_add_r by lia.
  unfold number at 2 4. cbn [foldl]. lia.
Qed.

(** The high part of an address is the number of its first bytes. *)
Lemma number_high l t : Forall is_byte t ->
  Z.shiftr (number (l ++ t)) (8 * Z.of_nat (length t)) = number l.
Proof.
  intros Ht. pose proof (number_range t Ht) as Hr. rewrite number_app, Z.shiftr_div_pow2 by lia.
  assert (E : 2 ^ (8 * Z.of_nat (length t)) = 256 ^ Z.of_nat (length t)) by (rewrite Z.pow_mul_r by lia; done).
  rewrite E, Z.div_add_l by lia. rewrite Z.div_small by lia. lia.
Qed.

(** Two addresses with one high part are in the same prefixes up to its length. *)
Lemma shiftr_shorter x y k n : 0 <= n -> n <= k -> Z.shiftr x n = Z.shiftr y n -> Z.shiftr x k = Z.shiftr y k.
Proof.
  intros Hn Hk E. replace k with (n + (k - n)) by lia. rewrite <- !Z.shiftr_shiftr by lia. by rewrite E.
Qed.

Lemma longest_bound ps p : longest ps <> 255 -> longest ps <> 254 -> p ∈ ps -> px_bits p <= longest ps.
Proof.
  unfold longest. destruct ps as [|p0 ps0]; [done|]. set (ps := p0 :: ps0). cbv zeta.
  set (m := foldl _ 0 ps). destruct (m =? 0); [lia|]. intros _ _. unfold m.
  apply (foldl_seen (fun seen m => forall p, p ∈ seen -> px_bits p <= m)); [|set_solver].
  intros seen q m' _ IH r [Hr| ->]%elem_of_snoc; destruct (Z.ltb_spec m' (px_bits q)); try lia.
  - specialize (IH r Hr). lia.
  - by apply IH.
Qed.

Lemma longest_fold ps : Forall (fun p => prefix_valid p = true) ps ->
  0 <= foldl (fun m p => if m <? px_bits p then px_bits p else m) 0 ps <= 128.
Proof.
  intros Hv. apply foldl_preserve; [|lia]. intros m p Hp Hm. destruct (m <? px_bits p); [|done].
  rewrite Forall_forall in Hv. specialize (Hv p Hp). unfold prefix_valid in Hv. destruct (px_addr p); lia.
Qed.

Lemma longest_range ps : Forall (fun p => prefix_valid p = true) ps -> 0 <= longest ps <= 255.
Proof.
  intros Hv. unfold longest. destruct ps as [|p0 ps0]; [lia|]. pose proof (longest_fold _ Hv). cbv zeta.
  destruct (_ =? 0); lia.
Qed.

Lemma cidr_prefixes_valid cidrs : Forall (fun p => prefix_valid p = true) (cidr_prefixes cidrs).
Proof.
  apply Forall_forall. intros p Hp. apply list_elem_of_omap in Hp as (c & _ & E).
  destruct (AddrFromSlice c.1); [|done]. cbn in E. destruct (prefix_valid _) eqn:Ev; [|done]. by injection E as <-.
Qed.

Lemma prefix_same4 p x y : px_bits p <= 24 -> Z.shiftr x 8 = Z.shiftr y 8 ->
  prefix_contains p (Addr4 x) = prefix_contains p (Addr4 y).
Proof. intros Hp E. unfold prefix_contains. destruct (px_addr p); [|done]. by rewrite (shiftr_shorter x y _ 8) by lia. Qed.

Lemma prefix_same6 p x y : px_bits p <= 64 -> Z.shiftr x 64 = Z.shiftr y 64 ->
  prefix_contains p (Addr6 x) = prefix_contains p (Addr6 y).
Proof. intros Hp E. unfold prefix_contains. destruct (px_addr p); [done|]. by rewrite (shiftr_shorter x y _ 64) by lia. Qed.

Lemma To4_drop ip b : To4 ip = Some b -> length b = 4%nat /\ exists n, b = drop n ip.
Proof.
  unfold To4. destruct (Nat.eqb_spec (length ip) 4).
  - intros [= <-]. split; [done|]. by exists O.
  - destruct (Nat.eqb_spec (length ip) 16); [|done]. destruct (bool_decide _); [|done]. intros [= <-].
    split; [rewrite length_drop; lia|by exists 12%nat].
Qed.

Lemma family_valid cidrs b : Forall (fun p => prefix_valid p = true) (filter (fun p => is_v4 p = b) (cidr_prefixes cidrs)).
Proof.
  apply Forall_forall. intros p Hp. apply list_elem_of_filter in Hp as [_ Hp].
  pose proof (cidr_prefixes_valid cidrs) as Hv. rewrite Forall_forall in Hv. by apply Hv.
Qed.

Section Laws.
Context `{L : IPSetLib, Laws : !IPSetLaws L}.

(** Under the shortcut's condition a set does not separate a block. *)
Lemma block_together ps s a b (bits : Z) :
  ipset_build ps = Some s -> Forall (fun p => prefix_valid p = true) ps ->
  uwrap 8 (longest (ipset_prefixes s)) <= bits -> bits < 254 ->
  (forall p, px_bits p <= bits -> prefix_contains p a = prefix_contains p b) ->
  ipset_contains s a = ipset_contains s b.
Proof using Laws.
  intros Hb Hv Hmax Hbits Hsame. rewrite <- !(ipset_prefixes_cover _ _ _ Hb).
  pose proof (ipset_prefixes_valid _ _ Hb Hv) as Hpv. pose proof (longest_range _ Hpv) as Hr.
  rewrite uwrap_id in Hmax by lia.
  assert (Hall : Forall (fun p => px_bits p <= bits) (ipset_prefixes s)).
  { apply Forall_forall. intros p Hp. pose proof (longest_bound (ipset_prefixes s) p ltac:(lia) ltac:(lia) Hp). lia. }
  clear Hmax Hpv Hr. induction Hall as [|p l Hp Hl IH]; [done|]. cbn. by rewrite IH, (Hsame p Hp).
Qed.

(** What the key of an address says about its number. *)
Lemma key_number ip key ipx : prefixKeyFromIP ip = Some key -> FromStdIP ip = Some ipx -> Forall is_byte ip ->
  match ipx with
  | Addr4 x => key = 4 :: take 3 (tail key) ++ replicate 5 0 /\ Z.shiftr x 8 = number (take 3 (tail key))
  | Addr6 x => exists l, key = 6 :: l /\ Z.shiftr x 64 = number l
  end.
Proof using Laws.
  intros Hk Hx Hb. rewrite FromStdIP_spec in Hx. unfold prefixKeyFromIP in Hk. destruct (To4 ip) as [b|] eqn:E4.
  - injection Hx as <-. assert (key = 4 :: take 3 b ++ replicate 5 0) as -> by congruence.
    destruct (To4_drop _ _ E4) as (Hl & n & ->). set (b := drop n ip) in *.
    change (tail (4 :: take 3 b ++ replicate 5 0)) with (take 3 b ++ replicate 5 0).
    assert (E : take 3 (take 3 b ++ replicate 5 0) = take 3 b).
    { rewrite take_app_le by (rewrite length_take; lia). rewrite take_take. done. }
    rewrite E. split; [done|]. rewrite <- (take_drop 3 b) at 1.
    assert (Ht : length (drop 3 b) = 1%nat) by (rewrite length_drop; lia).
    replace 8 with (8 * Z.of_nat (length (drop 3 b))) by (rewrite Ht; reflexivity).
    apply number_high. by apply Forall_drop, Forall_drop.
  - unfold AddrFromSlice, To16 in *. destruct (Nat.eqb_spec (length ip) 4) as [E|E].
    { unfold To4 in E4. rewrite E in E4. done. }
    destruct (Nat.eqb_spec (length ip) 16) as [E'|]; [|done]. injection Hx as <-. injection Hk as <-.
    exists (take 8 ip). split; [done|]. rewrite <- (take_drop 8 ip) at 1.
    assert (Ht : length (drop 8 ip) = 8%nat) by (rewrite length_drop; lia).
    replace 64 with (8 * Z.of_nat (length (drop 8 ip))) by (rewrite Ht; reflexivity).
    apply number_high. by apply Forall_drop.
Qed.

(** A matcher over a set the code built. *)
Definition built_from (m : HeuristicIPMatcher) (cidrs : list (IP * Z)) : Prop := createFrom cidrs = Some (im_ipset m).

Lemma same_block m cidrs ip ip' key x y :
  built_from m cidrs -> heuristic m key = true ->
  prefixKeyFromIP ip = Some key -> prefixKeyFromIP ip' = Some key ->
  FromStdIP ip = Some x -> FromStdIP ip' = Some y -> Forall is_byte ip -> Forall is_byte ip' ->
  matchAddr m x = matchAddr m y.
Proof using Laws.
  intros Hm Hh Hk Hk' Hx Hy Hb Hb'. pose proof (key_number _ _ _ Hk Hx Hb) as Nx. pose proof (key_number _ _ _ Hk' Hy Hb') as Ny.
  unfold built_from, createFrom in Hm. cbv zeta in Hm.
  destruct (ipset_build (filter (fun p => is_v4 p = true) _)) as [s4|] eqn:E4; [|done].
  destruct (ipset_build (filter (fun p => is_v4 p = false) _)) as [s6|] eqn:E6; [|done].
  cbn in Hm. injection Hm as Hm.
  unfold heuristic, heur4, heur6 in Hh. unfold matchAddr. rewrite <- Hm in *. cbn [is_max4 is_max6 is_ipv4 is_ipv6] in *.
  destruct x as [x|x], y as [y|y].
  - destruct Nx as [Ek Nx], Ny as [_ Ny]. rewrite Ek in Hh. cbn [orb andb Z.eqb Pos.eqb] in Hh.
    rewrite (block_together _ _ (Addr4 x) (Addr4 y) 24 E4 (family_valid cidrs true)); [done|lia|lia|].
    intros p Hp. apply prefix_same4; [done|]. congruence.
  - destruct Nx as [Ek _], Ny as (l & Ey & _). rewrite Ek in Ey. discriminate Ey.
  - destruct Ny as [Ek _], Nx as (l & Ex & _). rewrite Ek in Ex. discriminate Ex.
  - destruct Nx as (l & Ek & Nx), Ny as (l' & Ek' & Ny). rewrite Ek in Hh. cbn [orb andb Z.eqb Pos.eqb] in Hh.
    rewrite (block_together _ _ (Addr6 x) (Addr6 y) 64 E6 (family_valid cidrs false)); [done|lia|lia|].
    intros p Hp. apply prefix_same6; [done|]. congruence.
Qed.

Lemma key_iff ip : (exists key, prefixKeyFromIP ip = Some key) <-> exists x, FromStdIP ip = Some x.
Proof using Laws.
  rewrite FromStdIP_spec. unfold prefixKeyFromIP, To16, AddrFromSlice. destruct (To4 ip) eqn:E4; [naive_solver|].
  destruct (Nat.eqb_spec (length ip) 4) as [E|]; [unfold To4 in E4; rewrite E in E4; done|].
  destruct (length ip =? 16)%nat; naive_solver.
Qed.

Lemma Match_invalid m ip : prefixKeyFromIP ip = None -> Match m ip = false.
Proof using Laws.
  intros Hk. unfold Match. destruct (FromStdIP ip) as [x|] eqn:Hx; [|done].
  destruct (proj2 (key_iff ip)) as [key Hk']; [by exists x|]. congruence.
Qed.

Section Checked.
  Variables (m : HeuristicIPMatcher) (cidrs : list (IP * Z)).
  Hypothesis (m_built : built_from m cidrs).

Lemma any_loop_spec ips : forall buckets,
  Forall (fun ip => Forall is_byte ip) ips ->
  (forall key, key ∈ buckets -> exists ip x, prefixKeyFromIP ip = Some key /\ FromStdIP ip = Some x
     /\ Forall is_byte ip /\ matchAddr m x = false) ->
  any_loop m buckets ips = existsb (Match m) ips.
Proof using Laws m_built.
  induction ips as [|ip ips IH]; intros buckets Hb Hseen; [done|]. apply Forall_cons in Hb as [Hip Hb].
  cbn [any_loop existsb]. destruct (prefixKeyFromIP ip) as [key|] eqn:Hk; [|rewrite Match_invalid by done; by apply IH].
  destruct (proj1 (key_iff ip)) as [x Hx]; [by exists key|]. unfold Match at 1. rewrite Hx.
  destruct (heuristic m key) eqn:Hh; cbn [andb].
  - destruct (bool_decide_reflect (key ∈ buckets)) as [Hin|Hout].
    + destruct (Hseen key Hin) as (ip' & y & Hk' & Hy & Hb' & Hno).
      rewrite (same_block m cidrs ip ip' key x y), Hno by done. by apply IH.
    + destruct (matchAddr m x) eqn:Em; [done|]. apply IH; [done|]. intros k [->|Hk']%elem_of_cons; [by exists ip, x|by apply Hseen].
  - destruct (matchAddr m x) eqn:Em; [done|]. by apply IH.
Qed.

(** Looking at one address of a block for all of them does not change the
    answer: [AnyMatch] is whether some address matches. *)
Theorem AnyMatch_exists ips :
  Forall (fun ip => Forall is_byte ip) ips -> AnyMatch m ips = existsb (Match m) ips.
Proof using Laws m_built.
  intros Hb. unfold AnyMatch. destruct ips as [|ip [|ip' ips]]; [done|cbn; by rewrite orb_false_r|].
  destruct (_ && _); [done|]. apply any_loop_spec; [done|]. intros key Hk. by apply elem_of_nil in Hk.
Qed.

Lemma forallb_snoc {A} (f : A -> bool) l x : forallb f (l ++ [x]) = forallb f l && f x.
Proof. by rewrite forallb_app; cbn; rewrite andb_true_r. Qed.

Lemma views_spec ips : forall buckets precise,
  Forall (fun ip => Forall is_byte ip) ips ->
  (forall key x, (key, x) ∈ buckets -> exists ip, prefixKeyFromIP ip = Some key /\ FromStdIP ip = Some x
     /\ Forall is_byte ip) ->
  match views m buckets precise ips with
  | None => false
  | Some (bs, ps) => forallb (fun b => matchAddr m b.2) bs && forallb (matchAddr m) ps
  end = forallb (fun b => matchAddr m b.2) buckets && forallb (matchAddr m) precise && forallb (Match m) ips.
Proof using Laws m_built.
  induction ips as [|ip ips IH]; intros buckets precise Hb Hseen; [cbn; by rewrite andb_true_r|].
  apply Forall_cons in Hb as [Hip Hb]. cbn [views forallb].
  destruct (prefixKeyFromIP ip) as [key|] eqn:Hk.
  2: { rewrite Match_invalid by done. cbn. by rewrite andb_false_r. }
  destruct (proj1 (key_iff ip)) as [x Hx]; [by exists key|]. cbn [mbind option_bind].
  assert (Match m ip = matchAddr m x) as -> by (unfold Match; by rewrite Hx).
  rewrite Hx. cbn [mbind option_bind]. destruct (heuristic m key) eqn:Hh.
  - destruct (bool_decide_reflect (key ∈ buckets.*1)) as [Hin|Hout].
    + rewrite IH by done. apply list_elem_of_fmap in Hin as ([k y] & -> & Hin). cbn [fst] in *.
      destruct (Hseen k y Hin) as (ip' & Hk' & Hy & Hb').
      rewrite (same_block m cidrs ip ip' k x y) by done.
      destruct (forallb (fun b => matchAddr m b.2) buckets) eqn:Ef; [|done].
      assert (matchAddr m y = true) as ->; [|done]. rewrite forallb_forall in Ef. by apply (Ef (k, y)), list_elem_of_In.
    + rewrite IH; [|done|].
      * rewrite forallb_snoc. cbn [snd]. destruct (forallb _ buckets), (matchAddr m x), (forallb _ precise); done.
      * intros k y [Hin|[= -> ->]]%elem_of_snoc; [by apply Hseen|by exists ip].
  - rewrite IH by done. rewrite forallb_snoc. destruct (forallb _ buckets), (matchAddr m x), (forallb _ precise); done.
Qed.

(** [Matches] is whether there are addresses and all of them match. *)
Theorem Matches_all ips :
  Forall (fun ip => Forall is_byte ip) ips ->
  Matches m ips = negb (bool_decide (ips = [])) && forallb (Match m) ips.
Proof using Laws m_built.
  intros Hb. unfold Matches. destruct ips as [|ip [|ip' ips]]; [done|cbn; by rewrite andb_true_r|].
  rewrite bool_decide_false by done. cbn [negb andb]. destruct (_ && _); [done|].
  rewrite views_spec; [done|done|]. intros key x Hin. by apply elem_of_nil in Hin.
Qed.
End Checked.

Lemma family_contains b ps x : (forall p, is_v4 p <> b -> prefix_contains p x = false) ->
  existsb (fun p => prefix_contains p x) (filter (fun p => is_v4 p = b) ps) = existsb (fun p => prefix_contains p x) ps.
Proof.
  intros Hne. induction ps as [|p l IH]; [done|]. rewrite filter_cons. cbn [existsb].
  destruct (decide (is_v4 p = b)); cbn [existsb]; rewrite IH; [done|]. by rewrite Hne.
Qed.

Lemma empty_set ps s x : ipset_build ps = Some s -> Forall (fun p => prefix_valid p = true) ps ->
  uwrap 8 (longest (ipset_prefixes s)) = 255 -> ipset_contains s x = false.
Proof using Laws.
  intros Hs Hv H255. pose proof (ipset_prefixes_valid _ _ Hs Hv) as Hpv.
  pose proof (longest_range _ Hpv) as Hl.
  rewrite uwrap_id in H255 by lia. rewrite <- (ipset_prefixes_cover _ _ _ Hs).
  destruct (ipset_prefixes s) as [|p l] eqn:Ep; [done|]. exfalso. unfold longest in H255. cbv zeta in H255.
  pose proof (longest_fold _ Hpv). destruct (foldl _ 0 (p :: l) =? 0); lia.
Qed.

(** Without [reverse], one address matches when a network of the list contains it. *)
Lemma Match_networks m cidrs ip : built_from m cidrs -> im_reverse m = false ->
  Match m ip = match FromStdIP ip with
               | Some x => existsb (fun p => prefix_contains p x) (cidr_prefixes cidrs)
               | None => false
               end.
Proof using Laws.
  intros Hm Hr. unfold Match. destruct (FromStdIP ip) as [x|]; [|done]. unfold matchAddr. rewrite Hr.
  unfold built_from, createFrom in Hm. cbv zeta in Hm.
  destruct (ipset_build (filter (fun p => is_v4 p = true) _)) as [s4|] eqn:E4; [|done].
  destruct (ipset_build (filter (fun p => is_v4 p = false) _)) as [s6|] eqn:E6; [|done].
  cbn in Hm. injection Hm as <-. cbn [is_max4 is_max6 is_ipv4 is_ipv6]. destruct x as [x|x].
  - rewrite <- (family_contains true) by (intros p; unfold prefix_contains, is_v4; by destruct (px_addr p)).
    rewrite <- (ipset_contains_build _ _ _ E4). destruct (Z.eqb_spec (uwrap 8 (longest (ipset_prefixes s4))) 255) as [E|].
    + symmetry. apply (empty_set _ _ _ E4); [apply family_valid|done].
    + by destruct (ipset_contains s4 _).
  - rewrite <- (family_contains false) by (intros p; unfold prefix_contains, is_v4; by destruct (px_addr p)).
    rewrite <- (ipset_contains_build _ _ _ E6). destruct (Z.eqb_spec (uwrap 8 (longest (ipset_prefixes s6))) 255) as [E|].
    + symmetry. apply (empty_set _ _ _ E6); [apply family_valid|done].
    + by destruct (ipset_contains s6 _).
Qed.
End Laws.

(** ** An instance: a set is its prefixes *)

#[export] Instance prefix_list : IPSetLib := {|
  NetipxSet := list Prefix; ipset_build := Some;
  ipset_contains := fun s a => existsb (fun p => prefix_contains p a) s; ipset_prefixes := id;
  FromStdIP := fun ip => match To4 ip with Some b => Some (Addr4 (number b)) | None => AddrFromSlice ip end |}.

#[export] Instance prefix_list_laws : IPSetLaws prefix_list.
Proof. split; [by eexists| | | |done]; cbn; intros ps s; [intros a [= ->]|intros a [= ->]|intros [= ->]]; done. Qed.

Definition office : list (IP * Z) := [([10; 0; 0; 0], 8); ([192; 168; 0; 0], 16)].
Definition office_matcher : HeuristicIPMatcher :=
  match createFrom office with Some s => mkIPMatcher s false | None => mkIPMatcher (mkIPSet [] [] 255 255) false end.

Definition office_hosts : list IP :=
  [[8; 8; 8; 8]; [8; 8; 8; 9]; replicate 10 0 ++ [255; 255; 192; 168; 7; 1]; [1; 2]].

Lemma office_bytes : Forall (fun ip : IP => Forall is_byte ip) office_hosts.
Proof. unfold office_hosts. repeat constructor; done. Qed.

Example AnyMatch_exists_witness :
  AnyMatch office_matcher office_hosts = existsb (Match office_matcher) office_hosts
  /\ AnyMatch office_matcher office_hosts = true.
Proof.
  split; [|vm_compute; reflexivity].
  refine (AnyMatch_exists office_matcher office _ office_hosts office_bytes). vm_compute. reflexivity.
Defined.

Example Matches_all_witness :
  Matches office_matcher office_hosts = false
  /\ Matches office_matcher [[10; 1; 1; 1]; [10; 1; 1; 2]] = true.
Proof.
  split.
  - refine (eq_trans (Matches_all office_matcher office _ office_hosts office_bytes) _); vm_compute; reflexivity.
  - refine (eq_trans (Matches_all office_matcher office _ _ _) _); [vm_compute; reflexivity|repeat constructor; done|vm_compute; reflexivity].
Defined.
