(* ===== verification/Geodata.v ===== *)
(** * Rules for domains and networks: [rule_parser.go], [domain_matcher.go],
    [valuematcher_mph.go] and the end of [ip_matcher.go] of the engine's
    [common/geodata]

    From the texts of a routing rule to the matchers it is compiled to.  Full and
    domain patterns go into the hash table of [Mph], networks into the sets of
    [IPMatch].  Arguments are: the data files a [geosite:] or [geoip:] rule loads,
    the automaton for keywords and the filter around the package [regexp]
    ([GeoParams]); none of the manager's rules uses them. *)

From Stdlib Require Import Ascii.
From S2P Require Import Mph IPMatch Prelude GoStrings.

#[local] Open Scope Z_scope.

(** ** Parsing rules *)

Inductive Domain_Type := Domain_Substr | Domain_Regex | Domain_Domain | Domain_Full.
#[export] Instance Domain_Type_dec : EqDecision Domain_Type.
Proof. solve_decision. Defined.

Inductive DomainRule :=
| DomainRule_Custom (type : Domain_Type) (value : string)
| DomainRule_Geosite (file code attrs : string).

(** A CIDR is the bytes of its address and the length of its prefix. *)
Abbreviation CIDR := (IP * Z)%type (only parsing).

Inductive IPRule :=
| IPRule_Custom (cidr : CIDR) (reverse : bool)
| IPRule_Geoip (file code : string) (reverse : bool).

Inductive geo_error :=
| SyntaxError | EmptyFile | EmptyCode | EmptyAttr | BadFile
| DottedSubstr | UnsupportedFamily | InvalidPrefixLength | PrefixTooLong
| EmptyRuleList | InvalidPattern | LoadFailed | GroupError (e : mph_error) | NoIPMatcher | SetError.

Class GeoParams := {
  checkFile : string -> string -> bool;
  loadSite : string -> string -> string -> option (list (Domain_Type * string));
  loadIP : string -> string -> option (list CIDR);
  net_ParseIP : string -> option IP;
  ToUpper : string -> string;
  regex_compiles : string -> bool;
  regex_match : string -> string -> bool;
  ac_match : list string -> string -> bool
}.

Section Rules.
Context `{GeoParams, IPSetLib}.

(** [strings.HasPrefix] and the rest: [Some] of what follows the prefix. *)
Definition after_prefix (s p : string) : option string := if HasPrefix s p then Some (TrimPrefix s p) else None.

Fixpoint cutReversePrefix (s : string) : string * bool :=
  match s with
  | String c rest =>
      if bool_decide (c = "!"%char) then let '(s, reverse) := cutReversePrefix rest in (s, negb reverse) else (s, false)
  | EmptyString => (s, false)
  end.

Definition parseGeoIPRule (rule : string) (reverse : bool) : result geo_error IPRule :=
  match Cut rule char_colon with
  | None => Err SyntaxError
  | Some (file, code) =>
      if bool_decide (file = "") then Err EmptyFile
      else
        let '(code, codeReverse) := cutReversePrefix code in
        if bool_decide (code = "") then Err EmptyCode
        else
          let code := ToUpper code in
          if checkFile file code then Ok (IPRule_Geoip file code (negb (Bool.eqb reverse codeReverse))) else Err BadFile
  end.

(** [net.ParseAddress] of the engine: an address in brackets or among blanks; an
    IPv4 address has four bytes, [None] is a name. *)
Definition isAlphaNum (c : ascii) : bool := between 48 57 c || between 97 122 c || between 65 90 c.

Definition ParseAddress (addr : string) : option IP :=
  let l := bytes_of addr in
  let l := match l, last l with
           | c :: rest, Some z =>
               if bool_decide (c = "["%char) && bool_decide (z = "]"%char)
               then take (length l - 2) rest else l
           | _, _ => l
           end in
  let s := match l, last l with
           | c :: _, Some z => if negb (isAlphaNum c) || negb (isAlphaNum z) then TrimSpace (string_of l) else string_of l
           | _, _ => string_of l
           end in
  ip ← net_ParseIP s; Some (match To4 ip with Some ip4 => ip4 | None => ip end).

Definition parseCIDR (s : string) : result geo_error CIDR :=
  let '(ipStr, prefixStr) := match Cut s "/"%char with Some p => p | None => (s, "") end in
  match ParseAddress ipStr with
  | None => Err UnsupportedFamily
  | Some ip =>
      let maxPrefix := if (length ip =? 4)%nat then 32 else 128 in
      let! prefixBits :=
        if bool_decide (prefixStr = "") then Ok maxPrefix
        else match ParseUint prefixStr 10 32 with Some n => Ok n | None => Err InvalidPrefixLength end in
      if maxPrefix <? prefixBits then Err PrefixTooLong else Ok (ip, prefixBits)
  end.

Definition parseCustomIPRule (rule : string) (reverse : bool) : result geo_error IPRule :=
  let! cidr := parseCIDR rule in Ok (IPRule_Custom cidr reverse).

(** What follows the first of the prefixes the rule has. *)
Fixpoint first_prefix (r : string) (exts : list string) : option string :=
  match exts with
  | [] => None
  | ext :: exts => match after_prefix r ext with Some rest => Some rest | None => first_prefix r exts end
  end.

Definition parseIPRule (r : string) : result geo_error IPRule :=
  let '(r, reverse) := cutReversePrefix r in
  let r := match after_prefix r "geoip:" with Some rest => "ext:geoip.dat:" +:+ rest | None => r end in
  match first_prefix r ["ext:"; "ext-ip:"] with
  | Some rest => parseGeoIPRule rest reverse
  | None => parseCustomIPRule r reverse
  end.

Fixpoint map_result {A B E} (f : A -> result E B) (l : list A) : result E (list B) :=
  match l with
  | [] => Ok []
  | x :: l => let! y := f x in let! ys := map_result f l in Ok (y :: ys)
  end.

Definition ParseIPRules (rules : list string) : result geo_error (list IPRule) := map_result parseIPRule rules.

Definition parseGeoSiteRule (rule : string) : result geo_error DomainRule :=
  match Cut rule char_colon with
  | None => Err SyntaxError
  | Some (file, codeWithAttrs) =>
      if bool_decide (file = "") then Err EmptyFile
      else if HasSuffix codeWithAttrs "@" || Contains codeWithAttrs "@@" then Err EmptyAttr
      else
        let '(code, attrs) := match Cut codeWithAttrs "@"%char with Some p => p | None => (codeWithAttrs, "") end in
        if bool_decide (code = "") then Err EmptyCode
        else
          let code := ToUpper code in
          if checkFile file code then Ok (DomainRule_Geosite file code (ToLower attrs)) else Err BadFile
  end.

Definition parseCustomDomainRule (rule : string) (defaultType : Domain_Type) : result geo_error DomainRule :=
  match after_prefix rule "regexp:" with Some v => Ok (DomainRule_Custom Domain_Regex v) | None =>
  match after_prefix rule "domain:" with Some v => Ok (DomainRule_Custom Domain_Domain v) | None =>
  match after_prefix rule "full:" with Some v => Ok (DomainRule_Custom Domain_Full v) | None =>
  match after_prefix rule "keyword:" with Some v => Ok (DomainRule_Custom Domain_Substr v) | None =>
  match after_prefix rule "dotless:" with
  | Some substr =>
      if bool_decide (substr = "") then Ok (DomainRule_Custom Domain_Regex "^[^.]*$")
      else if negb (Contains substr ".") then Ok (DomainRule_Custom Domain_Regex ("^[^.]*" +:+ substr +:+ "[^.]*$"))
      else Err DottedSubstr
  | None => Ok (DomainRule_Custom defaultType rule)
  end end end end end.

Definition ParseDomainRule (r : string) (defaultType : Domain_Type) : result geo_error DomainRule :=
  let r := match after_prefix r "geosite:" with Some rest => "ext:geosite.dat:" +:+ rest | None => r end in
  match first_prefix r ["ext:"; "ext-domain:"; "ext-site:"] with
  | Some rest => parseGeoSiteRule rest
  | None => parseCustomDomainRule r defaultType
  end.

(** Its loop has the body of [ParseDomainRule]. *)
Definition ParseDomainRules (rules : list string) (defaultType : Domain_Type) : result geo_error (list DomainRule) :=
  map_result (fun r => ParseDomainRule r defaultType) rules.

(** ** A matcher for domains *)

Inductive Matcher := FullMatcher (p : string) | DomainMatcher (p : string) | SubstrMatcher (p : string) | RegexMatcher (p : string).

Definition parseDomain (t : Domain_Type) (value : string) : result geo_error Matcher :=
  match t with
  | Domain_Substr => Ok (SubstrMatcher (ToLower value))
  | Domain_Regex => if regex_compiles value then Ok (RegexMatcher value) else Err InvalidPattern
  | Domain_Domain => Ok (DomainMatcher (ToLower value))
  | Domain_Full => Ok (FullMatcher (ToLower value))
  end.

Record MphValueMatcher := mkValueMatcher {
  vm_mph : option MphMatcherGroup;
  vm_ac : option (list (string * Z));
  vm_regex : option (list (string * Z))
}.

Definition NewMphValueMatcher : MphValueMatcher := mkValueMatcher None None None.

(** [None]: a panic. *)
Definition Add (g : MphValueMatcher) (matcher : Matcher) (value : Z) : option MphValueMatcher :=
  let mph := default NewMphMatcherGroup (vm_mph g) in
  match matcher with
  | FullMatcher p => m ← AddFullMatcher p value mph; Some (mkValueMatcher (Some m) (vm_ac g) (vm_regex g))
  | DomainMatcher p => m ← AddDomainMatcher p value mph; Some (mkValueMatcher (Some m) (vm_ac g) (vm_regex g))
  | SubstrMatcher p => Some (mkValueMatcher (vm_mph g) (Some (default [] (vm_ac g) ++ [(p, value)])) (vm_regex g))
  | RegexMatcher p => Some (mkValueMatcher (vm_mph g) (vm_ac g) (Some (default [] (vm_regex g) ++ [(p, value)])))
  end.

Definition Build_value (g : MphValueMatcher) : option (result geo_error MphValueMatcher) :=
  match vm_mph g with
  | None => Some (Ok g)
  | Some m =>
      r ← Build m;
      Some match r with
           | Ok m => Ok (mkValueMatcher (Some m) (vm_ac g) (vm_regex g))
           | Err e => Err (GroupError e)
           end
  end.

Definition MatchAny_value (g : MphValueMatcher) (input : string) : option bool :=
  found ← match vm_mph g with Some m => MatchAny m (bytes input) | None => Some false end;
  Some (found || match vm_ac g with Some l => ac_match l.*1 input | None => false end
              || match vm_regex g with Some l => existsb (fun p => regex_match p.1 input) l | None => false end).

(** The matchers of one rule; an invalid entry of a file is left out. *)
Definition rule_matchers (r : DomainRule) : result geo_error (list Matcher) :=
  match r with
  | DomainRule_Custom t v => let! m := parseDomain t v in Ok [m]
  | DomainRule_Geosite file code attrs =>
      match loadSite file code attrs with
      | None => Err LoadFailed
      | Some entries => Ok (omap (fun e => match parseDomain e.1 e.2 with Ok m => Some m | Err _ => None end) entries)
      end
  end.

Definition add_matchers (g : MphValueMatcher) (ms : list Matcher) (value : Z) : option MphValueMatcher :=
  foldl (fun g m => g ← g; Add g m value) (Some g) ms.

Fixpoint add_rules (g : MphValueMatcher) (i : Z) (rules : list DomainRule) : option (result geo_error MphValueMatcher) :=
  match rules with
  | [] => Some (Ok g)
  | r :: rules =>
      match rule_matchers r with
      | Err e => Some (Err e)
      | Ok ms => g ← add_matchers g ms (uwrap 32 i); add_rules g (i + 1) rules
      end
  end.

(** [MphDomainMatcherFactory.BuildMatcher] for rules that are not in its cache of
    geosite lists. *)
Definition BuildMatcher (rules : list DomainRule) : option (result geo_error MphValueMatcher) :=
  match rules with
  | [] => Some (Err EmptyRuleList)
  | _ =>
      r ← add_rules NewMphValueMatcher 0 rules;
      match r with Err e => Some (Err e) | Ok g => Build_value g end
  end.

(** ** A matcher for addresses *)

Inductive IPMatcher := OneSet (m : HeuristicIPMatcher) | ManySets (ms : list HeuristicIPMatcher).

Definition load_geoip (rules : list (string * string)) : option (list CIDR) :=
  mjoin <$> mapM (fun p => loadIP p.1 p.2) rules.

(** One of the four groups of rules, when there is any. *)
Definition sub_matcher (cidrs : option (list CIDR)) (used reverse : bool) : result geo_error (list HeuristicIPMatcher) :=
  if used then
    match cidrs with
    | None => Err LoadFailed
    | Some cidrs => match createFrom cidrs with Some s => Ok [mkIPMatcher s reverse] | None => Err SetError end
    end
  else Ok [].

Definition custom_of (reverse : bool) (rules : list IPRule) : list CIDR :=
  omap (fun r => match r with IPRule_Custom c rev => if Bool.eqb rev reverse then Some c else None | _ => None end) rules.
Definition geoip_of (reverse : bool) (rules : list IPRule) : list (string * string) :=
  omap (fun r => match r with IPRule_Geoip f c rev => if Bool.eqb rev reverse then Some (f, c) else None | _ => None end) rules.

Definition nonempty {A} (l : list A) : bool := match l with [] => false | _ => true end.

Definition buildOptimizedIPMatcher (rules : list IPRule) : result geo_error IPMatcher :=
  let custom reverse := sub_matcher (Some (custom_of reverse rules)) (nonempty (custom_of reverse rules)) reverse in
  let geoip reverse := sub_matcher (load_geoip (geoip_of reverse rules)) (nonempty (geoip_of reverse rules)) reverse in
  let! a := custom false in
  let! b := custom true in
  let! c := geoip false in
  let! d := geoip true in
  match a ++ b ++ c ++ d with
  | [] => Err NoIPMatcher
  | [m] => Ok (OneSet m)
  | ms => Ok (ManySets ms)
  end.

(** [HeuristicMultiIPMatcher]: the sets in turn for one address, ... *)
Definition Match_many (ms : list HeuristicIPMatcher) (ip : IP) : bool :=
  match FromStdIP ip with Some ipx => existsb (fun m => matchAddr m ipx) ms | None => false end.

(** ... and for many: [state] is 0 before the block is looked at, 1 for the first
    address of a block, the family for a later one. *)
Fixpoint many_sets (ms : list HeuristicIPMatcher) (buckets : list (list Z)) (state : Z) (ip : IP)
  : bool * list (list Z) :=
  match ms with
  | [] => (false, buckets)
  | m :: ms =>
      let look := (state =? 0) && (heur4 m || heur6 m) in
      match (if look then prefixKeyFromIP ip else Some []) with
      | None => (false, buckets)
      | Some key =>
          let '(state, buckets) :=
            if look then if bool_decide (key ∈ buckets) then (hd 0 key, buckets) else (1, key :: buckets)
            else (state, buckets) in
          if heur4 m && (state =? 4) || heur6 m && (state =? 6) then many_sets ms buckets state ip
          else match FromStdIP ip with
          | None => (false, buckets)
          | Some ipx => if matchAddr m ipx then (true, buckets) else many_sets ms buckets state ip
          end
      end
  end.

Fixpoint many_loop (ms : list HeuristicIPMatcher) (buckets : list (list Z)) (ips : list IP) : bool :=
  match ips with
  | [] => false
  | ip :: ips =>
      let '(found, buckets) := many_sets ms buckets 0 ip in
      if (found : bool) then true else many_loop ms buckets ips
  end.

Definition AnyMatch_many (ms : list HeuristicIPMatcher) (ips : list IP) : bool :=
  match ips with [] => false | [ip] => Match_many ms ip | _ => many_loop ms [] ips end.

Definition AnyMatch_ip (m : IPMatcher) (ips : list IP) : bool :=
  match m with OneSet m => AnyMatch m ips | ManySets ms => AnyMatch_many ms ips end.
End Rules.

(** ** Domains *)

(** A rule for a domain or a full name, what the manager writes; whether the text
    is what it names. *)
Definition plain_rule (r : DomainRule) : option (string * bool) :=
  match r with
  | DomainRule_Custom Domain_Domain v => Some (v, false)
  | DomainRule_Custom Domain_Full v => Some (v, true)
  | _ => None
  end.

Definition plain_matches (input : string) (r : DomainRule) : bool :=
  match plain_rule r with Some (v, full) => pattern_matches (bytes input) (ToLower v, full, 0) | None => false end.

Section Domains.
Context `{GeoParams}.

(** What the loop has collected: the patterns [ps] in the hash table, nothing else. *)
Definition collected (g : MphValueMatcher) (ps : list added) : Prop :=
  add_all ps = Some (default NewMphMatcherGroup (vm_mph g)) /\ vm_ac g = None /\ vm_regex g = None.

Lemma Add_plain g ps p full value : collected g ps ->
  exists g', Add g ((if full : bool then FullMatcher else DomainMatcher) p) value = Some g' /\ is_Some (vm_mph g')
    /\ collected g' (ps ++ [(p, full, value)]).
Proof.
  intros (Ha & Hac & Hre). destruct (add_all_total (ps ++ [(p, full, value)])) as (m & E & _).
  assert (Hm : add p (if full then mphKindFull else mphKindDomain) value (default NewMphMatcherGroup (vm_mph g)) = Some m).
  { rewrite add_all_snoc, Ha in E. exact E. }
  exists (mkValueMatcher (Some m) (vm_ac g) (vm_regex g)). split; [|by split; [eexists|]].
  unfold Add, AddFullMatcher, AddDomainMatcher. destruct full; by rewrite Hm.
Qed.

Lemma add_rules_plain rules : Forall (fun r => is_Some (plain_rule r)) rules -> forall g ps i, collected g ps ->
  exists g' ps', add_rules g i rules = Some (Ok g') /\ collected g' ps'
    /\ (rules <> [] -> is_Some (vm_mph g'))
    /\ forall input, existsb (pattern_matches (bytes input)) ps'
         = existsb (pattern_matches (bytes input)) ps || existsb (plain_matches input) rules.
Proof.
  induction 1 as [|r rules [[v full] Hr] Hrules IH]; intros g ps i Hg.
  { exists g, ps. split; [done|]. split; [done|]. split; [done|]. intros input. by rewrite orb_false_r. }
  destruct (Add_plain g ps (ToLower v) full (uwrap 32 i) Hg) as (g1 & Ha & Hs & Hg1).
  destruct (IH g1 _ (i + 1) Hg1) as (g' & ps' & Hadd & Hg' & Hs' & Hex). exists g', ps'. split.
  { cbn [add_rules]. destruct r as [[] w|]; try done; injection Hr as -> <-; cbn [rule_matchers parseDomain result_bind];
      unfold add_matchers; cbn [foldl mbind option_bind]; rewrite Ha; exact Hadd. }
  split; [done|]. split.
  { intros _. destruct rules; [|by apply Hs']. by injection Hadd as <-. }
  intros input. rewrite Hex, existsb_app. cbn [existsb]. rewrite orb_false_r, orb_assoc. f_equal. f_equal.
  unfold plain_matches. by rewrite Hr.
Qed.

(** A matcher compiled from domain and full names answers as the names one by
    one; compiling fails only in the hash table. *)
Lemma BuildMatcher_plain rules : rules <> [] -> Forall (fun r => is_Some (plain_rule r)) rules ->
  match BuildMatcher rules with
  | Some (Ok g) => forall input, MatchAny_value g input = Some (existsb (plain_matches input) rules)
  | Some (Err e) => exists e', e = GroupError e'
  | None => False
  end.
Proof.
  intros Hne Hr. destruct (add_rules_plain rules Hr NewMphValueMatcher [] 0) as (g & ps & Ha & Hg & Hs & Hex); [done|].
  assert (E : BuildMatcher rules = Build_value g) by (unfold BuildMatcher; destruct rules; [done|]; by rewrite Ha).
  rewrite E. destruct (Hs Hne) as [m Hm]. destruct Hg as (Hps & Hac & Hre). rewrite Hm in Hps. cbn in Hps.
  unfold Build_value. rewrite Hm. destruct (add_all_total ps) as (m' & Hps' & Hnew). rewrite Hps in Hps'. injection Hps' as <-.
  destruct (Build_total m Hnew) as [[b Hb]|(e & Hb & _)]; rewrite Hb; cbn [mbind option_bind]; [|by eexists].
  intros input. unfold MatchAny_value. cbn [vm_mph vm_ac vm_regex]. rewrite (MatchAny_added ps m b) by done.
  cbn [mbind option_bind]. rewrite Hac, Hre, !orb_false_r. by rewrite Hex.
Qed.
End Domains.

(** ** Addresses *)

Section Addresses.
Context `{L : IPSetLib, Laws : !IPSetLaws L}.

Definition all_built (ms : list HeuristicIPMatcher) : Prop := Forall (fun m => exists cidrs, built_from m cidrs) ms.

(** An earlier address of the block, that no set contains. *)
Definition witnessed (ms : list HeuristicIPMatcher) (key : list Z) : Prop :=
  exists ip x, prefixKeyFromIP ip = Some key /\ FromStdIP ip = Some x /\ Forall IPMatch.is_byte ip
    /\ Forall (fun m => matchAddr m x = false) ms.

Lemma heuristic_state m key : heur4 m && (hd 0 key =? 4) || heur6 m && (hd 0 key =? 6) = true -> heuristic m key = true.
Proof.
  unfold heuristic. destruct key as [|k key]; [cbn; by rewrite !andb_false_r|]. change (hd 0 (k :: key)) with k.
  by rewrite !(andb_comm (k =? _)).
Qed.

Lemma key_head ip key : prefixKeyFromIP ip = Some key -> hd 0 key = 4 \/ hd 0 key = 6.
Proof.
  unfold prefixKeyFromIP. destruct (To4 ip); [intros H; left; by injection H as <-|].
  destruct (To16 ip); [intros H; right; by injection H as <-|done].
Qed.

(** One address against the sets: the blocks that let a set be skipped are
    witnessed, so nothing is missed. *)
Lemma many_sets_valid ms0 ms ip key x : all_built ms0 -> ms `suffix_of` ms0 ->
  prefixKeyFromIP ip = Some key -> FromStdIP ip = Some x -> Forall IPMatch.is_byte ip ->
  forall buckets state,
  (forall k, k ∈ buckets -> k <> key -> witnessed ms0 k) ->
  (state = 0 -> key ∈ buckets -> witnessed ms0 key) -> (state = hd 0 key -> witnessed ms0 key) ->
  (state = 0 \/ state = 1 \/ state = hd 0 key) ->
  let r := many_sets ms buckets state ip in
  r.1 = existsb (fun m => matchAddr m x) ms /\ forall k, k ∈ r.2 -> k ∈ buckets \/ k = key.
Proof using Laws.
  intros Hall Hsuf Hk Hx Hb. pose proof (key_head _ _ Hk) as Hhd. induction ms as [|m ms IH]; intros buckets state Hw H0 Hf Hst.
  { split; [done|]. intros k Hkk. by left. }
  assert (Hm : exists cidrs, built_from m cidrs).
  { unfold all_built in Hall. rewrite Forall_forall in Hall. apply Hall. destruct Hsuf as [a ->]. apply elem_of_app. right. by left. }
  assert (Hsuf' : ms `suffix_of` ms0) by (destruct Hsuf as [a ->]; exists (a ++ [m]); by rewrite <- app_assoc).
  assert (Hskip : heur4 m && (hd 0 key =? 4) || heur6 m && (hd 0 key =? 6) = true -> witnessed ms0 key -> matchAddr m x = false).
  { intros Hh (ip' & y & Hk' & Hy & Hb' & Hno). destruct Hm as [cidrs Hm].
    rewrite (same_block m cidrs ip ip' key x y); [|done|by apply heuristic_state|done..].
    rewrite Forall_forall in Hno. apply Hno. destruct Hsuf as [a ->]. apply elem_of_app. right. by left. }
  assert (Htail : forall buckets' state',
    (forall k, k ∈ buckets' -> k <> key -> witnessed ms0 k) ->
    (state' = 0 -> key ∈ buckets' -> witnessed ms0 key) -> (state' = hd 0 key -> witnessed ms0 key) ->
    (state' = 0 \/ state' = 1 \/ state' = hd 0 key) ->
    let r := if heur4 m && (state' =? 4) || heur6 m && (state' =? 6) then many_sets ms buckets' state' ip
             else match FromStdIP ip with
                  | None => (false, buckets')
                  | Some ipx => if matchAddr m ipx then (true, buckets') else many_sets ms buckets' state' ip
                  end in
    r.1 = matchAddr m x || existsb (fun m => matchAddr m x) ms /\ forall k, k ∈ r.2 -> k ∈ buckets' \/ k = key).
  { intros buckets' state' Hw' H0' Hf' Hst'. destruct (IH Hsuf' buckets' state' Hw' H0' Hf' Hst') as [E1 E2].
    destruct (heur4 m && (state' =? 4) || heur6 m && (state' =? 6)) eqn:Eskip.
    - assert (state' = hd 0 key) as -> by lia. rewrite (Hskip Eskip (Hf' eq_refl)). by split.
    - rewrite Hx. destruct (matchAddr m x); [|by split]. split; [done|]. intros k Hkk. by left. }
  cbn [many_sets existsb]. destruct ((state =? 0) && (heur4 m || heur6 m)) eqn:Elook; [|by apply Htail].
  assert (state = 0) as -> by lia. rewrite Hk. destruct (bool_decide_reflect (key ∈ buckets)) as [Hin|Hout].
  - apply Htail; [done|intros E; exfalso; lia|intros _; by apply H0|lia].
  - destruct (Htail (key :: buckets) 1) as [E1 E2]; [|done|intros E; exfalso; lia|lia|].
    + intros k [->|Hin]%elem_of_cons Hne; [done|by apply Hw].
    + split; [done|]. intros k Hkk. destruct (E2 k Hkk) as [[->|]%elem_of_cons|]; auto.
Qed.

Lemma many_sets_invalid ms ip : prefixKeyFromIP ip = None -> FromStdIP ip = None ->
  forall buckets state, (many_sets ms buckets state ip).1 = false /\ (many_sets ms buckets state ip).2 = buckets.
Proof.
  intros Hk Hx. induction ms as [|m ms IH]; intros buckets state; [done|]. cbn [many_sets].
  destruct (_ && _); [by rewrite Hk|]. destruct (_ || _); [apply IH|by rewrite Hx].
Qed.

(** Several sets are asked as if each address were looked up in each of them. *)
Theorem AnyMatch_many_exists ms ips :
  all_built ms -> Forall (fun ip => Forall IPMatch.is_byte ip) ips ->
  AnyMatch_many ms ips = existsb (Match_many ms) ips.
Proof using Laws.
  intros Hms Hb. unfold AnyMatch_many. destruct ips as [|ip0 [|ip1 ips0]]; [done|cbn; by rewrite orb_false_r|].
  set (ips := ip0 :: ip1 :: ips0) in *. clearbody ips.
  enough (H : forall buckets, (forall k, k ∈ buckets -> witnessed ms k) -> many_loop ms buckets ips = existsb (Match_many ms) ips)
    by (apply H; intros k Hk; by apply elem_of_nil in Hk).
  induction Hb as [|ip ips Hip Hb IH]; intros buckets Hw; [done|]. cbn [many_loop existsb].
  destruct (prefixKeyFromIP ip) as [key|] eqn:Hk.
  - destruct (proj1 (key_iff ip)) as [x Hx]; [by exists key|].
    destruct (many_sets_valid ms ms ip key x Hms ltac:(done) Hk Hx Hip buckets 0) as [E1 E2]; [intros; by apply Hw|intros _; apply Hw| |by left|].
    { intros E. exfalso. pose proof (key_head _ _ Hk). lia. }
    unfold Match_many at 1. rewrite Hx. destruct (many_sets ms buckets 0 ip) as [found buckets'] eqn:Em. cbn [fst snd] in *.
    rewrite E1. destruct (existsb _ ms) eqn:Ex; [done|]. apply IH. intros k Hkk.
    destruct (E2 k Hkk) as [Hin| ->]; [by apply Hw|]. exists ip, x. split_and!; [done..|].
    apply Forall_forall. intros m Hm. destruct (matchAddr m x) eqn:E; [|done].
    rewrite <- Ex. symmetry. apply existsb_exists. exists m. split; [by apply list_elem_of_In|done].
  - assert (Hx : FromStdIP ip = None).
    { destruct (FromStdIP ip) eqn:E; [|done]. destruct (proj2 (key_iff ip)) as [k Hk']; [by eexists|]. congruence. }
    unfold Match_many at 1. rewrite Hx. cbn [orb].
    destruct (many_sets_invalid ms ip Hk Hx buckets 0) as [E1 E2]. destruct (many_sets ms buckets 0 ip) as [found buckets'].
    cbn [fst snd] in *. subst. by apply IH.
Qed.
End Addresses.

Definition two_sets : list HeuristicIPMatcher :=
  [office_matcher;
   match createFrom [([100; 64; 0; 0], 10)] with Some s => mkIPMatcher s true | None => office_matcher end].

Example AnyMatch_many_exists_witness :
  AnyMatch_many two_sets office_hosts = existsb (Match_many two_sets) office_hosts /\ AnyMatch_many two_sets office_hosts = true.
Proof.
  split; [|vm_compute; reflexivity].
  refine (AnyMatch_many_exists two_sets office_hosts _ office_bytes).
  constructor; [exists office; vm_compute; reflexivity|constructor; [|constructor]].
  exists [([100; 64; 0; 0], 10)]. vm_compute. reflexivity.
Defined.
