(* ===== verification/Encoding.v ===== *)
(** * Encodings: the parts of [encoding/base64] and [encoding/hex] the manager
      uses

    The four base64 variants the code tries on a subscription body or on a
    metadata value, and the test that a text is hexadecimal.  As in Go, line
    breaks inside the text are skipped, a padded variant wants its padding and
    nothing after it, and the unused bits of the last digit are not checked. *)

From Stdlib Require Import Ascii.
From S2P Require Import Prelude GoStrings.

#[local] Open Scope Z_scope.

Inductive base64_variant := StdEncoding | URLEncoding | RawStdEncoding | RawURLEncoding.
#[export] Instance base64_variant_eq_dec : EqDecision base64_variant.
Proof. solve_decision. Defined.

Definition url_alphabet (v : base64_variant) : bool :=
  match v with URLEncoding | RawURLEncoding => true | _ => false end.
Definition padded (v : base64_variant) : bool :=
  match v with StdEncoding | URLEncoding => true | _ => false end.

Definition base64_digit (v : base64_variant) (c : ascii) : option Z :=
  let n := Z.of_N (N_of_ascii c) in
  if (65 <=? n) && (n <=? 90) then Some (n - 65)
  else if (97 <=? n) && (n <=? 122) then Some (n - 71)
  else if (48 <=? n) && (n <=? 57) then Some (n + 4)
  else if n =? (if url_alphabet v then 45 else 43) then Some 62
  else if n =? (if url_alphabet v then 95 else 47) then Some 63
  else None.

Definition byte_of (z : Z) : ascii := ascii_of_N (Z.to_N (Z.land z 255)).

(** The first [k] bytes of the 24 bits four digits spell. *)
Definition quantum (k : nat) (a b c d : Z) : list ascii :=
  let v := Z.lor (Z.lor (Z.shiftl a 18) (Z.shiftl b 12)) (Z.lor (Z.shiftl c 6) d) in
  take k [byte_of (Z.shiftr v 16); byte_of (Z.shiftr v 8); byte_of v].

Fixpoint base64_quanta (v : base64_variant) (l : list ascii) : option (list ascii) :=
  match l with
  | [] => Some []
  | [_] => None
  | [a; b] =>
      if padded v then None
      else x ← base64_digit v a; y ← base64_digit v b; Some (quantum 1 x y 0 0)
  | [a; b; c] =>
      if padded v then None
      else x ← base64_digit v a; y ← base64_digit v b; z ← base64_digit v c;
           Some (quantum 2 x y z 0)
  | a :: b :: c :: d :: rest =>
      x ← base64_digit v a; y ← base64_digit v b;
      match base64_digit v c, base64_digit v d with
      | Some z, Some w => tail ← base64_quanta v rest; Some (quantum 3 x y z w ++ tail)
      | Some z, None =>
          if padded v && Ascii.eqb d char_eq && bool_decide (rest = [])
          then Some (quantum 2 x y z 0) else None
      | None, _ =>
          if padded v && Ascii.eqb c char_eq && Ascii.eqb d char_eq && bool_decide (rest = [])
          then Some (quantum 1 x y 0 0) else None
      end
  end.

(** [Encoding.DecodeString]. *)
Definition DecodeString (v : base64_variant) (s : string) : option string :=
  string_of <$> base64_quanta v
    (filter (fun c => negb (is_byte 10 c) && negb (is_byte 13 c) = true) (bytes_of s)).

(** The result of the first variant that accepts the text. *)
Definition decode_any (variants : list base64_variant) (s : string) : option string :=
  head (omap (fun v => DecodeString v s) variants).

(** [strings.ReplaceAll(s, c, "")] for a one-byte [c]. *)
Definition remove_byte (n : N) (s : string) : string :=
  string_of (filter (fun c => negb (is_byte n c) = true) (bytes_of s)).

(** [hex.DecodeString] accepts the text. *)
Definition hex_valid (s : string) : bool :=
  Nat.even (String.length s) &&
  forallb (fun c => match digit_of 16 c with Some _ => true | None => false end) (bytes_of s).

Example base64_std : DecodeString StdEncoding "aGk=" = Some "hi".
Proof. vm_compute. reflexivity. Qed.
Example base64_raw : DecodeString RawURLEncoding "dmxlc3M6Ly8" = Some "vless://".
Proof. vm_compute. reflexivity. Qed.
Example base64_unpadded_std : DecodeString StdEncoding "dmxlc3M6Ly8" = None.
Proof. vm_compute. reflexivity. Qed.
Example base64_long : DecodeString StdEncoding "VkxFU1MgTWFuYWdlciE/" = Some "VLESS Manager!?".
Proof. vm_compute. reflexivity. Qed.
