(* ===== verification/Subscriptions.v ===== *)
(** * Subscriptions: [subscriptions.go]

    What the manager does with a provider's document: which entries become
    servers, which are counted as excluded, how the user's choices survive a
    refresh, and how an old [subscriptions.json] is migrated.

    Parameters: [SubscriptionCodec] is [encoding/json] on the Xray JSON shape;
    the HTTP exchange of [fetchSubscriptionWithClientContext] is what
    [client.Do] and [io.ReadAll] return. *)

From Stdlib Require Import Ascii.
From S2P Require Import Prelude GoStrings Encoding Settings Servers Config.

(** ** Explicit choices *)

Definition containsServerID (ids : list string) (id : string) : bool :=
  existsb (fun d => bool_decide (d = id)) ids.

Definition setServerIDState (ids : list string) (id : string) (present : bool)
  : list string * bool :=
  let '(next, found) :=
    foldl (fun '(next, found) disabledID =>
      if bool_decide (disabledID = id)
      then (if present then next ++ [disabledID] else next, true)
      else (next ++ [disabledID], found)) ([], false) ids in
  (if present && negb found then next ++ [id] else next,
   (present && negb found) || (negb present && found)).

Definition serverDisabled (s : Subscription) (id : string) : bool :=
  containsServerID (sub_DisabledServerIDs s) id.

Definition setServerDisabled (s : Subscription) (id : string) (disabled : bool) : Subscription :=
  s <| sub_DisabledServerIDs ::= fun ids => (setServerIDState ids id disabled).1 |>.

Definition serverDisabledInSubscriptions (subs : list Subscription) (id : string) : bool :=
  let holders := filter (fun s => id ∈ sv_ID <$> sub_Servers s) subs in
  negb (bool_decide (holders = [])) &&
  forallb (fun s => sub_Disabled s || serverDisabled s id) holders.

Definition enabledSubscriptionServers (s : Subscription) : list VLESSServer :=
  if sub_Disabled s then []
  else filter (fun srv => serverDisabled s (sv_ID srv) = false) (sub_Servers s).

(** ** What a refresh keeps *)

Definition preserved_id (previous : Subscription) (fresh : list VLESSServer) (id : string)
  : option string :=
  let old := find_by_id id (sub_Servers previous) in
  candidate ← list_find (fun c => (bool_decide (sv_ID c = id) ||
      match old with Some o => sameCatalogServer o c | None => false end) = true) fresh;
  Some (sv_ID candidate.2).

Definition preserveSubscriptionOptions (fresh previous : Subscription) : Subscription :=
  fresh <| sub_Disabled := sub_Disabled previous |>
        <| sub_DisabledServerIDs ::= fun ids =>
             ids ++ omap (preserved_id previous (sub_Servers fresh))
                      (sub_DisabledServerIDs previous) |>.

Definition subscriptionFallbackName `{URLCodec} (rawURL : string) : string :=
  match url_Parse rawURL with
  | Some u => if bool_decide (pu_Hostname u = "") then rawURL else pu_Hostname u
  | None => rawURL
  end.

Definition preserveSubscriptionDisplayName `{URLCodec} (fresh previous : Subscription)
  : Subscription :=
  let previousName := TrimSpace (sub_Name previous) in
  let wasAutomatic :=
    bool_decide (previousName = "") ||
    bool_decide (previousName = TrimSpace (sub_ProviderName previous)) ||
    bool_decide (previousName = subscriptionFallbackName (sub_URL previous)) in
  if wasAutomatic then fresh else fresh <| sub_Name := previousName |>.

Definition normalizeSubscriptionURL `{URLCodec} (raw : string) : string :=
  let raw := TrimSpace raw in
  if HasPrefix raw "happ://add/" then TrimPrefix raw "happ://add/"
  else if HasPrefix raw "happ://" then
    match url_Parse raw with
    | None => raw
    | Some u =>
        if bool_decide (pu_Host u = "add") then
          if bool_decide (pu_Query u "url" = "") then TrimPrefix (pu_Path u) "/"
          else pu_Query u "url"
        else raw
    end
  else raw.

Definition subscriptionID `{ServerDigest} (url : string) : string := sha256_hex8 url.

(** ** [subscription-userinfo] *)

Definition userinfo_part (acc : SubUserInfo * bool) (part : string) : SubUserInfo * bool :=
  let '(info, found) := acc in
  let part := TrimSpace part in
  match Cut part char_eq with
  | None => acc
  | Some (key, val) =>
      if bool_decide (key = "") then acc
      else match ParseInt (TrimSpace val) 64 with
      | None => acc
      | Some n =>
          let k := ToLower (TrimSpace key) in
          if bool_decide (k = "upload") then (info <| ui_Upload := n |>, true)
          else if bool_decide (k = "download") then (info <| ui_Download := n |>, true)
          else if bool_decide (k = "total") then (info <| ui_Total := n |>, true)
          else if bool_decide (k = "expire") then (info <| ui_Expire := n |>, true)
          else acc
      end
  end.

Definition parseSubUserInfo (header : string) : option SubUserInfo :=
  let header := TrimSpace header in
  if bool_decide (header = "") then None
  else
    let '(info, found) :=
      foldl userinfo_part (mkSubUserInfo 0 0 0 0, false) (Split header char_semicolon) in
    if found then Some info else None.

(** ** The Xray JSON shape *)

Record xrayUser := mkXUser { xu_ID : string; xu_Flow : string }.
Record xrayTarget := mkXTarget { xt_Address : string; xt_Port : Z; xt_Users : list xrayUser }.

Record xrayStream := mkXStream {
  xs_Network : string;
  xs_Security : string;
  xs_RealityServerName : string;
  xs_RealityFingerprint : string;
  xs_RealityPublicKey : string;
  xs_RealityShortID : string;
  xs_RealitySpiderX : string;
  xs_TLSServerName : string;
  xs_TLSFingerprint : string;
  xs_TLSALPN : list string;
  xs_WSPath : string;
  xs_WSHeaders : gmap string string;
  xs_GRPCServiceName : string;
  xs_HTTPPath : string;
  xs_HTTPHost : list string;
  xs_XHTTPPath : string;
  xs_XHTTPHost : string;
  xs_XHTTPMode : string;
  xs_XHTTPExtra : string
}.

Record xrayOutbound := mkXOutbound {
  xo_Protocol : string;
  xo_VNext : list xrayTarget;
  xo_Stream : xrayStream
}.

Record xraySubscriptionConfig := mkXConfig {
  xc_Remarks : string;
  xc_Outbounds : list xrayOutbound
}.

(** [json_configs] decodes an array of configurations, [json_config] a single
    one; [json_strings] a string array. [xs_WSHeaders] holds the header values
    that are strings. *)
Class SubscriptionCodec := {
  json_configs : string -> option (list xraySubscriptionConfig);
  json_config : string -> option xraySubscriptionConfig;
  json_strings : string -> option (list string);
  json_single_string : string -> option string
}.

Definition rawJSONFirstString `{SubscriptionCodec} (raw : string) : string :=
  match json_single_string raw with
  | Some value => value
  | None => match json_strings raw with Some (v :: _) => v | _ => "" end
  end.

Definition xrayServer `{SubscriptionCodec, ServerDigest} (remarks : string) (stream : xrayStream)
    (target : xrayTarget) (user : xrayUser) : VLESSServer :=
  let network := normalizeVLESSNetwork (xs_Network stream) in
  let security := ToLower (TrimSpace (xs_Security stream)) in
  let name := TrimSpace remarks in
  let httpHost := match xs_HTTPHost stream with h :: _ => h | [] => "" end in
  let wsHost := default "" (union (xs_WSHeaders stream !! "Host") (xs_WSHeaders stream !! "host")) in
  let isHTTP := bool_decide (network = "http") || bool_decide (network = "h2") in
  let srv := {|
    sv_ID := "";
    sv_Name := if bool_decide (name = "") then xt_Address target else name;
    sv_Manual := false;
    sv_Address := xt_Address target;
    sv_Port := xt_Port target;
    sv_UUID := xu_ID user;
    sv_Flow := xu_Flow user;
    sv_PacketEncoding := "";
    sv_Security := if bool_decide (security = "") then "none" else security;
    sv_SNI := firstNonEmpty [xs_RealityServerName stream; xs_TLSServerName stream];
    sv_Fingerprint :=
      firstNonEmpty [xs_RealityFingerprint stream; xs_TLSFingerprint stream; "chrome"];
    sv_PublicKey := xs_RealityPublicKey stream;
    sv_ShortID := xs_RealityShortID stream;
    sv_SpiderX := firstNonEmpty [xs_RealitySpiderX stream; "/"];
    sv_Network := network;
    sv_Path :=
      if bool_decide (network = "ws") then xs_WSPath stream
      else if bool_decide (network = "grpc") then xs_GRPCServiceName stream
      else if isHTTP then xs_HTTPPath stream
      else if bool_decide (network = "xhttp") then xs_XHTTPPath stream else "";
    sv_Host :=
      if bool_decide (network = "ws") then wsHost
      else if isHTTP then httpHost
      else if bool_decide (network = "xhttp") then rawJSONFirstString (xs_XHTTPHost stream) else "";
    sv_Mode := if bool_decide (network = "xhttp") then xs_XHTTPMode stream else "";
    sv_XPadding := ""; sv_ALPN := Join (xs_TLSALPN stream) ",";
    sv_NoSSEHeader := false; sv_NoGRPCHeader := false;
    sv_SessionPlacement := ""; sv_SessionKey := ""; sv_SeqPlacement := ""; sv_SeqKey := "";
    sv_UplinkHTTPMethod := ""; sv_UplinkDataPlacement := ""; sv_UplinkDataKey := "";
    sv_XPaddingObfsMode := false; sv_XPaddingKey := ""; sv_XPaddingHeader := "";
    sv_XPaddingPlacement := ""; sv_XPaddingMethod := "";
    sv_Xmux := ""; sv_XHTTPHeaders := ∅; sv_ScMaxBufferedPosts := 0; sv_DownloadSettings := "";
    sv_Extra := if bool_decide (network = "xhttp") then xs_XHTTPExtra stream else "";
    sv_Members := [] |} in
  srv <| sv_ID := serverFingerprint srv |>.

(** The users of an outbound, each a server or an invalid entry. *)
Definition xrayOutboundServersDetailed `{SubscriptionCodec, ServerDigest} (remarks : string)
    (outbound : xrayOutbound) : list VLESSServer * nat :=
  let users := xo_VNext outbound ≫= fun t => (fun u => (t, u)) <$> xt_Users t in
  let bad := fun p : xrayTarget * xrayUser =>
    bool_decide (xt_Address p.1 = "") || (xt_Port p.1 <=? 0)%Z || bool_decide (xu_ID p.2 = "") in
  ((fun p => xrayServer remarks (xo_Stream outbound) p.1 p.2) <$> filter (fun p => bad p = false) users,
   length (filter (fun p => bad p = true) users)).

(** One configuration: nothing, its only server, or a logical profile. *)
Definition config_server `{SubscriptionCodec, ServerDigest} (cfg : xraySubscriptionConfig)
  : list VLESSServer * nat :=
  let parts := (fun o => xrayOutboundServersDetailed (xc_Remarks cfg) o) <$>
    filter (fun o => EqualFold (xo_Protocol o) "vless" = true) (xc_Outbounds cfg) in
  let members := parts ≫= fst in
  let invalid := sum_list (parts.*2) in
  (match members with
   | [] => []
   | [only] => [only]
   | first :: _ =>
       [emptyServer <| sv_Name := TrimSpace (xc_Remarks cfg) |>
          <| sv_Address := sv_Address first |> <| sv_Port := sv_Port first |>
          <| sv_Network := "auto" |> <| sv_Members := members |>]
   end, invalid).

Definition parseXrayJSONServersDetailed `{SubscriptionCodec, ServerDigest} (body : string)
  : list VLESSServer * nat :=
  let configs :=
    match json_configs body with
    | Some cs => cs
    | None => match json_config body with
              | Some single => if bool_decide (length (xc_Outbounds single) = 0%nat) then [] else [single]
              | None => []
              end
    end in
  let parts := config_server <$> configs in
  (parts ≫= fst, sum_list (parts.*2)).

(** ** Metadata *)

(** [bodyValues]: the [#key: value] lines, the first of a key wins. *)
Definition body_value (m : gmap string string) (line : string) : gmap string string :=
  let line := TrimSpace line in
  if HasPrefix line "#" then
    match Cut (TrimSpace (TrimPrefix line "#")) char_colon with
    | None => m
    | Some (key, value) =>
        let key := ToLower (TrimSpace key) in
        match m !! key with
        | Some _ => m
        | None => <[key := TrimSpace value]> m
        end
    end
  else m.

Definition decodeSubscriptionMetadataValue `{URLCodec} (value : string) : string :=
  let value := TrimSpace value in
  if bool_decide (value = "") then ""
  else if HasPrefix (ToLower value) "base64:" then
    let encoded := TrimSpace (string_drop 7 value) in
    match decode_any [StdEncoding; RawStdEncoding; URLEncoding; RawURLEncoding] encoded with
    | Some decoded => TrimSpace decoded
    | None => ""
    end
  else TrimSpace (default value (QueryUnescape value)).

(** A [[]rune] conversion turns every byte that is not UTF-8 into U+FFFD. *)
Definition rune_bytes (t : list ascii) : list ascii :=
  if valid_token t then t else replacement_char.

Definition limitMetadataText (value : string) (maxRunes : nat) : string :=
  let runes := rune_bytes <$> tokens (bytes_of (remove_byte 0 value)) in
  TrimSpace (string_of (mjoin (take maxRunes runes))).

Record subscriptionMetadata := mkMetadata {
  md_Name : string;
  md_Description : string;
  md_UserInfo : option SubUserInfo
}.

Definition parseSubscriptionMetadata `{URLCodec} (header : string -> string) (body : string)
  : subscriptionMetadata :=
  let bodyValues := foldl body_value ∅ (Split body newline) in
  let value := fun key =>
    let headerValue := TrimSpace (header key) in
    if bool_decide (headerValue = "") then default "" (bodyValues !! ToLower key)
    else headerValue in
  {| md_Name := limitMetadataText (decodeSubscriptionMetadataValue (value "profile-title")) 256;
     md_Description := limitMetadataText (decodeSubscriptionMetadataValue (value "announce")) 4096;
     md_UserInfo := parseSubUserInfo (value "subscription-userinfo") |}.

(** ** Fetching *)

Definition base64Decode (s : string) : option string :=
  decode_any [URLEncoding; StdEncoding; RawURLEncoding; RawStdEncoding]
    (remove_byte 32 (remove_byte 10 s)).

Definition containsProxyURI (s : string) : bool :=
  Contains s "vless://" || Contains s "vmess://" || Contains s "trojan://" || Contains s "ss://".

(** The share links of a text: the servers and the number of invalid links. *)
Definition link_line `{JSONCodec, URLCodec, ServerDigest} (acc : list VLESSServer * Z)
    (line : string) : list VLESSServer * Z :=
  let '(parsed, invalid) := acc in
  let line := TrimSpace line in
  if bool_decide (line = "") || HasPrefix line "#" then acc
  else if HasPrefix line "vless://" then
    match parseVLESSURI line with
    | Ok srv => (parsed ++ [srv], invalid)
    | Err _ => (parsed, (invalid + 1)%Z)
    end
  else acc.

Definition parseEntries `{JSONCodec, URLCodec, ServerDigest, SubscriptionCodec} (text : string)
  : list VLESSServer * Z :=
  let '(parsed, invalid) := foldl link_line ([], 0%Z) (Split text newline) in
  match parsed with
  | [] => let '(servers, invalidJSON) := parseXrayJSONServersDetailed text in
          (servers, (invalid + Z.of_nat invalidJSON)%Z)
  | _ => (parsed, invalid)
  end.

(** What the loop over the parsed servers keeps. *)
Record fetch_acc := mkFetch {
  fa_servers : list VLESSServer;
  fa_seen : gset string;
  fa_placeholder : Z;
  fa_unsupported : Z;
  fa_unsupportedSeen : gset string;
  fa_excluded : gmap string Z
}.
#[export] Instance fetch_acc_eta : Eta fetch_acc := fun a =>
  mkFetch (fa_servers a) (fa_seen a) (fa_placeholder a) (fa_unsupported a)
    (fa_unsupportedSeen a) (fa_excluded a).

Definition exclude (srv : VLESSServer) (a : fetch_acc) : fetch_acc :=
  if bool_decide (sv_ID srv ∈ fa_unsupportedSeen a) then a
  else
    let transport := normalizeVLESSNetwork (sv_Network srv) in
    a <| fa_unsupportedSeen ::= union {[sv_ID srv]} |>
      <| fa_unsupported ::= Z.succ |>
      <| fa_excluded ::= fun m => <[transport := (default 0 (m !! transport) + 1)%Z]> m |>.

Definition fetch_member `{ServerDigest} (st : list VLESSServer * gset string * fetch_acc)
    (member : VLESSServer) : list VLESSServer * gset string * fetch_acc :=
  let '(members, memberSeen, a) := st in
  let member := member <| sv_ID := serverFingerprint member |> in
  if bool_decide (sv_ID member ∈ memberSeen) || isPlaceholderServer member then st
  else
    let memberSeen := {[sv_ID member]} ∪ memberSeen in
    if isSupportedServer member then (members ++ [member], memberSeen, a)
    else (members, memberSeen, exclude member a).

(** The part of the iteration below the member loop. *)
Definition fetch_profile `{ServerDigest} (a : fetch_acc) (srv : VLESSServer) : fetch_acc :=
  let srv := srv <| sv_ID := serverFingerprint srv |> in
  if bool_decide (sv_ID srv ∈ fa_seen a) then a
  else
    let a := a <| fa_seen ::= union {[sv_ID srv]} |> in
    if isPlaceholderServer srv then a <| fa_placeholder ::= Z.succ |>
    else if isSupportedServer srv then a <| fa_servers ::= fun l => l ++ [srv] |>
    else exclude srv a.

Definition fetch_server `{ServerDigest} (a : fetch_acc) (srv : VLESSServer) : fetch_acc :=
  match sv_Members srv with
  | [] => fetch_profile a srv
  | ms =>
      let '(members, _, a) := foldl fetch_member ([], ∅, a) ms in
      match members with
      | [] => a
      | first :: _ =>
          fetch_profile a (srv <| sv_Members := members |> <| sv_Address := sv_Address first |>
            <| sv_Port := sv_Port first |> <| sv_Network := "auto" |>)
      end
  end.

Definition maxSubscriptionBytes : Z := Z.shiftl 4 20.

(** [http.NewRequestWithContext], [client.Do] and [io.ReadAll]: the outcome of
    a request for a URL, with [header] standing for [resp.Header.Get]. *)
Inductive exchange :=
| BadURL
| NoResponse
| Response (status : Z) (header : string -> string) (body : option string).

Inductive fetch_error :=
| NoDeviceID
| InvalidRequest
| FetchFailed
| HTTPStatus (code : Z)
| ReadBodyFailed
| TooLarge
| OnlyUnsupported (excluded : Z)
| OnlyPlaceholders
| OnlyInvalid (invalid bytes : Z)
| NoServers (bytes : Z).

Definition fetch_failure (a : fetch_acc) (invalid bytes : Z) : fetch_error :=
  if (0 <? fa_unsupported a)%Z then OnlyUnsupported (fa_unsupported a)
  else if (0 <? fa_placeholder a)%Z then OnlyPlaceholders
  else if (0 <? invalid)%Z then OnlyInvalid invalid bytes
  else NoServers bytes.

(** The document behind a body: the decoded text when the body is base64 that
    mentions a proxy link. *)
Definition subscriptionText (body : string) : string :=
  let text := TrimSpace body in
  match base64Decode text with
  | Some decoded => if containsProxyURI decoded then decoded else text
  | None => text
  end.

Definition classify `{ServerDigest} (parsed : list VLESSServer) (invalid : Z) : fetch_acc :=
  foldl fetch_server
    (mkFetch [] ∅ 0 0 ∅ (if (0 <? invalid)%Z then {["invalid" := invalid]} else ∅)) parsed.

Definition readSubscription `{JSONCodec, URLCodec, ServerDigest, SubscriptionCodec}
    (now : Time) (url : string) (header : string -> string) (body : string)
  : result fetch_error Subscription :=
  let text := subscriptionText body in
  let metadata := parseSubscriptionMetadata header text in
  let '(parsed, invalid) := parseEntries text in
  let a := classify parsed invalid in
  match fa_servers a with
  | [] => Err (fetch_failure a invalid (Z.of_nat (String.length body)))
  | servers =>
      Ok {| sub_ID := subscriptionID url;
            sub_Name := if bool_decide (md_Name metadata = "") then subscriptionFallbackName url
                        else md_Name metadata;
            sub_ProviderName := md_Name metadata;
            sub_Description := md_Description metadata;
            sub_URL := url;
            sub_Servers := servers;
            sub_UpdatedAt := now;
            sub_Error := "";
            sub_UserInfo := md_UserInfo metadata;
            sub_Disabled := false;
            sub_DisabledServerIDs := [];
            sub_ExcludedServers := (fa_unsupported a + invalid)%Z;
            sub_ExcludedTransports := fa_excluded a |}
  end.

Definition fetchSubscriptionWithClientContext `{JSONCodec, URLCodec, ServerDigest, SubscriptionCodec}
    (deviceID : string) (now : Time) (client : string -> exchange) (url : string)
  : result fetch_error Subscription :=
  if bool_decide (deviceID = "") then Err NoDeviceID
  else
    let url := normalizeSubscriptionURL url in
    match client url with
    | BadURL => Err InvalidRequest
    | NoResponse => Err FetchFailed
    | Response status header body =>
        if (status <? 200)%Z || (300 <=? status)%Z then Err (HTTPStatus status)
        else match body with
             | None => Err ReadBodyFailed
             | Some body =>
                 if (maxSubscriptionBytes <? Z.of_nat (String.length body))%Z then Err TooLarge
                 else readSubscription now url header body
             end
    end.

(** Through the tunnel when the user prefers it and it is healthy, else, or when
    that fails, through the WAN. [vpn] is [None] when there is no SOCKS dialer. *)
Definition fetchSubscriptionURL `{JSONCodec, URLCodec, ServerDigest, SubscriptionCodec}
    (st : AppSettings) (vpnReady : bool) (deviceID : string) (now : Time)
    (vpn : option (string -> exchange)) (wan : string -> exchange) (url : string)
  : result fetch_error Subscription :=
  let direct := fetchSubscriptionWithClientContext deviceID now wan url in
  match vpn with
  | Some client =>
      if SubscriptionPreferVPN st && vpnReady then
        match fetchSubscriptionWithClientContext deviceID now client url with
        | Ok sub => Ok sub
        | Err _ => direct
        end
      else direct
  | None => direct
  end.

Definition validSubscriptionDeviceID (id : string) : bool :=
  HasPrefix id "vm-" && (String.length id =? 35)%nat && hex_valid (TrimPrefix id "vm-").

(** ** Loading and saving *)

Record load_acc := mkLoad {
  la_oldToNew : gmap string (list string);
  la_seen : gset string;
  la_unique : list VLESSServer;
  la_removed : Z
}.

Definition load_server `{ServerDigest} (a : load_acc) (srv : VLESSServer) : load_acc :=
  let oldID := sv_ID srv in
  let srv := srv <| sv_Network ::= normalizeVLESSNetwork |> in
  let srv := srv <| sv_ID := serverFingerprint srv |> in
  let oldToNew :=
    if bool_decide (oldID = "") then la_oldToNew a
    else <[oldID := default [] (la_oldToNew a !! oldID) ++ [sv_ID srv]]> (la_oldToNew a) in
  if isSupportedServer srv then
    if bool_decide (sv_ID srv ∈ la_seen a) then mkLoad oldToNew (la_seen a) (la_unique a) (la_removed a)
    else mkLoad oldToNew ({[sv_ID srv]} ∪ la_seen a) (la_unique a ++ [srv]) (la_removed a)
  else mkLoad oldToNew (la_seen a) (la_unique a) (la_removed a + 1).

Definition migrate_disabled_one (seen : gset string) (disabled : list string) (migratedID : string)
  : list string :=
  if bool_decide (migratedID ∈ seen) && negb (bool_decide (migratedID ∈ disabled))
  then disabled ++ [migratedID] else disabled.

Definition migrateDisabled (oldToNew : gmap string (list string)) (seen : gset string)
    (ids : list string) : list string :=
  foldl (fun disabled id =>
    foldl (migrate_disabled_one seen) disabled (default [id] (oldToNew !! id))) [] ids.

Definition load_subscription `{ServerDigest, URLCodec} (sub : Subscription) : Subscription :=
  let url := normalizeSubscriptionURL (sub_URL sub) in
  let a := foldl load_server (mkLoad ∅ ∅ [] 0) (sub_Servers sub) in
  sub <| sub_URL := url |>
      <| sub_ID := subscriptionID url |>
      <| sub_Servers := la_unique a |>
      <| sub_ExcludedServers ::= Z.add (la_removed a) |>
      <| sub_DisabledServerIDs ::= migrateDisabled (la_oldToNew a) (la_seen a) |>.

Inductive subs_error :=
| SubsReadError
| SubsDecodeError
| NullEntry (i : nat).

(** The loop over the entries; the code assigns the URL and the identifier of a
    duplicate before it drops it. *)
Fixpoint load_entries `{ServerDigest, URLCodec} (i : nat) (seen : gset string)
    (subs : list (option Subscription)) : result subs_error (list Subscription) :=
  match subs with
  | [] => Ok []
  | None :: _ => Err (NullEntry i)
  | Some sub :: rest =>
      let id := subscriptionID (normalizeSubscriptionURL (sub_URL sub)) in
      if bool_decide (id ∈ seen) then load_entries (S i) seen rest
      else let! subs := load_entries (S i) ({[id]} ∪ seen) rest in
           Ok (load_subscription sub :: subs)
  end.

Definition loadSubscriptions `{ServerDigest, URLCodec}
    (decode : string -> option (list (option Subscription))) (file : file_read)
  : result subs_error (list Subscription) :=
  match file with
  | NotExist => Ok []
  | ReadFailed => Err SubsReadError
  | FileData data =>
      match decode data with
      | None => Err SubsDecodeError
      | Some subs => load_entries 0 ∅ subs
      end
  end.

(** What is compared before [subscriptions.json] is written. *)
Definition persistent_one (sub : Subscription) : Subscription :=
  sub <| sub_UpdatedAt := zero_time |> <| sub_Error := "" |>
      <| sub_UserInfo ::= option_map (fun u => u <| ui_Upload := 0%Z |> <| ui_Download := 0%Z |>) |>.

Definition subscriptionPersistentState (subs : list (option Subscription))
  : list (option Subscription) :=
  (fun sub : option Subscription => option_map persistent_one sub) <$> subs.

(** ** What a fetch should keep

    The reference: a profile is cleaned (its identifier computed, its members
    fingerprinted, without placeholders, duplicates and unsupported ones; a
    profile left without members is dropped), the first profile of every
    identifier is taken, and the usable ones are kept in order. *)

Fixpoint dedup (seen : gset string) (l : list VLESSServer) : list VLESSServer :=
  match l with
  | [] => []
  | s :: rest => if bool_decide (sv_ID s ∈ seen) then dedup seen rest
                 else s :: dedup ({[sv_ID s]} ∪ seen) rest
  end.

Definition fingerprinted `{ServerDigest} (s : VLESSServer) : VLESSServer :=
  s <| sv_ID := serverFingerprint s |>.

Definition usable (s : VLESSServer) : bool := negb (isPlaceholderServer s) && isSupportedServer s.

Definition clean_members `{ServerDigest} (seen : gset string) (ms : list VLESSServer)
  : list VLESSServer :=
  filter (fun m => isSupportedServer m = true)
    (dedup seen (filter (fun m => isPlaceholderServer m = false) (fingerprinted <$> ms))).

Definition clean `{ServerDigest} (srv : VLESSServer) : option VLESSServer :=
  match sv_Members srv with
  | [] => Some (fingerprinted srv)
  | ms =>
      let members := clean_members ∅ ms in
      first ← head members;
      Some (fingerprinted (srv <| sv_Members := members |> <| sv_Address := sv_Address first |>
        <| sv_Port := sv_Port first |> <| sv_Network := "auto" |>))
  end.

Definition fresh_catalog `{ServerDigest} (parsed : list VLESSServer) : list VLESSServer :=
  filter (fun s => usable s = true) (dedup ∅ (omap clean parsed)).

Definition map_total (m : gmap string Z) : Z := map_fold (fun _ v acc => (v + acc)%Z) 0%Z m.

Lemma map_total_insert_new k v m : m !! k = None -> map_total (<[k := v]> m) = (v + map_total m)%Z.
Proof. intros Hk. unfold map_total. rewrite map_fold_insert_L; [done| |done]. intros; lia. Qed.

Lemma map_total_count k m :
  map_total (<[k := (default 0 (m !! k) + 1)%Z]> m) = (map_total m + 1)%Z.
Proof.
  destruct (m !! k) as [v|] eqn:Hk; cbn [default].
  - rewrite <- (insert_delete_id m k v Hk) at 2. rewrite <- (insert_delete_eq m k).
    rewrite !map_total_insert_new by apply lookup_delete_eq. cbn. lia.
  - rewrite map_total_insert_new by done. cbn. lia.
Qed.

Lemma dedup_spec seen l :
  NoDup (sv_ID <$> dedup seen l) /\ (forall s, s ∈ dedup seen l -> s ∈ l /\ sv_ID s ∉ seen).
Proof.
  revert seen. induction l as [|s l IH]; intros seen; cbn [dedup]; [split; [constructor|set_solver]|].
  destruct (decide (sv_ID s ∈ seen)) as [Hin|Hin].
  - rewrite bool_decide_eq_true_2 by done. destruct (IH seen). set_solver.
  - rewrite bool_decide_eq_false_2 by done. destruct (IH ({[sv_ID s]} ∪ seen)) as [Hnd Hel].
    split.
    + rewrite fmap_cons. constructor; [|done].
      intros (s' & Heq & Hs')%list_elem_of_fmap. apply Hel in Hs' as [_ Hs']. set_solver.
    + intros s' [->|Hs']%elem_of_cons; [set_solver|]. apply Hel in Hs'. set_solver.
Qed.

(** What [exclude] leaves alone, and the account it keeps. *)
Definition accounted (base : Z) (a : fetch_acc) : Prop :=
  fa_unsupported a = Z.of_nat (size (fa_unsupportedSeen a)) /\
  map_total (fa_excluded a) = (base + fa_unsupported a)%Z /\
  (0 <= fa_placeholder a)%Z.

Lemma exclude_other srv a :
  fa_servers (exclude srv a) = fa_servers a /\ fa_seen (exclude srv a) = fa_seen a /\
  fa_placeholder (exclude srv a) = fa_placeholder a /\
  (0 < Z.of_nat (size (fa_unsupportedSeen (exclude srv a))))%Z /\
  (size (fa_unsupportedSeen a) <= size (fa_unsupportedSeen (exclude srv a)))%nat.
Proof.
  assert (Hpos : forall X : gset string, sv_ID srv ∈ X -> (0 < Z.of_nat (size X))%Z).
  { intros X HX. destruct (decide (size X = 0)%nat) as [H0|]; [|lia].
    apply size_empty_inv in H0. set_solver. }
  unfold exclude. case_bool_decide as Hin; [split_and!; auto|]. cbv zeta.
  unfold upd; cbn [fa_servers fa_seen fa_placeholder fa_unsupportedSeen].
  split_and!; try done; [apply Hpos; set_solver|apply subseteq_size; set_solver].
Qed.

Lemma exclude_accounted base srv a : accounted base a -> accounted base (exclude srv a).
Proof.
  intros (Hn & Hm & Hp). unfold exclude. case_bool_decide as Hin; [done|].
  unfold accounted. cbv zeta. unfold upd; cbn [fa_unsupported fa_unsupportedSeen fa_excluded fa_placeholder].
  rewrite size_union, size_singleton, map_total_count by set_solver. lia.
Qed.

(** The state of the member loop, from any state of the loop around it. *)
Lemma fetch_members `{ServerDigest} ms members seen a :
  let '(members', _, a') := foldl fetch_member (members, seen, a) ms in
  members' = members ++ clean_members seen ms /\
  fa_servers a' = fa_servers a /\ fa_seen a' = fa_seen a /\
  (forall base, accounted base a -> accounted base a') /\
  fa_placeholder a' = fa_placeholder a /\
  (size (fa_unsupportedSeen a) <= size (fa_unsupportedSeen a'))%nat.
Proof.
  revert members seen a. induction ms as [|m ms IH]; intros members seen a; cbn [foldl].
  { unfold clean_members. cbn. rewrite app_nil_r. by split_and!. }
  unfold fetch_member at 2. fold (fingerprinted m).
  assert (Hstep : clean_members seen (m :: ms) =
    if bool_decide (sv_ID (fingerprinted m) ∈ seen) || isPlaceholderServer (fingerprinted m)
    then clean_members seen ms
    else let rest := clean_members ({[sv_ID (fingerprinted m)]} ∪ seen) ms in
         if isSupportedServer (fingerprinted m) then fingerprinted m :: rest else rest).
  { unfold clean_members. rewrite fmap_cons, filter_cons.
    destruct (isPlaceholderServer _); [rewrite decide_False by done; by rewrite orb_true_r|].
    rewrite decide_True, orb_false_r by done. cbn [dedup].
    case_bool_decide; [done|]. rewrite filter_cons.
    destruct (isSupportedServer _); [by rewrite decide_True|by rewrite decide_False]. }
  rewrite Hstep. destruct (_ || _); [apply IH|]. cbv zeta.
  set (seen' := _ ∪ seen). destruct (isSupportedServer (fingerprinted m)).
  - specialize (IH (members ++ [fingerprinted m]) seen' a). rewrite <- app_assoc in IH. exact IH.
  - specialize (IH members seen' (exclude (fingerprinted m) a)).
    pose proof (exclude_other (fingerprinted m) a) as (Hs & Hn & Hp & _ & Hle).
    destruct (foldl _ _ ms) as [[members' seen''] a']. destruct IH as (-> & -> & -> & Hacc & Hp' & Hsz).
    split_and!; try done; [|lia|lia].
    intros base Ha. by apply Hacc, exclude_accounted.
Qed.

(** Nothing was kept or counted. *)
Definition untouched (a : fetch_acc) : Prop :=
  fa_servers a = [] /\ fa_placeholder a = 0%Z /\ fa_unsupportedSeen a = ∅.

Lemma fetch_profile_spec `{ServerDigest} a srv :
  let s := fingerprinted srv in
  let a' := fetch_profile a srv in
  fa_servers a' = fa_servers a ++ filter (fun s => usable s = true) (dedup (fa_seen a) [s]) /\
  fa_seen a' = {[sv_ID s]} ∪ fa_seen a /\
  (forall base, accounted base a -> accounted base a') /\
  ((0 <= fa_placeholder a)%Z -> untouched a' -> untouched a /\ sv_ID s ∈ fa_seen a).
Proof.
  cbv zeta. unfold fetch_profile. cbv zeta. fold (fingerprinted srv).
  set (s := fingerprinted srv). cbn [dedup].
  destruct (decide (sv_ID s ∈ fa_seen a)) as [Hin|Hin].
  { rewrite !bool_decide_eq_true_2 by done. cbn [dedup filter list_filter]. rewrite app_nil_r.
    split_and!; try done. set_solver. }
  rewrite !bool_decide_eq_false_2 by done. rewrite filter_cons.
  change (dedup _ []) with (@nil VLESSServer). rewrite filter_nil.
  unfold usable. destruct (isPlaceholderServer s) eqn:Hph.
  { rewrite decide_False by done. rewrite app_nil_r.
    unfold accounted, untouched, upd; cbn [fa_servers fa_seen fa_placeholder fa_unsupported fa_unsupportedSeen fa_excluded].
    split_and!; [done|done|naive_solver lia|]. intros ? (_ & ? & _). lia. }
  destruct (isSupportedServer s) eqn:Hsup.
  { rewrite decide_True by done.
    unfold accounted, untouched, upd; cbn [fa_servers fa_seen fa_placeholder fa_unsupported fa_unsupportedSeen fa_excluded].
    split_and!; [done|done|done|]. intros ? (Hnil & _). by apply app_nil in Hnil as [_ ?]. }
  rewrite decide_False by done. rewrite app_nil_r.
  pose proof (exclude_other s (a <| fa_seen ::= union {[sv_ID s]} |>)) as (-> & -> & _ & Hpos & _).
  split_and!; [done|done| |].
  - intros base Ha. apply exclude_accounted. exact Ha.
  - intros _ (_ & _ & Hempty). rewrite Hempty, size_empty in Hpos. lia.
Qed.

Lemma fetch_server_spec `{ServerDigest} a srv :
  let a' := fetch_server a srv in
  fa_servers a' =
    fa_servers a ++ filter (fun s => usable s = true) (dedup (fa_seen a) (option_list (clean srv))) /\
  fa_seen a' = list_to_set (sv_ID <$> option_list (clean srv)) ∪ fa_seen a /\
  (forall base, accounted base a -> accounted base a') /\
  ((0 <= fa_placeholder a)%Z -> untouched a' ->
   untouched a /\ forall s, clean srv = Some s -> sv_ID s ∈ fa_seen a).
Proof.
  cbv zeta. unfold fetch_server, clean. destruct (sv_Members srv) as [|m ms].
  { destruct (fetch_profile_spec a srv) as (Hs & Hn & Hacc & Hun).
    cbn [option_list]. split_and!; [done| |done|intros Hp Hu; destruct (Hun Hp Hu); split; [done|by intros s [= <-]]].
    rewrite Hn. cbn. set_solver. }
  pose proof (fetch_members (m :: ms) [] ∅ a) as Hm.
  destruct (foldl _ _ _) as [[members seen'] a1]. destruct Hm as (-> & Hs & Hn & Hacc & Hp & Hsz).
  rewrite app_nil_l. destruct (clean_members ∅ (m :: ms)) as [|first rest].
  { change (_ ≫= _) with (@None VLESSServer). change (option_list None) with (@nil VLESSServer).
    cbn [dedup fmap list_fmap list_to_set]. rewrite filter_nil, app_nil_r.
    split_and!; [done|by rewrite Hn, (left_id_L ∅ (∪))|done|]. intros Hpos (Hnil & Hph & Hus).
    rewrite Hus, size_empty in Hsz. split; [|done].
    split_and!; [congruence|lia|]. apply leibniz_equiv, size_empty_inv. lia. }
  set (srv' := srv <| sv_Members := _ |> <| sv_Address := _ |> <| sv_Port := _ |> <| sv_Network := _ |>).
  change (_ ≫= _) with (Some (fingerprinted srv')).
  destruct (fetch_profile_spec a1 srv') as (Hs' & Hn' & Hacc' & Hun').
  rewrite Hs, Hn in *. change (option_list (Some ?x)) with [x]. split_and!; [done| |auto|].
  - rewrite Hn'. change (sv_ID <$> [fingerprinted srv']) with [sv_ID (fingerprinted srv')].
    cbn [list_to_set]. set_solver.
  - intros Hpos Hun. destruct Hun' as [(Hnil & Hph & Hus) Hin]; [lia|done|].
    rewrite Hus, size_empty in Hsz. split; [|by intros s [= <-]].
    split_and!; [congruence|lia|]. apply leibniz_equiv, size_empty_inv. lia.
Qed.

Lemma dedup_app seen l1 l2 :
  dedup seen (l1 ++ l2) = dedup seen l1 ++ dedup (list_to_set (sv_ID <$> l1) ∪ seen) l2.
Proof.
  revert seen. induction l1 as [|s l1 IH]; intros seen; cbn [dedup app fmap list_fmap list_to_set].
  { f_equal. set_solver. }
  case_bool_decide.
  - rewrite IH. f_equal. f_equal. set_solver.
  - rewrite IH. cbn. f_equal. f_equal. f_equal. set_solver.
Qed.

Lemma fetch_servers_spec `{ServerDigest} l a :
  let a' := foldl fetch_server a l in
  fa_servers a' =
    fa_servers a ++ filter (fun s => usable s = true) (dedup (fa_seen a) (omap clean l)) /\
  (forall base, accounted base a -> accounted base a') /\
  (accounted (map_total (fa_excluded a) - fa_unsupported a) a -> untouched a' ->
   untouched a /\ forall s, s ∈ omap clean l -> sv_ID s ∈ fa_seen a).
Proof.
  cbv zeta. revert a. induction l as [|srv l IH]; intros a; cbn [foldl].
  { cbn. rewrite app_nil_r. split_and!; [done|done|]. split; [done|set_solver]. }
  destruct (fetch_server_spec a srv) as (Hs & Hn & Hacc & Hun).
  destruct (IH (fetch_server a srv)) as (HsI & HaccI & HunI).
  assert (Homap : omap clean (srv :: l) = option_list (clean srv) ++ omap clean l).
  { cbn. by destruct (clean srv). }
  rewrite Homap, dedup_app, filter_app, HsI, Hs, Hn, <- app_assoc.
  split_and!; [done|auto|]. intros Ha Hu.
  pose proof (Hacc _ Ha) as (Hc & Ht & Hpos).
  destruct HunI as [Hu' Hin]; [split_and!; [done|lia|done]|done|].
  destruct Hun as [Hua Hclean]; [apply Ha|done|]. split; [done|].
  assert (Hcl : forall s, s ∈ option_list (clean srv) -> sv_ID s ∈ fa_seen a).
  { intros s Hs'. apply Hclean. destruct (clean srv); cbn in Hs'; [|set_solver].
    by apply list_elem_of_singleton in Hs' as ->. }
  intros s [Hs'|Hs']%elem_of_app; [by apply Hcl|].
  apply Hin in Hs'. rewrite Hn in Hs'. apply elem_of_union in Hs' as [Hs'|?]; [|done].
  apply elem_of_list_to_set, list_elem_of_fmap in Hs' as (s' & -> & Hs'). by apply Hcl.
Qed.

Lemma classify_spec `{ServerDigest} parsed invalid :
  (0 <= invalid)%Z ->
  let a := classify parsed invalid in
  fa_servers a = fresh_catalog parsed /\
  map_total (fa_excluded a) = (fa_unsupported a + invalid)%Z /\
  (0 <= fa_unsupported a)%Z /\ (0 <= fa_placeholder a)%Z /\
  (fa_servers a = [] -> fa_unsupported a = 0%Z -> fa_placeholder a = 0%Z -> omap clean parsed = []).
Proof.
  intros Hi. cbv zeta. unfold classify. set (a0 := mkFetch _ _ _ _ _ _).
  assert (Hex : map_total (fa_excluded a0) = invalid).
  { subst a0. cbn [fa_excluded]. destruct (Z.ltb_spec 0 invalid); [|change (0%Z = invalid); lia].
    unfold map_total. rewrite map_fold_singleton. lia. }
  assert (H0 : accounted invalid a0).
  { split_and!; [done| |done]. rewrite Hex. cbn. lia. }
  destruct (fetch_servers_spec parsed a0) as (Hs & Hacc & Hun). rewrite Hex in Hun.
  change (fa_seen a0) with (∅ : gset string) in *. change (fa_unsupported a0) with 0%Z in Hun.
  destruct (Hacc _ H0) as (Hc & Ht & Hp).
  split_and!; [exact Hs|lia|lia|done|]. intros Hnil Hz Hph.
  destruct Hun as [_ Hin].
  { by rewrite Z.sub_0_r. }
  { split_and!; [done|done|]. apply leibniz_equiv, size_empty_inv. lia. }
  destruct (omap clean parsed) as [|s rest]; [done|]. exfalso.
  specialize (Hin s (list_elem_of_here _ _)). set_solver.
Qed.

(** Only a placeholder profile is counted as one. *)
Lemma placeholder_source `{ServerDigest} l a :
  fa_placeholder (foldl fetch_server a l) = fa_placeholder a \/
  exists s, s ∈ omap clean l /\ isPlaceholderServer s = true.
Proof.
  assert (Hp : forall a srv, fa_placeholder (fetch_profile a srv) = fa_placeholder a \/
    isPlaceholderServer (fingerprinted srv) = true).
  { intros b srv. unfold fetch_profile. cbv zeta. fold (fingerprinted srv).
    case_bool_decide; [by left|]. destruct (isPlaceholderServer _); [by right|left].
    destruct (isSupportedServer _); [done|]. by rewrite (proj1 (proj2 (proj2 (exclude_other _ _)))). }
  revert a. induction l as [|srv l IH]; intros a; cbn [foldl]; [by left|].
  assert (Hs : fa_placeholder (fetch_server a srv) = fa_placeholder a \/
    exists s, clean srv = Some s /\ isPlaceholderServer s = true).
  { unfold fetch_server, clean. destruct (sv_Members srv) as [|m ms].
    { destruct (Hp a srv); eauto. }
    pose proof (fetch_members (m :: ms) [] ∅ a) as Hm.
    destruct (foldl _ _ _) as [[members seen'] a1]. destruct Hm as (-> & _ & _ & _ & Hpl & _).
    rewrite app_nil_l. destruct (clean_members ∅ (m :: ms)) as [|first rest]; [by left|].
    match goal with |- context [fetch_profile _ ?s] => destruct (Hp a1 s) as [Heq|Heq] end.
    - left. congruence.
    - right. eexists. split; [reflexivity|exact Heq]. }
  destruct (IH (fetch_server a srv)) as [Heq|(s & Hs' & Hps)].
  - rewrite Heq. destruct Hs as [|(s & Hc & Hps)]; [by left|]. right. exists s. split; [|done].
    apply list_elem_of_omap. exists srv. split; [left|done].
  - right. exists s. split; [|done]. apply list_elem_of_omap in Hs' as (srv' & ? & ?).
    apply list_elem_of_omap. exists srv'. split; [by right|done].
Qed.

(** *** What cleaning and deduplication establish *)

Definition clean_entry `{ServerDigest} (s : VLESSServer) : Prop :=
  sv_ID s = serverFingerprint s /\ usable s = true.

(** A catalog the rest of the program can work with. *)
Definition clean_catalog `{ServerDigest} (servers : list VLESSServer) : Prop :=
  NoDup (sv_ID <$> servers) /\ Forall clean_entry servers /\
  Forall (fun s => NoDup (sv_ID <$> sv_Members s) /\ Forall clean_entry (sv_Members s)) servers.

Lemma NoDup_fmap_filter {A B} (f : A -> B) (P : A -> Prop) `{forall x, Decision (P x)} l :
  NoDup (f <$> l) -> NoDup (f <$> filter P l).
Proof.
  induction l as [|x l IH]; [done|]. rewrite fmap_cons, filter_cons, NoDup_cons. intros [Hx Hl].
  case_decide; [|by apply IH]. rewrite fmap_cons, NoDup_cons. split; [|by apply IH].
  intros (y & Heq & [_ Hy]%list_elem_of_filter)%list_elem_of_fmap. apply Hx, list_elem_of_fmap. eauto.
Qed.

Lemma fingerprinted_ID `{ServerDigest} s : sv_ID (fingerprinted s) = serverFingerprint (fingerprinted s).
Proof. unfold fingerprinted. by rewrite fingerprint_ID. Qed.

Lemma clean_members_clean `{ServerDigest} seen ms :
  NoDup (sv_ID <$> clean_members seen ms) /\ Forall clean_entry (clean_members seen ms).
Proof.
  unfold clean_members. set (l := filter _ (fingerprinted <$> ms)).
  destruct (dedup_spec seen l) as [Hnd Hel]. split; [by apply NoDup_fmap_filter|].
  apply Forall_forall. intros s [Hsup Hs]%list_elem_of_filter. apply Hel in Hs as [Hs _].
  subst l. apply list_elem_of_filter in Hs as [Hph (s' & -> & _)%list_elem_of_fmap].
  split; [apply fingerprinted_ID|]. unfold usable. by rewrite Hph, Hsup.
Qed.

Lemma clean_Some `{ServerDigest} srv s :
  clean srv = Some s ->
  sv_ID s = serverFingerprint s /\ NoDup (sv_ID <$> sv_Members s) /\ Forall clean_entry (sv_Members s).
Proof.
  unfold clean. destruct (sv_Members srv) as [|m ms] eqn:Hm.
  { intros [= <-]. split; [apply fingerprinted_ID|]. unfold fingerprinted.
    change (sv_Members (srv <| sv_ID := _ |>)) with (sv_Members srv). rewrite Hm.
    split; constructor. }
  cbv zeta. destruct (clean_members_clean ∅ (m :: ms)) as [Hnd Hall].
  destruct (clean_members ∅ (m :: ms)) as [|first rest]; [done|].
  intros [= <-]. split; [apply fingerprinted_ID|]. by split.
Qed.

Lemma fresh_catalog_clean `{ServerDigest} parsed : clean_catalog (fresh_catalog parsed).
Proof.
  unfold fresh_catalog. destruct (dedup_spec ∅ (omap clean parsed)) as [Hnd Hel].
  assert (Hcl : forall s, s ∈ dedup ∅ (omap clean parsed) -> exists srv, clean srv = Some s).
  { intros s Hs. apply Hel in Hs as [(srv & _ & ?)%list_elem_of_omap _]. by exists srv. }
  split; [by apply NoDup_fmap_filter|].
  split; apply Forall_forall; intros s [Hu (srv & Hs)%Hcl]%list_elem_of_filter;
    by destruct (clean_Some _ _ Hs) as (? & ? & ?).
Qed.

Lemma parseEntries_invalid `{JSONCodec, URLCodec, ServerDigest, SubscriptionCodec} text :
  (0 <= (parseEntries text).2)%Z.
Proof.
  unfold parseEntries.
  assert (Hf : (0 <= (foldl link_line ([], 0%Z) (Split text newline)).2)%Z).
  { apply (foldl_preserve (fun acc => (0 <= acc.2)%Z)); [|done].
    intros [parsed invalid] line _ Hacc. unfold link_line. cbv zeta.
    destruct (_ || _); [done|]. destruct (HasPrefix _ _); [|done].
    destruct (parseVLESSURI _); cbn in *; lia. }
  destruct (foldl _ _ _) as [[|srv parsed] invalid]; [|done].
  destruct (parseXrayJSONServersDetailed text). cbn in *. lia.
Qed.

(** The parsed entries of a document. *)
Definition document `{JSONCodec, URLCodec, ServerDigest, SubscriptionCodec} (body : string)
  : list VLESSServer * Z := parseEntries (subscriptionText body).


(** *** Loading *)

(** The entry a stored server becomes. *)
Definition stored_entry `{ServerDigest} (srv : VLESSServer) : VLESSServer :=
  fingerprinted (srv <| sv_Network ::= normalizeVLESSNetwork |>).

Definition supported_catalog `{ServerDigest} (servers : list VLESSServer) : Prop :=
  migrated servers /\ Forall (fun s => isSupportedServer s = true) servers.

Lemma stored_entry_canonical `{ServerDigest} srv : canonical (stored_entry srv).
Proof.
  unfold stored_entry, fingerprinted. rewrite fingerprint_normalize. apply canonical_new.
Qed.

Definition load_inv `{ServerDigest} (done : list VLESSServer) (a : load_acc) : Prop :=
  la_seen a = list_to_set (sv_ID <$> la_unique a) /\ supported_catalog (la_unique a) /\
  (forall srv, srv ∈ done -> isSupportedServer (stored_entry srv) = true ->
     sv_ID (stored_entry srv) ∈ la_seen a) /\
  (forall srv, srv ∈ done -> sv_ID srv <> "" -> exists l,
     la_oldToNew a !! sv_ID srv = Some l /\ sv_ID (stored_entry srv) ∈ l).

Lemma load_server_inv `{ServerDigest} done srv a :
  load_inv done a -> load_inv (done ++ [srv]) (load_server a srv).
Proof.
  intros (Hseen & [[Hnd Hcan] Hsup] & Hin & Hmap). unfold load_server. cbv zeta.
  fold (fingerprinted (srv <| sv_Network ::= normalizeVLESSNetwork |>)). fold (stored_entry srv).
  set (o2n := if bool_decide (sv_ID srv = "") then _ else _).
  assert (Hmap' : forall s, s ∈ done ++ [srv] -> sv_ID s <> "" -> exists l,
     o2n !! sv_ID s = Some l /\ sv_ID (stored_entry s) ∈ l).
  { intros s Hs Hne. subst o2n. case_bool_decide as He.
    { apply elem_of_app in Hs as [Hs|Hs%list_elem_of_singleton]; [by apply Hmap|congruence]. }
    destruct (decide (sv_ID s = sv_ID srv)) as [Heq|Hneq].
    - rewrite Heq, lookup_insert_eq. eexists. split; [done|]. apply elem_of_app.
      apply elem_of_app in Hs as [Hs|Hs%list_elem_of_singleton].
      + left. destruct (Hmap s Hs Hne) as (l & Hl & ?). rewrite <- Heq, Hl. done.
      + right. subst s. by apply list_elem_of_singleton.
    - rewrite lookup_insert_ne by done. apply elem_of_app in Hs as [Hs|Hs%list_elem_of_singleton];
        [by apply Hmap|congruence]. }
  assert (Hskip : isSupportedServer (stored_entry srv) = false \/ sv_ID (stored_entry srv) ∈ la_seen a ->
    forall n, load_inv (done ++ [srv]) (mkLoad o2n (la_seen a) (la_unique a) n)).
  { intros Hcase n. split_and!; try done. cbn [la_seen].
    intros s [?|Hs]%elem_of_snoc Hs'; [by apply Hin|]. subst s.
    destruct Hcase; [congruence|done]. }
  destruct (isSupportedServer (stored_entry srv)) eqn:Hs; [|apply Hskip; by left].
  case_bool_decide as Hi; [apply Hskip; by right|].
  unfold load_inv, supported_catalog, migrated; cbn [la_seen la_unique la_oldToNew].
  rewrite fmap_app, Hseen. change (sv_ID <$> [stored_entry srv]) with [sv_ID (stored_entry srv)].
  clear Hskip. pose proof (stored_entry_canonical srv) as Hcan'.
  remember (stored_entry srv) as e eqn:Heq. clearbody o2n.
  split; [|split; [split; [split|]|split; [|done]]].
  - rewrite list_to_set_app_L. cbn [list_to_set]. clear; set_solver.
  - apply NoDup_snoc; [|done]. rewrite Hseen in Hi. by rewrite elem_of_list_to_set in Hi.
  - by auto with vm.
  - by auto with vm.
  - intros s [Hd|Hd]%elem_of_snoc Hs'.
    + rewrite Hseen in Hin. apply elem_of_union_r, Hin; done.
    + subst s e. by apply elem_of_union_l, elem_of_singleton_2.
Qed.

Lemma load_fold_inv `{ServerDigest} servers :
  load_inv servers (foldl load_server (mkLoad ∅ ∅ [] 0) servers).
Proof.
  apply foldl_seen; [intros; by apply load_server_inv|].
  split; [done|]. split; [split; [split; constructor|constructor]|].
  split; intros srv Hs; by apply elem_of_nil in Hs.
Qed.

Lemma migrate_disabled_fold seen l disabled :
  NoDup disabled -> Forall (fun id => id ∈ seen) disabled ->
  let out := foldl (migrate_disabled_one seen) disabled l in
  NoDup out /\ Forall (fun id => id ∈ seen) out /\
  (forall id, id ∈ out <-> id ∈ disabled \/ id ∈ l /\ id ∈ seen).
Proof.
  revert disabled. induction l as [|x l IH]; intros disabled Hnd Hall; cbn [foldl].
  { cbv zeta. split_and!; try done. set_solver. }
  unfold migrate_disabled_one at 2 4 6.
  destruct (decide (x ∈ seen)) as [Hx|Hx].
  2: { rewrite (bool_decide_eq_false_2 (x ∈ seen)) by done. cbn [andb].
       destruct (IH disabled Hnd Hall) as (? & ? & Hel). split_and!; try done.
       intros id. rewrite Hel. set_solver. }
  rewrite (bool_decide_eq_true_2 (x ∈ seen)) by done. cbn [andb].
  destruct (decide (x ∈ disabled)) as [Hd|Hd].
  - rewrite (bool_decide_eq_true_2 (x ∈ disabled)) by done. cbn [negb].
    destruct (IH disabled Hnd Hall) as (? & ? & Hel). split_and!; try done.
    intros id. rewrite Hel. set_solver.
  - rewrite (bool_decide_eq_false_2 (x ∈ disabled)) by done. cbn [negb].
    destruct (IH (disabled ++ [x])) as (? & ? & Hel);
      [by apply NoDup_snoc|apply Forall_app; by repeat constructor|].
    split_and!; try done. intros id. rewrite Hel. set_solver.
Qed.

Lemma migrateDisabled_spec oldToNew seen ids :
  let out := migrateDisabled oldToNew seen ids in
  NoDup out /\ Forall (fun id => id ∈ seen) out /\
  (forall id new, id ∈ ids -> new ∈ default [id] (oldToNew !! id) -> new ∈ seen -> new ∈ out).
Proof.
  cbv zeta. unfold migrateDisabled.
  cut (let out := foldl (fun disabled id =>
    foldl (migrate_disabled_one seen) disabled (default [id] (oldToNew !! id))) [] ids in
    NoDup out /\ Forall (fun id => id ∈ seen) out /\
    (forall id new, id ∈ ids -> new ∈ default [id] (oldToNew !! id) -> new ∈ seen -> new ∈ out)); [done|].
  apply (foldl_seen (fun done out => NoDup out /\ Forall (fun id => id ∈ seen) out /\
    (forall id new, id ∈ done -> new ∈ default [id] (oldToNew !! id) -> new ∈ seen -> new ∈ out))).
  - intros done_ id out _ (Hnd & Hall & Hin).
    destruct (migrate_disabled_fold seen (default [id] (oldToNew !! id)) out Hnd Hall) as (? & ? & Hel).
    split_and!; try done. intros id' new [Hd|Hd]%elem_of_snoc Hnew Hs;
      apply Hel; [left; by eapply Hin|right; by subst].
  - split_and!; [constructor|constructor|set_solver].
Qed.

Lemma stored_entry_fixed `{ServerDigest} s : canonical s -> stored_entry s = s.
Proof.
  intros [Hid Hnet]. unfold stored_entry.
  assert (Hs : s <| sv_Network ::= normalizeVLESSNetwork |> = s).
  { destruct s. reduce_server. by f_equal. }
  rewrite Hs. unfold fingerprinted. rewrite <- Hid. by destruct s.
Qed.

Lemma load_server_fixed `{ServerDigest} servers acc :
  supported_catalog servers ->
  (forall s, s ∈ servers -> sv_ID s ∉ la_seen acc) ->
  (forall id l, la_oldToNew acc !! id = Some l -> id ∈ la_seen acc /\ l = [id]) ->
  let a := foldl load_server acc servers in
  la_unique a = la_unique acc ++ servers /\ la_removed a = la_removed acc /\
  la_seen a = list_to_set (sv_ID <$> servers) ∪ la_seen acc /\
  (forall id, default [id] (la_oldToNew a !! id) = [id]).
Proof.
  cbv zeta. revert acc. induction servers as [|s rest IH]; intros acc [[Hnd Hcan] Hsup] Hfresh Hmap; cbn [foldl].
  { rewrite app_nil_r. split_and!; [done|done|cbn [fmap list_fmap list_to_set]; by rewrite (left_id_L ∅ (∪))|].
    intros id. destruct (la_oldToNew acc !! id) as [l|] eqn:Hl; [|done]. by destruct (Hmap _ _ Hl) as [_ ->]. }
  apply Forall_cons in Hcan as [Hs Hcan]. apply Forall_cons in Hsup as [Hs' Hsup].
  rewrite fmap_cons in Hnd. apply NoDup_cons in Hnd as [Hni Hnd].
  assert (Hstep : load_server acc s = mkLoad
     (if bool_decide (sv_ID s = "") then la_oldToNew acc else <[sv_ID s := [sv_ID s]]> (la_oldToNew acc))
     ({[sv_ID s]} ∪ la_seen acc) (la_unique acc ++ [s]) (la_removed acc)).
  { unfold load_server. cbv zeta. fold (fingerprinted (s <| sv_Network ::= normalizeVLESSNetwork |>)).
    fold (stored_entry s). rewrite (stored_entry_fixed _ Hs), Hs'.
    rewrite bool_decide_eq_false_2 by (apply Hfresh; left).
    destruct (la_oldToNew acc !! sv_ID s) as [l|] eqn:Hl; [|done].
    destruct (Hmap _ _ Hl) as [Hin _]. by destruct (Hfresh s (list_elem_of_here _ _)). }
  rewrite Hstep. destruct (IH (mkLoad
     (if bool_decide (sv_ID s = "") then la_oldToNew acc else <[sv_ID s := [sv_ID s]]> (la_oldToNew acc))
     ({[sv_ID s]} ∪ la_seen acc) (la_unique acc ++ [s]) (la_removed acc))) as (-> & -> & -> & Hdef).
  - by split; [split|].
  - cbn [la_seen]. intros s' Hin. apply not_elem_of_union. split; [|apply Hfresh; by right].
    apply not_elem_of_singleton. intros Heq. apply Hni, list_elem_of_fmap. eauto.
  - cbn [la_oldToNew la_seen]. intros id l Hl. case_bool_decide.
    + destruct (Hmap _ _ Hl). split; [by apply elem_of_union_r|done].
    + apply lookup_insert_Some in Hl as [[<- <-]|[_ Hl]].
      * split; [by apply elem_of_union_l, elem_of_singleton_2|done].
      * destruct (Hmap _ _ Hl). split; [by apply elem_of_union_r|done].
  - cbn [la_unique la_removed la_seen]. rewrite <- app_assoc.
    split_and!; [done|done| |done]. cbn [fmap list_fmap list_to_set]. clear; set_solver.
Qed.

Lemma migrateDisabled_fixed oldToNew seen ids :
  (forall id, default [id] (oldToNew !! id) = [id]) -> NoDup ids -> Forall (fun id => id ∈ seen) ids ->
  migrateDisabled oldToNew seen ids = ids.
Proof.
  intros Hdef. unfold migrateDisabled.
  cut (forall out, NoDup (out ++ ids) -> Forall (fun id => id ∈ seen) ids ->
    foldl (fun disabled id => foldl (migrate_disabled_one seen) disabled (default [id] (oldToNew !! id)))
      out ids = out ++ ids); [intros H; by apply (H [])|].
  induction ids as [|id ids IH]; intros out Hnd Hall; cbn [foldl]; [by rewrite app_nil_r|].
  apply Forall_cons in Hall as [Hid Hall]. rewrite Hdef. cbn [foldl].
  unfold migrate_disabled_one at 2. rewrite bool_decide_eq_true_2 by done.
  rewrite bool_decide_eq_false_2.
  - cbn [negb andb]. rewrite IH, <- app_assoc; [done| |done]. by rewrite <- app_assoc.
  - apply NoDup_app in Hnd as (_ & Hd & _). intros Hin. apply (Hd id Hin). left.
Qed.

(** A subscription as [loadSubscriptions] leaves it. *)
Definition loaded `{ServerDigest} (sub : Subscription) : Prop :=
  sub_ID sub = subscriptionID (sub_URL sub) /\ supported_catalog (sub_Servers sub) /\
  NoDup (sub_DisabledServerIDs sub) /\
  Forall (fun id => id ∈ sv_ID <$> sub_Servers sub) (sub_DisabledServerIDs sub).

(** The servers the user disabled in [raw] stay disabled under the identifier
    they are stored with. *)
Definition choices_kept `{ServerDigest} (raw sub : Subscription) : Prop :=
  forall srv, srv ∈ sub_Servers raw -> sv_ID srv <> "" -> sv_ID srv ∈ sub_DisabledServerIDs raw ->
    isSupportedServer (stored_entry srv) = true ->
    sv_ID (stored_entry srv) ∈ sub_DisabledServerIDs sub.

Lemma load_subscription_spec `{ServerDigest, URLCodec} raw :
  loaded (load_subscription raw) /\ choices_kept raw (load_subscription raw).
Proof.
  unfold load_subscription. cbv zeta.
  destruct (load_fold_inv (sub_Servers raw)) as (Hseen & Hcat & Hsup & Hmap).
  set (a := foldl load_server _ _) in *. clearbody a.
  destruct (migrateDisabled_spec (la_oldToNew a) (la_seen a) (sub_DisabledServerIDs raw)) as (Hnd & Hall & Hin).
  unfold loaded, choices_kept, upd. cbn [sub_ID sub_URL sub_Servers sub_DisabledServerIDs].
  split; [split_and!; [done|exact Hcat|done|]|].
  - eapply Forall_impl; [exact Hall|]. intros id. by rewrite Hseen, elem_of_list_to_set.
  - intros srv Hs Hne Hd Hsu. destruct (Hmap srv Hs Hne) as (l & Hl & Hel).
    apply (Hin (sv_ID srv)); [done|by rewrite Hl|by apply Hsup].
Qed.

Lemma load_subscription_fixed `{ServerDigest, URLCodec} sub :
  loaded sub -> normalizeSubscriptionURL (sub_URL sub) = sub_URL sub -> load_subscription sub = sub.
Proof.
  intros (Hid & Hcat & Hnd & Hall) Hurl. unfold load_subscription. cbv zeta. rewrite Hurl.
  destruct (load_server_fixed (sub_Servers sub) (mkLoad ∅ ∅ [] 0) Hcat) as (Hu & Hr & Hs & Hd).
  { intros. apply not_elem_of_empty. }
  { intros id l. cbn [la_oldToNew]. by rewrite lookup_empty. }
  set (a := foldl load_server _ _) in *. clearbody a.
  destruct sub as [s1 s2 s3 s4 s5 s6 s7 s8 s9 s10 s11 s12 s13].
  unfold upd.
  cbn [sub_ID sub_Name sub_ProviderName sub_Description sub_URL sub_Servers sub_UpdatedAt sub_Error
       sub_UserInfo sub_Disabled sub_DisabledServerIDs sub_ExcludedServers sub_ExcludedTransports
       la_unique la_removed la_seen app] in Hid, Hu, Hr, Hs, Hnd, Hall |- *.
  rewrite Hu, Hr, <- Hid.
  rewrite migrateDisabled_fixed; [done|done|done|].
  eapply Forall_impl; [exact Hall|]. cbn. intros id Hin. rewrite Hs.
  apply elem_of_union_l. by apply elem_of_list_to_set.
Qed.

Lemma load_entries_spec `{ServerDigest, URLCodec} raws i seen :
  match load_entries i seen raws with
  | Ok subs =>
      NoDup (sub_ID <$> subs) /\ None ∉ raws /\
      (forall sub, sub ∈ subs -> sub_ID sub ∉ seen /\
         exists raw, Some raw ∈ raws /\ sub = load_subscription raw) /\
      (forall raw, Some raw ∈ raws -> sub_ID (load_subscription raw) ∈ seen \/
         sub_ID (load_subscription raw) ∈ sub_ID <$> subs)
  | Err e => exists j, e = NullEntry (i + j) /\ raws !! j = Some None
  end.
Proof.
  revert i seen. induction raws as [|[raw|] raws IH]; intros i seen; cbn [load_entries].
  { split_and!; [constructor|apply not_elem_of_nil|intros ? []%not_elem_of_nil|intros ? []%not_elem_of_nil]. }
  2: { exists 0%nat. by rewrite Nat.add_0_r. }
  cbv zeta. change (subscriptionID (normalizeSubscriptionURL (sub_URL raw))) with (sub_ID (load_subscription raw)).
  case_bool_decide as Hin.
  - specialize (IH (S i) seen). destruct (load_entries (S i) seen raws) as [subs|e].
    + destruct IH as (Hnd & Hnone & Hsrc & Hall). split_and!; [done| | |].
      * intros [?|?]%elem_of_cons; done.
      * intros sub Hs. destruct (Hsrc sub Hs) as (? & raw' & ? & ?). split; [done|]. exists raw'. split; [by right|done].
      * intros raw' [[= ->]|Hr]%elem_of_cons; [by left|by apply Hall].
    + destruct IH as (j & -> & Hj). exists (S j). split; [f_equal; lia|done].
  - specialize (IH (S i) ({[sub_ID (load_subscription raw)]} ∪ seen)).
    destruct (load_entries (S i) _ raws) as [subs|e]; cbn [result_bind].
    + destruct IH as (Hnd & Hnone & Hsrc & Hall). split_and!.
      * rewrite fmap_cons. apply NoDup_cons. split; [|done].
        intros (sub & Heq & Hs)%list_elem_of_fmap. destruct (Hsrc sub Hs) as [Hns _]. apply Hns.
        rewrite <- Heq. by apply elem_of_union_l, elem_of_singleton_2.
      * intros [?|?]%elem_of_cons; done.
      * intros sub [->|Hs]%elem_of_cons; [split; [done|]; exists raw; split; [left|done]|].
        destruct (Hsrc sub Hs) as (Hns & raw' & ? & ?). split; [|exists raw'; split; [by right|done]].
        intros ?. apply Hns. by apply elem_of_union_r.
      * intros raw' [[= ->]|Hr]%elem_of_cons; [right; left|].
        destruct (Hall raw' Hr) as [[Hx%elem_of_singleton|?]%elem_of_union|?];
          [right; rewrite Hx; left|by left|right; by right].
    + destruct IH as (j & -> & Hj). exists (S j). split; [f_equal; lia|done].
Qed.

Lemma load_entries_fixed `{ServerDigest, URLCodec} subs i seen :
  NoDup (sub_ID <$> subs) -> Forall loaded subs ->
  Forall (fun sub => normalizeSubscriptionURL (sub_URL sub) = sub_URL sub) subs ->
  (forall sub, sub ∈ subs -> sub_ID sub ∉ seen) ->
  load_entries i seen (Some <$> subs) = Ok subs.
Proof.
  revert i seen. induction subs as [|sub subs IH]; intros i seen Hnd Hl Hu Hf; [done|].
  apply Forall_cons in Hl as [Hs Hl]. apply Forall_cons in Hu as [Hsu Hu].
  rewrite fmap_cons in Hnd. rewrite fmap_cons. apply NoDup_cons in Hnd as [Hni Hnd].
  cbn [load_entries]. cbv zeta. rewrite Hsu. destruct Hs as [Hid Hrest]. rewrite <- Hid.
  rewrite bool_decide_eq_false_2 by (apply Hf; left).
  rewrite IH; [|done|done|done|].
  - cbn [result_bind]. by rewrite load_subscription_fixed.
  - intros sub' Hin [Hx%elem_of_singleton|Hx]%elem_of_union; [|by apply (Hf sub'); [right|]].
    apply Hni. rewrite <- Hx. apply list_elem_of_fmap. eauto.
Qed.

(** Loading [subscriptions.json] migrates it without losing the user's
    choices.  The loaded list has one subscription per normalised URL, with
    stable identifiers, catalogs of distinct, canonical and supported servers,
    and disabled identifiers that each name one of these servers; every
    loaded subscription comes from an entry of the file, every entry of the
    file is represented, and a supported server the user had disabled under its
    old identifier is still disabled.  Loading what was saved again changes
    nothing.  A null entry is reported at its position, and only then. *)
Theorem loadSubscriptions_migrates `{ServerDigest, URLCodec} decode data raws :
  decode data = Some raws ->
  match loadSubscriptions decode (FileData data) with
  | Ok subs =>
      NoDup (sub_ID <$> subs) /\ Forall loaded subs /\
      (forall sub, sub ∈ subs -> exists raw, Some raw ∈ raws /\ choices_kept raw sub) /\
      (forall raw, Some raw ∈ raws ->
         subscriptionID (normalizeSubscriptionURL (sub_URL raw)) ∈ sub_ID <$> subs) /\
      (forall decode' saved, decode' saved = Some (Some <$> subs) ->
         Forall (fun sub => normalizeSubscriptionURL (sub_URL sub) = sub_URL sub) subs ->
         loadSubscriptions decode' (FileData saved) = Ok subs)
  | Err e => exists i, e = NullEntry i /\ raws !! i = Some None
  end.
Proof.
  intros Hdec. cbn [loadSubscriptions]. rewrite Hdec.
  pose proof (load_entries_spec raws 0 ∅) as Hspec.
  destruct (load_entries 0 ∅ raws) as [subs|e].
  - destruct Hspec as (Hnd & _ & Hsrc & Hall).
    assert (Hl : Forall loaded subs).
    { apply Forall_forall. intros sub Hs. destruct (Hsrc sub Hs) as (_ & raw & _ & ->).
      apply load_subscription_spec. }
    split; [done|]. split; [done|]. split; [|split].
    + intros sub Hs. destruct (Hsrc sub Hs) as (_ & raw & Hr & ->). exists raw.
      split; [done|apply load_subscription_spec].
    + intros raw Hr. by destruct (Hall raw Hr) as [[]%not_elem_of_empty|?].
    + intros decode' saved -> Hu. by apply load_entries_fixed.
  - by destruct Hspec as (j & -> & Hj); exists j.
Qed.

(** *** A refresh *)

Lemma preserved_id_Some previous servers id id' :
  preserved_id previous servers id = Some id' ->
  exists c, c ∈ servers /\ sv_ID c = id' /\
    (sv_ID c = id \/ exists old, find_by_id id (sub_Servers previous) = Some old /\
       sameCatalogServer old c = true).
Proof.
  unfold preserved_id. cbv zeta.
  destruct (list_find _ servers) as [[i c]|] eqn:Hf; [|done]. intros [= <-].
  apply list_find_Some in Hf as (Hi & Hc & _). exists c.
  split; [by eapply list_elem_of_lookup_2|]. split; [done|].
  apply orb_true_iff in Hc as [Hc|Hc]; [left; by apply bool_decide_eq_true in Hc|right].
  destruct (find_by_id id (sub_Servers previous)) as [old|]; [by exists old|done].
Qed.

Lemma preserved_id_offered previous servers id :
  id ∈ sv_ID <$> servers -> is_Some (preserved_id previous servers id).
Proof.
  intros (c & -> & Hc)%list_elem_of_fmap. unfold preserved_id. cbv zeta.
  destruct (list_find _ servers) as [[i c']|] eqn:Hf; [by eexists|].
  rewrite list_find_None in Hf. rewrite Forall_forall in Hf. specialize (Hf c Hc).
  rewrite bool_decide_eq_true_2 in Hf by done. by destruct Hf.
Qed.

(** A refresh keeps the user's choices.  The switch of the subscription is
    the previous one; a server disabled after the refresh is one the provider
    offers and continues a server the user had disabled (same identifier, or
    same name, address and port); and a disabled server that is still offered
    stays disabled, unless another offered server has its name, address and
    port. *)
Theorem preserveSubscriptionOptions_choices fresh previous :
  sub_DisabledServerIDs fresh = [] ->
  let merged := preserveSubscriptionOptions fresh previous in
  sub_Servers merged = sub_Servers fresh /\ sub_Disabled merged = sub_Disabled previous /\
  (forall id', serverDisabled merged id' = true -> exists c id,
     c ∈ sub_Servers fresh /\ sv_ID c = id' /\ serverDisabled previous id = true /\
     (sv_ID c = id \/ exists old, find_by_id id (sub_Servers previous) = Some old /\
        sameCatalogServer old c = true)) /\
  (forall id, serverDisabled previous id = true -> id ∈ sv_ID <$> sub_Servers fresh ->
     (forall old c, find_by_id id (sub_Servers previous) = Some old -> c ∈ sub_Servers fresh ->
        sameCatalogServer old c = true -> sv_ID c = id) ->
     serverDisabled merged id = true).
Proof.
  intros Hnil. cbv zeta. unfold preserveSubscriptionOptions, serverDisabled, containsServerID, upd.
  cbn [sub_Servers sub_Disabled sub_DisabledServerIDs]. rewrite Hnil, app_nil_l.
  split; [done|]. split; [done|]. split.
  - intros id' (x & Hx & Heq)%existsb_exists. apply bool_decide_eq_true in Heq as ->.
    apply list_elem_of_In, list_elem_of_omap in Hx as (id & Hid & Hp).
    apply preserved_id_Some in Hp as (c & Hc & Hcid & Hwhy). exists c, id.
    split_and!; try done. apply existsb_exists. exists id.
    split; [by apply list_elem_of_In|by apply bool_decide_eq_true].
  - intros id (x & Hx & Heq)%existsb_exists Hin Huniq. apply bool_decide_eq_true in Heq as ->.
    destruct (preserved_id_offered previous (sub_Servers fresh) id Hin) as [id' Hp].
    apply existsb_exists. exists id'. split.
    + apply list_elem_of_In, list_elem_of_omap. exists id. split; [by apply list_elem_of_In|done].
    + apply bool_decide_eq_true.
      apply preserved_id_Some in Hp as (c & Hc & <- & [?|(old & Hold & Hsame)]); [done|].
      by apply (Huniq old c).
Qed.

(** ** Witnesses *)

Definition plain_codec : SubscriptionCodec := {|
  json_configs := fun _ => None; json_config := fun _ => None;
  json_strings := fun _ => None; json_single_string := fun _ => None |}.

Definition twin (id network : string) : VLESSServer :=
  emptyServer <| sv_ID := id |> <| sv_Name := "Finland" |> <| sv_Address := "vpn.example" |>
    <| sv_Port := 443%Z |> <| sv_UUID := "u" |> <| sv_Network := network |>.

Definition twins (disabled : list string) : Subscription :=
  mkSubscription "s" "s" "" "" "https://sub.example/" [twin "first" "tcp"; twin "second" "ws"]
    zero_time "" None false disabled 0 ∅.

(** The exception in the previous property occurs: a provider that offers
    one endpoint over two transports under one name gives two profiles with the
    same name, address and port.  The user disables the second; a refresh that
    returns the very same servers disables the first one and enables the second
    again. *)
Theorem refresh_moves_choice :
  let merged := preserveSubscriptionOptions (twins []) (twins ["second"]) in
  sub_Servers merged = sub_Servers (twins ["second"]) /\
  serverDisabled (twins ["second"]) "second" = true /\
  serverDisabled merged "second" = false /\ serverDisabled merged "first" = true.
Proof. vm_compute. done. Qed.

(** A fetch through the plain codecs. *)
Example fetch_plain :
  match @fetchSubscriptionWithClientContext plain_json plain_url plain_digest plain_codec "vm-1" 5
    (fun _ => Response 200 (fun _ => "") (Some ("# a comment" +:+ String newline "vless://uuid@host.example:8443")))
    "https://sub.example/" with
  | Ok sub => sv_ID <$> sub_Servers sub = ["host.example/tcp"] /\ sub_Name sub = "host.example"
  | Err _ => False
  end.
Proof. vm_compute. done. Qed.

Definition stored_raw : list (option Subscription) :=
  [Some (plain_subscription <| sub_DisabledServerIDs := ["dup"] |>); Some plain_subscription].

Lemma loadSubscriptions_migrates_witness : exists subs,
  @loadSubscriptions plain_digest plain_url (fun _ => Some stored_raw) (FileData "") = Ok subs /\
  sub_DisabledServerIDs <$> subs = [["b/tcp"]] /\ NoDup (sub_ID <$> subs).
Proof.
  pose proof (@loadSubscriptions_migrates plain_digest plain_url (fun _ => Some stored_raw) "" stored_raw
    eq_refl) as H.
  eexists. split; [vm_compute; reflexivity|]. split; [reflexivity|].
  destruct (@loadSubscriptions _ _ _ _) as [subs|e] eqn:Heq in H; vm_compute in Heq; [|done].
  injection Heq as Hs. rewrite <- Hs in H. exact (proj1 H).
Defined.

Lemma preserveSubscriptionOptions_choices_witness :
  serverDisabled (preserveSubscriptionOptions plain_subscription
    (plain_subscription <| sub_DisabledServerIDs := ["dup"] |>)) "dup" = true.
Proof.
  refine (proj2 (proj2 (proj2 (preserveSubscriptionOptions_choices plain_subscription
    (plain_subscription <| sub_DisabledServerIDs := ["dup"] |>) eq_refl))) "dup" eq_refl _ _).
  - by left.
  - by intros old c _ ->%list_elem_of_singleton.
Defined.
