(* ===== verification/Selection.v ===== *)
(** * Measuring and choosing servers: the selection part of [api.go] and
      [ping.go]

    One probe of a server is the engine's business: its outcome is a
    parameter.  What a batch of probes becomes (results of physical endpoints,
    of logical profiles, the shared cache), which server is chosen from it in
    the two selection modes, and how the choice is committed to memory and to
    disk is modelled in full.  [sort.Slice] is a parameter with its documented
    law. *)

From Stdlib Require Import Ascii.
From S2P Require Import Prelude GoStrings Settings Servers Config Subscriptions.

#[local] Open Scope Z_scope.

Record PingResult := mkPing {
  pr_ServerID : string;
  pr_ServerName : string;
  pr_Address : string;
  pr_Port : Z;
  pr_Protocol : string;
  pr_LatencyMS : Z;
  pr_Error : string;
  pr_Incompat : bool;
  pr_CheckedAt : Time;
  pr_SelectedMemberID : string
}.
#[export] Instance PingResult_eta : Eta PingResult := fun r =>
  mkPing (pr_ServerID r) (pr_ServerName r) (pr_Address r) (pr_Port r) (pr_Protocol r)
    (pr_LatencyMS r) (pr_Error r) (pr_Incompat r) (pr_CheckedAt r) (pr_SelectedMemberID r).

(** The zero value a Go map yields for a missing key: its latency is 0. *)
Definition zeroPingResult : PingResult := mkPing "" "" "" 0 "" 0 "" false zero_time "".

(** The result of a server that has not answered. *)
Definition unansweredResult (srv : VLESSServer) (now : Time) : PingResult :=
  mkPing (sv_ID srv) (sv_Name srv) (sv_Address srv) (sv_Port srv) (describeProtocol srv) (-1) ""
    false now "".

(** ** Probing *)

(** [Skipped]: the batch was cancelled before this probe began. *)
Inductive probe_outcome :=
| Skipped
| ProbeFailed (err : string)
| Answered (ms : Z).

Definition pingOne (srv : VLESSServer) (now : Time) (o : probe_outcome) : PingResult :=
  match o with
  | Skipped => unansweredResult srv now
  | ProbeFailed e => unansweredResult srv now <| pr_Error := e |>
  | Answered ms => unansweredResult srv now <| pr_LatencyMS := ms |>
  end.

Definition containsServerGroup (servers : list VLESSServer) : bool :=
  existsb (fun s => negb (bool_decide (length (sv_Members s) = O))) servers.

(** [fmt.Sprintf("%s:%d|%s|%s|%s", ...)]. *)
Definition endpointKey (m : VLESSServer) : string :=
  if bool_decide (sv_ID m = "") then
    sv_Address m +:+ ":" +:+ pretty (sv_Port m) +:+ "|" +:+ sv_UUID m +:+ "|" +:+ sv_Network m
      +:+ "|" +:+ sv_Security m
  else sv_ID m.

Definition expand (srv : VLESSServer) : list VLESSServer :=
  match sv_Members srv with [] => [srv] | ms => ms end.

Definition physical_one (acc : list VLESSServer * gset string) (member : VLESSServer)
  : list VLESSServer * gset string :=
  let '(leaves, seen) := acc in
  if bool_decide (endpointKey member ∈ seen) then acc
  else (leaves ++ [member], {[endpointKey member]} ∪ seen).

Definition physicalPingServers (servers : list VLESSServer) : list VLESSServer :=
  (foldl physical_one ([], ∅) (servers ≫= expand)).1.

Definition pingWorkUnitCount (servers : list VLESSServer) : nat :=
  length (physicalPingServers servers).

(** One step of the loop over the members of a profile. *)
Definition profile_member (byID : gmap string PingResult) (result : PingResult)
    (member : VLESSServer) : PingResult :=
  let candidate := default zeroPingResult (byID !! sv_ID member) in
  if (0 <=? pr_LatencyMS candidate) &&
     ((pr_LatencyMS result <? 0) || (pr_LatencyMS candidate <? pr_LatencyMS result))
  then mkPing (pr_ServerID result) (pr_ServerName result) (pr_Address candidate)
         (pr_Port candidate) (pr_Protocol result) (pr_LatencyMS candidate) ""
         (pr_Incompat result) (pr_CheckedAt result) (sv_ID member)
  else result.

Definition profile_result (byID : gmap string PingResult) (now : Time) (srv : VLESSServer)
  : PingResult :=
  match sv_Members srv with
  | [] => default zeroPingResult (byID !! sv_ID srv)
  | ms =>
      let result := foldl (profile_member byID) (unansweredResult srv now) ms in
      if pr_LatencyMS result <? 0
      then result <| pr_Error := "ни один узел профиля не отвечает" |> else result
  end.

Definition index_results (results : list PingResult) : gmap string PingResult :=
  foldl (fun m r => <[pr_ServerID r := r]> m) ∅ results.

(** How deep profiles nest: the recursion of the two batch functions ends
    because flattening removes one level. *)
Fixpoint nesting (srv : VLESSServer) : nat :=
  match sv_Members srv with
  | [] => O
  | ms => S (foldr Nat.max O (map nesting ms))
  end.

Section Batch.
Context (now : Time) (probe : VLESSServer -> probe_outcome).

Fixpoint pingBatch (fuel : nat) (servers : list VLESSServer) : list PingResult :=
  match containsServerGroup servers, fuel with
  | true, S n =>
      let byID := index_results (pingBatch n (physicalPingServers servers)) in
      profile_result byID now <$> servers
  | _, _ => (fun srv => pingOne srv now (probe srv)) <$> servers
  end.

Definition pingBatchViaXrayContext (servers : list VLESSServer) : list PingResult :=
  pingBatch (foldr Nat.max O (map nesting servers)) servers.

(** The endpoints a batch really probes. *)
Fixpoint batch_endpoints (fuel : nat) (servers : list VLESSServer) : list VLESSServer :=
  match containsServerGroup servers, fuel with
  | true, S n => batch_endpoints n (physicalPingServers servers)
  | _, _ => servers
  end.

(** The results [onDone] reports, in some order of completion. *)
Definition probed (servers : list VLESSServer) : list PingResult :=
  (fun srv => pingOne srv now (probe srv)) <$>
    filter (fun srv => match probe srv with Skipped => false | _ => true end = true)
      (batch_endpoints (foldr Nat.max O (map nesting servers)) servers).
End Batch.

(** The first minimum. *)
Definition fastest_step (best : option PingResult) (result : PingResult) : option PingResult :=
  if (pr_LatencyMS result <? 0) || pr_Incompat result then best
  else match best with
       | None => Some result
       | Some b => if pr_LatencyMS result <? pr_LatencyMS b then Some result else best
       end.

Definition fastestReachable (results : list PingResult) : option PingResult :=
  foldl fastest_step None results.

Definition latency_less (ri rj : PingResult) : bool :=
  if negb (Bool.eqb (pr_Incompat ri) (pr_Incompat rj)) then negb (pr_Incompat ri)
  else if (pr_LatencyMS ri <? 0) && (pr_LatencyMS rj <? 0) then false
  else if pr_LatencyMS ri <? 0 then false
  else if pr_LatencyMS rj <? 0 then true
  else pr_LatencyMS ri <? pr_LatencyMS rj.

(** [sort.Slice]: some permutation; when [less] is a strict weak order, no
    entry is less than one before it. *)
Class SortSlice := sort_slice : (PingResult -> PingResult -> bool) -> list PingResult -> list PingResult.
Class SortLaws (S : SortSlice) : Prop := {
  sort_permutation : forall less l, sort_slice less l ≡ₚ l;
  sort_sorted : forall less l,
    (forall x y, less x y = true -> less y x = false) ->
    (forall x y z, less x y = true -> less x z = true \/ less z y = true) ->
    Sorted (fun x y => less y x = false) (sort_slice less l)
}.

Definition sortByLatency `{SortSlice} : list PingResult -> list PingResult := sort_slice latency_less.

(** The comparison of [sortByLatency] is a strict weak order: by the rank
    reachable, unreachable, incompatible, and reachable ones by latency. *)
Lemma latency_less_order :
  (forall x y, latency_less x y = true -> latency_less y x = false) /\
  (forall x y z, latency_less x y = true -> latency_less x z = true \/ latency_less z y = true).
Proof.
  split.
  - intros x y. unfold latency_less. destruct (pr_Incompat x), (pr_Incompat y); cbn; try done;
      repeat case_match; lia.
  - intros x y z. unfold latency_less.
    destruct (pr_Incompat x), (pr_Incompat y), (pr_Incompat z); cbn; auto;
      repeat case_match; auto; lia.
Qed.

Lemma sortByLatency_sorted `{S : SortSlice, !SortLaws S} results :
  sortByLatency results ≡ₚ results /\
  Sorted (fun x y => latency_less y x = false) (sortByLatency results).
Proof.
  split; [apply sort_permutation|]. apply sort_sorted; apply latency_less_order.
Qed.

(** ** Which servers may be used *)

Record priorityServerGroup := mkGroup {
  pg_ID : string;
  pg_Name : string;
  pg_Servers : list VLESSServer
}.

(** Appends the servers that pass [ok] and have not been taken by a group. *)
Definition take_unseen (ok : VLESSServer -> bool) (acc : list VLESSServer * gset string)
    (srv : VLESSServer) : list VLESSServer * gset string :=
  let '(taken, seen) := acc in
  if ok srv && negb (bool_decide (sv_ID srv ∈ seen))
  then (taken ++ [srv], {[sv_ID srv]} ∪ seen) else acc.

Definition add_group (id name : string) (ok : VLESSServer -> bool) (servers : list VLESSServer)
    (acc : list priorityServerGroup * gset string) : list priorityServerGroup * gset string :=
  let '(groups, seen) := acc in
  let '(taken, seen) := foldl (take_unseen ok) ([], seen) servers in
  match taken with
  | [] => (groups, seen)
  | _ => (groups ++ [mkGroup id name taken], seen)
  end.

Definition add_subscription (acc : list priorityServerGroup * gset string) (sub : Subscription)
  : list priorityServerGroup * gset string :=
  if sub_Disabled sub then acc
  else add_group (sub_ID sub) (sub_Name sub) (fun srv => negb (serverDisabled sub (sv_ID srv)))
         (sub_Servers sub) acc.

Definition priorityServerGroupsLocked (cfg : Config) (subs : list Subscription)
  : list priorityServerGroup :=
  (add_group "__manual__" "Ручные серверы" sv_Manual (cfg_Servers cfg)
     (foldl add_subscription ([], ∅) subs)).1.

Definition serverAvailableLocked (cfg : Config) (subs : list Subscription) (id : string) : bool :=
  existsb (fun g => existsb (fun s => bool_decide (sv_ID s = id)) (pg_Servers g))
    (priorityServerGroupsLocked cfg subs).

Definition allServersLocked (cfg : Config) (subs : list Subscription) : list VLESSServer :=
  priorityServerGroupsLocked cfg subs ≫= pg_Servers.

Definition rotatePriorityGroups (groups : list priorityServerGroup) (activeID : string)
  : list priorityServerGroup :=
  if (length groups <? 2)%nat || bool_decide (activeID = "") then groups
  else match list_find (fun g => activeID ∈ sv_ID <$> pg_Servers g) groups with
       | Some (S i, _) => drop (S i) groups ++ take (S i) groups
       | _ => groups
       end.

Definition enabledServersFrom (cfg : Config) (subs : list Subscription)
    (requested : list VLESSServer) : list VLESSServer :=
  let enabledIDs := list_to_set (C := gset string) (sv_ID <$> allServersLocked cfg subs) in
  (foldl (take_unseen (fun s => bool_decide (sv_ID s ∈ enabledIDs))) ([], ∅) requested).1.

(** ** Results at hand *)

Fixpoint lookup_all (get : string -> option PingResult) (servers : list VLESSServer)
  : option (list PingResult) :=
  match servers with
  | [] => Some []
  | s :: rest => r ← get (sv_ID s); rs ← lookup_all get rest; Some (r :: rs)
  end.

Definition pingResultsForServers `{SortSlice} (results : list PingResult)
    (servers : list VLESSServer) : option (list PingResult) :=
  sortByLatency <$> lookup_all (fun id => index_results results !! id) servers.

Definition fresh (now maxAge : Time) (r : PingResult) : bool := now - maxAge <=? pr_CheckedAt r.
Definition reachable (r : PingResult) : bool := (0 <=? pr_LatencyMS r) && negb (pr_Incompat r).

Definition freshCachedResults `{SortSlice} (cache : gmap string PingResult) (now maxAge : Time)
    (servers : list VLESSServer) : option (list PingResult) :=
  if bool_decide (servers = []) || (maxAge <=? 0) then None
  else sortByLatency <$> lookup_all (fun id =>
         r ← cache !! id; if fresh now maxAge r then Some r else None) servers.

Definition freshReachableCachedResults `{SortSlice} (cache : gmap string PingResult)
    (now maxAge : Time) (servers : list VLESSServer) : option (list PingResult) :=
  if bool_decide (servers = []) || (maxAge <=? 0) then None
  else
    let results := omap (fun s => r ← cache !! sv_ID s;
      if fresh now maxAge r && reachable r then Some r else None) servers in
    match sortByLatency results with [] => None | rs => Some rs end.

(** ** A whole test cycle *)

Record pingState := mkPingState {
  ps_gen : nat;
  ps_stopGen : nat;
  ps_lastPing : list PingResult;
  ps_cache : gmap string PingResult
}.
#[export] Instance pingState_eta : Eta pingState := fun p =>
  mkPingState (ps_gen p) (ps_stopGen p) (ps_lastPing p) (ps_cache p).

Definition incompatibleResult (srv : VLESSServer) (now : Time) : PingResult :=
  unansweredResult srv now <| pr_Incompat := true |>
    <| pr_Error := "transport not supported by Xray: " +:+ sv_Network srv |>.

(** Puts the batch results of the compatible servers back in their places. *)
Fixpoint merge_batch (now : Time) (servers : list VLESSServer) (batch : list PingResult)
  : list PingResult :=
  match servers with
  | [] => []
  | srv :: rest =>
      if isSupportedServer srv then
        match batch with
        | r :: batch => (r <| pr_Protocol := describeProtocol srv |> <| pr_CheckedAt := now |>)
                          :: merge_batch now rest batch
        | [] => unansweredResult srv now :: merge_batch now rest []
        end
      else incompatibleResult srv now :: merge_batch now rest batch
  end.

Definition update_cache (cache : gmap string PingResult) (results : list PingResult)
  : gmap string PingResult := foldl (fun m r => <[pr_ServerID r := r]> m) cache results.

(** [observedGen] and [observedStopGen] were read before waiting for the cycle
    in progress, [p] is the state once it is this one's turn; [cancelled] is
    the context's state after the batch. *)
Definition runPingAllNamedCore `{SortSlice} (st : AppSettings) (cfg : Config)
    (subs : list Subscription) (now : Time) (probe : VLESSServer -> probe_outcome)
    (cancelled : bool) (observedGen observedStopGen : nat) (servers : list VLESSServer)
    (p : pingState) : list PingResult * pingState :=
  if negb (ps_stopGen p =? observedStopGen)%nat then ([], p)
  else match (fun srv => serverWithTLSProfile srv (TLSClientProfile st)) <$>
              enabledServersFrom cfg subs servers with
  | [] => ([], p)
  | servers =>
      match (if (ps_gen p =? observedGen)%nat then None
             else pingResultsForServers (ps_lastPing p) servers) with
      | Some results => (results, p)
      | None =>
          let compatible := filter (fun s => isSupportedServer s = true) servers in
          let batch := pingBatchViaXrayContext now probe compatible in
          let cache := update_cache (ps_cache p) (probed now probe compatible) in
          if cancelled && negb (bool_decide (compatible = []))
          then ([], p <| ps_cache := cache |>)
          else
            let results := sortByLatency (merge_batch now servers batch) in
            (results, mkPingState (S (ps_gen p)) (ps_stopGen p) results (update_cache cache results))
      end
  end.

(** ** Choosing *)

(** What the outside shows a selection: whether a stop was requested before
    check number [i], and, for the group it tests as number [i], the cache and
    the result of a fresh test. *)
Record scan := mkScan {
  sc_stopped : nat -> bool;
  sc_now : nat -> Time;
  sc_cache : nat -> gmap string PingResult;
  sc_ping : nat -> list VLESSServer -> list PingResult
}.

Definition scan_results `{SortSlice} (sc : scan) (useCache : bool) (maxAge : Time) (i : nat)
    (candidates : list VLESSServer) : list PingResult :=
  let cached :=
    if useCache then
      match freshCachedResults (sc_cache sc i) (sc_now sc i) maxAge candidates with
      | Some rs => Some rs
      | None => freshReachableCachedResults (sc_cache sc i) (sc_now sc i) maxAge candidates
      end
    else None in
  match cached with Some rs => rs | None => sc_ping sc i candidates end.

Definition without (excludeID : string) (servers : list VLESSServer) : list VLESSServer :=
  filter (fun s => sv_ID s <> excludeID) servers.

(** The candidate the fastest result names. *)
Definition chosen (candidates : list VLESSServer) (results : list PingResult)
  : option (VLESSServer * PingResult) :=
  best ← fastestReachable results;
  server ← find_by_id (pr_ServerID best) candidates;
  Some (server, best).

Fixpoint scan_groups `{SortSlice} (sc : scan) (useCache : bool) (maxAge : Time)
    (excludeID : string) (i : nat) (groups : list priorityServerGroup)
  : option (VLESSServer * PingResult) :=
  match groups with
  | [] => None
  | group :: rest =>
      if sc_stopped sc (2 * i) then None
      else match without excludeID (pg_Servers group) with
      | [] => scan_groups sc useCache maxAge excludeID (S i) rest
      | candidates =>
          let results := scan_results sc useCache maxAge i candidates in
          if sc_stopped sc (2 * i + 1) then None
          else match chosen candidates results with
               | Some r => Some r
               | None => scan_groups sc useCache maxAge excludeID (S i) rest
               end
      end
  end.

Definition findBestPrioritizedWithCache `{SortSlice} (cfg : Config) (subs : list Subscription)
    (sc : scan) (excludeID : string) (rotate useCache : bool) (maxAge : Time)
  : option (VLESSServer * PingResult) :=
  let groups := priorityServerGroupsLocked cfg subs in
  scan_groups sc useCache maxAge excludeID 0
    (if rotate then rotatePriorityGroups groups excludeID else groups).

Definition findBestFastest `{SortSlice} (cfg : Config) (subs : list Subscription) (sc : scan)
    (excludeID : string) (useCache : bool) (maxAge : Time) : option (VLESSServer * PingResult) :=
  match without excludeID (allServersLocked cfg subs) with
  | [] => None
  | candidates => chosen candidates (scan_results sc useCache maxAge 0 candidates)
  end.

Definition findBestConfigured `{SortSlice} (cfg : Config) (subs : list Subscription) (sc : scan)
    (excludeID : string) (rotate useCache : bool) : option (VLESSServer * PingResult) :=
  let st := cfg_Settings cfg in
  if bool_decide (PingSelectionMode st = "fastest")
  then findBestFastest cfg subs sc excludeID useCache (PingCacheMaxAge st)
  else findBestPrioritizedWithCache cfg subs sc excludeID rotate useCache (PingCacheMaxAge st).

(** ** Committing *)

Definition preferGroupMember (server : VLESSServer) (memberID : string) : VLESSServer :=
  match sv_Members server with
  | first :: rest =>
      if bool_decide (memberID = "") || bool_decide (rest = []) || bool_decide (sv_ID first = memberID)
      then server
      else match list_find (fun m => sv_ID m = memberID) rest with
           | None => server
           | Some (i, winner) =>
               server <| sv_Members := winner :: (first :: take i rest) ++ drop (S i) rest |>
                      <| sv_Address := sv_Address winner |> <| sv_Port := sv_Port winner |>
           end
  | [] => server
  end.

(** Memory, and the two files; a write replaces a file or leaves it. *)
Record store := mkStore {
  st_cfg : Config;
  st_subs : list Subscription;
  st_cfgFile : Config;
  st_subsFile : list Subscription
}.
#[export] Instance store_eta : Eta store := fun s =>
  mkStore (st_cfg s) (st_subs s) (st_cfgFile s) (st_subsFile s).

(** Which writes succeed: the configuration, the subscriptions, the rollback. *)
Record writes := mkWrites { w_config : bool; w_subs : bool; w_rollback : bool }.

(** [true] is a nil error. *)
Definition persistMutationLocked (w : writes) (previousConfig : Config)
    (previousSubs : list Subscription) (configChanged subscriptionsChanged : bool) (s : store)
  : bool * store :=
  if configChanged && negb (w_config w) then
    (false, s <| st_cfg := previousConfig |>
              <| st_subs := if subscriptionsChanged then previousSubs else st_subs s |>)
  else
    let s := if configChanged then s <| st_cfgFile := st_cfg s |> else s in
    if subscriptionsChanged then
      if w_subs w then (true, s <| st_subsFile := st_subs s |>)
      else
        (false,
         s <| st_cfgFile := if configChanged && w_rollback w then previousConfig else st_cfgFile s |>
           <| st_cfg := if configChanged then previousConfig else st_cfg s |>
           <| st_subs := previousSubs |>)
    else (true, s).

Definition commitSelectedServer (w : writes) (server : VLESSServer) (s : store) : bool * store :=
  let next := upsertServerLocked (st_cfg s) server <| cfg_ActiveServer := sv_ID server |> in
  persistMutationLocked w (st_cfg s) [] true false (s <| st_cfg := next |>).

Definition clearActiveServer (w : writes) (s : store) : bool * store :=
  persistMutationLocked w (st_cfg s) [] true false
    (s <| st_cfg ::= fun c => c <| cfg_ActiveServer := "" |> |>).

Inductive prepare_error :=
| ClearFailed
| SelectionCancelled
| NoWorkingServer
| SaveFailed.

(** [interfere] is what the rest of the program does to the store while the
    lock is free; [stopped] whether a stop was requested meanwhile. *)
Definition prepareServerForStart `{SortSlice} (w1 w2 : writes) (sc : scan) (stopped : bool)
    (interfere : store -> store) (s : store) : result prepare_error string * store :=
  match clearActiveServer w1 s with
  | (false, s) => (Err ClearFailed, s)
  | (true, s) =>
      let found := findBestConfigured (st_cfg s) (st_subs s) sc "" false false in
      let s := interfere s in
      if stopped then (Err SelectionCancelled, s)
      else match found with
      | None => (Err NoWorkingServer, s)
      | Some (server, r) =>
          match commitSelectedServer w2 (preferGroupMember server (pr_SelectedMemberID r)) s with
          | (false, s) => (Err SaveFailed, s)
          | (true, s) => (Ok (pr_ServerName r), s)
          end
      end
  end.

(** The name of the chosen server, or "". *)
Definition chooseAlternativeServer `{SortSlice} (w : writes) (sc : scan)
    (interfere : store -> store) (s : store) : string * store :=
  let cfg := st_cfg s in
  let rotate := bool_decide (PingFailoverOrder (cfg_Settings cfg) = "active_first") in
  let found := findBestConfigured cfg (st_subs s) sc (cfg_ActiveServer cfg) rotate false in
  let s := interfere s in
  match found with
  | None => ("", s)
  | Some (server, r) =>
      match commitSelectedServer w (preferGroupMember server (pr_SelectedMemberID r)) s with
      | (false, s) => ("", s)
      | (true, s) => (pr_ServerName r, s)
      end
  end.

Definition autoSelectBest `{SortSlice} (w : writes) (sc : scan) (interfere : store -> store)
    (s : store) : string * store :=
  let found := findBestConfigured (st_cfg s) (st_subs s) sc "" false false in
  let s := interfere s in
  match found with
  | None => ("", (clearActiveServer w s).2)
  | Some (server, r) =>
      match commitSelectedServer w (preferGroupMember server (pr_SelectedMemberID r)) s with
      | (false, s) => ("", s)
      | (true, s) => (pr_ServerName r, s)
      end
  end.

(** ** Start-up *)

(** [main] after the two files are loaded: what the program starts with. *)
Definition startupCatalog (cfg : Config) (subs : list Subscription) : Config :=
  let cfg := (pruneStaleServers (pruneUnsupportedServers cfg).1 subs).1 in
  if negb (bool_decide (cfg_ActiveServer cfg = "")) &&
     serverDisabledInSubscriptions subs (cfg_ActiveServer cfg)
  then cfg <| cfg_ActiveServer := "" |> else cfg.

(** ** Lemmas: the fastest result *)

Lemma fastestReachable_spec results :
  match fastestReachable results with
  | Some best => best ∈ results /\ reachable best = true /\
      (forall r, r ∈ results -> reachable r = true -> pr_LatencyMS best <= pr_LatencyMS r)
  | None => forall r, r ∈ results -> reachable r = false
  end.
Proof.
  unfold fastestReachable.
  apply (foldl_seen (fun seen best => match best with
    | Some best => best ∈ seen /\ reachable best = true /\
        (forall r, r ∈ seen -> reachable r = true -> pr_LatencyMS best <= pr_LatencyMS r)
    | None => forall r, r ∈ seen -> reachable r = false end)); [|by intros r ?%not_elem_of_nil].
  intros seen r best _ Hbest. unfold fastest_step.
  destruct ((pr_LatencyMS r <? 0) || pr_Incompat r) eqn:Hr.
  - assert (Hur : reachable r = false).
    { unfold reachable. apply orb_true_iff in Hr as [?| ->]; [|by rewrite andb_false_r].
      apply andb_false_iff. left. lia. }
    destruct best as [b|].
    + destruct Hbest as (Hb & Hrb & Hmin). split; [apply elem_of_snoc; by left|]. split; [done|].
      intros r' [?| ->]%elem_of_snoc; [by apply Hmin|congruence].
    + intros r' [?| ->]%elem_of_snoc; [by apply Hbest|done].
  - assert (Hur : reachable r = true).
    { unfold reachable. apply orb_false_iff in Hr as [Hl ->]. apply andb_true_iff. split; [lia|done]. }
    destruct best as [b|].
    + destruct Hbest as (Hb & Hrb & Hmin). destruct (Z.ltb_spec (pr_LatencyMS r) (pr_LatencyMS b)).
      * split; [apply elem_of_snoc; by right|]. split; [done|].
        intros r' [Hin| ->]%elem_of_snoc Hr'; [|lia]. specialize (Hmin r' Hin Hr'). lia.
      * split; [apply elem_of_snoc; by left|]. split; [done|].
        intros r' [?| ->]%elem_of_snoc Hr'; [by apply Hmin|lia].
    + split; [apply elem_of_snoc; by right|]. split; [done|].
      intros r' [Hin| ->]%elem_of_snoc Hr'; [|lia]. specialize (Hbest r' Hin). congruence.
Qed.

Lemma chosen_spec candidates results :
  match chosen candidates results with
  | Some (server, best) =>
      server ∈ candidates /\ pr_ServerID best = sv_ID server /\ best ∈ results /\
      reachable best = true /\
      (forall r, r ∈ results -> reachable r = true -> pr_LatencyMS best <= pr_LatencyMS r)
  | None => Forall (fun r => pr_ServerID r ∈ sv_ID <$> candidates) results ->
      forall r, r ∈ results -> reachable r = false
  end.
Proof.
  unfold chosen. pose proof (fastestReachable_spec results) as Hf.
  destruct (fastestReachable results) as [best|]; [|by cbn].
  destruct Hf as (Hb & Hr & Hmin). cbn [mbind option_bind].
  destruct (find_by_id (pr_ServerID best) candidates) as [server|] eqn:Hs; cbn.
  - apply find_by_id_Some in Hs as [? ?]. by split_and!.
  - intros Hall. rewrite Forall_forall in Hall. apply Hall, find_by_id_is_Some in Hb as [? ?].
    congruence.
Qed.

(** ** Lemmas: the groups *)

Lemma take_unseen_fold ok servers taken seen :
  foldl (take_unseen ok) (taken, seen) servers =
  (taken ++ dedup seen (filter (fun s => ok s = true) servers),
   list_to_set (sv_ID <$> dedup seen (filter (fun s => ok s = true) servers)) ∪ seen).
Proof.
  revert taken seen. induction servers as [|s servers IH]; intros taken seen.
  { cbn. rewrite app_nil_r. f_equal. by rewrite (left_id_L ∅ (∪)). }
  cbn [foldl]. unfold take_unseen at 2. rewrite filter_cons.
  destruct (ok s); [rewrite decide_True by done|rewrite decide_False by done; cbn [andb]; by rewrite IH].
  cbn [andb dedup]. destruct (decide (sv_ID s ∈ seen)).
  - rewrite !bool_decide_eq_true_2 by done. cbn [negb]. by rewrite IH.
  - rewrite !bool_decide_eq_false_2 by done. cbn [negb]. rewrite IH, <- app_assoc.
    f_equal. rewrite fmap_cons. cbn [list_to_set]. by rewrite (assoc_L (∪)), (comm_L (∪) (list_to_set _)).
Qed.

Definition group_servers (groups : list priorityServerGroup) : list VLESSServer := groups ≫= pg_Servers.

(** What a loop of [add_group] has built from the servers offered so far. *)
Definition groups_ok (offered : list VLESSServer) (acc : list priorityServerGroup * gset string) : Prop :=
  group_servers acc.1 = dedup ∅ offered /\
  acc.2 = list_to_set (sv_ID <$> offered) /\
  Forall (fun g => pg_Servers g <> []) acc.1.

Lemma dedup_ids seen l :
  (list_to_set (sv_ID <$> dedup seen l) ∪ seen : gset string) = list_to_set (sv_ID <$> l) ∪ seen.
Proof.
  revert seen. induction l as [|s l IH]; intros seen; [done|]. cbn [dedup]. rewrite fmap_cons.
  cbn [list_to_set]. case_bool_decide.
  - rewrite IH. set_solver.
  - rewrite fmap_cons. cbn [list_to_set].
    transitivity (list_to_set (sv_ID <$> dedup ({[sv_ID s]} ∪ seen) l) ∪ ({[sv_ID s]} ∪ seen) : gset string);
      [set_solver|]. rewrite IH. set_solver.
Qed.

Lemma add_group_ok id name ok servers offered acc :
  groups_ok offered acc ->
  groups_ok (offered ++ filter (fun s => ok s = true) servers) (add_group id name ok servers acc).
Proof.
  destruct acc as [groups seen]. intros (Hg & Hs & Hne). cbn [fst snd] in *.
  unfold add_group. rewrite take_unseen_fold, app_nil_l.
  set (new := filter _ servers).
  assert (Hids : (list_to_set (sv_ID <$> dedup seen new) ∪ seen : gset string)
    = list_to_set (sv_ID <$> (offered ++ new))).
  { rewrite dedup_ids, Hs, fmap_app, list_to_set_app_L. by rewrite (comm_L (∪)). }
  rewrite Hids. assert (Hd : dedup ∅ (offered ++ new) = group_servers groups ++ dedup seen new).
  { rewrite dedup_app, Hg, Hs. by rewrite (right_id_L ∅ (∪)). }
  destruct (dedup seen new) as [|s rest] eqn:Hnew; unfold groups_ok; cbn [fst snd]; rewrite Hd.
  - by rewrite app_nil_r.
  - split_and!; [|done|by apply Forall_snoc].
    unfold group_servers. rewrite bind_app. cbn. by rewrite app_nil_r.
Qed.

(** The servers the program may use, in order of preference. *)
Definition offered_servers (cfg : Config) (subs : list Subscription) : list VLESSServer :=
  (subs ≫= enabledSubscriptionServers) ++ filter (fun s => sv_Manual s = true) (cfg_Servers cfg).

Lemma filter_negb (p : VLESSServer -> bool) (l : list VLESSServer) :
  filter (fun s => negb (p s) = true) l = filter (fun s => p s = false) l.
Proof. apply list_filter_iff. intros s. by rewrite negb_true_iff. Qed.

Lemma groups_spec cfg subs :
  allServersLocked cfg subs = dedup ∅ (offered_servers cfg subs) /\
  Forall (fun g => pg_Servers g <> []) (priorityServerGroupsLocked cfg subs).
Proof.
  assert (Hsubs : groups_ok (subs ≫= enabledSubscriptionServers) (foldl add_subscription ([], ∅) subs)).
  { apply (foldl_seen (fun seen acc => groups_ok (seen ≫= enabledSubscriptionServers) acc));
      [|split_and!; [done|done|constructor]].
    intros seen sub acc _ Hacc. rewrite bind_app. cbn [mbind list_bind]. rewrite app_nil_r.
    unfold add_subscription, enabledSubscriptionServers at 2.
    destruct (sub_Disabled sub); [by rewrite app_nil_r|].
    rewrite <- filter_negb. by apply add_group_ok. }
  pose proof (add_group_ok "__manual__" "Ручные серверы" sv_Manual (cfg_Servers cfg) _ _ Hsubs)
    as (Hg & _ & Hne). by split.
Qed.

Lemma serverAvailable_spec cfg subs id :
  serverAvailableLocked cfg subs id = true <-> id ∈ sv_ID <$> offered_servers cfg subs.
Proof.
  unfold serverAvailableLocked.
  transitivity (id ∈ sv_ID <$> allServersLocked cfg subs).
  - rewrite existsb_exists. unfold allServersLocked. rewrite list_elem_of_fmap. split.
    + intros (g & Hg & (s & Hs & Heq)%existsb_exists). apply bool_decide_eq_true in Heq.
      exists s. split; [done|]. apply list_elem_of_bind. exists g. by rewrite !list_elem_of_In.
    + intros (s & -> & (g & Hs & Hg)%list_elem_of_bind). exists g. split; [by apply list_elem_of_In|].
      apply existsb_exists. exists s. split; [by apply list_elem_of_In|by apply bool_decide_eq_true].
  - rewrite (proj1 (groups_spec cfg subs)).
    pose proof (dedup_ids ∅ (offered_servers cfg subs)) as Hids.
    rewrite !(right_id_L ∅ (∪)) in Hids.
    by rewrite <- !(elem_of_list_to_set (C := gset string)), Hids.
Qed.

Lemma available_iff cfg subs id :
  serverAvailableLocked cfg subs id = true <->
  (exists sub, sub ∈ subs /\ sub_Disabled sub = false /\ serverDisabled sub id = false /\
     id ∈ sv_ID <$> sub_Servers sub) \/
  (exists s, s ∈ cfg_Servers cfg /\ sv_Manual s = true /\ sv_ID s = id).
Proof.
  rewrite serverAvailable_spec. unfold offered_servers. rewrite fmap_app, elem_of_app.
  rewrite !list_elem_of_fmap. split.
  - intros [(s & -> & (sub & Hs & Hsub)%list_elem_of_bind)|(s & -> & [Hm Hs]%list_elem_of_filter)];
      [left|right; by exists s].
    unfold enabledSubscriptionServers in Hs. destruct (sub_Disabled sub) eqn:Hd;
      [by apply elem_of_nil in Hs|]. apply list_elem_of_filter in Hs as [Hf Hs].
    exists sub. split_and!; try done. apply list_elem_of_fmap. eauto.
  - intros [(sub & Hsub & Hd & Hf & (s & -> & Hs)%list_elem_of_fmap)|(s & Hs & Hm & <-)].
    + left. exists s. split; [done|]. apply list_elem_of_bind. exists sub. split; [|done].
      unfold enabledSubscriptionServers. rewrite Hd. apply list_elem_of_filter. done.
    + right. exists s. split; [done|]. by apply list_elem_of_filter.
Qed.

(** ** Lemmas: the scan *)

Lemma scan_groups_spec `{SortSlice} sc useCache maxAge ex groups i :
  let pick j g := chosen (without ex (pg_Servers g))
                    (scan_results sc useCache maxAge j (without ex (pg_Servers g))) in
  match scan_groups sc useCache maxAge ex i groups with
  | Some r => exists k g, groups !! k = Some g /\ pick (i + k)%nat g = Some r /\
      sc_stopped sc (2 * (i + k)) = false /\ sc_stopped sc (2 * (i + k) + 1) = false /\
      (forall j g', (j < k)%nat -> groups !! j = Some g' ->
         without ex (pg_Servers g') = [] \/ pick (i + j)%nat g' = None)
  | None => (exists n, sc_stopped sc n = true) \/
      (forall j g', groups !! j = Some g' ->
         without ex (pg_Servers g') = [] \/ pick (i + j)%nat g' = None)
  end.
Proof.
  cbv zeta. revert i. induction groups as [|g groups IH]; intros i; cbn [scan_groups]; [by right|].
  destruct (sc_stopped sc (2 * i)) eqn:Hst0; [left; by eexists|].
  assert (Hskip : (without ex (pg_Servers g) = [] \/
      chosen (without ex (pg_Servers g)) (scan_results sc useCache maxAge i (without ex (pg_Servers g))) = None) ->
    match scan_groups sc useCache maxAge ex (S i) groups with
    | Some r => exists k g', (g :: groups) !! k = Some g' /\
        chosen (without ex (pg_Servers g')) (scan_results sc useCache maxAge (i + k) (without ex (pg_Servers g'))) = Some r /\
        sc_stopped sc (2 * (i + k)) = false /\ sc_stopped sc (2 * (i + k) + 1) = false /\
        (forall j g'', (j < k)%nat -> (g :: groups) !! j = Some g'' ->
           without ex (pg_Servers g'') = [] \/
           chosen (without ex (pg_Servers g'')) (scan_results sc useCache maxAge (i + j) (without ex (pg_Servers g''))) = None)
    | None => (exists n, sc_stopped sc n = true) \/
        (forall j g', (g :: groups) !! j = Some g' ->
           without ex (pg_Servers g') = [] \/
           chosen (without ex (pg_Servers g')) (scan_results sc useCache maxAge (i + j) (without ex (pg_Servers g'))) = None)
    end).
  { intros Hg. specialize (IH (S i)). destruct (scan_groups _ _ _ _ (S i) groups) as [r|].
    - destruct IH as (k & g' & Hk & Hp & Hs0 & Hs1 & Hprev). exists (S k), g'.
      rewrite <- plus_n_Sm. cbn in Hp, Hs0, Hs1. split_and!; try done.
      intros [|j] g'' Hj Hl; [injection Hl as <-; by rewrite Nat.add_0_r|].
      rewrite <- plus_n_Sm. apply (Hprev j g''); [lia|done].
    - destruct IH as [|Hall]; [by left|right].
      intros [|j] g' Hl; [injection Hl as <-; by rewrite Nat.add_0_r|].
      rewrite <- plus_n_Sm. by apply (Hall j g'). }
  destruct (without ex (pg_Servers g)) as [|c cs] eqn:Hw; [apply Hskip; by left|].
  cbv zeta. destruct (sc_stopped sc (2 * i + 1)) eqn:Hst1; [left; by eexists|].
  destruct (chosen (c :: cs) _) as [r|] eqn:Hc; [|apply Hskip; by right].
  exists O, g. rewrite Nat.add_0_r, Hw. split_and!; try done. intros j g'; lia.
Qed.

Lemma rotate_spec groups activeID :
  let rotated := rotatePriorityGroups groups activeID in
  (exists k, rotated = drop k groups ++ take k groups) /\
  (activeID <> "" -> activeID ∈ sv_ID <$> group_servers groups ->
   exists g rest, rotated = g :: rest /\ activeID ∈ sv_ID <$> pg_Servers g).
Proof.
  cbv zeta. unfold rotatePriorityGroups.
  assert (Hid : exists k, groups = drop k groups ++ take k groups).
  { exists O. cbn. by rewrite drop_0, app_nil_r. }
  assert (Hin : activeID ∈ sv_ID <$> group_servers groups ->
    exists g, g ∈ groups /\ activeID ∈ sv_ID <$> pg_Servers g).
  { intros (s & -> & (g & Hs & Hg)%list_elem_of_bind)%list_elem_of_fmap. exists g. split; [done|].
    apply list_elem_of_fmap. eauto. }
  destruct (length groups <? 2)%nat eqn:Hlen; cbn [orb].
  { split; [done|]. intros _ (g & Hg & Ha)%Hin. exists g.
    destruct groups as [|g0 [|g1 rest]]; [by apply elem_of_nil in Hg| |done].
    apply list_elem_of_singleton in Hg as ->. by exists []. }
  case_bool_decide as He; [done|].
  destruct (list_find _ groups) as [[[|i] g]|] eqn:Hf.
  - split; [done|]. intros _ _. apply list_find_Some in Hf as (Hl & Ha & _).
    destruct groups as [|g0 rest]; [done|]. injection Hl as ->. by exists g, rest.
  - split; [by eexists|]. intros _ _. apply list_find_Some in Hf as (Hl & Ha & _).
    exists g. rewrite (drop_S _ _ _ Hl). eexists. by split.
  - split; [done|]. intros _ (g & Hg & Ha)%Hin. exfalso. rewrite list_find_None in Hf.
    rewrite Forall_forall in Hf. by apply (Hf g).
Qed.

Lemma without_spec ex servers s : s ∈ without ex servers <-> s ∈ servers /\ sv_ID s <> ex.
Proof. unfold without. rewrite list_elem_of_filter. naive_solver. Qed.

(** The groups in the order in which a selection tests them. *)
Definition scan_order (cfg : Config) (subs : list Subscription) (ex : string) (rotate : bool)
  : list priorityServerGroup :=
  let groups := priorityServerGroupsLocked cfg subs in
  if rotate then rotatePriorityGroups groups ex else groups.

Lemma scan_order_available cfg subs ex rotate g s :
  g ∈ scan_order cfg subs ex rotate -> s ∈ pg_Servers g ->
  serverAvailableLocked cfg subs (sv_ID s) = true.
Proof.
  intros Hg Hs. apply existsb_exists. exists g. split.
  - apply list_elem_of_In. unfold scan_order in Hg. destruct rotate; [|done].
    destruct (rotate_spec (priorityServerGroupsLocked cfg subs) ex) as [[k Hk] _].
    rewrite Hk in Hg. rewrite <- (take_drop k (priorityServerGroupsLocked cfg subs)).
    apply elem_of_app. apply elem_of_app in Hg. tauto.
  - apply existsb_exists. exists s. split; [by apply list_elem_of_In|by apply bool_decide_eq_true].
Qed.

(** C23. A selection returns the fastest server that may be used.  What it
    returns is enabled, is not the excluded server, and carries its own result,
    which is reachable.  In the mode "fastest" no reachable result of the whole
    scan is faster.  In the priority mode it comes from the first group, in
    priority order or rotated to begin with the group of the excluded server,
    that has a reachable candidate, and no reachable result of that group is
    faster; no stop was requested before or after the group was tested.  When
    it returns nothing, then, unless a stop was requested, no group (no server,
    in the mode "fastest") had a reachable candidate. *)
Theorem findBestConfigured_best `{SortSlice} cfg subs sc ex rotate useCache :
  let maxAge := PingCacheMaxAge (cfg_Settings cfg) in
  let results i servers := scan_results sc useCache maxAge i (without ex servers) in
  let names_candidates := forall i servers,
    Forall (fun r => pr_ServerID r ∈ sv_ID <$> without ex servers) (results i servers) in
  let unreachable i servers := forall r, r ∈ results i servers -> reachable r = false in
  match findBestConfigured cfg subs sc ex rotate useCache with
  | Some (server, best) =>
      serverAvailableLocked cfg subs (sv_ID server) = true /\ sv_ID server <> ex /\
      pr_ServerID best = sv_ID server /\ reachable best = true /\
      if bool_decide (PingSelectionMode (cfg_Settings cfg) = "fastest") then
        forall r, r ∈ results O (allServersLocked cfg subs) -> reachable r = true ->
          pr_LatencyMS best <= pr_LatencyMS r
      else exists k g,
        scan_order cfg subs ex rotate !! k = Some g /\ server ∈ pg_Servers g /\
        sc_stopped sc (2 * k) = false /\ sc_stopped sc (2 * k + 1) = false /\
        (forall r, r ∈ results k (pg_Servers g) -> reachable r = true ->
           pr_LatencyMS best <= pr_LatencyMS r) /\
        (names_candidates -> forall j g', (j < k)%nat -> scan_order cfg subs ex rotate !! j = Some g' ->
           without ex (pg_Servers g') = [] \/ unreachable j (pg_Servers g'))
  | None =>
      names_candidates ->
      if bool_decide (PingSelectionMode (cfg_Settings cfg) = "fastest") then
        without ex (allServersLocked cfg subs) = [] \/ unreachable O (allServersLocked cfg subs)
      else (exists n, sc_stopped sc n = true) \/
        forall j g', scan_order cfg subs ex rotate !! j = Some g' ->
          without ex (pg_Servers g') = [] \/ unreachable j (pg_Servers g')
  end.
Proof.
  cbv zeta. unfold findBestConfigured. cbv zeta. case_bool_decide as Hmode.
  - unfold findBestFastest. pose proof (chosen_spec (without ex (allServersLocked cfg subs))
      (scan_results sc useCache (PingCacheMaxAge (cfg_Settings cfg)) 0 (without ex (allServersLocked cfg subs)))) as Hc.
    destruct (without ex (allServersLocked cfg subs)) as [|c cs] eqn:Hw; [by intros _; left|].
    rewrite <- Hw in *. destruct (chosen _ _) as [[server best]|].
    + destruct Hc as (Hs & Hid & Hb & Hr & Hmin). apply without_spec in Hs as [Hs Hne].
      split_and!; try done. apply serverAvailable_spec.
      pose proof (proj1 (groups_spec cfg subs)) as Hall. rewrite Hall in Hs.
      apply (dedup_spec ∅) in Hs as [Hs _]. apply list_elem_of_fmap. eauto.
    + intros Hn. right. apply Hc, (Hn O).
  - unfold findBestPrioritizedWithCache. cbv zeta.
    fold (scan_order cfg subs ex rotate).
    pose proof (scan_groups_spec sc useCache (PingCacheMaxAge (cfg_Settings cfg)) ex
      (scan_order cfg subs ex rotate) O) as Hg. cbv zeta in Hg.
    destruct (scan_groups _ _ _ _ _ _) as [[server best]|].
    + destruct Hg as (k & g & Hk & Hp & Hs0 & Hs1 & Hprev). cbn [Nat.add] in *.
      pose proof (chosen_spec (without ex (pg_Servers g)) (scan_results sc useCache
        (PingCacheMaxAge (cfg_Settings cfg)) k (without ex (pg_Servers g)))) as Hc.
      rewrite Hp in Hc. destruct Hc as (Hs & Hid & Hb & Hr & Hmin).
      apply without_spec in Hs as [Hs Hne].
      assert (Hel : g ∈ scan_order cfg subs ex rotate) by by eapply list_elem_of_lookup_2.
      split_and!; try done; [by eapply scan_order_available|].
      exists k, g. split_and!; try done. intros Hn j g' Hj Hl.
      destruct (Hprev j g' Hj Hl) as [|Hnone]; [by left|right].
      pose proof (chosen_spec (without ex (pg_Servers g')) (scan_results sc useCache
        (PingCacheMaxAge (cfg_Settings cfg)) j (without ex (pg_Servers g')))) as Hc.
      rewrite Hnone in Hc. by apply Hc, (Hn j).
    + intros Hn. destruct Hg as [|Hall]; [by left|right]. intros j g' Hl.
      destruct (Hall j g' Hl) as [|Hnone]; [by left|right]. cbn [Nat.add] in Hnone.
      pose proof (chosen_spec (without ex (pg_Servers g')) (scan_results sc useCache
        (PingCacheMaxAge (cfg_Settings cfg)) j (without ex (pg_Servers g')))) as Hc.
      rewrite Hnone in Hc. by apply Hc, (Hn j).
Qed.

(** The servers the program may use.  In order of preference they are the
    enabled servers of the enabled subscriptions, in their order, then the
    manual servers, each identifier where it comes first; no group is empty.
    A server is available exactly when an enabled subscription offers it and it
    is not disabled there, or it is manual; so the choices of the user decide:
    what is disabled in all subscriptions that list it is not available unless
    it is manual. *)
Theorem available_servers cfg subs :
  allServersLocked cfg subs = dedup ∅ (offered_servers cfg subs) /\
  NoDup (sv_ID <$> allServersLocked cfg subs) /\
  Forall (fun g => pg_Servers g <> []) (priorityServerGroupsLocked cfg subs) /\
  (forall id, serverAvailableLocked cfg subs id = true <->
     (exists sub, sub ∈ subs /\ sub_Disabled sub = false /\ serverDisabled sub id = false /\
        id ∈ sv_ID <$> sub_Servers sub) \/
     (exists s, s ∈ cfg_Servers cfg /\ sv_Manual s = true /\ sv_ID s = id)) /\
  (forall id, serverDisabledInSubscriptions subs id = true -> serverAvailableLocked cfg subs id = true ->
     exists s, s ∈ cfg_Servers cfg /\ sv_Manual s = true /\ sv_ID s = id).
Proof.
  destruct (groups_spec cfg subs) as [Hall Hne]. pose proof (available_iff cfg subs) as Havail.
  split_and!; [done|rewrite Hall; apply dedup_spec|done|done|].
  intros id Hdis [(sub & Hsub & Hd & Hf & Hin)|Hm]%Havail; [|done]. exfalso.
  unfold serverDisabledInSubscriptions in Hdis. apply andb_true_iff in Hdis as [_ Hdis].
  rewrite forallb_forall in Hdis. specialize (Hdis sub). rewrite Hd, Hf in Hdis.
  enough (Hfalse : false || false = true) by done. apply Hdis, list_elem_of_In, list_elem_of_filter.
  done.
Qed.

(** ** Lemmas: committing *)

Lemma upsert_active cfg server :
  let cfg' := upsertServerLocked cfg server <| cfg_ActiveServer := sv_ID server |> in
  activeServer cfg' = Some server /\ cfg_Settings cfg' = cfg_Settings cfg /\
  cfg_Servers cfg' = upsert_list server (cfg_Servers cfg).
Proof.
  cbv zeta. split_and!; [|by destruct cfg|by destruct cfg].
  unfold activeServer, findServer.
  change (find_by_id (sv_ID server) (upsert_list server (cfg_Servers cfg)) = Some server).
  induction (cfg_Servers cfg) as [|s rest IH]; cbn [upsert_list find_by_id].
  - by rewrite bool_decide_eq_true_2.
  - destruct (decide (sv_ID s = sv_ID server)) as [Heq|Hne].
    + rewrite (bool_decide_eq_true_2 (sv_ID s = _)) by done. cbn [find_by_id].
      by rewrite bool_decide_eq_true_2.
    + rewrite (bool_decide_eq_false_2 (sv_ID s = _)) by done. cbn [find_by_id].
      by rewrite bool_decide_eq_false_2.
Qed.

(** A mutation reaches memory and disk together or not at all.  After a
    successful [persistMutationLocked] the changed files hold what memory
    holds; after an error memory is what it was before the mutation, the
    subscription file is untouched, and so is the configuration file, unless
    writing it back failed as well.  Committing a selection is such a mutation:
    on success the chosen server is the active one, in memory and on disk, and
    on an error nothing has changed. *)
Theorem persistMutation_atomic w previousConfig previousSubs configChanged subscriptionsChanged s :
  (configChanged = false -> st_cfg s = previousConfig) ->
  (subscriptionsChanged = false -> st_subs s = previousSubs) ->
  st_cfgFile s = previousConfig ->
  (let '(ok, s') := persistMutationLocked w previousConfig previousSubs configChanged subscriptionsChanged s in
   if ok then
     st_cfg s' = st_cfg s /\ st_subs s' = st_subs s /\
     st_cfgFile s' = st_cfg s /\
     st_subsFile s' = (if subscriptionsChanged then st_subs s else st_subsFile s)
   else
     st_cfg s' = previousConfig /\ st_subs s' = previousSubs /\ st_subsFile s' = st_subsFile s /\
     (w_rollback w = true -> st_cfgFile s' = previousConfig)) /\
  (forall server, let '(ok, s') := commitSelectedServer w server s in
   if ok then activeServer (st_cfg s') = Some server /\ st_cfgFile s' = st_cfg s' /\
     cfg_Settings (st_cfg s') = cfg_Settings (st_cfg s) /\ st_subs s' = st_subs s
   else s' = s).
Proof.
  intros Hc Hs Hf. split.
  - unfold persistMutationLocked. destruct s as [cfg subs cfgFile subsFile].
    cbn [st_cfg st_subs st_cfgFile st_subsFile] in *. subst cfgFile.
    destruct configChanged, subscriptionsChanged, (w_config w) eqn:Hw1, (w_subs w) eqn:Hw2,
      (w_rollback w) eqn:Hw3; unfold upd; cbn;
      try (rewrite (Hc eq_refl)); try (rewrite (Hs eq_refl)); by split_and!.
  - intros server. unfold commitSelectedServer, persistMutationLocked.
    destruct (upsert_active (st_cfg s) server) as (Ha & Hset & _).
    set (next := upsertServerLocked (st_cfg s) server <| cfg_ActiveServer := sv_ID server |>) in *.
    clearbody next. destruct s as [cfg subs cfgFile subsFile].
    destruct (w_config w); unfold upd; cbn; [by split_and!|done].
Qed.

(** ** Lemmas: a batch *)

Lemma physical_dedup l acc seen :
  Forall (fun m => sv_ID m <> "") l ->
  (foldl physical_one (acc, seen) l).1 = acc ++ dedup seen l.
Proof.
  revert acc seen. induction l as [|m l IH]; intros acc seen Hall; cbn [foldl dedup].
  { by rewrite app_nil_r. }
  apply Forall_cons in Hall as [Hm Hall]. unfold physical_one at 2.
  assert (Hk : endpointKey m = sv_ID m) by (unfold endpointKey; by rewrite bool_decide_eq_false_2).
  rewrite Hk. case_bool_decide; [by apply IH|]. by rewrite IH, <- app_assoc.
Qed.

Lemma index_results_fold rs (m : gmap string PingResult) r :
  NoDup (pr_ServerID <$> rs) -> r ∈ rs ->
  foldl (fun m r => <[pr_ServerID r := r]> m) m rs !! pr_ServerID r = Some r.
Proof.
  revert m. induction rs as [|r' rs IH]; intros m Hnd Hr; [by apply elem_of_nil in Hr|].
  rewrite fmap_cons in Hnd. apply NoDup_cons in Hnd as [Hni Hnd]. cbn [foldl].
  apply elem_of_cons in Hr as [->|Hr]; [|by apply IH].
  clear IH. assert (Hlast : forall (l : list PingResult) (m : gmap string PingResult), pr_ServerID r' ∉ pr_ServerID <$> l ->
    foldl (fun m r => <[pr_ServerID r := r]> m) m l !! pr_ServerID r' = m !! pr_ServerID r').
  { clear. induction l as [|x l IH]; intros m Hn; [done|]. cbn [foldl].
    rewrite fmap_cons in Hn. apply not_elem_of_cons in Hn as [Hx Hn].
    rewrite IH by done. by apply lookup_insert_ne. }
  rewrite Hlast by done. apply lookup_insert_eq.
Qed.

Section Profile.
Context (byID : gmap string PingResult) (answer : VLESSServer -> Z).

(** What the loop over the members has found among those it has seen. *)
Definition best_member (seen : list VLESSServer) (start result : PingResult) : Prop :=
  pr_ServerID result = pr_ServerID start /\ pr_Incompat result = false /\
  ((pr_LatencyMS result = -1 /\ forall m, m ∈ seen -> answer m < 0) \/
   (0 <= pr_LatencyMS result /\
    (exists m, m ∈ seen /\ pr_SelectedMemberID result = sv_ID m /\ pr_LatencyMS result = answer m) /\
    (forall m, m ∈ seen -> 0 <= answer m -> pr_LatencyMS result <= answer m))).

Lemma profile_fold ms start :
  (forall m, m ∈ ms -> exists c, byID !! sv_ID m = Some c /\ pr_LatencyMS c = answer m) ->
  pr_LatencyMS start = -1 -> pr_Incompat start = false ->
  best_member ms start (foldl (profile_member byID) start ms).
Proof.
  intros Hby Hl Hi. apply (foldl_seen (fun seen r => best_member seen start r)).
  2: { split_and!; [done|done|left]. split; [done|by intros m ?%not_elem_of_nil]. }
  intros seen m r Hpre (Hid & Hinc & Hr).
  destruct (Hby m) as (c & Hc & Hans).
  { apply (elem_of_prefix (seen ++ [m])); [apply elem_of_snoc; by right|done]. }
  unfold profile_member. rewrite Hc. change (default zeroPingResult (Some c)) with c. cbv zeta. rewrite Hans.
  destruct (Z.leb_spec 0 (answer m)) as [Hge|Hlt]; cbn [andb].
  - destruct ((pr_LatencyMS r <? 0) || (answer m <? pr_LatencyMS r)) eqn:Hcmp.
    + split_and!; [done|done|right]. cbn [pr_LatencyMS pr_SelectedMemberID].
      split; [lia|]. split; [exists m; split; [apply elem_of_snoc; by right|done]|].
      intros m' [Hm'| ->]%elem_of_snoc Hge'; [|lia].
      destruct Hr as [[Hneg Hall]|(Hpos & _ & Hmin)]; [specialize (Hall m' Hm'); lia|].
      specialize (Hmin m' Hm' Hge'). lia.
    + split_and!; [done|done|]. destruct Hr as [[Hneg _]|(Hpos & (m0 & Hm0 & ? & ?) & Hmin)]; [lia|right].
      split; [done|]. split; [exists m0; split; [apply elem_of_snoc; by left|done]|].
      intros m' [Hm'| ->]%elem_of_snoc Hge'; [by apply Hmin|lia].
  - split_and!; [done|done|]. destruct Hr as [[Hneg Hall]|(Hpos & (m0 & Hm0 & ? & ?) & Hmin)].
    + left. split; [done|]. intros m' [Hm'| ->]%elem_of_snoc; [by apply Hall|done].
    + right. split; [done|]. split; [exists m0; split; [apply elem_of_snoc; by left|done]|].
      intros m' [Hm'| ->]%elem_of_snoc Hge'; [by apply Hmin|lia].
Qed.
End Profile.

(** The profiles of a catalog: members are leaves, and everything that is
    dialled has an identifier. *)
Definition flat (servers : list VLESSServer) : Prop :=
  Forall (fun m => sv_ID m <> "" /\ sv_Members m = []) (servers ≫= expand).

Lemma flat_physical servers :
  flat servers ->
  physicalPingServers servers = dedup ∅ (servers ≫= expand) /\
  containsServerGroup (physicalPingServers servers) = false.
Proof.
  intros Hf. assert (Hp : physicalPingServers servers = dedup ∅ (servers ≫= expand)).
  { unfold physicalPingServers. rewrite physical_dedup; [done|].
    eapply Forall_impl; [exact Hf|]. by intros m []. }
  split; [done|]. rewrite Hp. unfold containsServerGroup.
  destruct (existsb _ _) eqn:He; [|done]. apply existsb_exists in He as (m & Hm & Hne).
  apply list_elem_of_In, dedup_spec in Hm as [Hm _]. unfold flat in Hf. rewrite Forall_forall in Hf.
  destruct (Hf m Hm) as [_ Hnil]. by rewrite Hnil in Hne.
Qed.

Lemma nesting_group servers :
  containsServerGroup servers = true -> exists n, foldr Nat.max O (map nesting servers) = S n.
Proof.
  intros (s & Hs%list_elem_of_In & Hne)%existsb_exists.
  assert (Hnest : (1 <= nesting s)%nat) by (destruct s; cbn in *; destruct sv_Members; [done|lia]).
  assert (Hmax : (nesting s <= foldr Nat.max O (map nesting servers))%nat).
  { clear Hne. induction servers as [|s' servers IH]; [by apply elem_of_nil in Hs|]. cbn.
    apply elem_of_cons in Hs as [->|Hs]; [lia|]. specialize (IH Hs). lia. }
  destruct (foldr _ _ _) as [|n]; [lia|by exists n].
Qed.

Lemma pingBatch_flat now probe servers :
  flat servers ->
  pingBatchViaXrayContext now probe servers =
    if containsServerGroup servers
    then profile_result (index_results ((fun m => pingOne m now (probe m)) <$> physicalPingServers servers)) now
           <$> servers
    else (fun m => pingOne m now (probe m)) <$> servers.
Proof.
  intros Hf. unfold pingBatchViaXrayContext.
  destruct (containsServerGroup servers) eqn:Hg.
  2: { destruct (foldr _ _ _); cbn [pingBatch]; by rewrite Hg. }
  destruct (nesting_group _ Hg) as [n ->]. cbn [pingBatch]. rewrite Hg. cbv zeta.
  destruct (flat_physical servers Hf) as [_ Hnog].
  destruct n; cbn [pingBatch]; by rewrite Hnog.
Qed.

Lemma batch_endpoints_flat servers :
  flat servers ->
  batch_endpoints (foldr Nat.max O (map nesting servers)) servers =
    if containsServerGroup servers then physicalPingServers servers else servers.
Proof.
  intros Hf. destruct (containsServerGroup servers) eqn:Hg.
  2: { destruct (foldr _ _ _); cbn [batch_endpoints]; by rewrite Hg. }
  destruct (nesting_group _ Hg) as [n ->]. cbn [batch_endpoints]. rewrite Hg.
  destruct (flat_physical servers Hf) as [_ Hnog].
  destruct n; cbn [batch_endpoints]; by rewrite Hnog.
Qed.

Lemma pingOne_ID m now o : pr_ServerID (pingOne m now o) = sv_ID m.
Proof. by destruct o. Qed.

(** The latency of the endpoint with the identifier of [m], or -1. *)
Definition endpoint_answer (now : Time) (probe : VLESSServer -> probe_outcome)
    (leaves : list VLESSServer) (m : VLESSServer) : Z :=
  match find_by_id (sv_ID m) leaves with
  | Some leaf => pr_LatencyMS (pingOne leaf now (probe leaf))
  | None => -1
  end.

Lemma leaf_result now probe servers m :
  flat servers -> m ∈ servers ≫= expand ->
  exists leaf, leaf ∈ physicalPingServers servers /\ sv_ID leaf = sv_ID m /\
    find_by_id (sv_ID m) (physicalPingServers servers) = Some leaf /\
    index_results ((fun m => pingOne m now (probe m)) <$> physicalPingServers servers) !! sv_ID m =
      Some (pingOne leaf now (probe leaf)).
Proof.
  intros Hf Hm. destruct (flat_physical servers Hf) as [Hp _]. rewrite Hp.
  pose proof (dedup_ids ∅ (servers ≫= expand)) as Hids. rewrite !(right_id_L ∅ (∪)) in Hids.
  assert (Hin : sv_ID m ∈ sv_ID <$> dedup ∅ (servers ≫= expand)).
  { rewrite <- (elem_of_list_to_set (C := gset string)), Hids, elem_of_list_to_set.
    apply list_elem_of_fmap. eauto. }
  destruct (proj2 (find_by_id_is_Some _ _) Hin) as [leaf Hleaf].
  pose proof (find_by_id_Some _ _ _ Hleaf) as [Hl Hid]. exists leaf. split_and!; try done.
  rewrite <- Hid, <- (pingOne_ID leaf now (probe leaf)). apply index_results_fold.
  - rewrite <- list_fmap_compose.
    rewrite (list_fmap_ext _ sv_ID) by (intros; apply pingOne_ID). apply dedup_spec.
  - apply list_elem_of_fmap. eauto.
Qed.

(** A batch with logical profiles probes every physical endpoint once and
    judges a profile by its best member.  The endpoints probed have distinct
    identifiers, those of the servers and members of the batch; the results
    come in the order of the servers and under their identifiers; a server that
    is no profile has the result of its endpoint; a profile is reachable
    exactly when one of its members is, with the latency of the fastest and
    that member as the selected one, and otherwise carries an error. *)
Theorem ping_profiles now probe servers :
  flat servers -> containsServerGroup servers = true ->
  let leaves := physicalPingServers servers in
  NoDup (sv_ID <$> leaves) /\
  (forall id, id ∈ sv_ID <$> leaves <-> id ∈ sv_ID <$> (servers ≫= expand)) /\
  batch_endpoints (foldr Nat.max O (map nesting servers)) servers = leaves /\
  Forall2 (fun srv r =>
    pr_ServerID r = sv_ID srv /\
    match sv_Members srv with
    | [] => exists leaf, leaf ∈ leaves /\ sv_ID leaf = sv_ID srv /\ r = pingOne leaf now (probe leaf)
    | ms => best_member (endpoint_answer now probe leaves) ms (unansweredResult srv now) r /\
            (pr_LatencyMS r < 0 -> pr_Error r <> "")
    end) servers (pingBatchViaXrayContext now probe servers).
Proof.
  intros Hf Hg. cbv zeta. rewrite pingBatch_flat, batch_endpoints_flat, Hg by done.
  destruct (flat_physical servers Hf) as [Hp _].
  split_and!; [rewrite Hp; apply dedup_spec| |done|].
  { intros id. pose proof (dedup_ids ∅ (servers ≫= expand)) as Hids.
    rewrite !(right_id_L ∅ (∪)) in Hids.
    by rewrite Hp, <- (elem_of_list_to_set (C := gset string)), Hids, elem_of_list_to_set. }
  apply Forall2_fmap_r, Forall_Forall2_diag, Forall_forall. intros srv Hsrv.
  set (byID := index_results _).
  assert (Hmem : forall m, m ∈ expand srv -> exists leaf,
    leaf ∈ physicalPingServers servers /\ sv_ID leaf = sv_ID m /\
    find_by_id (sv_ID m) (physicalPingServers servers) = Some leaf /\
    byID !! sv_ID m = Some (pingOne leaf now (probe leaf))).
  { intros m Hm. apply leaf_result; [done|]. apply list_elem_of_bind. eauto. }
  unfold compose, profile_result. cbv beta. unfold expand in Hmem. destruct (sv_Members srv) as [|m0 ms] eqn:Hms.
  - destruct (Hmem srv) as (leaf & Hl & Hid & _ & Hby); [by apply list_elem_of_singleton|].
    rewrite Hby. change (default zeroPingResult (Some ?x)) with x. rewrite pingOne_ID. eauto.
  - destruct (profile_fold byID (endpoint_answer now probe (physicalPingServers servers))
      (m0 :: ms) (unansweredResult srv now)) as (Hid & Hinc & Hbest); [|done|done|].
    { intros m Hm. destruct (Hmem m Hm) as (leaf & _ & _ & Hfind & Hby).
      exists (pingOne leaf now (probe leaf)). split; [done|]. unfold endpoint_answer. by rewrite Hfind. }
    cbv zeta. destruct (foldl _ _ _) as [i1 i2 i3 i4 i5 lat i7 i8 i9 i10].
    unfold best_member in *. cbn [pr_ServerID pr_Incompat pr_LatencyMS pr_SelectedMemberID] in *.
    destruct (Z.ltb_spec lat 0); unfold upd;
      cbn [pr_ServerID pr_Incompat pr_LatencyMS pr_SelectedMemberID pr_Error]; split_and!; try done; lia.
Qed.

(** The member a selection prefers does not survive a restart.  The
    provider offers a logical profile of two members; a selection finds the
    second one faster, commits the profile with that member first, and the
    profile is the active server, in memory and on disk.  On the next start the
    migration recomputes the identifier from the reordered profile, the
    pruning finds no subscription that lists it, and the selection is gone. *)
Theorem restart_forgets_selection : exists (subs : list Subscription) (server : VLESSServer) s',
  @load_subscription plain_digest plain_url <$> subs = subs /\
  server ∈ subs ≫= sub_Servers /\
  commitSelectedServer (mkWrites true true true) (preferGroupMember server "b/tcp")
    (mkStore defaultConfig subs defaultConfig subs) = (true, s') /\
  cfg_ActiveServer (st_cfgFile s') = sv_ID server /\
  serverAvailableLocked (st_cfgFile s') subs (sv_ID server) = true /\
  cfg_ActiveServer (startupCatalog (@migrateServerIDs plain_digest (st_cfgFile s')) subs) = "" /\
  cfg_ActiveServer (startupCatalog (st_cfgFile s') subs) = sv_ID server.
Proof.
  set (leaf a := emptyServer <| sv_ID := a +:+ "/tcp" |> <| sv_Address := a |> <| sv_Port := 443 |>
    <| sv_UUID := "u" |> <| sv_Network := "tcp" |>).
  set (auto := emptyServer <| sv_ID := "a/auto" |> <| sv_Name := "Auto" |> <| sv_Address := "a" |>
    <| sv_Port := 443 |> <| sv_Network := "auto" |> <| sv_Members := [leaf "a"; leaf "b"] |>).
  exists [mkSubscription "https://sub.example/" "s" "" "" "https://sub.example/" [auto] zero_time "" None
    false [] 0 ∅], auto.
  eexists. split; [vm_compute; reflexivity|]. split; [by left|]. split; [vm_compute; reflexivity|].
  vm_compute. done.
Qed.

(** ** Witnesses *)

Definition plain_leaf (a : string) : VLESSServer :=
  emptyServer <| sv_ID := a |> <| sv_Address := a |> <| sv_Port := 443 |>.

Definition plain_catalog : list VLESSServer :=
  [plain_leaf "x"; plain_leaf "auto" <| sv_Members := [plain_leaf "x"; plain_leaf "y"] |>].

Definition plain_probe (m : VLESSServer) : probe_outcome :=
  if bool_decide (sv_ID m = "y") then Answered 7 else ProbeFailed "timeout".

Example ping_plain :
  (fun r => (pr_ServerID r, pr_LatencyMS r, pr_SelectedMemberID r)) <$>
    pingBatchViaXrayContext 5 plain_probe plain_catalog = [("x", -1, ""); ("auto", 7, "y")].
Proof. vm_compute. reflexivity. Qed.

Lemma ping_profiles_witness :
  NoDup (sv_ID <$> physicalPingServers plain_catalog) /\
  batch_endpoints 1 plain_catalog = [plain_leaf "x"; plain_leaf "y"].
Proof.
  destruct (ping_profiles 5 plain_probe plain_catalog) as (Hnd & _ & He & _).
  - repeat constructor; done.
  - reflexivity.
  - split; [exact Hnd|]. etransitivity; [exact He|]. reflexivity.
Defined.

Lemma persistMutation_atomic_witness :
  (persistMutationLocked (mkWrites true false true) defaultConfig [] true true
     (mkStore plain_config [plain_subscription] defaultConfig [])).1 = false /\
  st_cfgFile (persistMutationLocked (mkWrites true false true) defaultConfig [] true true
     (mkStore plain_config [plain_subscription] defaultConfig [])).2 = defaultConfig.
Proof.
  destruct (persistMutation_atomic (mkWrites true false true) defaultConfig [] true true
    (mkStore plain_config [plain_subscription] defaultConfig [])) as [H _]; [done|done|done|].
  split; [reflexivity|]. exact (proj2 (proj2 (proj2 H)) eq_refl).
Defined.


(** A merge sort meets the law of [sort.Slice]. *)
Definition not_less (less : PingResult -> PingResult -> bool) (x y : PingResult) : Prop :=
  less y x = false.
#[export] Instance not_less_dec less : RelDecision (not_less less).
Proof. intros x y. unfold Decision, not_less. destruct (less y x); [by right|by left]. Defined.

Definition merge_slice : SortSlice := fun less => merge_sort (not_less less).

#[export] Instance merge_slice_laws : SortLaws merge_slice.
Proof.
  split; intros less l; unfold sort_slice, merge_slice; [apply merge_sort_Permutation|].
  intros Hasym _.
  assert (Total (not_less less)).
  { intros x y. unfold not_less. destruct (less y x) eqn:Hyx; [right; by apply Hasym|by left]. }
  apply (Sorted_merge_sort (not_less less)).
Qed.

Definition plain_scan : scan := mkScan (fun _ => false) (fun _ => 5) (fun _ => ∅)
  (fun _ servers => pingBatchViaXrayContext 5 plain_probe servers).

Definition plain_config2 : Config :=
  defaultConfig <| cfg_Servers := [plain_leaf "x" <| sv_Manual := true |>] |>
    <| cfg_ActiveServer := "x" |>.

Definition plain_subs2 : list Subscription :=
  [mkSubscription "s" "s" "" "" "" [plain_leaf "y"] zero_time "" None false [] 0 ∅].

Lemma findBestConfigured_best_witness :
  snd <$> @findBestConfigured merge_slice plain_config2 plain_subs2 plain_scan "x" true false =
    Some (pingOne (plain_leaf "y") 5 (Answered 7)) /\
  serverAvailableLocked plain_config2 plain_subs2 "y" = true.
Proof.
  split; [vm_compute; reflexivity|].
  pose proof (@findBestConfigured_best merge_slice plain_config2 plain_subs2 plain_scan "x" true false) as H.
  cbv zeta in H.
  assert (Hr : @findBestConfigured merge_slice plain_config2 plain_subs2 plain_scan "x" true false =
    Some (plain_leaf "y", pingOne (plain_leaf "y") 5 (Answered 7))) by (vm_compute; reflexivity).
  rewrite Hr in H. exact (proj1 H).
Defined.
