(* ===== verification/Bypass.v ===== *)
(** * The bypass lists: [bypass.go], [bypass_update.go], [bypass_wan.go]

    Which domains leave the router without the tunnel: the list embedded in the
    package or a downloaded one, and the user's own entries; how a downloaded
    list is checked, and how a refresh reaches memory, disk and the running
    engine.  The embedded text and [idna.Lookup.ToASCII] are parameters. *)

From Stdlib Require Import Ascii.
From S2P Require Import Prelude GoStrings Settings Servers Config Subscriptions.

#[local] Open Scope Z_scope.

(** The text of [bypass_ru.txt], embedded by the compiler. *)
Class EmbeddedList := bypassRussiaWhitelist : string.

(** [idna.Lookup.ToASCII] of [golang.org/x/net]. *)
Class IDNA := ToASCII : string -> option string.

(** ** Lists of domains *)

Definition skipped_line (line : string) : bool :=
  bool_decide (line = "") || HasPrefix line "#".

(** The loops append what they have not seen. *)
Definition add_unseen (acc : list string * gset string) (d : string) : list string * gset string :=
  let '(out, seen) := acc in
  if bool_decide (d ∈ seen) then acc else (out ++ [d], {[d]} ∪ seen).

Definition parse_line (acc : list string * gset string) (line : string)
  : list string * gset string :=
  let line := TrimSpace line in
  if skipped_line line then acc else add_unseen acc (ToLower line).

Definition parseDomainList (raw : string) : list string :=
  if bool_decide (raw = "") then []
  else (foldl parse_line ([], ∅) (Split raw newline)).1.

(** [add] of [bypassDomainsFor]. *)
Definition add_domain (acc : list string * gset string) (d : string) : list string * gset string :=
  let d := TrimSpace (ToLower d) in
  if skipped_line d then acc else add_unseen acc d.

Definition baseDomains `{EmbeddedList} (cfg : Config) : list string :=
  if BypassRouteRussia (cfg_Settings cfg) then
    parseDomainList
      (match bc_Domains (cfg_BypassCache cfg) with
       | [] => bypassRussiaWhitelist
       | domains => Join domains (String newline "")
       end)
  else [].

Definition bypassDomainsFor `{EmbeddedList} (cfg : Config) : list string :=
  (foldl add_domain ([], ∅) (baseDomains cfg ++ BypassDomains (cfg_Settings cfg))).1.

(** [slices.Sort] and [slices.Compact]. *)
Definition sort_strings (l : list string) : list string := merge_sort String.le l.

Fixpoint compact (l : list string) : list string :=
  match l with
  | x :: (y :: _) as rest => if bool_decide (x = y) then compact rest else x :: compact rest
  | l => l
  end.

Definition bypassListDomainsFor `{EmbeddedList} (cfg : Config) : list string :=
  compact (sort_strings (bypassDomainsFor cfg)).

Definition bypassEffectiveCount `{EmbeddedList} (cfg : Config) : nat :=
  length (bypassListDomainsFor cfg).

(** ** Checking a downloaded list *)

(** A dotted quad, as [net.ParseIP] accepts it.  A text with a colon cannot be
    a list of labels, so the IPv6 forms need no test of their own. *)
Definition octet (s : string) : bool :=
  match ParseUint s 10 8 with
  | Some _ => bool_decide (String.length s = 1%nat) || negb (HasPrefix s "0")
  | None => false
  end.
Definition dotted_quad (s : string) : bool :=
  let parts := Split s char_dot in (length parts =? 4)%nat && forallb octet parts.

Definition label_byte (c : ascii) : bool :=
  between 97 122 c || between 48 57 c || is_byte 45 c.

Definition valid_label (label : string) : bool :=
  negb ((String.length label =? 0)%nat || (63 <? String.length label)%nat ||
        HasPrefix label "-" || HasSuffix label "-") &&
  forallb label_byte (bytes_of label).

Definition validBypassSourceDomain (domain : string) : bool :=
  negb ((253 <? String.length domain)%nat || negb (Contains domain ".") || dotted_quad domain ||
        HasSuffix domain ".arpa") &&
  forallb valid_label (Split domain char_dot).

Inductive source_error :=
| SourceInvalidRequest
| SourceFetchFailed
| SourceHTTP (code : Z)
| SourceReadFailed
| SourceTooLarge
| SourceBadDomain (domain : string)
| SourceTooMany
| SourceLineTooLong
| SourceUnexpectedSize (n : nat).

Definition maxSource : Z := Z.shiftl 2 20.

Definition source_line `{IDNA} (acc : list string * gset string) (line : string)
  : result source_error (list string * gset string) :=
  let domain := ToLower (TrimSpace line) in
  if skipped_line domain then Ok acc
  else match ToASCII domain with
  | None => Err (SourceBadDomain domain)
  | Some normalized =>
      let domain := ToLower normalized in
      if negb (validBypassSourceDomain domain) then Err (SourceBadDomain domain)
      else
        let '(domains, seen) := acc in
        if bool_decide (domain ∈ seen) then Ok acc
        else if 10000 <? Z.of_nat (length (domains ++ [domain])) then Err SourceTooMany
        else Ok (domains ++ [domain], {[domain]} ∪ seen)
  end.

Fixpoint source_lines `{IDNA} (acc : list string * gset string) (lines : list string)
  : result source_error (list string * gset string) :=
  match lines with
  | [] => Ok acc
  | line :: lines => let! acc := source_line acc line in source_lines acc lines
  end.

Definition parseSource `{IDNA} (body : string) : result source_error (list string) :=
  let '(lines, read) := ScanLines body in
  let! acc := source_lines ([], ∅) lines in
  if negb read then Err SourceLineTooLong
  else if (length acc.1 <? 100)%nat then Err (SourceUnexpectedSize (length acc.1))
  else Ok (sort_strings acc.1).

Definition fetchBypassDomainSource `{IDNA} (client : string -> exchange) (source : string)
  : result source_error (list string) :=
  match client source with
  | BadURL => Err SourceInvalidRequest
  | NoResponse => Err SourceFetchFailed
  | Response status _ body =>
      if (status <? 200) || (300 <=? status) then Err (SourceHTTP status)
      else match body with
      | None => Err SourceReadFailed
      | Some body =>
          if maxSource <? Z.of_nat (String.length body) then Err SourceTooLarge
          else parseSource body
      end
  end.

(** ** The direct connection *)

Definition bypassPublicIPv4 (b0 b1 b2 b3 : Z) : bool :=
  let unspecified := (b0 =? 0) && (b1 =? 0) && (b2 =? 0) && (b3 =? 0) in
  let broadcast := (b0 =? 255) && (b1 =? 255) && (b2 =? 255) && (b3 =? 255) in
  let loopback := b0 =? 127 in
  let multicast := Z.land b0 240 =? 224 in
  let link_local := (b0 =? 169) && (b1 =? 254) in
  let global_unicast :=
    negb unspecified && negb broadcast && negb loopback && negb multicast && negb link_local in
  let private := (b0 =? 10) || ((b0 =? 172) && (Z.land b1 240 =? 16)) ||
                 ((b0 =? 192) && (b1 =? 168)) in
  if negb global_unicast || private || loopback || link_local then false
  else negb (b0 =? 0) && (b0 <? 224) &&
       negb ((b0 =? 100) && (64 <=? b1) && (b1 <? 128)) &&
       negb ((b0 =? 198) && ((b1 =? 18) || (b1 =? 19))).

(** The addresses of a host in the order of the resolver; [dial] connects to one. *)
Inductive dial_error (E : Type) := NoPublicAddress | DialFailed (e : E).
Arguments NoPublicAddress {E}.
Arguments DialFailed {E} e.

Definition dialPublic {IP C E} (public : IP -> bool) (dial : IP -> result E C) (ips : list IP)
  : result (dial_error E) C :=
  let fix loop (lastErr : option E) (ips : list IP) :=
    match ips with
    | [] => Err (match lastErr with Some e => DialFailed e | None => NoPublicAddress end)
    | ip :: ips =>
        if negb (public ip) then loop lastErr ips
        else match dial ip with
             | Ok conn => Ok conn
             | Err e => loop (Some e) ips
             end
    end in
  loop None ips.

(** ** Downloading: directly, through the running tunnel, through a temporary one *)

Definition fetched : Type := result source_error (list string).

Inductive fetch_failed := FetchSource (e : source_error) | NoTemporaryTunnel (e : string).

(** [tunnel] is the client of the running engine, when there is one; [active]
    whether a server is selected; [temporary] a client through an engine of
    its own. *)
Definition fetchBypassSource `{IDNA} (direct : string -> exchange) (cancelled : bool)
    (tunnel : option (string -> exchange)) (active : bool)
    (temporary : result string (string -> exchange)) (source : string)
  : result fetch_failed (list string) * string :=
  let lift (r : fetched) := match r with Ok d => Ok d | Err e => Err (FetchSource e) end in
  match fetchBypassDomainSource direct source with
  | Ok domains => (Ok domains, "wan")
  | Err e =>
      if cancelled then (Err (FetchSource e), "wan")
      else match tunnel with
      | Some client => (lift (fetchBypassDomainSource client source), "vless")
      | None =>
          if negb active then (Err (FetchSource e), "wan")
          else match temporary with
          | Err e => (Err (NoTemporaryTunnel e), "vless")
          | Ok client => (lift (fetchBypassDomainSource client source), "vless")
          end
      end
  end.

(** ** A refresh *)

Definition bypassWhitelistURL : string :=
  "https://raw.githubusercontent.com/hxehex/russia-mobile-internet-whitelist/main/whitelist.txt".

Record bypassDiagnostics := mkDiag {
  bd_OperationID : string;
  bd_AttemptAt : Time;
  bd_SuccessAt : Time;
  bd_Transport : string;
  bd_DurationMS : Z;
  bd_Error : string
}.
#[export] Instance bypassDiagnostics_eta : Eta bypassDiagnostics := fun d =>
  mkDiag (bd_OperationID d) (bd_AttemptAt d) (bd_SuccessAt d) (bd_Transport d)
    (bd_DurationMS d) (bd_Error d).

(** Memory, [config.json], the domains the running engine sends directly
    ([None]: no engine runs), and the diagnostics. *)
Record bypassState := mkBypassState {
  bs_cfg : Config;
  bs_disk : Config;
  bs_rules : option (list string);
  bs_diag : bypassDiagnostics
}.
#[export] Instance bypassState_eta : Eta bypassState := fun s =>
  mkBypassState (bs_cfg s) (bs_disk s) (bs_rules s) (bs_diag s).

Inductive refresh_error :=
| NotAcquired
| RefreshFetch (e : fetch_failed)
| RefreshCancelled
| RefreshSave
| RefreshApply (e : string) (restored : bool).

(** What the outside answers to one refresh. *)
Record refresh_env := mkRefresh {
  re_acquired : bool;
  re_operation : string;
  re_started : Time;
  re_fetch : result fetch_failed (list string) * string;
  re_cancelled : bool;
  re_now : Time;
  re_saves : bool;
  re_update : option string;
  re_restores : bool;
  re_finished : Time;
  re_text : refresh_error -> string
}.

Definition refresh_fail (env : refresh_env) (e : refresh_error) (s : bypassState)
  : result refresh_error unit * bypassState :=
  (Err e, s <| bs_diag ::= fun d => d <| bd_Error := re_text env e |>
            <| bd_DurationMS := Z.quot (re_finished env - re_started env) Millisecond |> |>).

Definition newCache (previous : BypassCache) (domains : list string) (now : Time)
  : BypassCache * bool :=
  let changed := negb (bool_decide (bc_Domains previous = domains)) ||
                 negb (bool_decide (bc_Source previous = bypassWhitelistURL)) in
  (mkBypassCache domains (if changed then now else bc_UpdatedAt previous) bypassWhitelistURL,
   changed).

Definition with_cache (cfg : Config) (cache : BypassCache) : Config :=
  cfg <| cfg_BypassCache := cache |>.

(** Under one hold of [s.mu]: memory, then disk, then the engine. *)
Definition applyCache `{EmbeddedList} (env : refresh_env) (domains : list string) (s : bypassState)
  : option refresh_error * bypassState :=
  let previous := cfg_BypassCache (bs_cfg s) in
  let '(cache, changed) := newCache previous domains (re_now env) in
  let cfg := with_cache (bs_cfg s) cache in
  if negb changed then (None, s <| bs_cfg := cfg |>)
  else if negb (re_saves env) then (Some RefreshSave, s)
  else
    let s := s <| bs_cfg := cfg |> <| bs_disk := cfg |> in
    match bs_rules s with
    | None => (None, s)
    | Some _ =>
        match re_update env with
        | None => (None, s <| bs_rules := Some (bypassDomainsFor cfg) |>)
        | Some e =>
            let old := with_cache cfg previous in
            let s := s <| bs_cfg := old |> in
            (Some (RefreshApply e (re_restores env)),
             if re_restores env then s <| bs_disk := old |> else s)
        end
    end.

Definition refreshBypassLists `{EmbeddedList} (env : refresh_env) (s : bypassState)
  : result refresh_error unit * bypassState :=
  if negb (re_acquired env) then (Err NotAcquired, s)
  else
    let s := s <| bs_diag := mkDiag (re_operation env) (re_started env) zero_time "" 0 "" |> in
    let '(fetch, transport) := re_fetch env in
    match fetch with
    | Err e => refresh_fail env (RefreshFetch e) s
    | Ok base =>
        if re_cancelled env then refresh_fail env RefreshCancelled s
        else
          let '(failure, s) := applyCache env base s in
          match failure with
          | Some e => refresh_fail env e s
          | None =>
              (Ok tt, s <| bs_diag ::= fun d => d <| bd_Transport := transport |>
                 <| bd_DurationMS := Z.quot (re_finished env - re_started env) Millisecond |>
                 <| bd_SuccessAt := re_finished env |> |>)
          end
    end.

(** ** What the interface shows *)

Record bypassStatus := mkBypassStatus {
  st_Count : nat;
  st_EmbeddedCount : nat;
  st_CacheCount : nat;
  st_CustomCount : nat;
  st_EffectiveCount : nat;
  st_Enabled : bool;
  st_Applied : bool;
  st_UpdatedAt : option Time;
  st_Source : string;
  st_SourceType : string;
  st_Cached : bool;
  st_LastOperationID : string;
  st_LastAttemptAt : option Time;
  st_LastSuccessAt : option Time;
  st_LastTransport : string;
  st_LastDurationMS : Z;
  st_LastError : string;
  st_Domains : list string
}.

Definition nonzero_time (t : Time) : option Time := if IsZero t then None else Some t.

Definition bypassStatusLocked `{EmbeddedList} (s : bypassState) : bypassStatus :=
  let cfg := bs_cfg s in
  let cache := cfg_BypassCache cfg in
  let embeddedCount := length (parseDomainList bypassRussiaWhitelist) in
  let cacheCount := length (bc_Domains cache) in
  let cached := (0 <? cacheCount)%nat in
  let d := bs_diag s in
  {| st_Count := if cached then cacheCount else embeddedCount;
     st_EmbeddedCount := embeddedCount;
     st_CacheCount := cacheCount;
     st_CustomCount := length (BypassDomains (cfg_Settings cfg));
     st_EffectiveCount := bypassEffectiveCount cfg;
     st_Enabled := BypassRouteRussia (cfg_Settings cfg);
     st_Applied := match bs_rules s with Some _ => true | None => false end;
     st_UpdatedAt := nonzero_time (if cached then bc_UpdatedAt cache else zero_time);
     st_Source := if cached then bc_Source cache else "встроенный в пакет";
     st_SourceType := if cached then "cache" else "embedded";
     st_Cached := cached;
     st_LastOperationID := bd_OperationID d;
     st_LastAttemptAt := nonzero_time (bd_AttemptAt d);
     st_LastSuccessAt := nonzero_time (bd_SuccessAt d);
     st_LastTransport := bd_Transport d;
     st_LastDurationMS := bd_DurationMS d;
     st_LastError := bd_Error d;
     st_Domains := bypassListDomainsFor cfg |}.

(** ** References *)

(** What one line or entry names. *)
Definition entry_of (line : string) : option string :=
  let line := TrimSpace line in if skipped_line line then None else Some (ToLower line).
Definition domain_of (d : string) : option string :=
  let d := TrimSpace (ToLower d) in if skipped_line d then None else Some d.

(** The first occurrences, in order. *)
Fixpoint firsts (seen : gset string) (l : list string) : list string :=
  match l with
  | [] => []
  | x :: l => if bool_decide (x ∈ seen) then firsts seen l else x :: firsts ({[x]} ∪ seen) l
  end.

(** A host name of at least two labels, none of them a whole TLD, an address
    or an expression. *)
Definition ldh_label (label : string) : Prop :=
  (1 <= String.length label <= 63)%nat /\ Forall (fun c => label_byte c = true) (bytes_of label) /\
  head (bytes_of label) <> Some "-"%char /\ last (bytes_of label) <> Some "-"%char.

Definition host_name (d : string) : Prop :=
  (String.length d <= 253)%nat /\
  exists labels, d = Join labels "." /\ (2 <= length labels)%nat /\ Forall ldh_label labels /\
    last labels <> Some "arpa" /\
    ~ (length labels = 4%nat /\ Forall (fun l => octet l = true) labels).

(** ** Lemmas *)

Lemma add_unseen_run (f : string -> option string) l out seen :
  foldl (fun acc x => match f x with Some d => add_unseen acc d | None => acc end) (out, seen) l =
  (out ++ firsts seen (omap f l), seen ∪ list_to_set (omap f l)).
Proof.
  revert out seen. induction l as [|x l IH]; intros out seen; cbn.
  { by rewrite app_nil_r, (right_id_L ∅ (∪)). }
  destruct (f x) as [d|]; [|apply IH]. unfold add_unseen. cbn [firsts list_to_set foldr].
  case_bool_decide as Hd.
  - rewrite IH. f_equal. cbn. clear -Hd. set_solver.
  - rewrite IH, <- app_assoc. f_equal. cbn. clear. set_solver.
Qed.

Lemma parse_line_entry acc line :
  parse_line acc line = match entry_of line with Some d => add_unseen acc d | None => acc end.
Proof. unfold parse_line, entry_of. cbv zeta. by destruct (skipped_line _). Qed.

Lemma add_domain_entry acc d :
  add_domain acc d = match domain_of d with Some d => add_unseen acc d | None => acc end.
Proof. unfold add_domain, domain_of. cbv zeta. by destruct (skipped_line _). Qed.

Lemma foldl_ext_fun {A B} (f g : A -> B -> A) l a :
  (forall a b, f a b = g a b) -> foldl f a l = foldl g a l.
Proof. intros Hfg. revert a. induction l as [|b l IH]; intros a; [done|]. cbn. by rewrite Hfg, IH. Qed.

Lemma bypassDomainsFor_firsts `{EmbeddedList} cfg :
  bypassDomainsFor cfg =
  firsts ∅ (omap domain_of (baseDomains cfg ++ BypassDomains (cfg_Settings cfg))).
Proof.
  unfold bypassDomainsFor. rewrite (foldl_ext_fun _ _ _ _ add_domain_entry).
  by rewrite add_unseen_run.
Qed.

Lemma parseDomainList_firsts raw :
  parseDomainList raw = firsts ∅ (omap entry_of (Split raw newline)).
Proof.
  unfold parseDomainList. case_bool_decide as Hr; [by subst|].
  rewrite (foldl_ext_fun _ _ _ _ parse_line_entry). by rewrite add_unseen_run.
Qed.

Lemma firsts_elem seen l d : d ∈ firsts seen l <-> d ∈ l /\ d ∉ seen.
Proof.
  revert seen. induction l as [|x l IH]; intros seen; cbn [firsts]; [set_solver|].
  case_bool_decide as Hx; [rewrite IH|rewrite !elem_of_cons, IH];
    destruct (decide (d = x)) as [->|]; set_solver.
Qed.

Lemma firsts_NoDup seen l : NoDup (firsts seen l).
Proof.
  revert seen. induction l as [|x l IH]; intros seen; cbn [firsts]; [constructor|].
  case_bool_decide; [done|]. constructor; [|done]. rewrite firsts_elem. set_solver.
Qed.

Lemma firsts_app seen l1 l2 :
  firsts seen (l1 ++ l2) = firsts seen l1 ++ firsts (list_to_set l1 ∪ seen) l2.
Proof.
  revert seen. induction l1 as [|x l1 IH]; intros seen; cbn [firsts app list_to_set foldr].
  { f_equal. set_solver. }
  case_bool_decide; rewrite IH; cbn [app]; [f_equal; f_equal; set_solver|].
  f_equal. f_equal. f_equal. set_solver.
Qed.

Lemma compact_sorted l : Sorted String.le l -> NoDup l -> compact l = l.
Proof.
  induction l as [|x l IH]; intros Hs Hd; [done|]. destruct l as [|y l]; [done|].
  apply NoDup_cons in Hd as [Hx Hd]. cbn [compact].
  rewrite bool_decide_eq_false_2 by (intros ->; apply Hx; left). f_equal.
  apply IH; [by inversion Hs|done].
Qed.

Lemma sort_strings_spec l : Sorted String.le (sort_strings l) /\ sort_strings l ≡ₚ l.
Proof. split; [apply Sorted_merge_sort, _|apply merge_sort_Permutation]. Qed.

(** The domains that leave without the tunnel: the list's, when the switch is
    on, then the user's, trimmed and in lower case, each once; the interface
    shows the same ones in order. *)
Theorem bypassDomainsFor_spec `{EmbeddedList} cfg :
  let base := omap domain_of (baseDomains cfg) in
  let user := omap domain_of (BypassDomains (cfg_Settings cfg)) in
  let domains := bypassDomainsFor cfg in
  let shown := bypassListDomainsFor cfg in
  domains = firsts ∅ base ++ firsts (list_to_set base) user /\
  NoDup domains /\ (forall d, d ∈ domains <-> d ∈ base \/ d ∈ user) /\
  (BypassRouteRussia (cfg_Settings cfg) = false -> domains = firsts ∅ user) /\
  shown ≡ₚ domains /\ Sorted String.le shown /\ bypassEffectiveCount cfg = length domains.
Proof.
  cbv zeta.
  assert (Hshown : bypassListDomainsFor cfg = sort_strings (bypassDomainsFor cfg)).
  { unfold bypassListDomainsFor. destruct (sort_strings_spec (bypassDomainsFor cfg)) as [Hs Hp].
    apply compact_sorted; [done|]. rewrite Hp, bypassDomainsFor_firsts. apply firsts_NoDup. }
  unfold bypassEffectiveCount. rewrite Hshown.
  destruct (sort_strings_spec (bypassDomainsFor cfg)) as [Hs Hp]. rewrite (Permutation_length Hp).
  rewrite bypassDomainsFor_firsts in *. rewrite omap_app. repeat split.
  - rewrite firsts_app. by rewrite (right_id_L ∅ (∪)).
  - apply firsts_NoDup.
  - rewrite firsts_elem. set_solver.
  - rewrite firsts_elem. set_solver.
  - intros Hoff. unfold baseDomains. by rewrite Hoff.
  - by rewrite <- omap_app.
  - by rewrite <- omap_app.
Qed.

(** ** A downloaded list *)

Lemma valid_label_ldh label : valid_label label = true -> ldh_label label.
Proof.
  unfold valid_label, ldh_label. intros [Hn Hb]%andb_true_iff. apply negb_true_iff in Hn.
  rewrite !orb_false_iff in Hn. destruct Hn as [[[H0 H63] Hp] Hs].
  apply Nat.eqb_neq in H0. apply Nat.ltb_ge in H63. repeat split; [lia|lia| | |].
  - apply Forall_forall. rewrite List.forallb_forall in Hb.
    intros c Hc. apply Hb. by apply list_elem_of_In.
  - intros Hh. destruct label as [|c label]; [done|]. cbn in Hh. simplify_eq.
    unfold HasPrefix in Hp. cbn in Hp. by destruct label.
  - intros Hl. apply last_Some in Hl as [l Hl].
    rewrite <- (string_of_bytes_of label), Hl, string_of_app in Hs.
    change (string_of ["-"%char]) with "-" in Hs. by rewrite HasSuffix_app in Hs.
Qed.

Lemma valid_host_name d : validBypassSourceDomain d = true -> host_name d.
Proof.
  unfold validBypassSourceDomain, host_name. intros [Hn Hl]%andb_true_iff. apply negb_true_iff in Hn.
  rewrite !orb_false_iff in Hn. destruct Hn as [[[Hlen Hdot] Hip] Harpa].
  apply Nat.ltb_ge in Hlen. apply negb_false_iff in Hdot. split; [done|].
  assert (Htwo : (2 <= length (Split d char_dot))%nat) by (by apply Contains_Split).
  exists (Split d char_dot). pose proof (Join_Split d char_dot) as Hj. repeat split.
  - done.
  - done.
  - rewrite List.forallb_forall in Hl. apply Forall_forall. intros l Hin.
    apply valid_label_ldh, Hl. by apply list_elem_of_In.
  - intros Hlast. apply last_Some in Hlast as [l Hsplit].
    assert (Hne : l <> []).
    { intros ->. rewrite Hsplit in Htwo. cbn in Htwo. lia. }
    rewrite Hsplit, Join_snoc in Hj by done. rewrite <- Hj in Harpa.
    change (String char_dot "" +:+ "arpa") with ".arpa" in Harpa. by rewrite HasSuffix_app in Harpa.
  - intros [H4 Hall]. unfold dotted_quad in Hip. rewrite H4 in Hip. cbn [Nat.eqb andb] in Hip.
    apply not_true_iff_false in Hip. apply Hip, List.forallb_forall. intros l Hin.
    rewrite Forall_forall in Hall. apply Hall. by apply list_elem_of_In.
Qed.

(** What a line of a downloaded list stands for. *)
Definition source_domain `{IDNA} (line : string) : option string :=
  let domain := ToLower (TrimSpace line) in
  if skipped_line domain then None else ToLower <$> ToASCII domain.

Lemma source_lines_spec `{IDNA} lines acc acc' :
  source_lines acc lines = Ok acc' -> acc.2 = list_to_set acc.1 ->
  acc'.1 = acc.1 ++ firsts acc.2 (omap source_domain lines) /\ acc'.2 = list_to_set acc'.1 /\
  Forall (fun d => validBypassSourceDomain d = true) (firsts acc.2 (omap source_domain lines)) /\
  (Z.of_nat (length acc.1) <= 10000 -> Z.of_nat (length acc'.1) <= 10000).
Proof.
  revert acc. induction lines as [|line lines IH]; intros [domains seen]; cbn [source_lines omap list_omap].
  { intros [= <-] Hseen. cbn. rewrite app_nil_r. by repeat split. }
  remember (source_domain line) as named eqn:Hnamed. unfold source_domain in Hnamed.
  unfold source_line. cbv zeta in *. destruct (skipped_line _); [subst; apply IH|].
  destruct (ToASCII _) as [n|]; [|done]. cbn [fmap option_fmap option_map] in Hnamed. subst named.
  set (d := ToLower n). destruct (validBypassSourceDomain d) eqn:Hd; [|done]. cbn [negb firsts].
  cbn [fst snd]. case_bool_decide as Hin; [apply IH|].
  destruct (10000 <? _) eqn:Hmax; [done|]. cbn [result_bind]. intros Hrest Hseen.
  destruct (IH _ Hrest) as (Hout & Hset & Hall & Hlen).
  { cbn [fst snd] in *. subst. rewrite list_to_set_app_L. cbn. set_solver. }
  cbn [fst snd] in *. rewrite <- app_assoc in Hout. repeat split; [done|done|by constructor|].
  intros _. apply Hlen. apply Z.ltb_ge in Hmax. lia.
Qed.

(** C37. A downloaded list that is accepted holds from 100 to 10000 distinct host
    names in order, exactly those of the lines of a body of at most 2 MiB; a
    whole TLD, an address or an expression is never among them. *)
Theorem fetchBypassDomainSource_wellformed `{IDNA} client source domains :
  fetchBypassDomainSource client source = Ok domains ->
  Forall host_name domains /\ Sorted String.le domains /\ NoDup domains /\
  100 <= Z.of_nat (length domains) <= 10000 /\
  exists status header body,
    client source = Response status header (Some body) /\ 200 <= status < 300 /\
    Z.of_nat (String.length body) <= 2097152 /\
    (ScanLines body).2 = true /\
    forall d, d ∈ domains <-> exists line, line ∈ (ScanLines body).1 /\ source_domain line = Some d.
Proof.
  unfold fetchBypassDomainSource. destruct (client source) as [| |status header body] eqn:Hc; [done..|].
  destruct (_ || _) eqn:Hst; [done|]. destruct body as [body|]; [|done].
  destruct (maxSource <? _) eqn:Hsize; [done|]. unfold parseSource.
  destruct (ScanLines body) as [lines read] eqn:Hscan.
  destruct (source_lines _ lines) as [acc|e] eqn:Hl; [|done]. cbn [result_bind].
  destruct read; [|done]. cbn [negb]. destruct (length acc.1 <? 100)%nat eqn:Hmin; [done|].
  intros [= <-]. destruct (source_lines_spec lines _ acc Hl) as (Hout & _ & Hall & Hmax); [done|].
  cbn [fst snd app] in *. destruct (sort_strings_spec acc.1) as [Hs Hp].
  apply Nat.ltb_ge in Hmin. rewrite orb_false_iff in Hst. repeat split.
  - rewrite Hp, Hout. eapply Forall_impl; [exact Hall|]. apply valid_host_name.
  - done.
  - rewrite Hp, Hout. apply firsts_NoDup.
  - rewrite (Permutation_length Hp). lia.
  - rewrite (Permutation_length Hp). apply Hmax. cbn. lia.
  - exists status, header, body. rewrite Hscan. cbn [fst snd]. repeat split; [lia|lia| | |].
    + apply Z.ltb_ge in Hsize. exact Hsize.
    + rewrite Hp, Hout, firsts_elem. intros [Hin _]. by apply list_elem_of_omap in Hin.
    + rewrite Hp, Hout, firsts_elem. intros Hin. split; [by apply list_elem_of_omap|set_solver].
Qed.

(** ** A refresh *)

(** Disk holds what memory holds, and a running engine has its rules. *)
Definition in_sync `{EmbeddedList} (s : bypassState) : Prop :=
  bs_disk s = bs_cfg s /\ forall rules, bs_rules s = Some rules -> rules = bypassDomainsFor (bs_cfg s).

Lemma restore_cache cfg cache :
  with_cache (with_cache cfg cache) (cfg_BypassCache cfg) = cfg.
Proof. by destruct cfg. Qed.

Lemma unchanged_cache previous domains now :
  (newCache previous domains now).2 = false -> (newCache previous domains now).1 = previous.
Proof.
  unfold newCache. cbv zeta. intros Hc. cbn [snd fst] in *. rewrite Hc.
  apply orb_false_iff in Hc as [Hd Hs]. apply negb_false_iff in Hd, Hs.
  apply bool_decide_eq_true in Hd, Hs. destruct previous; cbn in *. by subst.
Qed.

Lemma cfg_same_cache cfg cache : cache = cfg_BypassCache cfg -> with_cache cfg cache = cfg.
Proof. intros ->. by destruct cfg. Qed.

#[local] Arguments newCache : simpl never.
#[local] Arguments with_cache : simpl never.

(** C38. A refresh that succeeds stores the fetched list in memory and keeps memory,
    disk and engine in step; one that fails leaves memory and engine as they
    were, and the disk too, unless the engine refused the rules and the old
    file could not be written back. *)
Theorem refreshBypassLists_atomic `{EmbeddedList} env s :
  in_sync s ->
  let '(r, s') := refreshBypassLists env s in
  match r with
  | Ok _ =>
      (exists domains, (re_fetch env).1 = Ok domains /\
         bs_cfg s' = with_cache (bs_cfg s)
           (newCache (cfg_BypassCache (bs_cfg s)) domains (re_now env)).1) /\
      in_sync s' /\ (bs_rules s' = None <-> bs_rules s = None) /\ bd_Error (bs_diag s') = "" /\
      bd_SuccessAt (bs_diag s') = re_finished env
  | Err e =>
      bs_cfg s' = bs_cfg s /\ bs_rules s' = bs_rules s /\
      (bs_disk s' = bs_cfg s \/ exists msg domains,
         e = RefreshApply msg false /\ re_update env = Some msg /\ re_restores env = false /\
         (re_fetch env).1 = Ok domains /\
         bs_disk s' = with_cache (bs_cfg s)
           (newCache (cfg_BypassCache (bs_cfg s)) domains (re_now env)).1) /\
      (e = NotAcquired /\ s' = s \/
       bd_Error (bs_diag s') = re_text env e /\ bd_OperationID (bs_diag s') = re_operation env)
  end.
Proof.
  intros [Hdisk Hrules]. unfold refreshBypassLists. destruct (re_acquired env); cbn [negb].
  2: { repeat split; auto. }
  destruct (re_fetch env) as [[domains|e] transport]; cbn [fst].
  2: { unfold refresh_fail, upd; cbn. repeat split; auto. }
  destruct (re_cancelled env). { unfold refresh_fail, upd; cbn. repeat split; auto. }
  unfold applyCache, refresh_fail, upd. cbn [bs_cfg bs_disk bs_rules bs_diag].
  pose proof (unchanged_cache (cfg_BypassCache (bs_cfg s)) domains (re_now env)) as Hsame.
  destruct (newCache _ _ _) as [cache changed] eqn:Hnew. cbn [fst snd] in Hsame.
  destruct changed; cbn [negb].
  2: { cbn. pose proof (cfg_same_cache (bs_cfg s) cache (Hsame eq_refl)) as Hcfg. rewrite Hcfg.
       split; [exists domains; by rewrite Hnew|]. by repeat split. }
  destruct (re_saves env); cbn [negb]; [|cbn; repeat split; auto].
  destruct (bs_rules s) as [rules|] eqn:Hr; cbn [bs_cfg bs_disk bs_rules bs_diag].
  - destruct (re_update env) as [msg|] eqn:Hu; cbn.
    + rewrite restore_cache. destruct (re_restores env) eqn:Hre; cbn; rewrite ?Hr.
      * repeat split; auto.
      * repeat split; auto. right. exists msg, domains. by rewrite Hnew.
    + split; [exists domains; by rewrite Hnew|]. repeat split; [|done..]. intros ? [= <-]. done.
  - cbn. split; [exists domains; by rewrite Hnew|]. by repeat split.
Qed.

(** ** Concrete runs *)

#[local] Instance small_list : EmbeddedList := "# zero-rated".
#[local] Instance plain_idna : IDNA := Some.

Definition many_lines : string :=
  Join ("# list" :: ((fun n : nat => "Host" +:+ pretty n +:+ ".RU ") <$> seq 0 120)) (String newline "").

Lemma fetchBypassDomainSource_wellformed_witness :
  exists domains,
    fetchBypassDomainSource (fun _ => Response 200 (fun _ => "") (Some many_lines)) "u" = Ok domains /\
    length domains = 120%nat /\ Forall host_name domains.
Proof.
  eexists. split; [vm_compute; reflexivity|]. split; [reflexivity|].
  eapply (fetchBypassDomainSource_wellformed
            (fun _ => Response 200 (fun _ => "") (Some many_lines)) "u").
  vm_compute. reflexivity.
Defined.

Definition refused_refresh : refresh_env :=
  mkRefresh true "bypass-1" 10 (Ok ["a.ru"; "b.ru"], "wan") false 20 true (Some "router") false 30
    (fun _ => "apply bypass").

Definition running_state : bypassState :=
  mkBypassState defaultConfig defaultConfig (Some (bypassDomainsFor defaultConfig))
    (mkDiag "" zero_time zero_time "" 0 "").

Lemma refreshBypassLists_atomic_witness :
  in_sync running_state /\
  let '(r, s') := refreshBypassLists refused_refresh running_state in
  r = Err (RefreshApply "router" false) /\ bs_cfg s' = defaultConfig /\ bs_disk s' <> defaultConfig.
Proof.
  assert (Hs : in_sync running_state) by (split; [reflexivity|vm_compute; intros rules Hr; injection Hr as <-; reflexivity]).
  split; [exact Hs|]. pose proof (refreshBypassLists_atomic refused_refresh running_state Hs) as H.
  destruct (refreshBypassLists refused_refresh running_state) as [r s'] eqn:Hr.
  assert (Hr' : r = Err (RefreshApply "router" false)).
  { change r with (r, s').1. rewrite <- Hr. vm_compute. reflexivity. }
  split; [exact Hr'|]. rewrite Hr' in H. destruct H as (Hcfg & _). split; [exact Hcfg|].
  change s' with (r, s').2. rewrite <- Hr. vm_compute. discriminate.
Defined.
