(* ===== verification/XrayConfig.v ===== *)
(** * The engine's configuration: [xray.go] and the rule update of [xray_embed.go]

    What the embedded engine is started with: inbounds, one outbound per
    physical endpoint, the routing rules, the balancer of a logical profile, and
    the transport options of XHTTP with their old spellings.  The result is a
    JSON value; printing it is left to [encoding/json].

    A Go map is the list of its entries in the order a [range] visits them, so a
    theorem about every such list is a theorem about every order.  [ParseJSON] is
    [encoding/json] on the raw messages of a share link. *)

From Stdlib Require Import Ascii.
From S2P Require Import Prelude GoStrings Settings Servers Config Subscriptions Routing Bypass.

#[local] Open Scope Z_scope.

(** ** JSON values *)

(** [JNum m e] is the number [m * 10 ^ e]. *)
Inductive json :=
| JNull
| JBool (b : bool)
| JNum (m e : Z)
| JStr (s : string)
| JArr (l : list json)
| JObj (entries : list (string * json)).

Definition jint (z : Z) : json := JNum z 0.
Definition jstrs (l : list string) : json := JArr (JStr <$> l).

Fixpoint jget (key : string) (l : list (string * json)) : option json :=
  match l with
  | [] => None
  | (k, v) :: l => if bool_decide (k = key) then Some v else jget key l
  end.

(** [m[key] = value]. *)
Fixpoint jset (key : string) (value : json) (l : list (string * json)) : list (string * json) :=
  match l with
  | [] => [(key, value)]
  | (k, v) :: l => if bool_decide (k = key) then (key, value) :: l else (k, v) :: jset key value l
  end.

Definition jdel (key : string) (l : list (string * json)) : list (string * json) :=
  filter (fun p => p.1 <> key) l.

Definition field (key : string) (v : json) : option json :=
  match v with JObj l => jget key l | _ => None end.

Class ParseJSON := parse_json : string -> option json.

(** ** Constants *)

Definition socksHealthPort : Z := 7891.
Definition WANFwmark : Z := 39185.
Definition xrayTunnelTestTag : string := "manager-tunnel-test".

Definition orDefault (s def : string) : string := if bool_decide (s = "") then def else s.

Definition xrayLogLevel (level : string) : string :=
  if bool_decide (level ∈ ["trace"; "debug"]) then "debug"
  else if bool_decide (level = "info") then "info"
  else if bool_decide (level ∈ ["warn"; "warning"]) then "warning"
  else if bool_decide (level ∈ ["panic"; "fatal"; "none"]) then "none"
  else "error".

Definition xraySOCKSInbound (port : Z) : json :=
  JObj [("protocol", JStr "socks"); ("tag", JStr "socks-health"); ("listen", JStr "127.0.0.1");
        ("port", jint port);
        ("settings", JObj [("auth", JStr "noauth"); ("udp", JBool true); ("ip", JStr "127.0.0.1")])].

(** The router runs Linux: [runtime.GOOS == "linux"]. *)
Definition xraySocketOptions : list (string * json) :=
  [("domainStrategy", JStr "UseIPv4"); ("mark", jint WANFwmark)].

(** ** Old spellings of the XHTTP options *)

Definition aliases : list (string * string) := [
  ("x_padding_bytes", "xPaddingBytes"); ("no_grpc_header", "noGRPCHeader");
  ("no_sse_header", "noSSEHeader"); ("sessionIDKey", "sessionKey"); ("sessionIdKey", "sessionKey");
  ("sessionIDPlacement", "sessionPlacement"); ("sessionIdPlacement", "sessionPlacement");
  ("session_key", "sessionKey"); ("session_placement", "sessionPlacement"); ("seq_key", "seqKey");
  ("seq_placement", "seqPlacement"); ("uplink_http_method", "uplinkHTTPMethod");
  ("uplink_httpmethod", "uplinkHTTPMethod"); ("uplink_data_key", "uplinkDataKey");
  ("uplink_data_placement", "uplinkDataPlacement"); ("max_concurrency", "maxConcurrency");
  ("max_connections", "maxConnections"); ("cmax_reuse_times", "cMaxReuseTimes");
  ("c_max_reuse_times", "cMaxReuseTimes"); ("hmax_request_times", "hMaxRequestTimes");
  ("h_max_request_times", "hMaxRequestTimes"); ("hmax_reusable_secs", "hMaxReusableSecs");
  ("h_max_reusable_secs", "hMaxReusableSecs"); ("hkeep_alive_period", "hKeepAlivePeriod");
  ("h_keep_alive_period", "hKeepAlivePeriod"); ("download_settings", "downloadSettings");
  ("download", "downloadSettings"); ("tls_settings", "tlsSettings");
  ("reality_settings", "realitySettings"); ("xhttp_settings", "xhttpSettings");
  ("splithttp_settings", "splithttpSettings"); ("server_name", "serverName");
  ("public_key", "publicKey"); ("short_id", "shortId"); ("x_padding_obfs_mode", "xPaddingObfsMode");
  ("x_padding_key", "xPaddingKey"); ("x_padding_header", "xPaddingHeader");
  ("x_padding_placement", "xPaddingPlacement"); ("x_padding_method", "xPaddingMethod");
  ("sc_max_each_post_bytes", "scMaxEachPostBytes"); ("sc_min_posts_interval_ms", "scMinPostsIntervalMs");
  ("sc_max_buffered_posts", "scMaxBufferedPosts"); ("sc_stream_up_server_secs", "scStreamUpServerSecs")].

Fixpoint alias_of (key : string) (table : list (string * string)) : option string :=
  match table with
  | [] => None
  | (old, new) :: table => if bool_decide (old = key) then Some new else alias_of key table
  end.

(** One entry of the loop: its value, and the value already rewritten. *)
Definition rename_entry (obj : list (string * json)) (out : list (string * json))
    (entry : string * (json * json)) : list (string * json) :=
  let '(key, (nested, renamed)) := entry in
  let put key := jset key (if bool_decide (key = "headers") then nested else renamed) out in
  match alias_of key aliases with
  | Some alias => match jget alias obj with Some _ => out | None => put alias end
  | None => put key
  end.

Fixpoint xrayLegacyKeys (value : json) : json :=
  match value with
  | JObj obj =>
      JObj (foldl (rename_entry obj) []
              (map (fun p => let '(key, nested) := p in (key, (nested, xrayLegacyKeys nested))) obj))
  | _ => value
  end.

(** ** One outbound *)

Inductive xray_error :=
| UnsupportedTransport (network : string)
| UnsupportedPacketEncoding (encoding : string)
| InvalidExtra
| InvalidXHTTP (key : string)
| InvalidHeaders
| ProfileMember (i : nat) (e : xray_error).

Section Outbound.
Context `{JSONCodec, ParseJSON}.

(** A [map[string]string] as JSON, in the order of its range. *)
Definition jmap (m : gmap string string) : json :=
  JObj (prod_map id JStr <$> map_range m).

(** [json.Unmarshal] of a value into a [map[string]string]. *)
Definition string_entry (p : string * json) : option (string * string) :=
  match p.2 with
  | JStr s => Some (p.1, s)
  | JNull => Some (p.1, "")
  | _ => None
  end.
Definition string_entries (v : json) : option (list (string * string)) :=
  match v with
  | JObj l => mapM string_entry l
  | JNull => Some []
  | _ => None
  end.

Definition set_nonempty (t : list (string * json)) (p : string * string) : list (string * json) :=
  if bool_decide (p.2 = "") then t else jset p.1 (JStr p.2) t.
Definition set_true (t : list (string * json)) (p : string * bool) : list (string * json) :=
  if p.2 then jset p.1 (JBool true) t else t.

Definition xhttp_strings (srv : VLESSServer) : list (string * string) := [
  ("mode", sv_Mode srv); ("host", sv_Host srv); ("path", sv_Path srv);
  ("xPaddingBytes", sv_XPadding srv); ("sessionPlacement", sv_SessionPlacement srv);
  ("sessionKey", sv_SessionKey srv); ("seqPlacement", sv_SeqPlacement srv); ("seqKey", sv_SeqKey srv);
  ("uplinkHTTPMethod", sv_UplinkHTTPMethod srv); ("uplinkDataPlacement", sv_UplinkDataPlacement srv);
  ("uplinkDataKey", sv_UplinkDataKey srv); ("xPaddingKey", sv_XPaddingKey srv);
  ("xPaddingHeader", sv_XPaddingHeader srv); ("xPaddingPlacement", sv_XPaddingPlacement srv);
  ("xPaddingMethod", sv_XPaddingMethod srv)].
Definition xhttp_bools (srv : VLESSServer) : list (string * bool) := [
  ("noSSEHeader", sv_NoSSEHeader srv); ("noGRPCHeader", sv_NoGRPCHeader srv);
  ("xPaddingObfsMode", sv_XPaddingObfsMode srv)].

Definition set_raw (t : list (string * json)) (key raw : string)
  : result xray_error (list (string * json)) :=
  if bool_decide (raw = "") then Ok t
  else match parse_json raw with
       | None => Err (InvalidXHTTP key)
       | Some value => Ok (jset key (xrayLegacyKeys value) t)
       end.

(** The value of [transport["host"]] counts as missing. *)
Definition no_host (t : list (string * json)) : bool :=
  match jget "host" t with
  | None | Some JNull => true
  | Some (JStr s) => bool_decide (s = "")
  | _ => false
  end.

(** One step of the loop over the headers: the transport, the headers kept. *)
Definition take_host (acc : list (string * json) * list (string * string)) (p : string * string)
  : list (string * json) * list (string * string) :=
  let '(t, kept) := acc in
  if EqualFold p.1 "host" then (if no_host t then jset "host" (JStr p.2) t else t, kept)
  else (t, kept ++ [p]).

Definition fix_headers (t : list (string * json)) : result xray_error (list (string * json)) :=
  match jget "headers" t with
  | None => Ok t
  | Some raw =>
      match string_entries raw with
      | None => Err InvalidHeaders
      | Some headers =>
          let '(t, kept) := foldl take_host (t, []) headers in
          let value := match raw with JNull => JNull | _ => JObj (prod_map id JStr <$> kept) end in
          Ok (jset "headers" value t)
      end
  end.

Definition default_padding (t : list (string * json)) : list (string * json) :=
  match jget "xPaddingBytes" t with
  | None => jset "xPaddingBytes" (JStr "100-1000") t
  | Some v =>
      if match v with
         | JStr s => bool_decide (s = "") || bool_decide (s = "0")
         | JNum m _ => m =? 0
         | _ => false
         end
      then jset "xPaddingBytes" (JStr "100-1000") t else t
  end.

(** The second socket of a split download carries the mark too. *)
Definition mark_download (t : list (string * json)) : list (string * json) :=
  match jget "downloadSettings" t with
  | Some (JObj download) =>
      let sockopt := match jget "sockopt" download with Some (JObj l) => l | _ => [] end in
      let sockopt := foldl (fun l p => jset p.1 p.2 l) sockopt xraySocketOptions in
      jset "downloadSettings" (JObj (jset "sockopt" (JObj sockopt) download)) t
  | _ => t
  end.

Definition xhttp_extra (srv : VLESSServer) : result xray_error (list (string * json)) :=
  if bool_decide (sv_Extra srv = "") then Ok []
  else match parse_json (sv_Extra srv) with
       | Some (JObj l) => match xrayLegacyKeys (JObj l) with JObj l => Ok l | _ => Ok l end
       | _ => Err InvalidExtra
       end.

Definition buildXrayXHTTPTransport (srv : VLESSServer) : result xray_error json :=
  let! t := xhttp_extra srv in
  let t := jdel "extra" t in
  let t := foldl set_nonempty t (xhttp_strings srv) in
  let t := foldl set_true t (xhttp_bools srv) in
  let t := if sv_ScMaxBufferedPosts srv =? 0 then t
           else jset "scMaxBufferedPosts" (jint (sv_ScMaxBufferedPosts srv)) t in
  let t := if bool_decide (sv_XHTTPHeaders srv = ∅) then t
           else jset "headers" (jmap (sv_XHTTPHeaders srv)) t in
  let! t := set_raw t "xmux" (sv_Xmux srv) in
  let! t := set_raw t "downloadSettings" (sv_DownloadSettings srv) in
  let! t := fix_headers t in
  Ok (JObj (mark_download (default_padding t))).

(** [strings.LastIndex(s, "/")] and what follows it. *)
Definition after_last_slash (s : string) : string :=
  default s (last (Split s "/"%char)).

Definition grpc_settings (srv : VLESSServer) : json :=
  let serviceName := sv_Path srv in
  let authority := ("authority", JStr (sv_Host srv)) in
  if HasPrefix serviceName "/" && negb (Contains (TrimPrefix serviceName "/") "/")
  then JObj [authority; ("serviceName", JStr (TrimPrefix serviceName "/"))]
  else if HasPrefix serviceName "/" && negb (Contains (after_last_slash serviceName) "|")
  then JObj [authority; ("multiMode", JBool true); ("serviceName", JStr serviceName)]
  else JObj [authority; ("serviceName", JStr serviceName)].

Definition security_settings (srv : VLESSServer) : list (string * json) :=
  let serverName := ("serverName", JStr (orDefault (sv_SNI srv) (sv_Address srv))) in
  if bool_decide (sv_Security srv = "reality") then
    [("realitySettings", JObj [serverName;
       ("fingerprint", JStr (orDefault (sv_Fingerprint srv) "chrome"));
       ("password", JStr (sv_PublicKey srv)); ("shortId", JStr (sv_ShortID srv));
       ("spiderX", JStr (sv_SpiderX srv))])]
  else if bool_decide (sv_Security srv = "tls") then
    [("tlsSettings", JObj (serverName ::
       (if bool_decide (sv_Fingerprint srv = "") then []
        else [("fingerprint", JStr (sv_Fingerprint srv))]) ++
       match splitCSV (sv_ALPN srv) with [] => [] | alpn => [("alpn", jstrs alpn)] end))]
  else [].

Definition transport_settings (srv : VLESSServer) (network : string)
  : result xray_error (list (string * json)) :=
  let plain := JObj [("path", JStr (sv_Path srv)); ("host", JStr (sv_Host srv))] in
  if bool_decide (network = "ws") then Ok [("wsSettings", plain)]
  else if bool_decide (network = "grpc") then Ok [("grpcSettings", grpc_settings srv)]
  else if bool_decide (network = "httpupgrade") then Ok [("httpupgradeSettings", plain)]
  else if bool_decide (network = "xhttp") then
    let! xhttp := buildXrayXHTTPTransport srv in Ok [("xhttpSettings", xhttp)]
  else Ok [].

Definition stream_settings (srv : VLESSServer) (network : string) (transport : list (string * json))
  : list (string * json) :=
  [("network", JStr (if bool_decide (network = "tcp") then "raw" else network));
   ("security", JStr (orDefault (sv_Security srv) "none"));
   ("sockopt", JObj xraySocketOptions)] ++ security_settings srv ++ transport.

Definition buildXrayVLESSOutbound (tag : string) (srv : VLESSServer) : result xray_error json :=
  let network := normalizeVLESSNetwork (sv_Network srv) in
  if negb (bool_decide (network ∈ supportedNetworks)) then Err (UnsupportedTransport network)
  else if negb (bool_decide (sv_PacketEncoding srv = "") || bool_decide (sv_PacketEncoding srv = "xudp"))
  then Err (UnsupportedPacketEncoding (sv_PacketEncoding srv))
  else
    let flow := if bool_decide (sv_Flow srv = "xtls-rprx-vision")
                then sv_Flow srv +:+ "-udp443" else sv_Flow srv in
    let! transport := transport_settings srv network in
    Ok (JObj [("protocol", JStr "vless"); ("tag", JStr tag);
         ("settings", JObj [("vnext", JArr [JObj [("address", JStr (sv_Address srv));
            ("port", jint (sv_Port srv));
            ("users", JArr [JObj [("id", JStr (sv_UUID srv)); ("encryption", JStr "none");
                                  ("flow", JStr flow)]])]])]);
         ("streamSettings", JObj (stream_settings srv network transport));
         ("mux", JObj [("enabled", JBool false); ("concurrency", jint (-1));
                       ("xudpConcurrency", jint 16); ("xudpProxyUDP443", JStr "allow")])]).

(** [fmt.Sprintf("proxy-%d", i+1)]. *)
Definition member_tag (i : nat) : string := "proxy-" +:+ pretty (S i).

Fixpoint build_members (i : nat) (members : list VLESSServer) : result xray_error (list json) :=
  match members with
  | [] => Ok []
  | m :: members =>
      match buildXrayVLESSOutbound (member_tag i) m with
      | Err e => Err (ProfileMember (S i) e)
      | Ok out => let! rest := build_members (S i) members in Ok (out :: rest)
      end
  end.

Definition buildXrayProxyOutbounds (srv : VLESSServer) : result xray_error (list json) :=
  match sv_Members srv with
  | [] => let! out := buildXrayVLESSOutbound "proxy" srv in Ok [out]
  | members => build_members 0 members
  end.

(** ** The whole configuration *)

Definition direct_outbound : json :=
  JObj [("tag", JStr "direct"); ("protocol", JStr "freedom");
        ("settings", JObj [("targetStrategy", JStr "UseIPv4");
           ("finalRules", JArr [JObj [("action", JStr "allow"); ("ip", jstrs privateCIDRs)]])]);
        ("streamSettings", JObj [("sockopt", JObj xraySocketOptions)])].

Definition proxyRule (srv : VLESSServer) : list (string * json) :=
  [("type", JStr "field"); ("network", JStr "tcp,udp")] ++
  match sv_Members srv with
  | [] => [("outboundTag", JStr "proxy")]
  | _ => [("balancerTag", JStr "proxy")]
  end.

Definition balancers : json :=
  JArr [JObj [("tag", JStr "proxy"); ("selector", jstrs ["proxy-"]); ("fallbackTag", JStr "proxy-1");
              ("strategy", JObj [("type", JStr "leastPing")])]].

Definition observatory (probeURL : string) : json :=
  JObj [("subjectSelector", jstrs ["proxy-"]); ("probeURL", JStr (orDefault probeURL defaultPingTestURL));
        ("probeInterval", JStr "10m"); ("enableConcurrency", JBool true)].

(** [rules], [log] and [inbounds] are what the caller puts in place. *)
Definition xrayConfig (srv : VLESSServer) (probeURL : string) (outbounds : list json)
    (rules : list (list (string * json))) (log : json) (inbounds : list json) : json :=
  let grouped := match sv_Members srv with [] => false | _ => true end in
  JObj ([("log", log); ("inbounds", JArr inbounds); ("outbounds", JArr outbounds);
         ("routing", JObj ([("domainStrategy", JStr "AsIs"); ("rules", JArr (JObj <$> rules))] ++
            (if grouped then [("balancers", balancers)] else [])));
         ("stats", JObj []);
         ("policy", JObj [("levels", JObj [("0", JObj [("handshake", jint 4)])]);
            ("system", JObj [("statsOutboundUplink", JBool true);
                             ("statsOutboundDownlink", JBool true)])])] ++
        (if grouped then [("observatory", observatory probeURL)] else [])).

Definition silent_log : json := JObj [("loglevel", JStr "none"); ("access", JStr "none")].

(** The configuration of a temporary engine: [xrayBaseConfig] with one inbound. *)
Definition xrayBaseConfig (srv : VLESSServer) (probeURL : string) (inbounds : list json)
  : result xray_error json :=
  let! outbounds := buildXrayProxyOutbounds srv in
  Ok (xrayConfig srv probeURL (outbounds ++ [direct_outbound]) [proxyRule srv] silent_log inbounds).

Definition xrayRoutingRules `{EmbeddedList} (cfg : Config) (final : list (string * json))
  : list (list (string * json)) :=
  let testRule := foldl (fun l p => jset p.1 p.2 l)
    [("inboundTag", jstrs [xrayTunnelTestTag; "socks-health"])] final in
  [testRule] ++
  match bypassDomainsFor cfg with
  | [] => []
  | bypass => [[("type", JStr "field"); ("domain", jstrs ((fun d => "domain:" +:+ d) <$> bypass));
                ("outboundTag", JStr "direct")]]
  end ++
  [[("type", JStr "field"); ("ip", jstrs privateCIDRs); ("outboundTag", JStr "direct")]; final].

(** [tcpRedirectPort], which the routing commands use as text. *)
Definition tproxyPort : Z := default 0 (ParseInt tcpRedirectPort 64).

Definition tproxyInbound : json :=
  JObj [("protocol", JStr "dokodemo-door"); ("tag", JStr "tproxy-in"); ("listen", JStr "0.0.0.0");
        ("port", jint tproxyPort);
        ("settings", JObj [("network", JStr "tcp,udp"); ("followRedirect", JBool true)]);
        ("streamSettings", JObj [("sockopt", JObj [("tproxy", JStr "tproxy"); ("mark", jint WANFwmark)])]);
        ("sniffing", JObj [("enabled", JBool true); ("destOverride", jstrs ["http"; "tls"; "quic"]);
                           ("routeOnly", JBool true)])].

Definition generateXrayConfig `{EmbeddedList} (cfg : Config) (srv : VLESSServer)
  : result xray_error json :=
  let srv := serverWithTLSProfile srv (TLSClientProfile (cfg_Settings cfg)) in
  let! outbounds := buildXrayProxyOutbounds srv in
  Ok (xrayConfig srv (PingTestURL (cfg_Settings cfg)) (outbounds ++ [direct_outbound])
        (xrayRoutingRules cfg (proxyRule srv))
        (JObj [("loglevel", JStr (xrayLogLevel (LogLevel (cfg_Settings cfg)))); ("access", JStr "none")])
        [tproxyInbound; xraySOCKSInbound socksHealthPort]).

(** ** The running engine: [startXray] keeps the last rule, [UpdateBypassRules]
    builds the rules around it again. *)

Definition rules_of (config : json) : list json :=
  match field "routing" config with
  | Some routing => match field "rules" routing with Some (JArr l) => l | _ => [] end
  | None => []
  end.

Definition kept_rule (config : json) : option (list (string * json)) :=
  match last (rules_of config) with Some (JObj rule) => Some rule | _ => None end.

Definition updated_rules `{EmbeddedList} (config : json) (cfg : Config) : option (list json) :=
  (fun rule => JObj <$> xrayRoutingRules cfg rule) <$> kept_rule config.
End Outbound.

(** ** Lemmas on objects *)

Lemma jget_jset_eq key v l : jget key (jset key v l) = Some v.
Proof.
  induction l as [|[k w] l IH]; cbn; [by rewrite bool_decide_eq_true_2|].
  case_bool_decide; cbn; [by rewrite bool_decide_eq_true_2|]. by rewrite bool_decide_eq_false_2.
Qed.

Lemma jget_jset_ne key key' v l : key <> key' -> jget key (jset key' v l) = jget key l.
Proof.
  intros Hne. induction l as [|[k w] l IH]; cbn; [by rewrite bool_decide_eq_false_2 by done|].
  destruct (bool_decide_reflect (k = key')) as [->|]; cbn.
  - by rewrite !bool_decide_eq_false_2 by done.
  - by rewrite IH.
Qed.

Lemma jget_app key l1 l2 :
  jget key (l1 ++ l2) = match jget key l1 with Some v => Some v | None => jget key l2 end.
Proof. induction l1 as [|[k v] l1 IH]; [done|]. cbn. by case_bool_decide. Qed.

Lemma jget_elem key v l : jget key l = Some v -> (key, v) ∈ l.
Proof.
  induction l as [|[k w] l IH]; [done|]. cbn. case_bool_decide as Hk; [|by right; apply IH].
  intros [= <-]. subst. left.
Qed.

Lemma jget_None key l : jget key l = None <-> key ∉ l.*1.
Proof.
  induction l as [|[k w] l IH]; cbn; [split; [intros _; apply not_elem_of_nil|done]|].
  rewrite not_elem_of_cons. case_bool_decide as Hk; [naive_solver|]. rewrite IH. naive_solver.
Qed.

Lemma jget_NoDup key v l : NoDup l.*1 -> (key, v) ∈ l -> jget key l = Some v.
Proof.
  induction l as [|[k w] l IH]; cbn; [by intros _ ?%not_elem_of_nil|]. intros [Hk Hd]%NoDup_cons.
  intros [[= -> ->]|Hin]%elem_of_cons; [by rewrite bool_decide_eq_true_2|].
  rewrite bool_decide_eq_false_2; [by apply IH|]. intros ->. apply Hk.
  apply list_elem_of_fmap. by exists (key, v).
Qed.

Lemma jset_keys key v l :
  (jset key v l).*1 = if bool_decide (key ∈ l.*1) then l.*1 else l.*1 ++ [key].
Proof.
  induction l as [|[k w] l IH]; cbn; [by rewrite bool_decide_eq_false_2 by apply not_elem_of_nil|].
  destruct (bool_decide_reflect (k = key)) as [->|Hk]; cbn.
  - by rewrite bool_decide_eq_true_2 by left.
  - rewrite IH. repeat case_bool_decide; set_solver.
Qed.

Lemma jset_NoDup key v l : NoDup l.*1 -> NoDup (jset key v l).*1.
Proof. intros Hl. rewrite jset_keys. case_bool_decide; [done|]. by apply NoDup_snoc. Qed.

(** ** Every socket is marked *)

Definition has_mark (v : json) : Prop :=
  (field "sockopt" v ≫= field "mark") = Some (jint WANFwmark).

(** The outbound's own socket, and the second one of a split download. *)
Definition sockets_marked (outbound : json) : Prop :=
  exists stream, field "streamSettings" outbound = Some stream /\ has_mark stream /\
    forall xhttp download, field "xhttpSettings" stream = Some xhttp ->
      field "downloadSettings" xhttp = Some (JObj download) -> has_mark (JObj download).

Section Marks.
Context `{JSONCodec, ParseJSON}.

Lemma mark_download_marked t download :
  jget "downloadSettings" (mark_download t) = Some (JObj download) -> has_mark (JObj download).
Proof.
  unfold mark_download. destruct (jget "downloadSettings" t) as [[| | | | |d]|] eqn:Hd;
    try (rewrite Hd; congruence).
  rewrite jget_jset_eq. intros [= <-]. unfold has_mark. cbn [field]. rewrite jget_jset_eq.
  cbn [mbind option_bind field foldl xraySocketOptions]. by rewrite jget_jset_eq.
Qed.

Lemma transport_download srv t download :
  buildXrayXHTTPTransport srv = Ok t -> field "downloadSettings" t = Some (JObj download) ->
  has_mark (JObj download).
Proof.
  unfold buildXrayXHTTPTransport. destruct (xhttp_extra srv) as [t0|]; [|done]. cbn [result_bind].
  cbv zeta. destruct (set_raw _ "xmux" _) as [t1|]; [|done]. cbn [result_bind].
  destruct (set_raw _ "downloadSettings" _) as [t2|]; [|done]. cbn [result_bind].
  destruct (fix_headers _) as [t3|]; [|done]. cbn [result_bind]. intros [= <-]. cbn [field].
  apply mark_download_marked.
Qed.

Lemma security_no_xhttp srv : jget "xhttpSettings" (security_settings srv) = None.
Proof. unfold security_settings. cbv zeta. by repeat case_bool_decide. Qed.

Lemma outbound_fields tag srv out :
  buildXrayVLESSOutbound tag srv = Ok out ->
  field "tag" out = Some (JStr tag) /\ sockets_marked out.
Proof.
  unfold buildXrayVLESSOutbound. cbv zeta. destruct (negb _); [done|]. destruct (negb _); [done|].
  destruct (transport_settings srv _) as [transport|] eqn:Ht; [|done]. cbn [result_bind].
  intros [= <-]. split; [reflexivity|].
  exists (JObj (stream_settings srv (normalizeVLESSNetwork (sv_Network srv)) transport)).
  split; [reflexivity|]. split; [reflexivity|].
  intros xhttp download. cbn [field]. unfold stream_settings. rewrite !jget_app, security_no_xhttp.
  change (jget "xhttpSettings" transport = Some xhttp ->
    field "downloadSettings" xhttp = Some (JObj download) -> has_mark (JObj download)).
  intros Hx Hd. unfold transport_settings in Ht. cbv zeta in Ht.
  repeat (case_bool_decide; [injection Ht as <-; done|]).
  case_bool_decide; [|by injection Ht as <-].
  destruct (buildXrayXHTTPTransport srv) as [t|] eqn:Hb; [|done]. injection Ht as <-.
  cbn in Hx. injection Hx as <-. by eapply transport_download.
Qed.
End Marks.

(** ** Outbounds of a profile *)

(** The raw messages of a leaf are what the engine's schema can take. *)
Definition raw_ok `{JSONCodec, ParseJSON} (srv : VLESSServer) : Prop :=
  normalizeVLESSNetwork (sv_Network srv) = "xhttp" -> is_ok (buildXrayXHTTPTransport srv) = true.

Definition leaves (srv : VLESSServer) : list VLESSServer :=
  match sv_Members srv with [] => [srv] | members => members end.

Definition outbound_tags (srv : VLESSServer) : list string :=
  match sv_Members srv with [] => ["proxy"] | members => member_tag <$> seq 0 (length members) end.

Section Profiles.
Context `{JSONCodec, ParseJSON}.

Definition leaf_supported (srv : VLESSServer) : bool :=
  bool_decide (normalizeVLESSNetwork (sv_Network srv) ∈ supportedNetworks) &&
  (bool_decide (sv_PacketEncoding srv = "") || bool_decide (sv_PacketEncoding srv = "xudp")).

Lemma outbound_ok tag srv :
  is_ok (buildXrayVLESSOutbound tag srv) = true <-> leaf_supported srv = true /\ raw_ok srv.
Proof.
  unfold buildXrayVLESSOutbound, leaf_supported, raw_ok. cbv zeta.
  destruct (bool_decide (_ ∈ supportedNetworks)); cbn [negb andb]; [|naive_solver].
  destruct (_ || _); cbn [negb]; [|naive_solver]. unfold transport_settings. cbv zeta.
  destruct (decide (normalizeVLESSNetwork (sv_Network srv) = "xhttp")) as [->|Hx].
  - rewrite !(bool_decide_eq_false_2 ("xhttp" = _)) by done. rewrite (bool_decide_eq_true_2 _ eq_refl).
    destruct (buildXrayXHTTPTransport srv); cbn; naive_solver.
  - rewrite (bool_decide_eq_false_2 (_ = "xhttp")) by done. repeat case_bool_decide; cbn; naive_solver.
Qed.

Lemma build_members_ok i members outs :
  build_members i members = Ok outs ->
  Forall sockets_marked outs /\
  (field "tag" <$> outs) = (fun k => Some (JStr (member_tag k))) <$> seq i (length members) /\
  Forall (fun m => is_ok (buildXrayVLESSOutbound "" m) = true) members.
Proof.
  revert i outs. induction members as [|m members IH]; intros i outs; cbn [build_members length seq].
  { intros [= <-]. by repeat split. }
  destruct (buildXrayVLESSOutbound (member_tag i) m) as [out|] eqn:Ho; [|done].
  destruct (build_members (S i) members) as [rest|] eqn:Hr; [|done]. cbn [result_bind]. intros [= <-].
  destruct (IH _ _ Hr) as (Hm & Ht & Hok). apply outbound_fields in Ho as Hf. destruct Hf as [Htag Hmark].
  split; [by constructor|]. split; [by rewrite !fmap_cons, Htag, Ht|].
  constructor; [|done]. apply outbound_ok, (outbound_ok (member_tag i)). by rewrite Ho.
Qed.

Lemma build_members_total i members :
  Forall (fun m => is_ok (buildXrayVLESSOutbound "" m) = true) members ->
  is_ok (build_members i members) = true.
Proof.
  intros Hall. revert i. induction Hall as [|m members Hm Hall IH]; intros i; [done|].
  cbn [build_members]. rewrite outbound_ok, <- (outbound_ok (member_tag i)) in Hm.
  destruct (buildXrayVLESSOutbound (member_tag i) m); [|done]. specialize (IH (S i)).
  by destruct (build_members (S i) members).
Qed.

Lemma outbounds_spec srv outs :
  buildXrayProxyOutbounds srv = Ok outs ->
  Forall sockets_marked outs /\
  (field "tag" <$> outs) = (fun t => Some (JStr t)) <$> outbound_tags srv.
Proof.
  unfold buildXrayProxyOutbounds, outbound_tags. destruct (sv_Members srv) as [|m members].
  - destruct (buildXrayVLESSOutbound "proxy" srv) as [out|] eqn:Ho; [|done]. cbn [result_bind].
    intros [= <-]. apply outbound_fields in Ho as [Htag Hmark]. cbn. rewrite Htag. by repeat constructor.
  - intros (Hm & Ht & _)%build_members_ok. split; [done|]. by rewrite Ht, <- list_fmap_compose.
Qed.

Lemma outbounds_ok srv :
  is_ok (buildXrayProxyOutbounds srv) = true <->
  Forall (fun leaf => leaf_supported leaf = true /\ raw_ok leaf) (leaves srv).
Proof.
  unfold buildXrayProxyOutbounds, leaves. destruct (sv_Members srv) as [|m members].
  - rewrite Forall_singleton, <- (outbound_ok "proxy"). by destruct (buildXrayVLESSOutbound "proxy" srv).
  - assert (Hext : Forall (fun leaf => leaf_supported leaf = true /\ raw_ok leaf) (m :: members) <->
      Forall (fun m => is_ok (buildXrayVLESSOutbound "" m) = true) (m :: members)).
    { apply Forall_iff. intros x. symmetry. apply outbound_ok. }
    rewrite Hext. split; [|apply build_members_total].
    destruct (build_members 0 (m :: members)) eqn:Hb; [|done]. intros _. by apply build_members_ok in Hb as (_ & _ & ?).
Qed.

(** The TLS profile changes nothing that decides support. *)
Lemma tls_profile_off srv profile : profile <> "randomized-chacha20" -> serverWithTLSProfile srv profile = srv.
Proof. intros Hp. destruct srv. cbn [serverWithTLSProfile]. by rewrite bool_decide_eq_false_2. Qed.

Lemma tls_profile_members srv profile :
  sv_Members (serverWithTLSProfile srv profile) =
  (fun m => serverWithTLSProfile m profile) <$> sv_Members srv.
Proof.
  destruct (decide (profile = "randomized-chacha20")) as [->|Hp].
  - destruct (TLSProfile_fields srv "randomized-chacha20") as (_ & _ & Hm). exact Hm.
  - rewrite tls_profile_off by done. symmetry. rewrite <- (list_fmap_id (sv_Members srv)) at 2.
    apply list_fmap_ext. intros i m _. by apply tls_profile_off.
Qed.

Lemma outbound_tags_tls srv profile : outbound_tags (serverWithTLSProfile srv profile) = outbound_tags srv.
Proof. unfold outbound_tags. rewrite tls_profile_members. destruct (sv_Members srv); [done|]. cbn. by rewrite length_fmap. Qed.

Lemma tls_profile_leaves srv profile :
  leaves (serverWithTLSProfile srv profile) = (fun m => serverWithTLSProfile m profile) <$> leaves srv.
Proof.
  unfold leaves. rewrite tls_profile_members. by destruct (sv_Members srv).
Qed.
Lemma tls_profile_transport srv profile :
  buildXrayXHTTPTransport (serverWithTLSProfile srv profile) = buildXrayXHTTPTransport srv.
Proof.
  destruct srv. cbn [serverWithTLSProfile]. case_bool_decide; [|done].
  by destruct (bool_decide _ || bool_decide _).
Qed.

Lemma tls_profile_supported srv profile :
  leaf_supported (serverWithTLSProfile srv profile) = leaf_supported srv /\
  (raw_ok (serverWithTLSProfile srv profile) <-> raw_ok srv).
Proof.
  destruct (TLSProfile_fields srv profile) as (Hn & Hp & _). unfold leaf_supported, raw_ok.
  by rewrite Hn, Hp, tls_profile_transport.
Qed.
End Profiles.

(** ** The configuration as a whole *)

Section Whole.
Context `{JSONCodec, ParseJSON, EmbeddedList}.

Lemma generate_cases cfg srv config :
  generateXrayConfig cfg srv = Ok config ->
  exists outs probe log, let srv' := serverWithTLSProfile srv (TLSClientProfile (cfg_Settings cfg)) in
    buildXrayProxyOutbounds srv' = Ok outs /\
    config = xrayConfig srv' probe (outs ++ [direct_outbound]) (xrayRoutingRules cfg (proxyRule srv'))
               log [tproxyInbound; xraySOCKSInbound socksHealthPort].
Proof.
  unfold generateXrayConfig. cbv zeta.
  destruct (buildXrayProxyOutbounds _) as [outs|]; [|done]. cbn [result_bind]. intros [= <-].
  by eexists _, _, _.
Qed.

Lemma direct_marked : sockets_marked direct_outbound.
Proof. eexists. split; [reflexivity|]. split; [reflexivity|]. intros xhttp d [=]. Qed.

Lemma config_outbounds srv probe outs rules log inbounds :
  field "outbounds" (xrayConfig srv probe outs rules log inbounds) = Some (JArr outs).
Proof. reflexivity. Qed.

Lemma config_rules srv probe outs rules log inbounds :
  rules_of (xrayConfig srv probe outs rules log inbounds) = JObj <$> rules.
Proof. reflexivity. Qed.

End Whole.

(** ** Old spellings *)

Lemma json_nested_ind (P : json -> Prop) :
  P JNull -> (forall b, P (JBool b)) -> (forall m e, P (JNum m e)) -> (forall s, P (JStr s)) ->
  (forall l, P (JArr l)) -> (forall l, Forall (fun p => P p.2) l -> P (JObj l)) -> forall v, P v.
Proof.
  intros Hnull Hbool Hnum Hstr Harr Hobj. fix IH 1. intros [|b|m e|s|l|l]; [done..|].
  apply Hobj. induction l as [|[k v] l IHl]; constructor; [apply IH|exact IHl].
Qed.

(** Keys are unique, outside the values of "headers" and of arrays too deep for
    the rewriting to reach. *)
Fixpoint wf_json (v : json) : Prop :=
  match v with
  | JObj l => NoDup l.*1 /\ (fix all (l : list (string * json)) : Prop := match l with
                             | [] => True
                             | p :: l => wf_json p.2 /\ all l
                             end) l
  | _ => True
  end.

(** No old spelling is left where the engine looks. *)
Fixpoint clean (v : json) : Prop :=
  match v with
  | JObj l => (fix all (l : list (string * json)) : Prop := match l with
               | [] => True
               | p :: l => (alias_of p.1 aliases = None /\ (p.1 = "headers" \/ clean p.2)) /\ all l
               end) l
  | _ => True
  end.

Lemma wf_obj l : wf_json (JObj l) <-> NoDup l.*1 /\ Forall (fun p => wf_json p.2) l.
Proof.
  cbn. assert (Hall : forall l, (fix all (l : list (string * json)) : Prop := match l with
      | [] => True | p :: l => wf_json p.2 /\ all l end) l <-> Forall (fun p => wf_json p.2) l).
  { clear l. induction l as [|p l IH]; [by rewrite Forall_nil|]. by rewrite Forall_cons, IH. }
  by rewrite Hall.
Qed.

Lemma clean_obj l :
  clean (JObj l) <->
  Forall (fun p => alias_of p.1 aliases = None /\ (p.1 = "headers" \/ clean p.2)) l.
Proof.
  cbn. induction l as [|p l IH]; [by rewrite Forall_nil|]. etransitivity; [|symmetry; apply Forall_cons].
  apply and_iff_compat_l. exact IH.
Qed.

(** The table is one step: no new spelling is an old one, and "headers" is in
    neither column. *)
Lemma alias_canonical key alias :
  alias_of key aliases = Some alias -> alias_of alias aliases = None /\ alias <> "headers".
Proof.
  assert (Hall : Forall (fun p => alias_of p.2 aliases = None /\ p.2 <> "headers") aliases).
  { repeat (constructor; [split; [reflexivity|discriminate]|]). constructor. }
  intros Hk. assert (Hin : exists old, (old, alias) ∈ aliases).
  { revert Hk. generalize aliases. induction l as [|[old new] l IH]; [done|]. cbn.
    case_bool_decide; [intros [= ->]; exists old; left|].
    intros Hk. destruct (IH Hk) as [o Ho]. exists o. by right. }
  destruct Hin as [old Hin]. rewrite Forall_forall in Hall. by apply (Hall _ Hin).
Qed.

Definition rewritten (p : string * json) : string * (json * json) :=
  (p.1, (p.2, xrayLegacyKeys p.2)).

Lemma legacy_obj l :
  xrayLegacyKeys (JObj l) = JObj (foldl (rename_entry l) [] (rewritten <$> l)).
Proof. cbn. f_equal. f_equal. apply list_fmap_ext. by intros i [k v]. Qed.

(** What one entry writes, if anything. *)
Definition written (obj : list (string * json)) (p : string * json) : option (string * json) :=
  let v := if bool_decide (p.1 = "headers") then p.2 else xrayLegacyKeys p.2 in
  match alias_of p.1 aliases with
  | Some alias => match jget alias obj with
                  | Some _ => None
                  | None => Some (alias, xrayLegacyKeys p.2)
                  end
  | None => Some (p.1, v)
  end.

Lemma rename_written obj out p :
  rename_entry obj out (rewritten p) =
  match written obj p with Some (k, v) => jset k v out | None => out end.
Proof.
  destruct p as [k v]. unfold rename_entry, written, rewritten. cbn [fst snd].
  destruct (alias_of k aliases) as [alias|] eqn:Ha; [|done].
  destruct (jget alias obj); [done|]. destruct (alias_canonical k alias Ha) as [_ Hne].
  by rewrite bool_decide_eq_false_2.
Qed.

Lemma rename_invariant (P : string * json -> Prop) obj l out :
  (forall p kv, p ∈ l -> written obj p = Some kv -> P kv) -> Forall P out -> NoDup out.*1 ->
  Forall P (foldl (rename_entry obj) out (rewritten <$> l)) /\
  NoDup (foldl (rename_entry obj) out (rewritten <$> l)).*1.
Proof.
  revert out. induction l as [|p l IH]; intros out Hw Hout Hd; [done|]. rewrite fmap_cons. cbn [foldl].
  rewrite rename_written. apply IH; [intros q kv Hq; apply Hw; by right| |].
  - destruct (written obj p) as [[k v]|] eqn:Hp; [|done].
    assert (Hkv : P (k, v)) by (apply (Hw p); [left|done]). clear -Hout Hkv.
    induction Hout as [|[k' v'] out Hp Hout IH]; cbn; [by repeat constructor|].
    case_bool_decide; by constructor.
  - destruct (written obj p) as [[k v]|]; [by apply jset_NoDup|done].
Qed.

Lemma jset_fresh key v l : key ∉ l.*1 -> jset key v l = l ++ [(key, v)].
Proof.
  induction l as [|[k w] l IH]; [done|]. cbn. rewrite not_elem_of_cons. intros [Hk Hl].
  rewrite bool_decide_eq_false_2 by congruence. by rewrite IH.
Qed.

Lemma legacy_wf v : wf_json v -> wf_json (xrayLegacyKeys v).
Proof.
  induction v as [| | | | |l IH] using json_nested_ind; [done..|]. rewrite legacy_obj, !wf_obj.
  intros [Hd Hwf]. rewrite Forall_forall in IH, Hwf.
  destruct (rename_invariant (fun p => wf_json p.2) l l []) as [H1 H2]; [|constructor..|done].
  intros p kv Hp. unfold written. repeat case_match; intros [= <-]; cbn; auto.
Qed.

Lemma legacy_clean v : clean (xrayLegacyKeys v).
Proof.
  induction v as [| | | | |l IH] using json_nested_ind; [done..|]. rewrite legacy_obj, clean_obj.
  rewrite Forall_forall in IH.
  apply (rename_invariant (fun p => alias_of p.1 aliases = None /\ (p.1 = "headers" \/ clean p.2)));
    [|constructor..].
  intros p kv Hp. unfold written. destruct (alias_of p.1 aliases) as [alias|] eqn:Ha.
  - destruct (jget alias l); [done|]. intros [= <-]. destruct (alias_canonical _ _ Ha). cbn. auto.
  - intros [= <-]. cbn. split; [done|]. case_bool_decide; auto.
Qed.

Lemma clean_legacy v : wf_json v -> clean v -> xrayLegacyKeys v = v.
Proof.
  induction v as [| | | | |l IH] using json_nested_ind; [done..|].
  rewrite legacy_obj, wf_obj, clean_obj. intros [Hd Hwf] Hc. f_equal.
  assert (Hgen : forall done rest, l = done ++ rest ->
    foldl (rename_entry l) done (rewritten <$> rest) = l); [|by apply (Hgen [])].
  intros before rest. revert before. induction rest as [|[k v] rest IHr]; intros before Heq.
  { rewrite Heq. by rewrite app_nil_r. }
  rewrite fmap_cons. cbn [foldl]. rewrite rename_written.
  assert (Hin : (k, v) ∈ l) by (rewrite Heq; apply elem_of_app; right; left).
  rewrite Forall_forall in Hc. destruct (Hc _ Hin) as [Ha Hv]. unfold written. cbn [fst snd] in *.
  rewrite Ha.
  assert (Hsame : (if bool_decide (k = "headers") then v else xrayLegacyKeys v) = v).
  { case_bool_decide; [done|]. rewrite Forall_forall in IH, Hwf.
    apply (IH _ Hin (Hwf _ Hin)). by destruct Hv. }
  rewrite Hsame, jset_fresh.
  - apply IHr. by rewrite <- app_assoc.
  - rewrite Heq, fmap_app in Hd. cbn in Hd. apply NoDup_app in Hd as (_ & Hdis & _).
    intros Hk. apply (Hdis k Hk). left.
Qed.

(** An entry written under its own name keeps its value. *)
Lemma legacy_get obj l out key value :
  NoDup l.*1 -> alias_of key aliases = None -> jget key obj = Some value -> jget key l = Some value ->
  jget key (foldl (rename_entry obj) out (rewritten <$> l)) =
  Some (if bool_decide (key = "headers") then value else xrayLegacyKeys value).
Proof.
  intros Hd Ha Hobj. revert out. induction l as [|[k v] l IH]; intros out; [done|].
  rewrite fmap_cons. cbn [foldl jget]. apply NoDup_cons in Hd as [Hk Hd]. cbn [fst] in Hk.
  rewrite rename_written. destruct (bool_decide_reflect (k = key)) as [->|Hkey]; [|by apply IH].
  intros [= ->]. clear IH.
  unfold written. cbn [fst snd]. rewrite Ha.
  set (w := if bool_decide (key = "headers") then value else xrayLegacyKeys value).
  assert (Hkeep : forall l out, key ∉ l.*1 -> jget key out = Some w ->
    jget key (foldl (rename_entry obj) out (rewritten <$> l)) = Some w).
  { clear -Hobj. induction l as [|[k v] l IH]; intros out; [done|].
    change (((k, v) :: l).*1) with (k :: l.*1). rewrite not_elem_of_cons, fmap_cons.
    intros [Hne Hl] Hout. cbn [foldl]. apply (IH _ Hl). clear IH Hl.
    rewrite rename_written. unfold written. cbn [fst snd].
    destruct (alias_of k aliases) as [alias|]; [|by rewrite jget_jset_ne].
    destruct (jget alias obj) eqn:Hal; [done|]. rewrite jget_jset_ne; [done|]. congruence. }
  apply Hkeep; [done|]. apply jget_jset_eq.
Qed.

(** The rewriting of old spellings leaves none where the engine looks, does
    nothing more when run again, keeps keys unique, and an option that is given
    under its own name keeps that value whatever old spelling stands beside
    it; header names and values stay as they are. *)
Theorem xrayLegacyKeys_canonical v :
  wf_json v ->
  clean (xrayLegacyKeys v) /\ wf_json (xrayLegacyKeys v) /\
  xrayLegacyKeys (xrayLegacyKeys v) = xrayLegacyKeys v /\
  forall key value, alias_of key aliases = None -> field key v = Some value ->
    field key (xrayLegacyKeys v) =
    Some (if bool_decide (key = "headers") then value else xrayLegacyKeys value).
Proof.
  intros Hwf. repeat split; [apply legacy_clean|by apply legacy_wf| |].
  - apply clean_legacy; [by apply legacy_wf|apply legacy_clean].
  - intros key value Ha Hf. destruct v as [| | | | |l]; try done. rewrite legacy_obj. cbn [field] in *.
    apply wf_obj in Hwf as [Hd _]. by apply legacy_get.
Qed.

(** Two old spellings of one option: which value survives depends on the order
    in which the map is visited, and Go does not fix it. *)
Theorem legacy_spellings_race :
  let one := [("session_key", JStr "a"); ("sessionIDKey", JStr "b")] in
  let other := [("sessionIDKey", JStr "b"); ("session_key", JStr "a")] in
  one ≡ₚ other /\
  field "sessionKey" (xrayLegacyKeys (JObj one)) = Some (JStr "b") /\
  field "sessionKey" (xrayLegacyKeys (JObj other)) = Some (JStr "a").
Proof. cbv zeta. split; [apply perm_swap|]. by split. Qed.

(** ** When a configuration can be generated *)

(** Looking at the options an XHTTP leaf brings along as raw JSON. *)
Definition xhttp_readable `{ParseJSON} (srv : VLESSServer) : Prop :=
  (sv_Xmux srv = "" \/ is_Some (parse_json (sv_Xmux srv))) /\
  (sv_DownloadSettings srv = "" \/ is_Some (parse_json (sv_DownloadSettings srv))) /\
  (sv_Extra srv = "" \/ exists l, parse_json (sv_Extra srv) = Some (JObj l) /\
     (sv_XHTTPHeaders srv = ∅ -> forall v, jget "headers" l = Some v -> is_Some (string_entries v))).

(** [encoding/json] yields objects with unique keys. *)
Class ParseLaws (P : ParseJSON) : Prop :=
  parse_wf : forall raw v, parse_json raw = Some v -> wf_json v.

Section Readable.
Context `{J : JSONCodec, P : ParseJSON, !ParseLaws P}.

Lemma legacy_headers l :
  wf_json (JObj l) -> forall l', xrayLegacyKeys (JObj l) = JObj l' -> jget "headers" l' = jget "headers" l.
Proof.
  rewrite legacy_obj. intros [Hd _]%wf_obj l' [= <-].
  destruct (jget "headers" l) as [v|] eqn:Hv; [by rewrite (legacy_get l l [] "headers" v)|].
  apply jget_None in Hv. apply jget_None. intros Hin. apply list_elem_of_fmap in Hin as ([k v] & Hk & Hin).
  destruct (rename_invariant (fun p => p.1 <> "headers") l l []) as [Hall _]; [|constructor..|].
  - intros [k' v'] kv Hp. unfold written. cbn [fst snd].
    destruct (alias_of k' aliases) as [alias|] eqn:Ha; [destruct (jget alias l); [done|]|]; intros [= <-]; cbn.
    + by apply alias_canonical in Ha as [_ ?].
    + intros ->. apply Hv. apply list_elem_of_fmap. by exists ("headers", v').
  - rewrite Forall_forall in Hall. by apply (Hall _ Hin).
Qed.

Lemma set_nonempty_headers l t :
  "headers" ∉ l.*1 -> jget "headers" (foldl set_nonempty t l) = jget "headers" t.
Proof.
  revert t. induction l as [|[k v] l IH]; intros t Hl; [done|]. apply not_elem_of_cons in Hl as [Hk Hl].
  cbn [foldl]. rewrite IH by done. unfold set_nonempty. cbn [fst snd] in *. case_bool_decide; [done|].
  by rewrite jget_jset_ne.
Qed.

Lemma set_true_headers l t :
  "headers" ∉ l.*1 -> jget "headers" (foldl set_true t l) = jget "headers" t.
Proof.
  revert t. induction l as [|[k v] l IH]; intros t Hl; [done|]. apply not_elem_of_cons in Hl as [Hk Hl].
  cbn [foldl]. rewrite IH by done. unfold set_true. cbn [fst snd] in *. destruct v; [|done].
  by rewrite jget_jset_ne.
Qed.

Lemma jmap_entries m : is_Some (string_entries (jmap m)).
Proof.
  unfold jmap, string_entries. apply mapM_is_Some, Forall_fmap, Forall_forall. intros [k v] _. by eexists.
Qed.

Lemma set_raw_ok t key raw :
  is_ok (set_raw t key raw) = true <-> raw = "" \/ is_Some (parse_json raw).
Proof.
  unfold set_raw. case_bool_decide as Hr; [naive_solver|]. destruct (parse_json raw); cbn.
  - split; [by right; eexists|done].
  - split; [done|intros [?|[? ?]]; done].
Qed.

Lemma set_raw_headers t key raw t' :
  key <> "headers" -> set_raw t key raw = Ok t' -> jget "headers" t' = jget "headers" t.
Proof.
  intros Hk. unfold set_raw. case_bool_decide; [by intros [= <-]|]. destruct (parse_json raw); [|done].
  intros [= <-]. by rewrite jget_jset_ne.
Qed.

Lemma fix_headers_ok t :
  is_ok (fix_headers t) = true <-> forall v, jget "headers" t = Some v -> is_Some (string_entries v).
Proof.
  unfold fix_headers. destruct (jget "headers" t) as [raw|]; [|naive_solver].
  destruct (string_entries raw) as [headers|] eqn:Hs.
  - destruct (foldl take_host (t, []) headers). cbn. split; [intros _ v [= <-]; by eexists|done].
  - cbn. split; [done|]. intros Hv. destruct (Hv raw eq_refl) as [? Hx]. congruence.
Qed.

Lemma jdel_headers l : jget "headers" (jdel "extra" l) = jget "headers" l.
Proof.
  induction l as [|[k v] l IH]; [done|]. unfold jdel. rewrite filter_cons. cbn [fst].
  destruct (decide (k <> "extra")) as [Hk|Hk].
  - change (jget "headers" ((k, v) :: jdel "extra" l) = jget "headers" ((k, v) :: l)).
    cbn [jget]. by rewrite IH.
  - apply dec_stable in Hk. subst. exact IH.
Qed.

Lemma extra_headers srv t :
  xhttp_extra srv = Ok t ->
  sv_Extra srv = "" /\ t = [] \/
  sv_Extra srv <> "" /\
  exists l, parse_json (sv_Extra srv) = Some (JObj l) /\ jget "headers" t = jget "headers" l.
Proof using Type*.
  unfold xhttp_extra. case_bool_decide as He; [intros [= <-]; by left|].
  destruct (parse_json (sv_Extra srv)) as [[| | | | |l]|] eqn:Hp; try done. intros Ht. right.
  split; [done|]. exists l. split; [done|]. destruct (xrayLegacyKeys (JObj l)) as [| | | | |l'] eqn:Hl;
    try (by rewrite legacy_obj in Hl). injection Ht as <-.
  apply legacy_headers; [by apply (parse_wf (sv_Extra srv))|done].
Qed.

Lemma extra_ok srv :
  is_ok (xhttp_extra srv) = true <-> sv_Extra srv = "" \/ exists l, parse_json (sv_Extra srv) = Some (JObj l).
Proof.
  unfold xhttp_extra. case_bool_decide as He; [naive_solver|].
  destruct (parse_json (sv_Extra srv)) as [[| | | | |l]|];
    (split; [intros Hok|intros [?|[l' [=]]]]); try done. right. by eexists.
Qed.

(** The transport options can be built exactly when the raw messages can be read. *)
Lemma transport_ok srv :
  is_ok (buildXrayXHTTPTransport srv) = true <-> xhttp_readable srv.
Proof using Type*.
  unfold buildXrayXHTTPTransport, xhttp_readable. pose proof (extra_ok srv) as Hok.
  pose proof (extra_headers srv) as Hhead.
  destruct (xhttp_extra srv) as [t0|]; cbn [result_bind is_ok] in *; cbv zeta.
  2: { split; [done|]. intros (_ & _ & He). apply Hok. naive_solver. }
  specialize (Hhead t0 eq_refl).
  set (t1 := foldl set_true _ _).
  assert (Ht1 : jget "headers" t1 = jget "headers" t0).
  { unfold t1. rewrite set_true_headers by (apply (bool_decide_unpack _); vm_compute; exact I).
    rewrite set_nonempty_headers by (apply (bool_decide_unpack _); vm_compute; exact I).
    apply jdel_headers. }
  set (t2 := if sv_ScMaxBufferedPosts srv =? 0 then t1 else _).
  assert (Ht2 : jget "headers" t2 = jget "headers" t0).
  { unfold t2. case_match; [done|]. by rewrite jget_jset_ne. }
  set (t3 := if bool_decide (sv_XHTTPHeaders srv = ∅) then t2 else _).
  assert (Ht3 : (forall v, jget "headers" t3 = Some v -> is_Some (string_entries v)) <->
    (sv_XHTTPHeaders srv = ∅ -> forall v, jget "headers" t0 = Some v -> is_Some (string_entries v))).
  { unfold t3. case_bool_decide as Hh; [rewrite Ht2; naive_solver|]. rewrite jget_jset_eq.
    split; [done|]. intros _ v [= <-]. apply jmap_entries. }
  clearbody t3. clear t1 Ht1 t2 Ht2.
  pose proof (set_raw_ok t3 "xmux" (sv_Xmux srv)) as Hx.
  destruct (set_raw t3 "xmux" (sv_Xmux srv)) as [t4|] eqn:Hx4; cbn [result_bind is_ok] in *.
  2: { split; [done|]. intros (Hxm & _). by apply Hx. }
  apply set_raw_headers in Hx4; [|done].
  pose proof (set_raw_ok t4 "downloadSettings" (sv_DownloadSettings srv)) as Hd.
  destruct (set_raw t4 "downloadSettings" _) as [t5|] eqn:Hd5; cbn [result_bind is_ok] in *.
  2: { split; [done|]. intros (_ & Hdl & _). by apply Hd. }
  apply set_raw_headers in Hd5; [|done]. rewrite <- Hx4, <- Hd5 in Ht3.
  rewrite <- fix_headers_ok in Ht3. 
  assert (Hgoal : is_ok (let! t := fix_headers t5 in Ok (JObj (mark_download (default_padding t)))) = true
    <-> is_ok (fix_headers t5) = true) by (by destruct (fix_headers t5)).
  rewrite Hgoal, Ht3. destruct Hhead as [[He ->]|(He & l & Hl & Hh)].
  - split; [|done]. intros _. split; [by apply Hx|]. split; [by apply Hd|by left].
  - rewrite Hh. split.
    + intros Hv. split; [by apply Hx|]. split; [by apply Hd|]. right. by exists l.
    + intros (_ & _ & [?|(l' & Hl' & Hv)]); [done|]. intros Hm. assert (l' = l) as -> by congruence. auto.
Qed.

(** What a leaf needs to become an outbound. *)
Definition generable (leaf : VLESSServer) : Prop :=
  leaf_supported leaf = true /\
  (normalizeVLESSNetwork (sv_Network leaf) = "xhttp" -> xhttp_readable leaf).

Lemma generable_iff leaf : generable leaf <-> leaf_supported leaf = true /\ raw_ok leaf.
Proof using Type*. unfold generable, raw_ok. by rewrite transport_ok. Qed.
End Readable.

(** A configuration can be generated exactly when every physical endpoint of
    the profile has a transport and a packet encoding the engine knows and,
    for XHTTP, raw options that can be read; the TLS profile and the settings
    do not matter, and a supported leaf catalog entry without raw options
    always has one. *)
Theorem generateXrayConfig_succeeds `{J : JSONCodec, P : ParseJSON, !ParseLaws P, EmbeddedList} cfg srv :
  (is_ok (generateXrayConfig cfg srv) = true <-> Forall generable (leaves srv)) /\
  (Forall (fun m => sv_Members m = []) (sv_Members srv) -> isSupportedServer srv = true ->
   Forall (fun m => sv_Extra m = "" /\ sv_Xmux m = "" /\ sv_DownloadSettings m = "") (leaves srv) ->
   is_ok (generateXrayConfig cfg srv) = true).
Proof.
  assert (Hiff : is_ok (generateXrayConfig cfg srv) = true <-> Forall generable (leaves srv)).
  { set (srv' := serverWithTLSProfile srv (TLSClientProfile (cfg_Settings cfg))).
    assert (Hok : is_ok (generateXrayConfig cfg srv) = is_ok (buildXrayProxyOutbounds srv')).
    { unfold generateXrayConfig. cbv zeta. by destruct (buildXrayProxyOutbounds _). }
    rewrite Hok, outbounds_ok. unfold srv'.
    rewrite tls_profile_leaves, Forall_fmap. apply Forall_iff. intros leaf. cbn.
    destruct (tls_profile_supported leaf (TLSClientProfile (cfg_Settings cfg))) as [Hs Hr].
    by rewrite generable_iff, Hs, Hr. }
  split; [done|]. intros Hleaf Hsup Hraw. apply Hiff.
  assert (Hall : Forall (fun m => leaf_supported m = true) (leaves srv)).
  { unfold leaves. rewrite isSupportedServer_eq in Hsup.
    destruct (sv_Members srv) as [|m ms]; [by repeat constructor|].
    rewrite List.forallb_forall in Hsup. apply Forall_forall. intros x Hx.
    rewrite Forall_forall in Hleaf. specialize (Hleaf x Hx).
    apply list_elem_of_In, Hsup in Hx. rewrite isSupportedServer_eq, Hleaf in Hx. exact Hx. }
  rewrite Forall_forall in *. intros m Hm. destruct (Hraw m Hm) as (He & Hx & Hd).
  split; [by apply Hall|]. intros _. unfold xhttp_readable. auto.
Qed.

(** ** What the rules do *)

(** A connection as the router of the engine sees it. *)
Record flow := mkFlow {
  fl_inbound : string;
  fl_domain : string -> bool;
  fl_ip : string -> bool
}.

Definition holds (test : string -> bool) (v : option json) : bool :=
  match v with
  | None => true
  | Some (JArr l) => existsb (fun x => match x with JStr s => test s | _ => false end) l
  | _ => false
  end.

(** Every condition a rule states has to hold. *)
Definition rule_matches (f : flow) (rule : list (string * json)) : bool :=
  holds (fun tag => bool_decide (tag = fl_inbound f)) (jget "inboundTag" rule) &&
  holds (fl_domain f) (jget "domain" rule) && holds (fl_ip f) (jget "ip" rule).

Inductive target := Outbound (tag : string) | Balancer (tag : string).

Definition rule_target (rule : list (string * json)) : option target :=
  match jget "outboundTag" rule, jget "balancerTag" rule with
  | Some (JStr tag), None => Some (Outbound tag)
  | None, Some (JStr tag) => Some (Balancer tag)
  | _, _ => None
  end.

Fixpoint route (f : flow) (rules : list (list (string * json))) : option target :=
  match rules with
  | [] => None
  | rule :: rules => if rule_matches f rule then rule_target rule else route f rules
  end.

(** The tunnel: one outbound, or the balancer over the members. *)
Definition tunnel (srv : VLESSServer) : target :=
  match sv_Members srv with [] => Outbound "proxy" | _ => Balancer "proxy" end.

(** The policy the rules are meant to implement. *)
Definition policy `{EmbeddedList} (cfg : Config) (srv : VLESSServer) (f : flow) : target :=
  if bool_decide (fl_inbound f ∈ [xrayTunnelTestTag; "socks-health"]) then tunnel srv
  else if existsb (fun d => fl_domain f ("domain:" +:+ d)) (bypassDomainsFor cfg) ||
          existsb (fl_ip f) privateCIDRs
       then Outbound "direct" else tunnel srv.

(** An outbound or a balancer with its outbounds that the configuration has. *)
Definition resolves (config : json) (t : target) : Prop :=
  exists outs, field "outbounds" config = Some (JArr outs) /\
  match t with
  | Outbound tag => Some (JStr tag) ∈ (field "tag" <$> outs)
  | Balancer tag =>
      (field "routing" config ≫= field "balancers") = Some balancers /\ tag = "proxy" /\
      Some (JStr "proxy-1") ∈ (field "tag" <$> outs) /\
      forall t, Some (JStr t) ∈ (field "tag" <$> outs) -> t = "direct" \/ HasPrefix t "proxy-" = true
  end.

Section Rules.
Context `{J : JSONCodec, P : ParseJSON, E : EmbeddedList}.

Lemma existsb_strs test l :
  existsb (fun x => match x with JStr s => test s | _ => false end) (JStr <$> l) = existsb test l.
Proof. induction l as [|s l IH]; [done|]. cbn. by rewrite IH. Qed.

Lemma existsb_fmap {A B} (test : B -> bool) (g : A -> B) l :
  existsb test (g <$> l) = existsb (fun x => test (g x)) l.
Proof. induction l as [|s l IH]; [done|]. cbn. by rewrite IH. Qed.

Lemma existsb_elem x (l : list string) : existsb (fun t => bool_decide (t = x)) l = bool_decide (x ∈ l).
Proof.
  induction l as [|y l IH]; [by rewrite bool_decide_eq_false_2 by apply not_elem_of_nil|]. cbn.
  rewrite IH, <- bool_decide_or. apply bool_decide_ext. rewrite elem_of_cons. naive_solver.
Qed.

Lemma route_cons f rule rules :
  route f (rule :: rules) = if rule_matches f rule then rule_target rule else route f rules.
Proof. done. Qed.

Lemma final_route f srv : route f [proxyRule srv] = Some (tunnel srv).
Proof. unfold proxyRule, tunnel. by destruct (sv_Members srv). Qed.

Lemma private_route f srv :
  route f [[("type", JStr "field"); ("ip", jstrs privateCIDRs); ("outboundTag", JStr "direct")]; proxyRule srv] =
  Some (if existsb (fl_ip f) privateCIDRs then Outbound "direct" else tunnel srv).
Proof.
  assert (Hip : rule_matches f [("type", JStr "field"); ("ip", jstrs privateCIDRs);
      ("outboundTag", JStr "direct")] = existsb (fl_ip f) privateCIDRs).
  { unfold rule_matches. cbn [jget]. cbn -[privateCIDRs fmap]. unfold jstrs. apply existsb_strs. }
  cbn [route]. rewrite Hip. destruct (existsb _ privateCIDRs); [done|]. apply (final_route f srv).
Qed.

Lemma rules_policy cfg srv f :
  route f (xrayRoutingRules cfg (proxyRule srv)) = Some (policy cfg srv f).
Proof.
  assert (Htest : rule_matches f (foldl (fun l p => jset p.1 p.2 l)
      [("inboundTag", jstrs [xrayTunnelTestTag; "socks-health"])] (proxyRule srv)) =
      bool_decide (fl_inbound f ∈ [xrayTunnelTestTag; "socks-health"])).
  { transitivity (holds (fun tag => bool_decide (tag = fl_inbound f))
      (Some (jstrs [xrayTunnelTestTag; "socks-health"])) && true && true).
    - unfold proxyRule. by destruct (sv_Members srv).
    - rewrite !andb_true_r. unfold holds, jstrs. by rewrite existsb_strs, existsb_elem. }
  assert (Htarget : rule_target (foldl (fun l p => jset p.1 p.2 l)
      [("inboundTag", jstrs [xrayTunnelTestTag; "socks-health"])] (proxyRule srv)) = Some (tunnel srv)).
  { unfold proxyRule, tunnel. by destruct (sv_Members srv). }
  unfold xrayRoutingRules, policy. cbv zeta. cbn [app]. rewrite route_cons, Htest, Htarget.
  case_bool_decide; [done|]. destruct (bypassDomainsFor cfg) as [|d ds]; [apply private_route|].
  cbn [app]. rewrite route_cons, private_route.
  set (bypass := d :: ds). clearbody bypass.
  assert (Hd : rule_matches f [("type", JStr "field");
      ("domain", jstrs ((fun d => "domain:" +:+ d) <$> bypass)); ("outboundTag", JStr "direct")] =
      existsb (fun d => fl_domain f ("domain:" +:+ d)) bypass).
  { transitivity (holds (fl_domain f) (Some (jstrs ((fun d => "domain:" +:+ d) <$> bypass))) && true);
      [done|]. rewrite andb_true_r. unfold holds, jstrs. by rewrite existsb_strs, existsb_fmap. }
  rewrite Hd. by destruct (existsb _ bypass).
Qed.

Lemma outbound_tags_proxy srv t :
  t ∈ outbound_tags srv -> sv_Members srv <> [] -> HasPrefix t "proxy-" = true.
Proof.
  unfold outbound_tags. destruct (sv_Members srv); [done|]. intros Ht _.
  apply list_elem_of_fmap in Ht as (k & -> & _). unfold HasPrefix, member_tag. apply prefix_app.
Qed.

Lemma proxyRule_tls srv profile : proxyRule (serverWithTLSProfile srv profile) = proxyRule srv.
Proof. unfold proxyRule. rewrite tls_profile_members. by destruct (sv_Members srv). Qed.

Lemma tunnel_tls srv profile : tunnel (serverWithTLSProfile srv profile) = tunnel srv.
Proof. unfold tunnel. rewrite tls_profile_members. by destruct (sv_Members srv). Qed.

Lemma policy_tls cfg srv profile f : policy cfg (serverWithTLSProfile srv profile) f = policy cfg srv f.
Proof. unfold policy. by rewrite tunnel_tls. Qed.

Lemma rules_last cfg rule : last (xrayRoutingRules cfg rule) = Some rule.
Proof.
  unfold xrayRoutingRules. cbv zeta.
  match goal with |- last (?a ++ ?b ++ [?c; ?d]) = _ =>
    change (a ++ b ++ [c; d]) with (a ++ b ++ [c] ++ [d]) end.
  by rewrite !app_assoc, last_snoc.
Qed.

Lemma resolves_targets srv probe outs rules log inbounds t :
  buildXrayProxyOutbounds srv = Ok outs -> t = Outbound "direct" \/ t = tunnel srv ->
  resolves (xrayConfig srv probe (outs ++ [direct_outbound]) rules log inbounds) t.
Proof.
  intros [_ Htags]%outbounds_spec Ht. exists (outs ++ [direct_outbound]). split; [done|].
  rewrite fmap_app, Htags.
  destruct Ht as [->| ->]; [apply elem_of_app; right; left|].
  pose proof (outbound_tags_proxy srv) as Hproxy. unfold tunnel, outbound_tags in *.
  destruct (sv_Members srv) as [|m ms] eqn:Hm; [left|].
  split; [unfold xrayConfig; rewrite Hm; reflexivity|]. split; [done|]. split; [left|].
  intros t [Hin|Hin]%elem_of_app.
  - apply list_elem_of_fmap in Hin as (t' & [= ->] & Hin). right. by apply Hproxy.
  - apply list_elem_of_singleton in Hin. injection Hin as ->. by left.
Qed.

(** The rules implement the policy: measurements always use the tunnel, the
    bypass domains and private addresses leave directly, everything else uses
    the tunnel; the targets exist; and rebuilding the rules in a running engine
    for new settings gives the rules a restart with them would. *)
Theorem routing_policy cfg srv config :
  generateXrayConfig cfg srv = Ok config ->
  (exists rules, rules_of config = JObj <$> rules /\
     forall f, route f rules = Some (policy cfg srv f) /\ resolves config (policy cfg srv f)) /\
  forall cfg' config', generateXrayConfig cfg' srv = Ok config' ->
    updated_rules config cfg' = Some (rules_of config').
Proof.
  intros Hgen. pose proof Hgen as Hgen'. apply generate_cases in Hgen' as (outs & probe & log & Hb & ->).
  rewrite config_rules. split.
  - eexists. split; [reflexivity|]. intros f. rewrite rules_policy, policy_tls. split; [done|].
    apply resolves_targets; [done|]. rewrite tunnel_tls. unfold policy.
    repeat case_match; auto.
  - intros cfg' config' Hgen'. apply generate_cases in Hgen' as (outs' & probe' & log' & Hb' & ->).
    unfold updated_rules, kept_rule. rewrite !config_rules, fmap_last, rules_last, !proxyRule_tls.
    reflexivity.
Qed.
End Rules.

(** ** Concrete runs *)

#[local] Instance some_list : EmbeddedList := "ya.ru".
#[local] Instance no_raw : ParseJSON := fun _ => None.
#[local] Instance no_raw_laws : ParseLaws no_raw.
Proof. done. Qed.
#[local] Instance flat_json : JSONCodec := {|
  json_object := fun _ => None; json_string := fun _ => None; json_bool := fun _ => None;
  json_int64 := fun _ => None; json_string_map := fun _ => None;
  json_print_object := fun _ => None; map_range := map_to_list |}.

Definition reality_leaf : VLESSServer :=
  emptyServer <| sv_ID := "a" |> <| sv_Address := "vpn.example" |> <| sv_Port := 443 |>
    <| sv_Security := "reality" |> <| sv_Network := "raw" |> <| sv_Flow := "xtls-rprx-vision" |>.

Definition xhttp_leaf : VLESSServer :=
  emptyServer <| sv_ID := "b" |> <| sv_Address := "cdn.example" |> <| sv_Port := 8443 |>
    <| sv_Security := "tls" |> <| sv_Network := "splithttp" |>
    <| sv_XHTTPHeaders := {["Host" := "front.example"; "X-Tag" := "1"]} |>.

Definition auto_profile : VLESSServer :=
  emptyServer <| sv_ID := "p" |> <| sv_Members := [reality_leaf; xhttp_leaf] |>.

Definition running_config : json :=
  match generateXrayConfig defaultConfig auto_profile with Ok c => c | Err _ => JNull end.

Lemma running_config_ok : generateXrayConfig defaultConfig auto_profile = Ok running_config.
Proof. vm_compute. reflexivity. Qed.


Lemma routing_policy_witness :
  (exists rules, rules_of running_config = JObj <$> rules /\
    route (mkFlow "tproxy-in" (fun d => bool_decide (d = "domain:ya.ru")) (fun _ => false)) rules =
      Some (Outbound "direct") /\
    route (mkFlow "socks-health" (fun d => bool_decide (d = "domain:ya.ru")) (fun _ => false)) rules =
      Some (Balancer "proxy")) /\
  forall cfg' config', generateXrayConfig cfg' auto_profile = Ok config' ->
    updated_rules running_config cfg' = Some (rules_of config').
Proof.
  destruct (routing_policy defaultConfig auto_profile running_config running_config_ok)
    as [(rules & Hr & Hroute) Hupdate].
  split; [|exact Hupdate]. exists rules. split; [exact Hr|]. split.
  - rewrite (proj1 (Hroute _)). vm_compute. reflexivity.
  - rewrite (proj1 (Hroute _)). vm_compute. reflexivity.
Defined.

Lemma generateXrayConfig_succeeds_witness :
  is_ok (generateXrayConfig defaultConfig auto_profile) = true.
Proof.
  apply (generateXrayConfig_succeeds defaultConfig auto_profile).
  - repeat constructor.
  - vm_compute. reflexivity.
  - repeat constructor.
Defined.

Definition old_options : json :=
  JObj [("xmux", JObj [("max_concurrency", JStr "16")]); ("sc_max_buffered_posts", JNum 3 1);
        ("scMaxBufferedPosts", JNum 5 0); ("headers", JObj [("server_name", JStr "x")])].

Lemma xrayLegacyKeys_canonical_witness :
  wf_json old_options /\
  xrayLegacyKeys (xrayLegacyKeys old_options) = xrayLegacyKeys old_options /\
  xrayLegacyKeys old_options =
    JObj [("xmux", JObj [("maxConcurrency", JStr "16")]); ("scMaxBufferedPosts", JNum 5 0);
          ("headers", JObj [("server_name", JStr "x")])].
Proof.
  assert (Hwf : wf_json old_options).
  { assert (Hd : forall l : list string, bool_decide (NoDup l) = true -> NoDup l)
      by (intros l Hl; exact (bool_decide_eq_true_1 _ Hl)).
    repeat split; apply Hd; vm_compute; reflexivity. }
  split; [exact Hwf|]. split; [|vm_compute; reflexivity].
  exact (proj1 (proj2 (proj2 (xrayLegacyKeys_canonical old_options Hwf)))).
Defined.
