(* ===== verification/EngineRouter.v ===== *)
(** * The engine's router: [infra/conf/router.go], [app/router] and
    [features/routing/session/context.go] of the engine

    How the engine reads the routing object the manager writes, compiles its rules
    and picks the outbound of a connection; replacing the rules while it runs; the
    balancer of a logical profile with the Observatory's report it reads; the
    outbound manager it selects from; and the dispatcher that uses the answer.

    The model covers what the manager's configuration can contain: conditions on
    domains, networks of addresses, transport protocols and inbounds, and the
    strategy [leastPing].  A rule with another condition, a script or the strategy
    [leastLoad] is outside it ([None]); so is a panic.  [RoundRobin] and [Random]
    choose by what is an argument. *)

From Stdlib Require Import Ascii.
From S2P Require Import Mph IPMatch Geodata Prelude GoStrings Settings Servers Config Subscriptions Routing Bypass XrayConfig.

#[local] Open Scope Z_scope.

(** ** The connection *)

Inductive Network := Network_Unknown | Network_TCP | Network_UDP | Network_UNIX.
#[export] Instance Network_dec : EqDecision Network.
Proof. solve_decision. Defined.

Inductive Address := IPAddress (ip : IP) | DomainAddress (domain : string).

Record Destination := mkDestination { ds_Address : Address; ds_Network : Network }.

Definition IsValid (d : Destination) : bool := negb (bool_decide (ds_Network d = Network_Unknown)).

(** [session.Context]: the inbound's tag, the target and what sniffing found. *)
Record Context := mkContext {
  cx_Inbound : option string;
  cx_Outbound : option (Destination * Destination);
  cx_SkipDNSResolve : bool
}.

Definition GetInboundTag (ctx : Context) : string := default "" (cx_Inbound ctx).

Definition GetTargetIPs (ctx : Context) : list IP :=
  match cx_Outbound ctx with
  | Some (target, _) =>
      if IsValid target then match ds_Address target with IPAddress ip => [ip] | DomainAddress _ => [] end else []
  | None => []
  end.

Definition GetTargetDomain (ctx : Context) : string :=
  match cx_Outbound ctx with
  | None => ""
  | Some (target, routeTarget) =>
      if negb (IsValid target) then ""
      else match ds_Address routeTarget, IsValid routeTarget with
      | DomainAddress d, true => d
      | _, _ => match ds_Address target with DomainAddress d => d | IPAddress _ => "" end
      end
  end.

Definition GetNetwork (ctx : Context) : Network :=
  match cx_Outbound ctx with Some (target, _) => ds_Network target | None => Network_Unknown end.

(** The context the rules see: the addresses may come from the resolver. *)
Record view := mkView { vw_tag : string; vw_domain : string; vw_ips : list IP; vw_network : Network }.

Definition plain_view (ctx : Context) : view :=
  mkView (GetInboundTag ctx) (GetTargetDomain ctx) (GetTargetIPs ctx) (GetNetwork ctx).

(** [ResolvableContext]: the answer of the resolver, or the target's address. *)
Definition ContextWithDNSClient (LookupIP : string -> option (list IP)) (ctx : Context) : view :=
  let ips := match GetTargetDomain ctx with
             | EmptyString => GetTargetIPs ctx
             | domain => default (GetTargetIPs ctx) (LookupIP domain)
             end in
  mkView (GetInboundTag ctx) (GetTargetDomain ctx) ips (GetNetwork ctx).

(** ** Reading the configuration *)

Inductive RuleTarget := TargetTag (tag : string) | BalancingTag (tag : string).

Record RoutingRule := mkRoutingRule {
  rr_RuleTag : string;
  rr_Target : RuleTarget;
  rr_Domain : list DomainRule;
  rr_Ip : list IPRule;
  rr_Networks : list Network;
  rr_InboundTag : list string
}.

Record BalancingRule := mkBalancingRule {
  br_Tag : string;
  br_OutboundSelector : list string;
  br_Strategy : string;
  br_FallbackTag : string
}.

Inductive DomainStrategy := AsIs | IpIfNonMatch | IpOnDemand.
#[export] Instance DomainStrategy_dec : EqDecision DomainStrategy.
Proof. solve_decision. Defined.

(** [router.Config]. *)
Record RoutingConfig := mkRoutingConfig {
  rc_DomainStrategy : DomainStrategy;
  rc_Rule : list RoutingRule;
  rc_BalancingRule : list BalancingRule
}.

Inductive router_error :=
| BadJSON | NoTarget | BadDomainRule (e : geo_error) | BadIPRule (e : geo_error)
| EmptyBalancerTag | EmptySelector | UnknownStrategy (s : string)
| DuplicateBalancer | UnrecognizedBalancer | NoEffectiveFields | MatcherFailed (e : geo_error)
| DuplicateRuleTag (tag : string) | BalancerNotFound (tag : string) | ErrNoClue | EmptyPick | NotReady.

(** The values of a name in an object: [encoding/json] compares names without
    regard to case, and a later value replaces an earlier one. *)
Definition members (name : string) (l : list (string * json)) : list json :=
  omap (fun p => if EqualFold p.1 name then Some p.2 else None) l.

Definition decode {A} (zero : A) (f : A -> json -> result router_error A) (name : string) (l : list (string * json))
  : result router_error A :=
  foldl (fun acc v => let! a := acc in f a v) (Ok zero) (members name l).

(** A [string]; a [*StringList], which takes an array or a text with commas. *)
Definition decode_string (old : string) (v : json) : result router_error string :=
  match v with JStr s => Ok s | JNull => Ok old | _ => Err BadJSON end.

Definition string_element (v : json) : option string :=
  match v with JStr s => Some s | JNull => Some "" | _ => None end.

Definition decode_strings (old : option (list string)) (v : json) : result router_error (option (list string)) :=
  match v with
  | JNull => Ok None
  | JArr l => match mapM string_element l with Some l => Ok (Some l) | None => Err BadJSON end
  | JStr s => Ok (Some (Split s char_comma))
  | _ => Err BadJSON
  end.

Definition str := decode "" decode_string.
Definition strs := decode None decode_strings.

Definition Network_Build (v : string) : Network :=
  let v := ToLower v in
  if bool_decide (v = "tcp") then Network_TCP
  else if bool_decide (v = "udp") then Network_UDP
  else if bool_decide (v = "unix") then Network_UNIX
  else Network_Unknown.

(** Names of [RawFieldRule] that are outside the model. *)
Definition other_conditions : list string :=
  ["port"; "sourceIP"; "source"; "sourcePort"; "user"; "vlessRoute"; "protocol"; "attrs"; "localIP"; "localPort";
   "process"; "localOS"; "webhook"].

Definition has_name (names : list string) (l : list (string * json)) : bool :=
  existsb (fun p => existsb (EqualFold p.1) names) l.

Section Router.
Context `{GeoParams, IPSetLib}.

Definition geo {A} (wrap : geo_error -> router_error) (r : result geo_error A) : result router_error A :=
  match r with Ok a => Ok a | Err e => Err (wrap e) end.

(** The rules of a list that is there. *)
Definition parse_list {A} (wrap : geo_error -> router_error) (parse : list string -> result geo_error (list A))
  (l : option (list string)) (old : list A) : result router_error (list A) :=
  match l with None => Ok old | Some l => geo wrap (parse l) end.

(** [parseFieldRule], on the fields in the model. *)
Definition parse_fields (obj : list (string * json)) : result router_error RoutingRule :=
  let! ruleTag := str "ruleTag" obj in
  let! outboundTag := str "outboundTag" obj in
  let! balancerTag := str "balancerTag" obj in
  let! domain := strs "domain" obj in
  let! domains := strs "domains" obj in
  let! ip := strs "ip" obj in
  let! network := strs "network" obj in
  let! inboundTag := strs "inboundTag" obj in
  let! target :=
    if negb (bool_decide (outboundTag = "")) then Ok (TargetTag outboundTag)
    else if negb (bool_decide (balancerTag = "")) then Ok (BalancingTag balancerTag)
    else Err NoTarget in
  let! rules := parse_list BadDomainRule (fun l => ParseDomainRules l Domain_Substr) domain [] in
  let! rules := parse_list BadDomainRule (fun l => ParseDomainRules l Domain_Substr) domains rules in
  let! ips := parse_list BadIPRule ParseIPRules ip [] in
  Ok (mkRoutingRule ruleTag target rules ips (Network_Build <$> default [] network) (default [] inboundTag)).

Definition parseRule (msg : json) : option (result router_error RoutingRule) :=
  match msg with
  | JObj obj => if has_name other_conditions obj then None else Some (parse_fields obj)
  | JNull => Some (parse_fields [])
  | _ => Some (Err BadJSON)
  end.

(** The strategies whose settings are empty take any object. *)
Definition balancer_settings (v : json) : result router_error unit :=
  match v with
  | JObj l => match last (members "settings" l) with
              | None | Some JNull | Some (JObj _) => Ok tt
              | _ => Err BadJSON
              end
  | _ => Ok tt
  end.

Definition strategy_object (l : list (string * json)) : result router_error json :=
  decode JNull (fun old v => match v with JObj _ => Ok v | JNull => Ok old | _ => Err BadJSON end) "strategy" l.

Definition BalancingRule_Build (msg : json) : option (result router_error BalancingRule) :=
  match msg with
  | JObj l =>
      match (let! tag := str "tag" l in
             let! selector := strs "selector" l in
             let! fallbackTag := str "fallbackTag" l in
             let! strategy := strategy_object l in
             let! type := match strategy with JObj s => str "type" s | _ => Ok "" end in
             Ok (tag, default [] selector, fallbackTag, strategy, ToLower type)) with
      | Err e => Some (Err e)
      | Ok (tag, selector, fallbackTag, strategy, type) =>
          if bool_decide (tag = "") then Some (Err EmptyBalancerTag)
          else if bool_decide (selector = []) then Some (Err EmptySelector)
          else if bool_decide (type = "leastload") then None
          else if bool_decide (type ∈ [""; "random"; "leastping"; "roundrobin"]) then
            Some (let! _ := balancer_settings strategy in
                  Ok (mkBalancingRule tag selector (if bool_decide (type = "") then "random" else type) fallbackTag))
          else Some (Err (UnknownStrategy type))
      end
  | JNull => None
  | _ => Some (Err BadJSON)
  end.

Fixpoint build_all {A} (build : json -> option (result router_error A)) (l : list json) : option (result router_error (list A)) :=
  match l with
  | [] => Some (Ok [])
  | v :: l => let? a := build v in let? rest := build_all build l in Some (Ok (a :: rest))
  end.

(** [RouterConfig]: what is kept of the object; [UpdateBypassRules] replaces the
    rules in it. *)
Record RouterConfig := mkRouterConfig {
  rf_RuleList : list json;
  rf_DomainStrategy : string;
  rf_Balancers : list json
}.

Definition decode_array (old : list json) (v : json) : result router_error (list json) :=
  match v with JArr l => Ok l | JNull => Ok [] | _ => Err BadJSON end.

(** A script is outside the model. *)
Definition decode_routing (routing : list (string * json)) : option (result router_error RouterConfig) :=
  if has_name ["script"] routing then None
  else Some (let! rules := decode [] decode_array "rules" routing in
             let! strategy := str "domainStrategy" routing in
             let! balancers := decode [] decode_array "balancers" routing in
             Ok (mkRouterConfig rules strategy balancers)).

Definition getDomainStrategy (ds : string) : DomainStrategy :=
  let ds := ToLower ds in
  if bool_decide (ds = "ipifnonmatch") then IpIfNonMatch
  else if bool_decide (ds = "ipondemand") then IpOnDemand else AsIs.

Definition RouterConfig_Build (c : RouterConfig) : option (result router_error RoutingConfig) :=
  let? rules := build_all parseRule (rf_RuleList c) in
  let? balancers := build_all BalancingRule_Build (rf_Balancers c) in
  Some (Ok (mkRoutingConfig (getDomainStrategy (rf_DomainStrategy c)) rules balancers)).

(** ** Compiling the rules *)

Inductive Condition :=
| InboundTagMatcher (tags : list string)
| NetworkMatcher (networks : list Network)
| IPCondition (m : IPMatcher)
| DomainCondition (m : MphValueMatcher).

(** [BuildCondition]: every field that is there becomes a condition. *)
Definition ip_conditions (rules : list IPRule) : result router_error (list Condition) :=
  match rules with
  | [] => Ok []
  | _ => let! m := geo MatcherFailed (buildOptimizedIPMatcher rules) in Ok [IPCondition m]
  end.

Definition domain_conditions (rules : list DomainRule) : option (result router_error (list Condition)) :=
  match rules with
  | [] => Some (Ok [])
  | _ => r ← BuildMatcher rules; Some (let! m := geo MatcherFailed r in Ok [DomainCondition m])
  end.

Definition BuildCondition (rr : RoutingRule) : option (result router_error (list Condition)) :=
  let inbound := match rr_InboundTag rr with
                 | [] => []
                 | tags => [InboundTagMatcher (filter (fun t => t <> "") tags)]
                 end in
  let networks := match rr_Networks rr with [] => [] | ns => [NetworkMatcher ns] end in
  let? ips := Some (ip_conditions (rr_Ip rr)) in
  let? domains := domain_conditions (rr_Domain rr) in
  match inbound ++ networks ++ ips ++ domains with
  | [] => Some (Err NoEffectiveFields)
  | conds => Some (Ok conds)
  end.

(** [Condition.Apply]; [None]: an unchecked read left the table of domains. *)
Definition apply_condition (v : view) (c : Condition) : option bool :=
  match c with
  | InboundTagMatcher tags => Some (negb (bool_decide (vw_tag v = "")) && bool_decide (vw_tag v ∈ tags))
  | NetworkMatcher networks => Some (bool_decide (vw_network v ∈ networks))
  | IPCondition m => Some (AnyMatch_ip m (vw_ips v))
  | DomainCondition m => if bool_decide (vw_domain v = "") then Some false else MatchAny_value m (ToLower (vw_domain v))
  end.

(** [ConditionChan.Apply]: all of them, up to the first that fails. *)
Fixpoint apply_all (v : view) (conds : list Condition) : option bool :=
  match conds with
  | [] => Some true
  | c :: conds => ok ← apply_condition v c; if (ok : bool) then apply_all v conds else Some false
  end.

(** ** Balancers and rules *)

Inductive Strategy := LeastPing | RoundRobin | Random.

(** [router.Balancer]: its selectors, strategy, fallback and override. *)
Record BalancerState := mkBalancer {
  bl_selectors : list string;
  bl_strategy : Strategy;
  bl_fallbackTag : string;
  bl_override : string
}.

Definition Balancer_Build (br : BalancingRule) : result router_error BalancerState :=
  let s := ToLower (br_Strategy br) in
  let make strategy := Ok (mkBalancer (br_OutboundSelector br) strategy (br_FallbackTag br) "") in
  if bool_decide (s = "leastping") then make LeastPing
  else if bool_decide (s = "roundrobin") then make RoundRobin
  else if bool_decide (s = "random") || bool_decide (s = "") then make Random
  else Err UnrecognizedBalancer.

Record Rule := mkRule {
  ru_Tag : string;
  ru_RuleTag : string;
  ru_Balancer : option BalancerState;
  ru_Condition : list Condition
}.

Record EngineRouter := mkRouter {
  rt_domainStrategy : DomainStrategy;
  rt_rules : list Rule;
  rt_balancers : gmap string BalancerState
}.

Definition add_balancer (acc : result router_error (gmap string BalancerState)) (br : BalancingRule)
  : result router_error (gmap string BalancerState) :=
  let! m := acc in
  match m !! br_Tag br with
  | Some _ => Err DuplicateBalancer
  | None => let! b := Balancer_Build br in Ok (<[br_Tag br := b]> m)
  end.

Definition rule_tag (t : RuleTarget) : string := match t with TargetTag tag => tag | BalancingTag _ => "" end.

(** One turn of the loop over [config.Rule]: the rules so far and their tags. *)
Fixpoint add_rules_to (balancers : gmap string BalancerState) (existTags : list string) (rules : list Rule)
  (config : list RoutingRule) : option (result router_error (list Rule)) :=
  match config with
  | [] => Some (Ok rules)
  | rr :: config =>
      let? cond := BuildCondition rr in
      if negb (bool_decide (rr_RuleTag rr = "")) && bool_decide (rr_RuleTag rr ∈ existTags)
      then Some (Err (DuplicateRuleTag (rr_RuleTag rr)))
      else
        let? balancer :=
          match rr_Target rr with
          | BalancingTag btag =>
              if bool_decide (btag = "") then Some (Ok None)
              else match balancers !! btag with Some b => Some (Ok (Some b)) | None => Some (Err (BalancerNotFound btag)) end
          | TargetTag _ => Some (Ok None)
          end in
        add_rules_to balancers (rr_RuleTag rr :: existTags)
          (rules ++ [mkRule (rule_tag (rr_Target rr)) (rr_RuleTag rr) balancer cond]) config
  end.

(** [ReloadRules]: the new router, stored only when everything was built. *)
Definition ReloadRules (r : EngineRouter) (config : RoutingConfig) (shouldAppend : bool)
  : option (result router_error EngineRouter) :=
  let oldRules := if shouldAppend then rt_rules r else [] in
  let oldBalancers := if shouldAppend then rt_balancers r else ∅ in
  let? balancers := Some (foldl add_balancer (Ok oldBalancers) (rc_BalancingRule config)) in
  let? rules := add_rules_to balancers (ru_RuleTag <$> oldRules) oldRules (rc_Rule config) in
  Some (Ok (mkRouter (rt_domainStrategy r) rules balancers)).

Definition Init (config : RoutingConfig) : option (result router_error EngineRouter) :=
  ReloadRules (mkRouter (rc_DomainStrategy config) [] ∅) config false.

(** The router of an engine started with a [routing] object, and what
    [UpdateBypassRules] makes of a running one: the answer and the router. *)
Definition start_router (routing : list (string * json)) : option (result router_error EngineRouter) :=
  let? c := decode_routing routing in let? config := RouterConfig_Build c in Init config.

Definition UpdateRules (routing : list (string * json)) (rules : list json) (r : EngineRouter)
  : option (option router_error * EngineRouter) :=
  match (let? c := decode_routing routing in
         let? config := RouterConfig_Build (mkRouterConfig rules (rf_DomainStrategy c) (rf_Balancers c)) in
         ReloadRules r config false) with
  | None => None
  | Some (Err e) => Some (Some e, r)
  | Some (Ok r') => Some (None, r')
  end.

(** ** Picking a route *)

Fixpoint first_rule (v : view) (rules : list Rule) : option (option Rule) :=
  match rules with
  | [] => Some None
  | rule :: rules => ok ← apply_all v (ru_Condition rule); if (ok : bool) then Some (Some rule) else first_rule v rules
  end.

Definition pickRouteInternal (LookupIP : string -> option (list IP)) (r : EngineRouter) (ctx : Context)
  : option (result router_error Rule) :=
  let skip := cx_SkipDNSResolve ctx in
  let v := if bool_decide (rt_domainStrategy r = IpOnDemand) && negb skip
           then ContextWithDNSClient LookupIP ctx else plain_view ctx in
  found ← first_rule v (rt_rules r);
  match found with
  | Some rule => Some (Ok rule)
  | None =>
      if negb (bool_decide (rt_domainStrategy r = IpIfNonMatch)) || bool_decide (GetTargetDomain ctx = "") || skip
      then Some (Err ErrNoClue)
      else
        found ← first_rule (ContextWithDNSClient LookupIP ctx) (rt_rules r);
        Some match found with Some rule => Ok rule | None => Err ErrNoClue end
  end.

(** ** The balancer's choice *)

(** A row of the Observatory's report. *)
Record OutboundStatus := mkStatus { os_tag : string; os_Alive : bool; os_Delay : Z; os_error : string; os_tried : Z; os_seen : Z }.

Definition no_ping : Z := 99999999.

Definition least_step (tags : list string) (acc : string * Z) (v : OutboundStatus) : string * Z :=
  if bool_decide (os_tag v ∈ tags) && os_Alive v && (os_Delay v <? acc.2) then (os_tag v, os_Delay v) else acc.

(** [LeastPingStrategy.PickOutbound]; no report is the empty tag. *)
Definition LeastPing_PickOutbound (report : option (list OutboundStatus)) (tags : list string) : string :=
  match report with Some status => (foldl (least_step tags) ("", no_ping) status).1 | None => "" end.

(** What a strategy looks at besides the tags. *)
Record surroundings := mkSurroundings {
  sr_tags : list string -> list string;
  sr_report : option (list OutboundStatus);
  sr_other : Strategy -> list string -> string
}.

Definition strategy_pick (env : surroundings) (s : Strategy) (tags : list string) : string :=
  match s with LeastPing => LeastPing_PickOutbound (sr_report env) tags | _ => sr_other env s tags end.

Definition Balancer_PickOutbound (env : surroundings) (b : BalancerState) : result router_error string :=
  let candidates := sr_tags env (bl_selectors b) in
  let tag := if bool_decide (bl_override b = "") then strategy_pick env (bl_strategy b) candidates else bl_override b in
  if bool_decide (tag = "") then
    if bool_decide (bl_fallbackTag b = "") then Err EmptyPick else Ok (bl_fallbackTag b)
  else Ok tag.

Definition GetTag (env : surroundings) (rule : Rule) : result router_error string :=
  match ru_Balancer rule with Some b => Balancer_PickOutbound env b | None => Ok (ru_Tag rule) end.

Definition PickRoute (LookupIP : string -> option (list IP)) (env : surroundings) (r : EngineRouter) (ctx : Context)
  : option (result router_error string) :=
  let? rule := pickRouteInternal LookupIP r ctx in Some (GetTag env rule).

(** ** Dispatching *)

Inductive dispatch := Sent (tag : string) | Closed.

(** [routedDispatch]: [handlers] are the tags of the outbounds, [first] the
    default one. *)
Definition routedDispatch (forced : string) (handlers : list string) (first : option string)
  (picked : result router_error string) : dispatch :=
  let to_default := match first with Some tag => Sent tag | None => Closed end in
  if negb (bool_decide (forced = "")) then if bool_decide (forced ∈ handlers) then Sent forced else Closed
  else match picked with
  | Ok tag => if bool_decide (tag ∈ handlers) then Sent tag else Closed
  | Err _ => to_default
  end.
End Router.

(** ** What the package [net] promises

    A dotted quad is parsed to the sixteen-byte form of its address. *)
Definition ip4_bytes (a : Z) : IP := (fun sh => Z.land (Z.shiftr a sh) 255) <$> [24; 16; 8; 0].

Class ParseIPLaws (G : GeoParams) : Prop :=
  parse_quad : forall s a, dotted_quad s = true -> parse_base s = Some a ->
    net_ParseIP s = Some (replicate 10 0 ++ [255; 255] ++ ip4_bytes a).

(** ** Reading the manager's rules *)

Section Reading.
Context `{G : GeoParams, PL : !ParseIPLaws G}.

Lemma string_elements l : mapM string_element (JStr <$> l) = Some l.
Proof. apply mapM_Some_2. induction l; by constructor. Qed.

Lemma after_prefix_app p d : after_prefix (p +:+ d) p = Some d.
Proof.
  unfold after_prefix, TrimPrefix, HasPrefix. rewrite prefix_app. f_equal.
  induction p as [|c p IH]; [by destruct d|exact IH].
Qed.

Lemma parse_bypass_domain d : ParseDomainRule ("domain:" +:+ d) Domain_Substr = Ok (DomainRule_Custom Domain_Domain d).
Proof.
  unfold ParseDomainRule. change (after_prefix ("domain:" +:+ d) "geosite:") with (@None string). cbv iota.
  change (first_prefix ("domain:" +:+ d) ["ext:"; "ext-domain:"; "ext-site:"]) with (@None string). cbv iota.
  unfold parseCustomDomainRule. change (after_prefix ("domain:" +:+ d) "regexp:") with (@None string). cbv iota.
  by rewrite after_prefix_app.
Qed.

Lemma parse_bypass_domains l :
  ParseDomainRules ((fun d => "domain:" +:+ d) <$> l) Domain_Substr = Ok (DomainRule_Custom Domain_Domain <$> l).
Proof.
  unfold ParseDomainRules. induction l as [|d l IH]; [done|]. rewrite !fmap_cons. cbn [map_result].
  by rewrite parse_bypass_domain, IH.
Qed.

Lemma parse_address s a : dotted_quad s = true -> parse_base s = Some a ->
  match bytes_of s, last (bytes_of s) with
  | c :: _, Some z => isAlphaNum c && isAlphaNum z && negb (bool_decide (c = "["%char))
  | _, _ => false
  end = true ->
  ParseAddress s = Some (ip4_bytes a).
Proof using PL.
  intros Hq Hb Hc. unfold ParseAddress. destruct (bytes_of s) as [|c rest] eqn:E; [done|].
  destruct (last (c :: rest)) as [z|] eqn:Ez; [|done]. apply andb_true_iff in Hc as [Hc Hbr].
  apply andb_true_iff in Hc as [Hc Hz]. destruct (bool_decide (c = "["%char)); [done|]. cbn [andb].
  rewrite Ez, Hc, Hz. cbn [negb orb]. rewrite <- E, string_of_bytes_of, (parse_quad s a Hq Hb). done.
Qed.

Definition private_networks : list (IP * Z) :=
  [([192; 168; 0; 0], 16); ([10; 0; 0; 0], 8); ([172; 16; 0; 0], 12); ([127; 0; 0; 0], 8);
   ([169; 254; 0; 0], 16); ([224; 0; 0; 0], 4); ([255; 255; 255; 255], 32); ([0; 0; 0; 0], 8)].

Definition plain_text (s : string) : bool :=
  bool_decide (cutReversePrefix s = (s, false)) && bool_decide (after_prefix s "geoip:" = None)
  && bool_decide (first_prefix s ["ext:"; "ext-ip:"] = None).

Definition address_text (s : string) : bool :=
  dotted_quad s &&
  match bytes_of s, last (bytes_of s) with
  | c :: _, Some z => isAlphaNum c && isAlphaNum z && negb (bool_decide (c = "["%char))
  | _, _ => false
  end.

Lemma parse_network s base bits a n ip :
  plain_text s = true -> Cut s "/"%char = Some (base, bits) -> address_text base = true -> parse_base base = Some a ->
  ParseUint bits 10 32 = Some n -> ip4_bytes a = ip -> bits <> "" -> n <= 32 ->
  parseIPRule s = Ok (IPRule_Custom (ip, n) false).
Proof using PL.
  unfold plain_text, address_text. rewrite !andb_true_iff, !bool_decide_eq_true.
  intros [[E1 E2] E3] Hc [Hq Ht] Ha Hn <- Hne Hle. unfold parseIPRule. rewrite E1, E2, E3.
  unfold parseCustomIPRule, parseCIDR. rewrite Hc, (parse_address base a Hq Ha Ht).
  rewrite (bool_decide_false (bits = "")), Hn by done. cbn [result_bind].
  change (length (ip4_bytes a) =? 4)%nat with true. cbv iota. replace (32 <? n) with false by lia. done.
Qed.

Lemma parse_private : ParseIPRules privateCIDRs = Ok ((fun c => IPRule_Custom c false) <$> private_networks).
Proof using PL.
  assert (H : Forall2 (fun s c => parseIPRule s = Ok (IPRule_Custom c false)) privateCIDRs private_networks).
  { unfold privateCIDRs, private_networks. repeat apply Forall2_cons_2; [..|apply Forall2_nil_2].
    all: eapply parse_network; [vm_compute; reflexivity..|discriminate|lia]. }
  unfold ParseIPRules. induction H as [|s c l l' Hs H IH]; [done|]. cbn [map_result fmap list_fmap]. by rewrite Hs, IH.
Qed.
End Reading.

(** ** The compiled rules *)

Section Compiling.
Context `{J : JSONCodec, P : ParseJSON, E : EmbeddedList, G : GeoParams, PL : !ParseIPLaws G, L : IPSetLib, IL : !IPSetLaws L}.

Definition proxy_target (srv : VLESSServer) : RuleTarget :=
  match sv_Members srv with [] => TargetTag "proxy" | _ => BalancingTag "proxy" end.

Abbreviation both := [Network_TCP; Network_UDP].
Definition test_rule (srv : VLESSServer) : RoutingRule :=
  mkRoutingRule "" (proxy_target srv) [] [] both [xrayTunnelTestTag; "socks-health"].
Definition bypass_rule (l : list string) : RoutingRule :=
  mkRoutingRule "" (TargetTag "direct") (DomainRule_Custom Domain_Domain <$> l) [] [] [].
Definition private_rule : RoutingRule :=
  mkRoutingRule "" (TargetTag "direct") [] ((fun c => IPRule_Custom c false) <$> private_networks) [] [].
Definition final_rule (srv : VLESSServer) : RoutingRule := mkRoutingRule "" (proxy_target srv) [] [] both [].

Definition bypass_rules (l : list string) : list RoutingRule := match l with [] => [] | _ => [bypass_rule l] end.

Lemma parse_test_rule srv : parseRule (JObj (foldl (fun l p => jset p.1 p.2 l)
  [("inboundTag", jstrs [xrayTunnelTestTag; "socks-health"])] (proxyRule srv))) = Some (Ok (test_rule srv)).
Proof. unfold proxyRule, test_rule, proxy_target. destruct (sv_Members srv); vm_compute; reflexivity. Qed.

Lemma parse_final_rule srv : parseRule (JObj (proxyRule srv)) = Some (Ok (final_rule srv)).
Proof. unfold proxyRule, final_rule, proxy_target. destruct (sv_Members srv); vm_compute; reflexivity. Qed.

Lemma parse_private_rule :
  parseRule (JObj [("type", JStr "field"); ("ip", jstrs privateCIDRs); ("outboundTag", JStr "direct")]) = Some (Ok private_rule).
Proof using PL.
  set (obj := [("type", JStr "field"); ("ip", jstrs privateCIDRs); ("outboundTag", JStr "direct")]).
  unfold parseRule. change (has_name other_conditions obj) with false. cbv iota. f_equal. unfold parse_fields.
  change (str "ruleTag" obj) with (@Ok router_error _ "").
  change (str "outboundTag" obj) with (@Ok router_error _ "direct").
  change (str "balancerTag" obj) with (@Ok router_error _ "").
  change (strs "domain" obj) with (@Ok router_error (option (list string)) None).
  change (strs "domains" obj) with (@Ok router_error (option (list string)) None).
  change (strs "ip" obj) with (@Ok router_error _ (Some privateCIDRs)).
  change (strs "network" obj) with (@Ok router_error (option (list string)) None).
  change (strs "inboundTag" obj) with (@Ok router_error (option (list string)) None).
  cbn [result_bind parse_list]. rewrite parse_private. reflexivity.
Qed.

Lemma parse_bypass_rule l :
  parseRule (JObj [("type", JStr "field"); ("domain", jstrs ((fun d => "domain:" +:+ d) <$> l)); ("outboundTag", JStr "direct")])
  = Some (Ok (bypass_rule l)).
Proof.
  set (texts := (fun d => "domain:" +:+ d) <$> l).
  set (obj := [("type", JStr "field"); ("domain", jstrs texts); ("outboundTag", JStr "direct")]).
  unfold parseRule. change (has_name other_conditions obj) with false. cbv iota. f_equal. unfold parse_fields.
  change (str "ruleTag" obj) with (@Ok router_error _ "").
  change (str "outboundTag" obj) with (@Ok router_error _ "direct").
  change (str "balancerTag" obj) with (@Ok router_error _ "").
  assert (Ed : strs "domain" obj = Ok (Some texts)).
  { change (strs "domain" obj) with (decode_strings None (jstrs texts)). unfold jstrs, decode_strings. by rewrite string_elements. }
  rewrite Ed.
  change (strs "domains" obj) with (@Ok router_error (option (list string)) None).
  change (strs "ip" obj) with (@Ok router_error (option (list string)) None).
  change (strs "network" obj) with (@Ok router_error (option (list string)) None).
  change (strs "inboundTag" obj) with (@Ok router_error (option (list string)) None).
  cbn [result_bind parse_list]. unfold texts. rewrite parse_bypass_domains. reflexivity.
Qed.

Lemma build_all_cons {A} (build : json -> option (result router_error A)) v l a rest :
  build v = Some (Ok a) -> build_all build l = Some (Ok rest) -> build_all build (v :: l) = Some (Ok (a :: rest)).
Proof. intros H1 H2. cbn. by rewrite H1, H2. Qed.

(** The rules of [xrayRoutingRules], as the engine reads them. *)
Definition routing_rules (bypass : list string) (srv : VLESSServer) : list RoutingRule :=
  [test_rule srv] ++ bypass_rules bypass ++ [private_rule; final_rule srv].

Lemma parse_routing_rules cfg srv :
  build_all parseRule (JObj <$> xrayRoutingRules cfg (proxyRule srv)) = Some (Ok (routing_rules (bypassDomainsFor cfg) srv)).
Proof using PL.
  assert (Htail : build_all parseRule (JObj <$> [[("type", JStr "field"); ("ip", jstrs privateCIDRs); ("outboundTag", JStr "direct")]; proxyRule srv])
    = Some (Ok [private_rule; final_rule srv])).
  { apply build_all_cons; [apply parse_private_rule|]. by apply build_all_cons; [apply parse_final_rule|]. }
  unfold xrayRoutingRules, routing_rules. cbv zeta. cbn [app]. rewrite fmap_cons.
  apply build_all_cons; [apply parse_test_rule|]. destruct (bypassDomainsFor cfg) as [|d ds]; [exact Htail|].
  cbn [app bypass_rules]. rewrite fmap_cons. apply build_all_cons; [apply parse_bypass_rule|exact Htail].
Qed.

(** The [routing] object of a configuration. *)
Definition routing_object (rules : list json) (srv : VLESSServer) : list (string * json) :=
  [("domainStrategy", JStr "AsIs"); ("rules", JArr rules)] ++
  match sv_Members srv with [] => [] | _ => [("balancers", balancers)] end.

Definition routing_balancers (srv : VLESSServer) : list json :=
  match sv_Members srv, balancers with [], _ => [] | _, JArr l => l | _, _ => [] end.

Lemma decode_routing_object rules srv :
  decode_routing (routing_object rules srv) = Some (Ok (mkRouterConfig rules "AsIs" (routing_balancers srv))).
Proof. unfold routing_object, routing_balancers. destruct (sv_Members srv); reflexivity. Qed.

Definition balancing_rules (srv : VLESSServer) : list BalancingRule :=
  match sv_Members srv with [] => [] | _ => [mkBalancingRule "proxy" ["proxy-"] "leastping" "proxy-1"] end.

Lemma build_balancers srv : build_all BalancingRule_Build (routing_balancers srv) = Some (Ok (balancing_rules srv)).
Proof. unfold routing_balancers, balancing_rules. destruct (sv_Members srv); vm_compute; reflexivity. Qed.

Definition tunnel_balancer : BalancerState := mkBalancer ["proxy-"] LeastPing "proxy-1" "".

Definition engine_balancers (srv : VLESSServer) : gmap string BalancerState :=
  match sv_Members srv with [] => ∅ | _ => {["proxy" := tunnel_balancer]} end.

Lemma balancers_built srv : foldl add_balancer (Ok ∅) (balancing_rules srv) = Ok (engine_balancers srv).
Proof. unfold balancing_rules, engine_balancers. by destruct (sv_Members srv). Qed.

(** The compiled rule that ends in the tunnel, and the one that leaves directly. *)
Definition tunnel_rule (srv : VLESSServer) (conds : list Condition) : Rule :=
  match sv_Members srv with
  | [] => mkRule "proxy" "" None conds
  | _ => mkRule "" "" (Some tunnel_balancer) conds
  end.
Definition direct_rule (conds : list Condition) : Rule := mkRule "direct" "" None conds.

Definition private_set : option HeuristicIPMatcher :=
  s ← createFrom private_networks; Some (mkIPMatcher s false).

Lemma private_set_built : exists m, private_set = Some m /\ built_from m private_networks /\ im_reverse m = false.
Proof using IL.
  unfold private_set, createFrom. cbv zeta.
  destruct (ipset_total _ (family_valid private_networks true)) as [s4 E4].
  destruct (ipset_total _ (family_valid private_networks false)) as [s6 E6].
  eexists. rewrite E4. cbn [mbind option_bind]. rewrite E6. split; [reflexivity|]. split; [|done].
  unfold built_from, createFrom. cbv zeta. rewrite E4. cbn [mbind option_bind]. by rewrite E6.
Qed.

Lemma private_conditions m : private_set = Some m -> ip_conditions (rr_Ip private_rule) = Ok [IPCondition (OneSet m)].
Proof.
  unfold private_set. destruct (createFrom private_networks) as [s|] eqn:Ec; [|done]. intros [= <-].
  unfold ip_conditions, private_rule. cbn [rr_Ip].
  change ((fun c => IPRule_Custom c false) <$> private_networks) with
    (IPRule_Custom ([192; 168; 0; 0], 16) false :: ((fun c => IPRule_Custom c false) <$> tail private_networks)).
  cbv iota. unfold buildOptimizedIPMatcher. cbv zeta.
  change (custom_of false (IPRule_Custom ([192; 168; 0; 0], 16) false :: ((fun c => IPRule_Custom c false) <$> tail private_networks)))
    with private_networks.
  change (nonempty private_networks) with true. unfold sub_matcher at 1. rewrite Ec. reflexivity.
Qed.

(** The router of a running engine; [doms] are the conditions of the bypass rule. *)
Definition engine_router (srv : VLESSServer) (m : HeuristicIPMatcher) (doms : list Condition) : EngineRouter :=
  mkRouter AsIs
    ([tunnel_rule srv [InboundTagMatcher [xrayTunnelTestTag; "socks-health"]; NetworkMatcher both]] ++
     match doms with [] => [] | _ => [direct_rule doms] end ++
     [direct_rule [IPCondition (OneSet m)]; tunnel_rule srv [NetworkMatcher both]])
    (engine_balancers srv).

Lemma add_one balancers exist rules rr rest conds balancer :
  BuildCondition rr = Some (Ok conds) -> rr_RuleTag rr = "" ->
  match rr_Target rr with
  | BalancingTag btag => if bool_decide (btag = "") then balancer = None else balancers !! btag = balancer /\ balancer <> None
  | TargetTag _ => balancer = None
  end ->
  add_rules_to balancers exist rules (rr :: rest)
  = add_rules_to balancers ("" :: exist) (rules ++ [mkRule (rule_tag (rr_Target rr)) "" balancer conds]) rest.
Proof.
  intros Hc Ht Hb. cbn [add_rules_to]. rewrite Hc, Ht. cbn [outcome_bind]. rewrite (bool_decide_true (_ = "")) by done. cbn [negb andb].
  destruct (rr_Target rr) as [tag|btag]; [by subst|]. destruct (bool_decide (btag = "")); [by subst|].
  destruct Hb as [-> Hb]. destruct balancer; [done|]. by destruct Hb.
Qed.

Lemma add_tunnel srv exist rules rr rest conds :
  BuildCondition rr = Some (Ok conds) -> rr_RuleTag rr = "" -> rr_Target rr = proxy_target srv ->
  add_rules_to (engine_balancers srv) exist rules (rr :: rest)
  = add_rules_to (engine_balancers srv) ("" :: exist) (rules ++ [tunnel_rule srv conds]) rest.
Proof.
  intros Hc Ht Hr. unfold tunnel_rule, engine_balancers, proxy_target in *. destruct (sv_Members srv).
  - rewrite (add_one _ _ _ _ _ conds None) by (rewrite ?Hr; done). by rewrite Hr.
  - rewrite (add_one _ _ _ _ _ conds (Some tunnel_balancer)) by (rewrite ?Hr; done). by rewrite Hr.
Qed.

Lemma domain_conditions_shape rules doms : domain_conditions rules = Some (Ok doms) ->
  (rules = [] /\ doms = []) \/ exists g, doms = [DomainCondition g] /\ BuildMatcher rules = Some (Ok g).
Proof.
  unfold domain_conditions. destruct rules as [|r rules]; [intros [= <-]; by left|].
  destruct (BuildMatcher (r :: rules)) as [[g|e]|]; [|done|done]. intros [= <-]. right. by exists g.
Qed.

Lemma bypass_conditions bypass : bypass <> [] ->
  BuildCondition (bypass_rule bypass) = domain_conditions (DomainRule_Custom Domain_Domain <$> bypass).
Proof.
  intros Hne. unfold BuildCondition, bypass_rule. cbn [rr_Ip rr_InboundTag rr_Networks rr_Domain ip_conditions outcome_bind app].
  destruct (domain_conditions _) as [[doms|e]|] eqn:Ed; [|done|done]. cbn [outcome_bind].
  apply domain_conditions_shape in Ed as [[E0 _]|(g & -> & _)]; [|done]. by destruct bypass.
Qed.

(** Compiling the rules of the manager fails only in the table of the bypass
    domains. *)
Lemma reload_rules r srv bypass m : private_set = Some m -> rt_domainStrategy r = AsIs ->
  ReloadRules r (mkRoutingConfig AsIs (routing_rules bypass srv) (balancing_rules srv)) false
  = let? doms := domain_conditions (DomainRule_Custom Domain_Domain <$> bypass) in Some (Ok (engine_router srv m doms)).
Proof.
  intros Hm Hr. unfold ReloadRules. cbn [rc_BalancingRule rc_Rule]. rewrite balancers_built. cbn [outcome_bind].
  unfold routing_rules. cbn [app].
  rewrite (add_tunnel srv _ _ (test_rule srv) _ [InboundTagMatcher [xrayTunnelTestTag; "socks-health"]; NetworkMatcher both])
    by (vm_compute; reflexivity || done).
  assert (Htail : forall exist rules,
    add_rules_to (engine_balancers srv) exist rules [private_rule; final_rule srv]
    = Some (Ok (rules ++ [direct_rule [IPCondition (OneSet m)]; tunnel_rule srv [NetworkMatcher both]]))).
  { intros exist rules. rewrite (add_one _ _ _ private_rule _ [IPCondition (OneSet m)] None); [|..|done|done].
    2: { unfold BuildCondition. rewrite (private_conditions m Hm). reflexivity. }
    rewrite (add_tunnel srv _ _ (final_rule srv) _ [NetworkMatcher both]) by (vm_compute; reflexivity || done).
    cbn [add_rules_to]. by rewrite <- app_assoc. }
  unfold engine_router. destruct bypass as [|d ds].
  - cbn [bypass_rules app]. rewrite Htail. cbn. by rewrite Hr.
  - set (bypass := d :: ds). change (bypass_rules bypass) with [bypass_rule bypass]. cbn [app].
    pose proof (bypass_conditions bypass ltac:(done)) as Hc.
    destruct (domain_conditions (DomainRule_Custom Domain_Domain <$> bypass)) as [[doms|e]|] eqn:Ed.
    + rewrite (add_one _ _ _ (bypass_rule bypass) _ doms None), Htail by done. cbn [outcome_bind].
      apply domain_conditions_shape in Ed as [[E' _]|(g & -> & _)]; [done|]. rewrite Hr. by rewrite <- app_assoc.
    + cbn [add_rules_to outcome_bind]. by rewrite Hc.
    + cbn [add_rules_to outcome_bind]. by rewrite Hc.
Qed.

Lemma start_router_spec cfg srv m : private_set = Some m ->
  start_router (routing_object (JObj <$> xrayRoutingRules cfg (proxyRule srv)) srv)
  = let? doms := domain_conditions (DomainRule_Custom Domain_Domain <$> bypassDomainsFor cfg) in
    Some (Ok (engine_router srv m doms)).
Proof using PL.
  intros Hm. unfold start_router. rewrite decode_routing_object. cbn [outcome_bind].
  unfold RouterConfig_Build. cbn [rf_RuleList rf_Balancers rf_DomainStrategy].
  rewrite parse_routing_rules. cbn [outcome_bind]. rewrite build_balancers. cbn [outcome_bind].
  unfold Init. change (getDomainStrategy "AsIs") with AsIs. cbn [rc_DomainStrategy]. by apply reload_rules.
Qed.

(** ** Picking *)

(** The connection as the policy sees it. *)
Definition flow_of (ctx : Context) : flow :=
  mkFlow (GetInboundTag ctx)
    (fun text => match after_prefix text "domain:" with
                 | Some d => negb (bool_decide (GetTargetDomain ctx = "")) &&
                             plain_matches (ToLower (GetTargetDomain ctx)) (DomainRule_Custom Domain_Domain d)
                 | None => false
                 end)
    (fun cidr => existsb (fun ip => match FromStdIP ip with Some (Addr4 x) => in_cidr x cidr | _ => false end)
                   (GetTargetIPs ctx)).

(** The outbound a target of the policy means; the balancer chooses for a profile. *)
Definition target_tag (env : surroundings) (t : target) : result router_error string :=
  match t with Outbound tag => Ok tag | Balancer _ => Balancer_PickOutbound env tunnel_balancer end.

Lemma GetTag_tunnel env srv conds : GetTag env (tunnel_rule srv conds) = target_tag env (tunnel srv).
Proof. unfold tunnel_rule, tunnel. by destruct (sv_Members srv). Qed.

Lemma tunnel_conditions srv conds : ru_Condition (tunnel_rule srv conds) = conds.
Proof. unfold tunnel_rule. by destruct (sv_Members srv). Qed.

Lemma private_contains x : existsb (in_cidr x) privateCIDRs
  = existsb (fun p => prefix_contains p (Addr4 x)) (cidr_prefixes private_networks).
Proof. vm_compute. reflexivity. Qed.

Lemma private_match m ctx : built_from m private_networks -> im_reverse m = false ->
  AnyMatch m (GetTargetIPs ctx) = existsb (fl_ip (flow_of ctx)) privateCIDRs.
Proof using IL.
  intros Hm Hr. unfold flow_of. cbn [fl_ip].
  assert (Hone : exists l, GetTargetIPs ctx = l /\ (l = [] \/ exists ip, l = [ip])).
  { unfold GetTargetIPs. destruct (cx_Outbound ctx) as [[t rt]|]; [|by exists []; auto].
    destruct (IsValid t); [|by exists []; auto]. destruct (ds_Address t); eexists; (split; [done|]); eauto. }
  destruct Hone as (l & -> & [->|(ip & ->)]); [reflexivity|].
  cbn [AnyMatch existsb]. rewrite (Match_networks m _ ip Hm Hr).
  destruct (FromStdIP ip) as [[x|x]|]; [|reflexivity|reflexivity].
  rewrite <- private_contains. generalize privateCIDRs. intros l. induction l as [|c l IH]; [done|].
  cbn [existsb]. rewrite IH. by rewrite orb_false_r.
Qed.

(** The bypass rule: its condition holds when some domain of the list names the
    target. *)
Lemma bypass_match bypass doms v ctx : v = plain_view ctx ->
  domain_conditions (DomainRule_Custom Domain_Domain <$> bypass) = Some (Ok doms) ->
  (bypass = [] /\ doms = []) \/
  exists g, doms = [DomainCondition g] /\
    apply_condition v (DomainCondition g) = Some (existsb (fun d => fl_domain (flow_of ctx) ("domain:" +:+ d)) bypass).
Proof.
  intros -> Hd. apply domain_conditions_shape in Hd as [[Hb ->]|(g & -> & Hg)].
  { left. by destruct bypass. }
  right. exists g. split; [done|]. unfold apply_condition, flow_of. cbn [vw_domain plain_view fl_domain].
  set (dom := GetTargetDomain ctx). destruct (bool_decide_reflect (dom = "")) as [Hdom|Hdom]; cbn [negb andb].
  - f_equal. symmetry. clear Hg. induction bypass as [|d l IH]; [done|]. cbn [existsb]. rewrite IH. by rewrite after_prefix_app.
  - assert (Hplain : Forall (fun r => is_Some (plain_rule r)) (DomainRule_Custom Domain_Domain <$> bypass)).
    { apply Forall_fmap, Forall_true. intros d. by eexists. }
    assert (Hne : DomainRule_Custom Domain_Domain <$> bypass <> []) by (intros E0; rewrite E0 in Hg; done).
    pose proof (BuildMatcher_plain _ Hne Hplain) as H. rewrite Hg in H. rewrite H. f_equal. clear.
    induction bypass as [|d l IH]; [done|]. cbn [fmap list_fmap existsb]. change (list_fmap _ _ ?f l) with (f <$> l).
    rewrite IH. by rewrite after_prefix_app.
Qed.

Lemma first_rule_cons v rule rules ok : apply_all v (ru_Condition rule) = Some ok ->
  first_rule v (rule :: rules) = if ok then Some (Some rule) else first_rule v rules.
Proof. intros H. cbn. by rewrite H. Qed.

(** With [AsIs] the first rule that applies is the answer. *)
Lemma picked_first LookupIP env srv m doms ctx rule :
  first_rule (plain_view ctx) (rt_rules (engine_router srv m doms)) = Some (Some rule) ->
  PickRoute LookupIP env (engine_router srv m doms) ctx = Some (GetTag env rule).
Proof.
  intros H. unfold PickRoute, pickRouteInternal. cbn [rt_domainStrategy engine_router].
  rewrite (bool_decide_false (AsIs = IpOnDemand)) by done. cbn [andb]. rewrite H. done.
Qed.

Lemma engine_router_policy cfg srv m doms LookupIP env ctx :
  built_from m private_networks -> im_reverse m = false ->
  domain_conditions (DomainRule_Custom Domain_Domain <$> bypassDomainsFor cfg) = Some (Ok doms) ->
  GetNetwork ctx = Network_TCP \/ GetNetwork ctx = Network_UDP ->
  PickRoute LookupIP env (engine_router srv m doms) ctx = Some (target_tag env (policy cfg srv (flow_of ctx))).
Proof using IL PL.
  intros Hm Hr Hd Hn. set (v := plain_view ctx).
  assert (Hnet : apply_condition v (NetworkMatcher both) = Some true).
  { unfold apply_condition. rewrite bool_decide_true; [done|]. cbn [vw_network v plain_view]. destruct Hn as [->| ->]; set_solver. }
  assert (Htest : apply_all v [InboundTagMatcher [xrayTunnelTestTag; "socks-health"]; NetworkMatcher both]
    = Some (bool_decide (fl_inbound (flow_of ctx) ∈ [xrayTunnelTestTag; "socks-health"]))).
  { cbn [apply_all]. rewrite Hnet. unfold apply_condition. cbn [vw_tag v plain_view flow_of fl_inbound mbind option_bind].
    destruct (bool_decide_reflect (GetInboundTag ctx = "")) as [->|]; cbn [negb andb]; [done|]. by destruct (bool_decide _). }
  assert (Hfinal : first_rule v [tunnel_rule srv [NetworkMatcher both]] = Some (Some (tunnel_rule srv [NetworkMatcher both]))).
  { apply (first_rule_cons _ _ _ true). rewrite tunnel_conditions. cbn [apply_all]. by rewrite Hnet. }
  assert (Hprivate : first_rule v [direct_rule [IPCondition (OneSet m)]; tunnel_rule srv [NetworkMatcher both]]
    = Some (Some (if existsb (fl_ip (flow_of ctx)) privateCIDRs then direct_rule [IPCondition (OneSet m)]
                  else tunnel_rule srv [NetworkMatcher both]))).
  { rewrite (first_rule_cons _ _ _ (existsb (fl_ip (flow_of ctx)) privateCIDRs)), Hfinal by
      (cbn [ru_Condition direct_rule apply_all apply_condition AnyMatch_ip vw_ips v plain_view mbind option_bind];
       rewrite private_match by done; by destruct (existsb _ _)). by destruct (existsb _ _). }
  unfold policy. set (tested := bool_decide (fl_inbound (flow_of ctx) ∈ _)) in *.
  set (named := existsb (fun d => fl_domain (flow_of ctx) ("domain:" +:+ d)) (bypassDomainsFor cfg)).
  set (local := existsb (fl_ip (flow_of ctx)) privateCIDRs) in *.
  assert (Hpick : exists conds, first_rule v (rt_rules (engine_router srv m doms))
    = Some (Some (if tested then tunnel_rule srv conds else if named || local then direct_rule conds else tunnel_rule srv conds))).
  { cbn [rt_rules engine_router app].
    rewrite (first_rule_cons _ _ _ tested) by (rewrite tunnel_conditions; exact Htest). destruct tested; [by eexists|].
    destruct (bypass_match _ _ v ctx eq_refl Hd) as [[Hb ->]|(g & -> & Hg)].
    - unfold named. rewrite Hb. cbn [app existsb orb]. rewrite Hprivate. destruct local; by eexists.
    - cbn [app]. rewrite (first_rule_cons _ _ _ named) by
        (cbn [ru_Condition direct_rule apply_all]; rewrite Hg; cbn [mbind option_bind]; fold named; by destruct named).
      destruct named; [by eexists|]. rewrite Hprivate. destruct local; by eexists. }
  destruct Hpick as [conds Hpick]. rewrite (picked_first _ _ _ _ _ _ _ Hpick).
  destruct tested; [by rewrite GetTag_tunnel|]. destruct (named || local); [done|by rewrite GetTag_tunnel].
Qed.

(** [Err e] for want of a table of the bypass domains. *)
Definition table_failure (e : router_error) : Prop := exists e', e = MatcherFailed (GroupError e').

Lemma domain_conditions_cases bypass :
  match domain_conditions (DomainRule_Custom Domain_Domain <$> bypass) with
  | Some (Ok _) => True
  | Some (Err e) => table_failure e
  | None => False
  end.
Proof.
  destruct bypass as [|d ds]; [done|]. set (rules := DomainRule_Custom Domain_Domain <$> d :: ds).
  assert (Hplain : Forall (fun r => is_Some (plain_rule r)) rules) by (apply Forall_fmap, Forall_true; intros x; by eexists).
  pose proof (BuildMatcher_plain rules ltac:(done) Hplain) as H. unfold domain_conditions.
  change (match rules with [] => Some (Ok []) | _ => r ← BuildMatcher rules; Some (let! m := geo MatcherFailed r in Ok [DomainCondition m]) end)
    with (r ← BuildMatcher rules; Some (let! m := geo MatcherFailed r in Ok [DomainCondition m])).
  destruct (BuildMatcher rules) as [[g|e]|]; [done| |done]. destruct H as [e' ->]. by exists e'.
Qed.

Lemma config_routing cfg srv config : generateXrayConfig cfg srv = Ok config ->
  field "routing" config = Some (JObj (routing_object (JObj <$> xrayRoutingRules cfg (proxyRule srv)) srv)).
Proof.
  intros Hgen. apply generate_cases in Hgen as (outs & probe & log & Hb & ->).
  unfold xrayConfig, routing_object. rewrite proxyRule_tls, tls_profile_members. destruct (sv_Members srv); reflexivity.
Qed.

(** C7. The engine does what the policy says.  Whatever the settings and the
    profile, the engine reads the routing object of the generated configuration,
    and unless the table of bypass domains cannot be built, every TCP or UDP
    connection leaves where the policy sends it: measurements through the tunnel,
    the bypass domains and private addresses directly, the rest through the
    tunnel.  Domains are matched by the hash table, addresses by the sets of
    prefixes. *)
Theorem engine_follows_policy cfg srv config :
  generateXrayConfig cfg srv = Ok config ->
  exists routing, field "routing" config = Some (JObj routing) /\
  match start_router routing with
  | Some (Ok r) => forall LookupIP env ctx, GetNetwork ctx = Network_TCP \/ GetNetwork ctx = Network_UDP ->
      PickRoute LookupIP env r ctx = Some (target_tag env (policy cfg srv (flow_of ctx)))
  | Some (Err e) => table_failure e
  | None => False
  end.
Proof using PL IL.
  intros Hgen. eexists. split; [by apply config_routing|].
  destruct private_set_built as (m & Hm & Hb & Hr). rewrite (start_router_spec cfg srv m Hm).
  pose proof (domain_conditions_cases (bypassDomainsFor cfg)) as Hc.
  destruct (domain_conditions _) as [[doms|e]|] eqn:Ed; cbn [outcome_bind]; [|done|done].
  intros LookupIP env ctx Hn. by apply engine_router_policy.
Qed.

(** C13. Changing the bypass list while the engine runs is all or nothing: the
    rules are the ones a restart with the new settings would load, or, when the
    table of the new list cannot be built, the router is as it was and the caller
    gets the error. *)
Theorem update_is_a_restart cfg cfg' srv config config' r :
  generateXrayConfig cfg srv = Ok config -> generateXrayConfig cfg' srv = Ok config' ->
  rt_domainStrategy r = AsIs ->
  exists routing routing' rules,
    field "routing" config = Some (JObj routing) /\ field "routing" config' = Some (JObj routing') /\
    updated_rules config cfg' = Some rules /\
    match start_router routing' with
    | Some (Ok r') => UpdateRules routing rules r = Some (None, r')
    | Some (Err e) => table_failure e /\ UpdateRules routing rules r = Some (Some e, r)
    | None => False
    end.
Proof using PL IL.
  intros Hgen Hgen' Hr. eexists _, _, _. split; [by apply config_routing|]. split; [by apply config_routing|].
  assert (Hu : updated_rules config cfg' = Some (JObj <$> xrayRoutingRules cfg' (proxyRule srv))).
  { apply generate_cases in Hgen as (outs & probe & log & Hb & ->). unfold updated_rules, kept_rule.
    by rewrite config_rules, fmap_last, rules_last, proxyRule_tls. }
  split; [exact Hu|]. destruct private_set_built as (m & Hm & Hb & _). rewrite (start_router_spec cfg' srv m Hm).
  unfold UpdateRules. rewrite decode_routing_object. cbn [outcome_bind rf_DomainStrategy rf_Balancers].
  unfold RouterConfig_Build. cbn [rf_RuleList rf_Balancers rf_DomainStrategy].
  rewrite parse_routing_rules. cbn [outcome_bind]. rewrite build_balancers. cbn [outcome_bind].
  change (getDomainStrategy "AsIs") with AsIs. rewrite (reload_rules r srv _ m Hm Hr).
  pose proof (domain_conditions_cases (bypassDomainsFor cfg')) as Hc.
  destruct (domain_conditions _) as [[doms|e]|] eqn:Ed; cbn [outcome_bind]; [done|by split|done].
Qed.
End Compiling.

(** ** A concrete engine *)

(** Dotted quads only, no data files, no patterns. *)
#[local] Instance quads : GeoParams := {|
  checkFile := fun _ _ => false; loadSite := fun _ _ _ => None; loadIP := fun _ _ => None;
  net_ParseIP := fun s => if dotted_quad s then a ← parse_base s; Some (replicate 10 0 ++ [255; 255] ++ ip4_bytes a) else None;
  ToUpper := id; regex_compiles := fun _ => false; regex_match := fun _ _ => false; ac_match := fun _ _ => false |}.

#[local] Instance quads_laws : ParseIPLaws quads.
Proof. intros s a Hq Ha. cbn. by rewrite Hq, Ha. Qed.

#[local] Instance list_of_one : EmbeddedList := "ya.ru".
#[local] Instance no_raw : ParseJSON := fun _ => None.
#[local] Instance flat_json : JSONCodec := {|
  json_object := fun _ => None; json_string := fun _ => None; json_bool := fun _ => None;
  json_int64 := fun _ => None; json_string_map := fun _ => None;
  json_print_object := fun _ => None; map_range := map_to_list |}.

Definition example_leaf (id : string) : VLESSServer :=
  emptyServer <| sv_ID := id |> <| sv_Address := "vpn.example" |> <| sv_Port := 443 |>
    <| sv_Security := "tls" |> <| sv_Network := "raw" |>.
Definition example_profile : VLESSServer :=
  emptyServer <| sv_ID := "p" |> <| sv_Members := [example_leaf "a"; example_leaf "b"] |>.

Definition engine_config (cfg : Config) : json :=
  match generateXrayConfig cfg example_profile with Ok c => c | Err _ => JNull end.
Definition engine_of (cfg : Config) : EngineRouter :=
  match field "routing" (engine_config cfg) with
  | Some (JObj routing) => match start_router routing with Some (Ok r) => r | _ => mkRouter AsIs [] ∅ end
  | _ => mkRouter AsIs [] ∅
  end.

Definition to_host (domain : string) (ip : IP) : Context :=
  mkContext (Some "tproxy-in") (Some (mkDestination (IPAddress ip) Network_TCP,
    mkDestination (DomainAddress domain) Network_TCP)) false.
Definition report_of (rows : list OutboundStatus) : surroundings :=
  mkSurroundings (fun _ => ["proxy-1"; "proxy-2"]) (Some rows) (fun _ _ => "").
Definition two_rows : list OutboundStatus := [mkStatus "proxy-1" true 80 "" 1 1; mkStatus "proxy-2" true 30 "" 1 1].

Lemma engine_config_ok : generateXrayConfig defaultConfig example_profile = Ok (engine_config defaultConfig).
Proof. vm_compute. reflexivity. Qed.

Example engine_follows_policy_witness :
  exists routing, field "routing" (engine_config defaultConfig) = Some (JObj routing) /\
    start_router routing = Some (Ok (engine_of defaultConfig)) /\
    PickRoute (fun _ => None) (report_of two_rows) (engine_of defaultConfig) (to_host "mail.ya.ru" [8; 8; 8; 8]) = Some (Ok "direct") /\
    PickRoute (fun _ => None) (report_of two_rows) (engine_of defaultConfig) (to_host "example.org" [8; 8; 8; 8]) = Some (Ok "proxy-2").
Proof.
  destruct (engine_follows_policy defaultConfig example_profile _ engine_config_ok) as (routing & Hf & H).
  exists routing. split; [exact Hf|].
  assert (Hs : start_router routing = Some (Ok (engine_of defaultConfig))).
  { vm_compute in Hf. injection Hf as <-. vm_compute. reflexivity. }
  rewrite Hs in H. split; [exact Hs|].
  split; (rewrite H; [vm_compute; reflexivity|left; reflexivity]).
Defined.

Definition more_domains : Config :=
  defaultConfig <| cfg_Settings := cfg_Settings defaultConfig <| BypassDomains := ["example.org"] |> |>.

Lemma more_config_ok : generateXrayConfig more_domains example_profile = Ok (engine_config more_domains).
Proof. vm_compute. reflexivity. Qed.

Example update_is_a_restart_witness :
  exists routing routing' rules,
    field "routing" (engine_config defaultConfig) = Some (JObj routing) /\
    field "routing" (engine_config more_domains) = Some (JObj routing') /\
    updated_rules (engine_config defaultConfig) more_domains = Some rules /\
    UpdateRules routing rules (engine_of defaultConfig) = Some (None, engine_of more_domains) /\
    PickRoute (fun _ => None) (report_of two_rows) (engine_of more_domains) (to_host "example.org" [8; 8; 8; 8]) = Some (Ok "direct").
Proof.
  destruct (update_is_a_restart defaultConfig more_domains example_profile _ _ (engine_of defaultConfig)
    engine_config_ok more_config_ok) as (routing & routing' & rules & H1 & H2 & H3 & H4); [vm_compute; reflexivity|].
  exists routing, routing', rules. do 3 (split; [done|]).
  assert (Hs : start_router routing' = Some (Ok (engine_of more_domains))).
  { vm_compute in H2. injection H2 as <-. vm_compute. reflexivity. }
  rewrite Hs in H4. split; [exact H4|]. vm_compute. reflexivity.
Defined.
