(* ===== verification/Observatory.v ===== *)
(** * The outbound manager and the Observatory: [app/proxyman/outbound/outbound.go],
    [app/observatory/observer.go] and the choice of [leastPing] of the engine

    The manager knows the outbounds by their tags and remembers what a list of
    selectors gave.  The Observatory keeps a row per probed outbound and hands its
    list to the balancer, which reads it without a lock while probes go on: the
    list and its rows are shared objects, so they are modelled as a store of
    arrays and rows with addresses, and what was published must never change. *)

From S2P Require Import Mph IPMatch Geodata Prelude GoStrings Settings Servers Config Subscriptions Routing Bypass XrayConfig EngineRouter.

#[local] Open Scope Z_scope.

(** ** The outbound manager *)

(** A handler is its tag. *)
Record Manager := mkManager {
  mg_defaultHandler : option string;
  mg_taggedHandler : gset string;
  mg_untagged : nat;
  mg_tagsCache : gmap string (list string)
}.

Inductive manager_error := ExistingTag (tag : string) | NoClue.

Definition NewManager : Manager := mkManager None ∅ 0 ∅.

(** [AddHandler], up to starting the handler in a running manager. *)
Definition AddHandler (m : Manager) (tag : string) : option manager_error * Manager :=
  let def := match mg_defaultHandler m with None => Some tag | d => d end in
  if bool_decide (tag = "") then (None, mkManager def (mg_taggedHandler m) (S (mg_untagged m)) ∅)
  else if bool_decide (tag ∈ mg_taggedHandler m) then (Some (ExistingTag tag), mkManager def (mg_taggedHandler m) (mg_untagged m) ∅)
  else (None, mkManager def ({[tag]} ∪ mg_taggedHandler m) (mg_untagged m) ∅).

Definition RemoveHandler (m : Manager) (tag : string) : option manager_error * Manager :=
  if bool_decide (tag = "") then (Some NoClue, m)
  else (None, mkManager (if bool_decide (mg_defaultHandler m = Some tag) then None else mg_defaultHandler m)
                (mg_taggedHandler m ∖ {[tag]}) (mg_untagged m) ∅).

Definition GetHandler (m : Manager) (tag : string) : option string :=
  if bool_decide (tag ∈ mg_taggedHandler m) then Some tag else None.

(** The tags some selector is a prefix of, sorted. *)
Definition selected (m : Manager) (selectors : list string) : list string :=
  sort_strings (filter (fun tag => existsb (HasPrefix tag) selectors = true) (elements (mg_taggedHandler m))).

Definition Select (m : Manager) (selectors : list string) : list string * Manager :=
  let key := Join selectors "," in
  match mg_tagsCache m !! key with
  | Some tags => (tags, m)
  | None =>
      let tags := selected m selectors in
      (tags, mkManager (mg_defaultHandler m) (mg_taggedHandler m) (mg_untagged m) (<[key := tags]> (mg_tagsCache m)))
  end.

(** ** The Observatory's shared objects *)

(** An array holds addresses of rows; [None] is the nil slice. *)
Record Observer := mkObserver {
  ob_rows : gmap nat OutboundStatus;
  ob_arrays : gmap nat (list nat);
  ob_next : nat;
  ob_status : option nat
}.

Definition NewObserver : Observer := mkObserver ∅ ∅ 0 None.

Record ProbeResult := mkProbe { pb_Alive : bool; pb_Delay : Z; pb_LastErrorReason : string }.

(** What a slice holds, and what its rows say. *)
Definition array_at (o : Observer) (s : option nat) : list nat :=
  match s with Some a => default [] (ob_arrays o !! a) | None => [] end.
Definition rows_at (o : Observer) (s : option nat) : list OutboundStatus :=
  omap (fun r => ob_rows o !! r) (array_at o s).

(** [GetObservation] publishes the slice as it is. *)
Definition GetObservation (o : Observer) : option nat := ob_status o.

Definition empty_row : OutboundStatus := mkStatus "" false 0 "" 0 0.

(** The fields the update assigns. *)
Definition updated_row (row : OutboundStatus) (outbound : string) (result : ProbeResult) (now : Z) : OutboundStatus :=
  if pb_Alive result then mkStatus outbound true (pb_Delay result) "" now now
  else mkStatus outbound false no_ping (pb_LastErrorReason result) now (os_seen row).

Definition findStatusLocation (o : Observer) (outbound : string) : option nat :=
  fst <$> list_find (fun v => os_tag v = outbound) (rows_at o (ob_status o)).

(** [updateStatusForResult]: a copy of the row and of the array, or a longer
    array with a new row; then the new row is filled. *)
Definition updateStatusForResult (o : Observer) (outbound : string) (result : ProbeResult) (now : Z) : Observer :=
  let arr := array_at o (ob_status o) in
  let new_row := ob_next o in
  let new_array := S (ob_next o) in
  let '(copied, arr') :=
    match findStatusLocation o outbound with
    | Some location => (default empty_row (arr !! location ≫= fun r => ob_rows o !! r), <[location := new_row]> arr)
    | None => (empty_row, arr ++ [new_row])
    end in
  mkObserver (<[new_row := updated_row copied outbound result now]> (ob_rows o))
    (<[new_array := arr']> (ob_arrays o)) (S (S (ob_next o))) (Some new_array).

Definition clearRemovedOutbounds (o : Observer) (outbounds : list string) : Observer :=
  match array_at o (ob_status o) with
  | [] => o
  | arr =>
      let pruned := filter (fun r => bool_decide (is_Some (ob_rows o !! r) /\ default "" (os_tag <$> ob_rows o !! r) ∈ outbounds) = true) arr in
      match pruned with
      | [] => mkObserver (ob_rows o) (ob_arrays o) (ob_next o) None
      | _ => mkObserver (ob_rows o) (<[ob_next o := pruned]> (ob_arrays o)) (S (ob_next o)) (Some (ob_next o))
      end
  end.

(** Probes finish and rounds begin in any order. *)
Inductive observer_step : Observer -> Observer -> Prop :=
| step_probe o outbound result now : observer_step o (updateStatusForResult o outbound result now)
| step_round o outbounds : observer_step o (clearRemovedOutbounds o outbounds).

(** ** Selecting *)

(** Selectors that a text with commas stands for: not none, no comma in them. *)
Definition clean (selectors : list string) : Prop :=
  selectors <> [] /\ Forall (fun s => Split s char_comma = [s]) selectors.

Inductive manager_step : Manager -> Manager -> Prop :=
| step_add m tag : manager_step m (AddHandler m tag).2
| step_remove m tag : manager_step m (RemoveHandler m tag).2
| step_select m selectors : clean selectors -> manager_step m (Select m selectors).2.

Lemma Split_whole c s : Split (String c s) char_comma = [String c s] ->
  Ascii.eqb c char_comma = false /\ Split s char_comma = [s].
Proof.
  cbn [Split]. destruct (Ascii.eqb c char_comma); [done|]. intros H. split; [done|].
  destruct (Split s char_comma) as [|w ws] eqn:E; [by apply Split_nonempty in E|]. by injection H as -> ->.
Qed.

Lemma Split_first s rest : Split s char_comma = [s] -> Split (s +:+ "," +:+ rest) char_comma = s :: Split rest char_comma.
Proof.
  induction s as [|c s IH]; intros H; [done|]. apply Split_whole in H as [Hc H].
  change (String c s +:+ "," +:+ rest) with (String c (s +:+ "," +:+ rest)). cbn [Split]. by rewrite Hc, IH.
Qed.

Lemma Split_Join_clean selectors : clean selectors -> Split (Join selectors ",") char_comma = selectors.
Proof.
  intros [Hne Hall]. induction Hall as [|s l Hs Hl IH]; [done|]. destruct l as [|t l]; [exact Hs|].
  change (Join (s :: t :: l) ",") with (s +:+ "," +:+ Join (t :: l) ","). rewrite Split_first by done. by rewrite IH.
Qed.

Lemma Join_clean_inj l l' : clean l -> clean l' -> Join l "," = Join l' "," -> l = l'.
Proof. intros H H' E. rewrite <- (Split_Join_clean l H), <- (Split_Join_clean l' H'). by rewrite E. Qed.

(** What is remembered is what selecting now would give. *)
Definition cache_agrees (m : Manager) : Prop :=
  map_Forall (fun key tags => exists selectors, clean selectors /\ key = Join selectors "," /\ tags = selected m selectors)
    (mg_tagsCache m).

Lemma cache_agrees_reset def tagged untagged : cache_agrees (mkManager def tagged untagged ∅).
Proof. apply map_Forall_empty. Qed.

Lemma cache_agrees_select m selectors : clean selectors -> cache_agrees m -> cache_agrees (Select m selectors).2.
Proof.
  intros Hc Hm. unfold Select. destruct (mg_tagsCache m !! _); [done|].
  apply map_Forall_insert_2; [by exists selectors|]. eapply map_Forall_impl; [exact Hm|]. done.
Qed.

Lemma cache_agrees_step m m' : manager_step m m' -> cache_agrees m -> cache_agrees m'.
Proof.
  destruct 1 as [m tag|m tag|m selectors Hs]; intros Hm; [| |by apply cache_agrees_select].
  - unfold AddHandler. repeat case_bool_decide; apply cache_agrees_reset.
  - unfold RemoveHandler. case_bool_decide; [done|]. apply cache_agrees_reset.
Qed.

Lemma select_now m selectors : cache_agrees m -> clean selectors -> (Select m selectors).1 = selected m selectors.
Proof.
  intros Hag Hc. unfold Select. destruct (mg_tagsCache m !! Join selectors ",") as [tags|] eqn:El; [|done].
  destruct (Hag _ _ El) as (selectors' & Hc' & Hj & ->). cbn. by rewrite (Join_clean_inj selectors selectors' Hc Hc' Hj).
Qed.

Lemma select_members m selectors : cache_agrees m -> clean selectors -> forall tag,
  tag ∈ (Select m selectors).1 <-> tag ∈ mg_taggedHandler m /\ Exists (fun s => HasPrefix tag s = true) selectors.
Proof.
  intros Hag Hc tag. rewrite select_now by done. unfold selected, sort_strings. rewrite merge_sort_Permutation.
  rewrite list_elem_of_filter, elem_of_elements, existsb_exists, Exists_exists.
  split.
  - intros [(s & Hs & Hp) Ht]. split; [done|]. exists s. split; [by apply list_elem_of_In|done].
  - intros [Ht (s & Hs & Hp)]. split; [|done]. exists s. split; [by apply list_elem_of_In|done].
Qed.

Lemma manager_cache m : rtc manager_step NewManager m -> cache_agrees m.
Proof.
  intros Hm. apply rtc_ind_r with (P := cache_agrees) in Hm; [done|apply cache_agrees_reset|].
  intros m1 m2 _ Hs Hc. by eapply cache_agrees_step.
Qed.

(** Whatever handlers come and go, and whatever was asked before, selecting
    gives the tags that some selector is a prefix of now, in order: what is
    remembered is never stale. *)
Theorem Select_current m selectors :
  rtc manager_step NewManager m -> clean selectors ->
  (Select m selectors).1 = selected m selectors /\
  forall tag, tag ∈ (Select m selectors).1 <->
    tag ∈ mg_taggedHandler m /\ Exists (fun s => HasPrefix tag s = true) selectors.
Proof. intros Hm Hc. pose proof (manager_cache m Hm). split; [by apply select_now|by apply select_members]. Qed.

(** ** Published reports *)

(** Addresses in use are below the next one, and every row of an array is there. *)
Record store_ok (o : Observer) : Prop := mkStoreOk {
  so_rows : forall r, is_Some (ob_rows o !! r) -> (r < ob_next o)%nat;
  so_arrays : forall a, is_Some (ob_arrays o !! a) -> (a < ob_next o)%nat;
  so_there : forall a arr r, ob_arrays o !! a = Some arr -> r ∈ arr -> is_Some (ob_rows o !! r);
  so_status : forall a, ob_status o = Some a -> is_Some (ob_arrays o !! a)
}.

(** A later store that leaves what is there alone. *)
Definition store_grows (o o' : Observer) : Prop :=
  ob_arrays o ⊆ ob_arrays o' /\ ob_rows o ⊆ ob_rows o'.

#[export] Instance store_grows_preorder : PreOrder store_grows.
Proof. split; [by split|]. intros o1 o2 o3 [H1 H2] [H3 H4]. split; by etrans. Qed.

Lemma omap_agree {A B} (f g : A -> option B) (l : list A) : (forall x, x ∈ l -> f x = g x) -> omap f l = omap g l.
Proof.
  induction l as [|x l IH]; intros H; [done|]. cbn. rewrite (H x) by left. rewrite IH; [done|]. intros y Hy. apply H. by right.
Qed.

(** A published slice reads the same in every later store. *)
Lemma rows_grow o o' s : store_ok o -> store_grows o o' -> (forall a, s = Some a -> is_Some (ob_arrays o !! a)) ->
  array_at o' s = array_at o s /\ rows_at o' s = rows_at o s.
Proof.
  intros Hok (Ha & Hr) Hs. unfold rows_at, array_at. destruct s as [a|]; [|done].
  destruct (Hs a eq_refl) as [arr Earr]. rewrite Earr, (lookup_weaken _ _ _ _ Earr Ha). split; [done|]. cbn [default].
  apply omap_agree. intros r Hin. destruct (so_there o Hok a arr r Earr Hin) as [row Erow].
  by rewrite Erow, (lookup_weaken _ _ _ _ Erow Hr).
Qed.

Lemma rows_lookup o a arr i : store_ok o -> ob_arrays o !! a = Some arr ->
  rows_at o (Some a) !! i = arr !! i ≫= fun r => ob_rows o !! r.
Proof.
  intros Hok Earr. unfold rows_at, array_at. rewrite Earr. cbn [default].
  pose proof (so_there o Hok a arr) as Hr. specialize (fun r => Hr r Earr). clear Earr.
  revert i. induction arr as [|r arr IH]; intros i; [done|]. cbn.
  destruct (Hr r) as [row Erow]; [by left|]. rewrite Erow. destruct i as [|i]; [cbn; by rewrite Erow|].
  cbn. apply IH. intros r' Hr'. apply Hr. by right.
Qed.

Lemma fresh_row o : store_ok o -> ob_rows o !! ob_next o = None.
Proof. intros Hok. apply eq_None_not_Some. intros H. apply (so_rows o Hok) in H. lia. Qed.
Lemma fresh_array o k : store_ok o -> ob_arrays o !! (ob_next o + k)%nat = None.
Proof. intros Hok. apply eq_None_not_Some. intros H. apply (so_arrays o Hok) in H. lia. Qed.

Lemma status_rows_there o r : store_ok o -> r ∈ array_at o (ob_status o) -> is_Some (ob_rows o !! r).
Proof.
  intros Hok. unfold array_at. destruct (ob_status o) as [a|]; [|by intros ?%elem_of_nil].
  destruct (ob_arrays o !! a) as [arr|] eqn:Ea; [|by intros ?%elem_of_nil]. by apply (so_there o Hok a).
Qed.

(** Writing a new row and a new array of known rows. *)
Lemma store_extend o row arr : store_ok o -> (forall r, r ∈ arr -> r = ob_next o \/ is_Some (ob_rows o !! r)) ->
  let o' := mkObserver (<[ob_next o := row]> (ob_rows o)) (<[S (ob_next o) := arr]> (ob_arrays o)) (S (S (ob_next o)))
              (Some (S (ob_next o))) in
  store_ok o' /\ store_grows o o'.
Proof.
  intros Hok Harr. cbv zeta. split.
  - split; cbn [ob_rows ob_arrays ob_next ob_status].
    + intros r [x Hx]. apply lookup_insert_Some in Hx as [[<- _]|[_ Hx]]; [lia|].
      pose proof (so_rows o Hok r ltac:(by eexists)). lia.
    + intros a [x Hx]. apply lookup_insert_Some in Hx as [[<- _]|[_ Hx]]; [lia|].
      pose proof (so_arrays o Hok a ltac:(by eexists)). lia.
    + intros a arr' r Ha Hin. apply lookup_insert_is_Some'. apply lookup_insert_Some in Ha as [[_ <-]|[_ Ha]].
      * destruct (Harr r Hin) as [->|]; [by left|by right].
      * right. by apply (so_there o Hok a arr').
    + intros a [= <-]. rewrite lookup_insert_eq. by eexists.
  - split; cbn; apply insert_subseteq; [|by apply fresh_row]. pose proof (fresh_array o 1 Hok) as H.
    by rewrite Nat.add_1_r in H.
Qed.

Lemma update_extends o outbound result now : store_ok o ->
  store_ok (updateStatusForResult o outbound result now) /\ store_grows o (updateStatusForResult o outbound result now).
Proof.
  intros Hok. unfold updateStatusForResult. destruct (findStatusLocation o outbound) as [i|]; apply store_extend; try done.
  - intros r Hr. apply list_elem_of_lookup in Hr as [j Hj]. destruct (decide (i = j)) as [->|Hne].
    + left. apply list_lookup_insert_Some in Hj. naive_solver.
    + right. rewrite list_lookup_insert_ne in Hj by done. apply (status_rows_there o r Hok). by eapply list_elem_of_lookup_2.
  - intros r [Hr| ->]%elem_of_snoc; [right|by left]. by apply status_rows_there.
Qed.

Lemma clear_extends o outbounds : store_ok o ->
  store_ok (clearRemovedOutbounds o outbounds) /\ store_grows o (clearRemovedOutbounds o outbounds).
Proof.
  intros Hok. unfold clearRemovedOutbounds. destruct (array_at o (ob_status o)) as [|r0 arr0] eqn:Ea; [done|].
  set (arr := r0 :: arr0) in *. set (pruned := filter _ arr).
  assert (Hp : forall r, r ∈ pruned -> is_Some (ob_rows o !! r)).
  { intros r Hr. apply list_elem_of_filter in Hr as [_ Hr]. apply status_rows_there; [done|]. by rewrite Ea. }
  destruct pruned as [|r1 pruned'] eqn:Ep.
  - split; [|done]. destruct Hok. by split.
  - rewrite <- Ep in *. split.
    + split; cbn [ob_rows ob_arrays ob_next ob_status].
      * intros r Hr. pose proof (so_rows o Hok r Hr). lia.
      * intros a [x Hx]. apply lookup_insert_Some in Hx as [[<- _]|[_ Hx]]; [lia|].
        pose proof (so_arrays o Hok a ltac:(by eexists)). lia.
      * intros a arr' r Ha Hin. apply lookup_insert_Some in Ha as [[_ <-]|[_ Ha]]; [by apply Hp|by apply (so_there o Hok a arr')].
      * intros a [= <-]. rewrite lookup_insert_eq. by eexists.
    + split; cbn; [|done]. apply insert_subseteq. pose proof (fresh_array o 0 Hok) as H. by rewrite Nat.add_0_r in H.
Qed.

Lemma observer_step_extends o o' : observer_step o o' -> store_ok o -> store_ok o' /\ store_grows o o'.
Proof. destruct 1; [apply update_extends|apply clear_extends]. Qed.

Lemma observer_steps_extend o o' : rtc observer_step o o' -> store_ok o -> store_ok o' /\ store_grows o o'.
Proof.
  induction 1 as [o|o1 o2 o3 H12 _ IH]; intros Hok; [done|]. destruct (observer_step_extends _ _ H12 Hok) as [Hok2 Hg].
  destruct (IH Hok2) as [Hok3 Hg']. split; [done|]. by etrans.
Qed.

Lemma store_ok_new : store_ok NewObserver.
Proof. split; cbn; intros; try done; by destruct H. Qed.

(** What one probe does to a report, as a list of rows. *)
Definition upsert (rows : list OutboundStatus) (outbound : string) (result : ProbeResult) (now : Z) : list OutboundStatus :=
  match list_find (fun v => os_tag v = outbound) rows with
  | Some (i, row) => <[i := updated_row row outbound result now]> rows
  | None => rows ++ [updated_row empty_row outbound result now]
  end.

Lemma status_array o : store_ok o -> ob_status o = None \/ exists a arr, ob_status o = Some a /\ ob_arrays o !! a = Some arr.
Proof.
  intros Hok. destruct (ob_status o) as [a|] eqn:E; [right|by left]. destruct (so_status o Hok a E) as [arr Ha]. by exists a, arr.
Qed.

Lemma status_lookup o i : store_ok o ->
  rows_at o (ob_status o) !! i = array_at o (ob_status o) !! i ≫= fun r => ob_rows o !! r.
Proof.
  intros Hok. destruct (status_array o Hok) as [->|(a & arr & -> & Ha)]; [done|].
  rewrite (rows_lookup o a arr i Hok Ha). unfold array_at. by rewrite Ha.
Qed.

Lemma status_length o : store_ok o -> length (rows_at o (ob_status o)) = length (array_at o (ob_status o)).
Proof.
  intros Hok. unfold rows_at. assert (H : forall r, r ∈ array_at o (ob_status o) -> is_Some (ob_rows o !! r))
    by (intros r Hr; by apply status_rows_there). revert H. generalize (array_at o (ob_status o)). intros l H.
  induction l as [|r l IH]; [done|]. cbn. destruct (H r) as [row ->]; [by left|]. cbn. f_equal. apply IH.
  intros r' Hr. apply H. by right.
Qed.

Lemma update_upserts o outbound result now : store_ok o ->
  let o' := updateStatusForResult o outbound result now in
  rows_at o' (ob_status o') = upsert (rows_at o (ob_status o)) outbound result now.
Proof.
  intros Hok. cbv zeta. destruct (update_extends o outbound result now Hok) as [Hok' [_ Hgrow]].
  apply list_eq. intros i. rewrite status_lookup by done. unfold upsert.
  unfold updateStatusForResult, findStatusLocation in *. pose proof (status_length o Hok) as Hlen.
  set (rows := rows_at o (ob_status o)) in *. set (arr := array_at o (ob_status o)) in *.
  destruct (list_find (fun v => os_tag v = outbound) rows) as [[loc row]|] eqn:Ef; cbn [fmap option_fmap option_map fst] in *.
  - apply list_find_Some in Ef as (Hloc & _ & _). unfold rows in Hloc. rewrite status_lookup in Hloc by done. fold arr in Hloc.
    rewrite Hloc. cbn [from_option id]. unfold array_at at 1. cbn [ob_status ob_arrays ob_rows]. rewrite (lookup_insert_eq (ob_arrays o)). cbn [from_option id].
    destruct (decide (loc = i)) as [->|Hne].
    + assert (i < length arr)%nat by (destruct (arr !! i) eqn:E; [by eapply lookup_lt_Some|done]).
      rewrite (list_lookup_insert_eq arr), (list_lookup_insert_eq rows) by lia. cbn. apply (lookup_insert_eq (ob_rows o)).
    + rewrite (list_lookup_insert_ne arr), (list_lookup_insert_ne rows) by done. unfold rows. rewrite status_lookup by done. fold arr.
      destruct (arr !! i) as [r|] eqn:Er; [|done]. cbn. rewrite lookup_insert_ne; [done|].
      intros <-. pose proof (status_rows_there o (ob_next o) Hok ltac:(by eapply list_elem_of_lookup_2)) as H.
      rewrite (fresh_row o Hok) in H. by destruct H.
  - unfold array_at at 1. cbn [ob_status ob_arrays ob_rows]. rewrite (lookup_insert_eq (ob_arrays o)). cbn [from_option id].
    destruct (Nat.lt_trichotomy i (length arr)) as [Hi|[->|Hi]].
    + rewrite (lookup_app_l arr), (lookup_app_l rows) by lia. unfold rows. rewrite status_lookup by done. fold arr.
      destruct (arr !! i) as [r|] eqn:Er; [|done]. cbn. rewrite lookup_insert_ne; [done|].
      intros <-. pose proof (status_rows_there o (ob_next o) Hok ltac:(by eapply list_elem_of_lookup_2)) as H.
      rewrite (fresh_row o Hok) in H. by destruct H.
    + rewrite list_lookup_middle by done. rewrite <- Hlen, list_lookup_middle by done. cbn. apply (lookup_insert_eq (ob_rows o)).
    + rewrite (lookup_ge_None_2 (arr ++ _)), (lookup_ge_None_2 (rows ++ _)) by (rewrite length_app; cbn [length]; lia). done.
Qed.

Lemma clear_filters o outbounds : store_ok o ->
  let o' := clearRemovedOutbounds o outbounds in
  rows_at o' (ob_status o') = filter (fun v => os_tag v ∈ outbounds) (rows_at o (ob_status o)).
Proof.
  intros Hok. cbv zeta. unfold clearRemovedOutbounds.
  assert (Hthere : forall r, r ∈ array_at o (ob_status o) -> is_Some (ob_rows o !! r)) by (intros r Hr; by apply status_rows_there).
  destruct (array_at o (ob_status o)) as [|r0 arr0] eqn:Ea; [unfold rows_at; rewrite Ea; done|].
  set (arr := r0 :: arr0) in *. set (keep := fun r => _ = true).
  assert (Hf : omap (fun r => ob_rows o !! r) (filter keep arr) = filter (fun v => os_tag v ∈ outbounds) (omap (fun r => ob_rows o !! r) arr)).
  { clear Ea. induction arr as [|r l IH]; [done|]. rewrite filter_cons. cbn [omap list_omap].
    destruct (Hthere r) as [row Er]; [by left|]. specialize (IH (fun r' H => Hthere r' (list_elem_of_further _ _ _ H))).
    assert (Hk : keep r <-> os_tag row ∈ outbounds).
    { unfold keep. rewrite bool_decide_eq_true, Er. cbn. split; [by intros [_ H]|]. intros H. split; [by eexists|done]. }
    destruct (decide (keep r)) as [H|H]; cbn [omap list_omap]; rewrite Er, filter_cons.
    - rewrite decide_True by (by apply Hk). cbn [omap list_omap]. f_equal. exact IH.
    - rewrite decide_False by (by rewrite <- Hk). exact IH. }
  unfold rows_at at 2. rewrite Ea. fold arr. rewrite <- Hf. destruct (filter keep arr) as [|r1 l]; [done|].
  unfold rows_at, array_at. cbn [ob_status ob_arrays ob_rows]. by rewrite lookup_insert_eq.
Qed.

Lemma upsert_tags rows outbound result now : NoDup (os_tag <$> rows) -> NoDup (os_tag <$> upsert rows outbound result now).
Proof.
  intros Hn. assert (Ht : forall row, os_tag (updated_row row outbound result now) = outbound)
    by (intros row; unfold updated_row; by destruct (pb_Alive result)).
  unfold upsert. destruct (list_find _ rows) as [[i row]|] eqn:Ef.
  - apply list_find_Some in Ef as (Hi & Hrow & _). rewrite list_fmap_insert, Ht.
    rewrite list_insert_id; [done|]. rewrite list_lookup_fmap, Hi. cbn. by rewrite Hrow.
  - apply list_find_None in Ef. rewrite fmap_app. cbn. rewrite Ht. apply NoDup_snoc; [|done].
    intros Hin. apply list_elem_of_fmap in Hin as (v & Hv & Hin). rewrite Forall_forall in Ef. by apply (Ef v Hin).
Qed.

Lemma NoDup_filter_tags (outbounds : list string) (rows : list OutboundStatus) : NoDup (os_tag <$> rows) ->
  NoDup (os_tag <$> filter (fun v => os_tag v ∈ outbounds) rows).
Proof.
  induction rows as [|v rows IH]; [done|]. rewrite filter_cons. cbn. intros [Hv Hn]%NoDup_cons.
  destruct (decide (os_tag v ∈ outbounds)); [|by apply IH]. cbn. constructor; [|by apply IH].
  intros H. apply list_elem_of_fmap in H as (w & E & Hw). apply list_elem_of_filter in Hw as [_ Hw].
  apply Hv. rewrite E. by apply list_elem_of_fmap_2.
Qed.

(** C16. A report is a snapshot: the list a balancer was handed reads the same
    after any probes and rounds that follow, though it shares its array and its
    rows with the Observatory; and the Observatory's own list has one row per
    outbound. *)
Theorem reports_are_snapshots o o' :
  rtc observer_step NewObserver o -> rtc observer_step o o' ->
  rows_at o' (GetObservation o) = rows_at o (GetObservation o) /\
  NoDup (os_tag <$> rows_at o (GetObservation o)).
Proof.
  intros H0 H1. destruct (observer_steps_extend _ _ H0 store_ok_new) as [Hok _].
  destruct (observer_steps_extend _ _ H1 Hok) as [_ Hg]. split.
  - apply rows_grow; [done..|]. intros a Ha. by apply (so_status o Hok).
  - clear H1 Hg o'. apply rtc_ind_r with (P := fun o => store_ok o /\ NoDup (os_tag <$> rows_at o (GetObservation o))) in H0;
      [by destruct H0|split; [apply store_ok_new|constructor]|].
    intros o1 o2 _ Hs [Hok1 Hn]. split; [by apply (observer_step_extends o1 o2)|]. unfold GetObservation in *.
    destruct Hs as [o1 outbound result now|o1 outbounds].
    + rewrite update_upserts by done. by apply upsert_tags.
    + rewrite clear_filters by done. by apply NoDup_filter_tags.
Qed.

Definition one_probe : Observer := updateStatusForResult NewObserver "proxy-1" (mkProbe true 80 "") 10.
Definition second_probe : Observer := updateStatusForResult one_probe "proxy-1" (mkProbe false 0 "timeout") 20.
Definition next_round : Observer := clearRemovedOutbounds second_probe ["proxy-2"].

Example reports_are_snapshots_witness :
  rows_at next_round (GetObservation one_probe) = [mkStatus "proxy-1" true 80 "" 10 10] /\
  rows_at next_round (GetObservation next_round) = [].
Proof.
  split; [|vm_compute; reflexivity].
  assert (H1 : rtc observer_step NewObserver one_probe) by (eapply rtc_l; [apply step_probe|apply rtc_refl]).
  assert (H2 : rtc observer_step one_probe next_round)
    by (apply (rtc_l _ _ second_probe); [apply step_probe|apply (rtc_l _ _ next_round); [apply step_round|apply rtc_refl]]).
  refine (eq_trans (proj1 (reports_are_snapshots one_probe next_round H1 H2)) _). vm_compute. reflexivity.
Defined.

Example Select_current_witness :
  let m := (AddHandler (Select (AddHandler NewManager "proxy-2").2 ["proxy-"]).2 "proxy-1").2 in
  (Select m ["proxy-"]).1 = selected m ["proxy-"] /\ (Select m ["proxy-"]).1 = ["proxy-1"; "proxy-2"].
Proof.
  cbv zeta. assert (Hc : clean ["proxy-"]) by (split; [done|constructor; [vm_compute; reflexivity|constructor]]).
  split; [|vm_compute; reflexivity]. refine (proj1 (Select_current _ _ _ Hc)).
  eapply rtc_l; [apply step_add|]. eapply rtc_l; [by apply step_select|]. eapply rtc_l; [apply step_add|apply rtc_refl].
Defined.

(** Selectors with commas share a key: after one list, the other gets its answer. *)
Example Select_comma :
  let m := (AddHandler (AddHandler NewManager "a,b").2 "b").2 in
  (Select m ["a"; "b"]).1 = ["a,b"; "b"] /\
  (Select (Select m ["a,b"]).2 ["a"; "b"]).1 = ["a,b"].
Proof. vm_compute. split; reflexivity. Qed.

(** ** The choice of the balancer *)

(** A row the strategy may choose. *)
Definition eligible (tags : list string) (v : OutboundStatus) : Prop :=
  os_tag v ∈ tags /\ os_Alive v = true /\ os_Delay v < no_ping.

Lemma least_step_spec tags status :
  let '(tag, delay) := foldl (least_step tags) ("", no_ping) status in
  (Forall (fun v => ~ eligible tags v) status /\ tag = "" /\ delay = no_ping) \/
  (exists v, v ∈ status /\ eligible tags v /\ tag = os_tag v /\ delay = os_Delay v
    /\ forall w, w ∈ status -> eligible tags w -> os_Delay v <= os_Delay w).
Proof.
  induction status as [|v status IH] using rev_ind; [left; by split_and!|].
  rewrite foldl_app. cbn [foldl]. destruct (foldl _ _ status) as [tag delay]. unfold least_step. cbn [snd].
  destruct (bool_decide (os_tag v ∈ tags) && os_Alive v && (os_Delay v <? delay)) eqn:E.
  - rewrite !andb_true_iff, bool_decide_eq_true in E. destruct E as [[Ht Ha] Hd%Z.ltb_lt].
    assert (Hle : delay <= no_ping) by (destruct IH as [(_ & _ & ->)|(w & _ & (_ & _ & Hw) & _ & -> & _)]; lia).
    right. exists v. split; [apply elem_of_app; right; by left|]. split; [unfold eligible; split_and!; [done|done|lia]|].
    do 2 (split; [done|]). intros w [Hw| ->]%elem_of_snoc He; [|lia].
    destruct IH as [(Hnone & _)|(u & _ & _ & _ & -> & Hmin)].
    + rewrite Forall_forall in Hnone. by destruct (Hnone w Hw).
    + specialize (Hmin w Hw He). lia.
  - assert (Hnot : eligible tags v -> delay <= os_Delay v).
    { intros (Ht & Ha & Hd). rewrite Ha, (bool_decide_true _ Ht) in E. cbn in E. lia. }
    destruct IH as [(Hnone & -> & ->)|(u & Hu & Heu & -> & -> & Hmin)].
    + left. split; [|done]. apply Forall_snoc; [done|]. intros He. specialize (Hnot He). destruct He as (_ & _ & He). lia.
    + right. exists u. split; [apply elem_of_app; by left|]. do 3 (split; [done|]).
      intros w [Hw| ->]%elem_of_snoc He; [by apply Hmin|by apply Hnot].
Qed.

Lemma proxy_clean : clean ["proxy-"].
Proof. split; [done|]. constructor; [vm_compute; reflexivity|constructor]. Qed.

(** The choice among the handlers of [m] whose tag starts with [proxy-]. *)
Lemma tunnel_choice m env : rtc manager_step NewManager m -> sr_tags env = (fun s => (Select m s).1) ->
  exists tag, Balancer_PickOutbound env tunnel_balancer = Ok tag /\
  ((tag = "proxy-1" /\
      match sr_report env with Some rows => Forall (fun v => ~ eligible (Select m ["proxy-"]).1 v) rows | None => True end) \/
   exists rows v, sr_report env = Some rows /\ v ∈ rows /\ eligible (Select m ["proxy-"]).1 v /\ tag = os_tag v /\
     forall w, w ∈ rows -> eligible (Select m ["proxy-"]).1 w -> os_Delay v <= os_Delay w).
Proof.
  intros Hm Hs. unfold Balancer_PickOutbound, tunnel_balancer. cbn [bl_selectors bl_strategy bl_fallbackTag bl_override strategy_pick].
  rewrite (bool_decide_true ("" = "")), (bool_decide_false ("proxy-1" = "")), Hs by done.
  unfold LeastPing_PickOutbound. destruct (sr_report env) as [rows|].
  2: { eexists. split; [by rewrite bool_decide_true|]. by left. }
  pose proof (least_step_spec (Select m ["proxy-"]).1 rows) as H.
  destruct (foldl (least_step (Select m ["proxy-"]).1) ("", no_ping) rows) as [tag delay]. cbn [fst].
  destruct H as [(Hnone & -> & _)|(v & Hv & He & -> & _ & Hmin)].
  - exists "proxy-1". split; [done|]. by left.
  - exists (os_tag v). split; [|right; by exists rows, v]. rewrite bool_decide_false; [done|]. intros E.
    destruct He as (He & _). apply (select_members m ["proxy-"] (manager_cache m Hm) proxy_clean) in He as [_ He].
    rewrite E in He. apply Exists_exists in He as (s & Hin & Hp). apply list_elem_of_singleton in Hin as ->. done.
Qed.

(** C20. The outbound of a logical profile is the reachable one with the smallest
    delay of the report; while nothing is known to be reachable it is the first
    member.  A choice is always made, and it is a handler of the engine. *)
Theorem balancer_choice m env :
  rtc manager_step NewManager m -> "proxy-1" ∈ mg_taggedHandler m -> sr_tags env = (fun s => (Select m s).1) ->
  exists tag, Balancer_PickOutbound env tunnel_balancer = Ok tag /\ tag ∈ mg_taggedHandler m /\
  ((tag = "proxy-1" /\
      match sr_report env with Some rows => Forall (fun v => ~ eligible (Select m ["proxy-"]).1 v) rows | None => True end) \/
   exists rows v, sr_report env = Some rows /\ v ∈ rows /\ eligible (Select m ["proxy-"]).1 v /\ tag = os_tag v /\
     forall w, w ∈ rows -> eligible (Select m ["proxy-"]).1 w -> os_Delay v <= os_Delay w).
Proof.
  intros Hm H1 Hs. destruct (tunnel_choice m env Hm Hs) as (tag & Hp & Hcase). exists tag. split; [done|]. split; [|done].
  destruct Hcase as [[-> _]|(rows & v & _ & _ & (He & _) & -> & _)]; [done|].
  by apply (select_members m ["proxy-"] (manager_cache m Hm) proxy_clean) in He as [He _].
Qed.

Definition two_members : Manager := (AddHandler (AddHandler NewManager "proxy-1").2 "proxy-2").2.

Example balancer_choice_witness :
  let env := mkSurroundings (fun s => (Select two_members s).1) (Some two_rows) (fun _ _ => "") in
  Balancer_PickOutbound env tunnel_balancer = Ok "proxy-2" /\ "proxy-2" ∈ mg_taggedHandler two_members.
Proof.
  cbv zeta. destruct (balancer_choice two_members
    (mkSurroundings (fun s => (Select two_members s).1) (Some two_rows) (fun _ _ => ""))) as (tag & Hp & Hin & _).
  - eapply rtc_l; [apply step_add|]. eapply rtc_l; [apply step_add|apply rtc_refl].
  - vm_compute. reflexivity.
  - reflexivity.
  - assert (E : Balancer_PickOutbound (mkSurroundings (fun s => (Select two_members s).1) (Some two_rows) (fun _ _ => ""))
      tunnel_balancer = Ok "proxy-2") by (vm_compute; reflexivity).
    split; [exact E|]. rewrite E in Hp. injection Hp as <-. exact Hin.
Defined.

(** ** The engine as a whole *)

(** The outbounds of a configuration, added in their order. *)
Definition outbound_names (config : json) : list string :=
  match field "outbounds" config with
  | Some (JArr outs) => omap (fun o => match field "tag" o with Some (JStr t) => Some t | _ => None end) outs
  | _ => []
  end.

Definition manager_of (config : json) : Manager := foldl (fun m tag => (AddHandler m tag).2) NewManager (outbound_names config).

Lemma manager_of_steps tags m : rtc manager_step m (foldl (fun m tag => (AddHandler m tag).2) m tags).
Proof. revert m. induction tags as [|t tags IH]; intros m; [done|]. cbn. eapply rtc_l; [apply step_add|apply IH]. Qed.

Lemma added_handlers tags m tag : tag ∈ mg_taggedHandler (foldl (fun m tag => (AddHandler m tag).2) m tags)
  <-> tag ∈ mg_taggedHandler m \/ (tag ∈ tags /\ tag <> "").
Proof.
  revert m. induction tags as [|t tags IH]; intros m; cbn [foldl].
  - rewrite elem_of_nil. naive_solver.
  - rewrite IH. unfold AddHandler. destruct (bool_decide_reflect (t = "")) as [->|Ht]; cbn [snd mg_taggedHandler].
    + set_solver.
    + destruct (bool_decide_reflect (t ∈ mg_taggedHandler m)) as [Hin|Hout]; cbn [snd mg_taggedHandler]; set_solver.
Qed.

Section Handlers.
Context `{J : JSONCodec, P : ParseJSON, E : EmbeddedList}.

Lemma config_names cfg srv config : generateXrayConfig cfg srv = Ok config ->
  outbound_names config = outbound_tags srv ++ ["direct"].
Proof.
  intros Hgen. apply generate_cases in Hgen as (outs & probe & log & Hb & ->). apply outbounds_spec in Hb as [_ Htags].
  rewrite outbound_tags_tls in Htags. unfold outbound_names.
  change (field "outbounds" _) with (Some (JArr (outs ++ [direct_outbound]))). cbv iota. rewrite omap_app. f_equal.
  clear -Htags. revert Htags. generalize (outbound_tags srv). induction outs as [|o outs IH]; intros [|t tags] H; try done.
  cbn in H. injection H as Ho H. cbn. rewrite Ho. f_equal. by apply IH.
Qed.

Lemma config_handlers cfg srv config tag : generateXrayConfig cfg srv = Ok config ->
  tag ∈ mg_taggedHandler (manager_of config) <-> tag ∈ outbound_tags srv \/ tag = "direct".
Proof.
  intros Hgen. unfold manager_of. rewrite added_handlers, (config_names _ _ _ Hgen), elem_of_app, list_elem_of_singleton.
  assert (Hne : tag ∈ outbound_tags srv -> tag <> "").
  { unfold outbound_tags. destruct (sv_Members srv); [by intros ->%list_elem_of_singleton|].
    intros H ->. apply list_elem_of_fmap in H as (i & H & _). discriminate H. }
  cbn [mg_taggedHandler NewManager]. split; [set_solver|]. intros [H| ->]; right; (split; [set_solver|]); [by apply Hne|done].
Qed.

(** The tunnel's own outbounds. *)
Lemma tunnel_outbound cfg srv config env : generateXrayConfig cfg srv = Ok config ->
  sr_tags env = (fun s => (Select (manager_of config) s).1) ->
  exists tag, target_tag env (tunnel srv) = Ok tag /\ tag ∈ outbound_tags srv /\ tag <> "direct".
Proof.
  intros Hgen Hs. assert (Hne : forall tag, HasPrefix tag "proxy" = true -> tag <> "direct") by (intros tag H ->; done).
  unfold tunnel, outbound_tags. destruct (sv_Members srv) as [|x l] eqn:Em; cbn [target_tag].
  { exists "proxy". split_and!; [done|by left|done]. }
  pose proof (config_handlers cfg srv config) as Hh. unfold outbound_tags in Hh. rewrite Em in Hh.
  assert (Hprefix : forall tag, tag ∈ member_tag <$> seq 0 (length (x :: l)) -> tag <> "direct").
  { intros tag H. apply list_elem_of_fmap in H as (i & -> & _). discriminate. }
  assert (Hm : rtc manager_step NewManager (manager_of config)) by apply manager_of_steps.
  destruct (tunnel_choice _ env Hm Hs) as (tag & Hp & Hcase). exists tag. split; [done|].
  assert (Hin : tag ∈ member_tag <$> seq 0 (length (x :: l))); [|by split; [|apply Hprefix]].
  destruct Hcase as [[-> _]|(rows & v & _ & _ & (He & _) & -> & _)].
  - apply list_elem_of_fmap. exists O. split; [done|]. apply elem_of_seq. cbn. lia.
  - apply (select_members _ _ (manager_cache _ Hm) proxy_clean) in He as [He Hpre]. apply (Hh _ Hgen) in He as [He|He]; [done|].
    rewrite He in Hpre. apply Exists_exists in Hpre as (s & Hin & Hp'). apply list_elem_of_singleton in Hin as ->. done.
Qed.

End Handlers.

Section Engine.
Context `{J : JSONCodec, P : ParseJSON, E : EmbeddedList, G : GeoParams, PL : !ParseIPLaws G, L : IPSetLib, IL : !IPSetLaws L}.

End Engine.

(** ** A concrete engine *)

#[local] Existing Instance quads.
#[local] Existing Instance quads_laws.
#[local] Existing Instance list_of_one.
#[local] Existing Instance EngineRouter.no_raw.
#[local] Existing Instance EngineRouter.flat_json.

Definition default_manager : Manager := manager_of (engine_config defaultConfig).
Definition default_env : surroundings :=
  mkSurroundings (fun s => (Select default_manager s).1) (Some two_rows) (fun _ _ => "").

