(* ===== verification/Buffers.v ===== *)
(** * Buffers: [common/buf/buffer.go] of the engine

    The protocols below the router move bytes in buffers of a fixed capacity.  A
    buffer is the list of its bytes; the capacity of a new one ([Size]) is written
    out where it can matter.  A byte is a [Z]. *)

From S2P Require Import Prelude.

#[local] Open Scope Z_scope.

Abbreviation octets := (list Z) (only parsing).

Definition Size : Z := 8192.
Definition Len (b : octets) : Z := Z.of_nat (length b).
Definition BytesTo (b : octets) (n : Z) : octets := take (Z.to_nat n) b.
Definition BytesFrom (b : octets) (n : Z) : octets := drop (Z.to_nat n) b.

(** What does not fit in a new buffer is cut off. *)
Definition Write (b data : octets) : octets := b ++ take (Z.to_nat (Size - Len b)) data.

Definition Extend (b : octets) (n : Z) : option octets :=
  if (n <? 0) || (Size <? Len b + n) then None else Some (b ++ replicate (Z.to_nat n) 0).

Definition Advance (b : octets) (from : Z) : octets := BytesFrom b (if from <? 0 then from + Len b else from).

Definition high_byte (n : Z) : Z := uwrap 8 (Z.shiftr n 8).
Definition low_byte (n : Z) : Z := uwrap 8 n.

(** ** Bytes *)

Definition is_octet (b : Z) : Prop := 0 <= b < 256.

Lemma Len_app a b : Len (a ++ b) = Len a + Len b.
Proof. unfold Len. rewrite length_app. lia. Qed.

Lemma Len_nonneg b : 0 <= Len b.
Proof. unfold Len. lia. Qed.

Lemma Len_cons c b : Len (c :: b) = 1 + Len b.
Proof. unfold Len. cbn [length]. lia. Qed.

Lemma Write_fits b data : Len b + Len data <= Size -> Write b data = b ++ data.
Proof. unfold Write, Len. intros H. rewrite take_ge; [done|lia]. Qed.

Lemma two_bytes n : 0 <= n < 65536 -> Z.lor (Z.shiftl (high_byte n) 8) (low_byte n) = n.
Proof.
  intros Hn. unfold high_byte, low_byte, uwrap. rewrite <- !Z.land_ones by lia.
  rewrite (Z.land_ones (Z.shiftr n 8)) by lia. rewrite Z.mod_small.
  - by rewrite <- Z.ldiff_ones_r, Z.lor_ldiff_and by lia.
  - rewrite Z.shiftr_div_pow2 by lia. change (2 ^ 8) with 256. split; [apply Z.div_pos; lia|apply Z.div_lt_upper_bound; lia].
Qed.
