(* ===== verification/Vision.v ===== *)
(** * Hiding the record lengths of a tunnelled TLS session: [proxy/proxy.go] of
    the engine

    With the flow [xtls-rprx-vision], which most profiles of the manager use,
    the first buffers of a connection are wrapped in blocks with a command, the
    length of their content and random padding; when the inner connection has
    become encrypted the writer ends the padding, and for TLS 1.3 both sides
    leave the outer TLS and copy raw bytes.  The two ends agree on where that
    happens only through the blocks.  A connection is modelled with both its
    ends, each with the state that its reader and its writer share.

    What panics is [None].  Log lines and counters of transferred bytes are left
    out. *)

From S2P Require Import Prelude Buffers.

#[local] Open Scope Z_scope.

(** ** The state of a connection *)

(** [InboundState] and [OutboundState] have the same fields under their own
    names: the reader's, then the writer's. *)
Record LinkState := mkLink {
  ln_WithinPaddingBuffers : bool;
  ln_ReaderDirectCopy : bool;
  ln_RemainingCommand : Z;
  ln_RemainingContent : Z;
  ln_RemainingPadding : Z;
  ln_CurrentCommand : Z;
  ln_IsPadding : bool;
  ln_WriterDirectCopy : bool
}.

#[export] Instance LinkState_eta : Eta LinkState := fun l =>
  mkLink (ln_WithinPaddingBuffers l) (ln_ReaderDirectCopy l) (ln_RemainingCommand l) (ln_RemainingContent l)
    (ln_RemainingPadding l) (ln_CurrentCommand l) (ln_IsPadding l) (ln_WriterDirectCopy l).

Record TrafficState := mkTraffic {
  ts_UserUUID : octets;
  ts_NumberOfPacketToFilter : Z;
  ts_EnableXtls : bool;
  ts_IsTLS12orAbove : bool;
  ts_IsTLS : bool;
  ts_Cipher : Z;
  ts_RemainingServerHello : Z;
  ts_Inbound : LinkState;
  ts_Outbound : LinkState
}.

#[export] Instance TrafficState_eta : Eta TrafficState := fun t =>
  mkTraffic (ts_UserUUID t) (ts_NumberOfPacketToFilter t) (ts_EnableXtls t) (ts_IsTLS12orAbove t) (ts_IsTLS t)
    (ts_Cipher t) (ts_RemainingServerHello t) (ts_Inbound t) (ts_Outbound t).

Definition new_link : LinkState := mkLink true false (-1) (-1) (-1) 0 true false.

Definition NewTrafficState (userUUID : octets) : TrafficState :=
  mkTraffic userUUID 8 false false false 0 (-1) new_link new_link.

(** A reader of the uplink uses the inbound half, its writer the outbound half. *)
Definition reader_link (isUplink : bool) (s : TrafficState) : LinkState :=
  if isUplink then ts_Inbound s else ts_Outbound s.
Definition on_reader_link (isUplink : bool) (f : LinkState -> LinkState) (s : TrafficState) : TrafficState :=
  if isUplink then s <| ts_Inbound ::= f |> else s <| ts_Outbound ::= f |>.
Definition writer_link (isUplink : bool) (s : TrafficState) : LinkState := reader_link (negb isUplink) s.
Definition on_writer_link (isUplink : bool) := on_reader_link (negb isUplink).

(** ** Recognising TLS *)

Definition Tls13SupportedVersions : octets := [0; 43; 0; 2; 3; 4].
Definition TlsClientHandShakeStart : octets := [22; 3].
Definition TlsServerHandShakeStart : octets := [22; 3; 3].
Definition TlsApplicationDataStart : octets := [23; 3; 3].
Definition TlsHandshakeTypeClientHello : Z := 1.
Definition TlsHandshakeTypeServerHello : Z := 2.

(** The cipher suites of TLS 1.3, but [TLS_AES_128_CCM_8_SHA256]. *)
Definition direct_ciphers : list Z := [4865; 4866; 4867; 4868].

(** [bytes.Contains], for a [sub] that is not empty. *)
Fixpoint Contains (l sub : octets) : bool :=
  match l with
  | [] => false
  | _ :: l' => bool_decide (take (length sub) l = sub) || Contains l' sub
  end.

(** A byte of the array behind a buffer: past its end the array holds what
    [stale] says. *)
Definition byte_at (stale : Z -> Z) (b : octets) (i : Z) : Z := default (stale i) (b !! Z.to_nat i).

(** What one buffer tells; whether the loop returns. *)
Definition see_hello (stale : Z -> Z) (b : octets) (s : TrafficState) : TrafficState :=
  if 6 <=? Len b then
    if bool_decide (BytesTo b 3 = TlsServerHandShakeStart) && (byte_at stale b 5 =? TlsHandshakeTypeServerHello) then
      let hello := Z.lor (Z.shiftl (byte_at stale b 3) 8) (byte_at stale b 4) + 5 in
      let s := s <| ts_RemainingServerHello := hello |> <| ts_IsTLS12orAbove := true |> <| ts_IsTLS := true |> in
      if (79 <=? Len b) && (79 <=? hello) then
        let sessionIdLen := byte_at stale b 43 in
        s <| ts_Cipher := Z.lor (Z.shiftl (byte_at stale b (43 + sessionIdLen + 1)) 8) (byte_at stale b (43 + sessionIdLen + 2)) |>
      else s
    else if bool_decide (BytesTo b 2 = TlsClientHandShakeStart) && (byte_at stale b 5 =? TlsHandshakeTypeClientHello)
    then s <| ts_IsTLS := true |>
    else s
  else s.

Definition see_versions (b : octets) (s : TrafficState) : TrafficState * bool :=
  if 0 <? ts_RemainingServerHello s then
    let end_ := Z.min (ts_RemainingServerHello s) (Len b) in
    let s := s <| ts_RemainingServerHello ::= fun n => n - Len b |> in
    if Contains (BytesTo b end_) Tls13SupportedVersions then
      let s := if bool_decide (ts_Cipher s ∈ direct_ciphers) then s <| ts_EnableXtls := true |> else s in
      (s <| ts_NumberOfPacketToFilter := 0 |>, true)
    else if ts_RemainingServerHello s <=? 0 then (s <| ts_NumberOfPacketToFilter := 0 |>, true)
    else (s, false)
  else (s, false).

Fixpoint XtlsFilterTls (stale : Z -> Z) (buffer : list octets) (s : TrafficState) : TrafficState :=
  match buffer with
  | [] => s
  | b :: buffer =>
      let s := s <| ts_NumberOfPacketToFilter ::= fun n => n - 1 |> in
      let '(s, stop) := see_versions b (see_hello stale b s) in
      if (stop : bool) then s else XtlsFilterTls stale buffer s
  end.

(** ** Removing padding *)

(** One turn of the loop of [XtlsUnpadding]: the link, what is left of the
    buffer, the new buffer. *)
Definition unpad_step (s : LinkState) (b new : octets) : LinkState * octets * octets :=
  if 0 <? ln_RemainingCommand s then
    match b with
    | [] => (s, b, new)
    | data :: b' =>
        let s' :=
          match ln_RemainingCommand s with
          | 5 => s <| ln_CurrentCommand := data |>
          | 4 => s <| ln_RemainingContent := Z.shiftl data 8 |>
          | 3 => s <| ln_RemainingContent ::= fun n => Z.lor n data |>
          | 2 => s <| ln_RemainingPadding := Z.shiftl data 8 |>
          | 1 => s <| ln_RemainingPadding ::= fun n => Z.lor n data |>
          | _ => s
          end in
        (s' <| ln_RemainingCommand ::= fun n => n - 1 |>, b', new)
    end
  else if 0 <? ln_RemainingContent s then
    let len := Z.min (ln_RemainingContent s) (Len b) in
    (s <| ln_RemainingContent ::= fun n => n - len |>, BytesFrom b len, Write new (BytesTo b len))
  else
    let len := Z.min (ln_RemainingPadding s) (Len b) in
    (s <| ln_RemainingPadding ::= fun n => n - len |>, Advance b len, new).

Definition block_done (s : LinkState) : bool :=
  (ln_RemainingCommand s <=? 0) && (ln_RemainingContent s <=? 0) && (ln_RemainingPadding s <=? 0).

Definition initial_state (s : LinkState) : bool :=
  (ln_RemainingCommand s =? -1) && (ln_RemainingContent s =? -1) && (ln_RemainingPadding s =? -1).

Definition reset (s : LinkState) : LinkState :=
  s <| ln_RemainingCommand := -1 |> <| ln_RemainingContent := -1 |> <| ln_RemainingPadding := -1 |>.

Fixpoint unpad_loop (fuel : nat) (s : LinkState) (b new : octets) : option (LinkState * octets) :=
  match b, fuel with
  | [], _ => Some (s, new)
  | _, O => None
  | _, S fuel =>
      let '(s, b, new) := unpad_step s b new in
      if block_done s then
        if ln_CurrentCommand s =? 0 then unpad_loop fuel (s <| ln_RemainingCommand := 5 |>) b new
        else Some (reset s, Write new b)
      else unpad_loop fuel s b new
  end.

Definition XtlsUnpadding (b : octets) (uuid : octets) (s : LinkState) : option (LinkState * octets) :=
  if initial_state s then
    if (21 <=? Len b) && bool_decide (uuid = BytesTo b 16) then
      unpad_loop (S (length b)) (s <| ln_RemainingCommand := 5 |>) (BytesFrom b 16) []
    else Some (s, b)
  else unpad_loop (S (length b)) s b [].

(** The buffers of one read, in turn; empty results are dropped. *)
Fixpoint unpad_all (bs : list octets) (uuid : octets) (s : LinkState) : option (LinkState * list octets) :=
  match bs with
  | [] => Some (s, [])
  | b :: bs =>
      '(s, new) ← XtlsUnpadding b uuid s;
      '(s, rest) ← unpad_all bs uuid s;
      Some (s, if 0 <? Len new then new :: rest else rest)
  end.

(** What the reader concludes from the state of the blocks. *)
Definition after_read (s : LinkState) : LinkState :=
  if (0 <? ln_RemainingContent s) || (0 <? ln_RemainingPadding s) || (ln_CurrentCommand s =? 0)
  then s <| ln_WithinPaddingBuffers := true |>
  else if ln_CurrentCommand s =? 1 then s <| ln_WithinPaddingBuffers := false |>
  else if ln_CurrentCommand s =? 2 then s <| ln_WithinPaddingBuffers := false |> <| ln_ReaderDirectCopy := true |>
  else s.

Definition IsEmpty (bs : list octets) : bool := forallb (fun b => Len b =? 0) bs.

(** [VisionReader.ReadMultiBuffer]: [buffer] is what the reader below gave.
    [input] and [rawInput] are what the outer TLS session holds when the reader
    leaves it; from then on the reader below is the raw connection, which
    [ln_ReaderDirectCopy] stands for. *)
Definition ReadMultiBuffer (stale : Z -> Z) (isUplink : bool) (buffer input rawInput : list octets) (s : TrafficState)
  : option (list octets * TrafficState) :=
  if IsEmpty buffer then Some (buffer, s)
  else if ln_ReaderDirectCopy (reader_link isUplink s) then Some (buffer, s)
  else
    '(buffer, s) ←
      (if ln_WithinPaddingBuffers (reader_link isUplink s) || (0 <? ts_NumberOfPacketToFilter s) then
         '(link, buffer) ← unpad_all buffer (ts_UserUUID s) (reader_link isUplink s);
         Some (buffer, on_reader_link isUplink (fun _ => after_read link) s)
       else Some (buffer, s));
    let s := if 0 <? ts_NumberOfPacketToFilter s then XtlsFilterTls stale buffer s else s in
    Some (if ln_ReaderDirectCopy (reader_link isUplink s) then buffer ++ input ++ rawInput else buffer, s).

(** ** Adding padding *)

Definition CommandPaddingContinue : Z := 0.
Definition CommandPaddingEnd : Z := 1.
Definition CommandPaddingDirect : Z := 2.

(** [draw n] is the random number below [n]; [rand.Int] panics for no range, and
    [Extend] for a negative length. *)
Definition XtlsPadding (b : option octets) (command : Z) (userUUID : octets) (longPadding : bool) (testseed : list Z)
  (draw : Z -> Z) : option octets :=
  let contentLen := match b with Some b => Len b | None => 0 end in
  s0 ← testseed !! 0%nat;
  s1 ← testseed !! 1%nat;
  s2 ← testseed !! 2%nat;
  s3 ← testseed !! 3%nat;
  let long := (contentLen <? swrap 32 s0) && longPadding in
  let range := if long then s1 else s3 in
  if range <=? 0 then None
  else
    let paddingLen := if long then swrap 32 (draw range + s2 - contentLen) else swrap 32 (draw range) in
    let paddingLen := if Size - 21 - contentLen <? paddingLen then Size - 21 - contentLen else paddingLen in
    let newbuffer := Write [] userUUID in
    let newbuffer := Write newbuffer
      [command; high_byte contentLen; low_byte contentLen; high_byte paddingLen; low_byte paddingLen] in
    let newbuffer := match b with Some b => Write newbuffer b | None => newbuffer end in
    Extend newbuffer paddingLen.

(** [IsCompleteRecord] on the bytes of the buffers. *)
Fixpoint complete_loop (fuel : nat) (headerLen recordLen : Z) (b : octets) : bool :=
  match fuel, b with
  | _, [] => (headerLen =? 5) && (recordLen =? 0)
  | O, _ => false
  | S fuel, data :: b' =>
      if 0 <? headerLen then
        match headerLen with
        | 5 => if data =? 23 then complete_loop fuel 4 recordLen b' else false
        | 4 => if data =? 3 then complete_loop fuel 3 recordLen b' else false
        | 3 => if data =? 3 then complete_loop fuel 2 recordLen b' else false
        | 2 => complete_loop fuel 1 (Z.shiftl data 8) b'
        | _ => complete_loop fuel 0 (Z.lor recordLen data) b'
        end
      else if 0 <? recordLen then
        if Len b <? recordLen then false else complete_loop fuel 5 0 (BytesFrom b recordLen)
      else false
  end.

Definition IsCompleteRecord (mb : list octets) : bool :=
  let b := mjoin mb in complete_loop (length b) 5 0 b.

(** [bytes.LastIndex], -1 when there is none. *)
Fixpoint LastIndex (i : Z) (l sub : octets) : Z :=
  match l with
  | [] => -1
  | _ :: l' => let r := LastIndex (i + 1) l' sub in
               if r =? -1 then if bool_decide (take (length sub) l = sub) then i else -1 else r
  end.

Definition reshape_one (b : octets) : list octets :=
  if Size - 21 <=? Len b then
    let index := LastIndex 0 b TlsApplicationDataStart in
    let index := if (index <? 21) || (Size - 21 <? index) then Size / 2 else index in
    [BytesTo b index; Write [] (BytesFrom b index)]
  else [b].

Definition ReshapeMultiBuffer (mb : list octets) : list octets := mb ≫= reshape_one.

(** A [VisionWriter]: the identifier it has yet to write, its seeds, and whether
    the writer below is the raw connection. *)
Record VisionWriter := mkWriter { vw_writeOnceUserUUID : octets; vw_testseed : list Z; vw_raw : bool }.

#[export] Instance VisionWriter_eta : Eta VisionWriter := fun w =>
  mkWriter (vw_writeOnceUserUUID w) (vw_testseed w) (vw_raw w).

Definition default_testseed : list Z := [900; 500; 900; 256].

Definition NewVisionWriter (s : TrafficState) (testseed : list Z) : VisionWriter :=
  mkWriter (ts_UserUUID s) (if (length testseed <? 4)%nat then default_testseed else testseed) false.

(** The loop over the buffers of one write: the buffers to send, [IsPadding],
    the switch to direct copying and the identifier that is left. *)
Fixpoint pad_loop (s : TrafficState) (isComplete : bool) (testseed : list Z) (draw : nat -> Z -> Z)
  (i : nat) (isPadding direct longPadding : bool) (uuid : octets) (mb : list octets)
  : option (list octets * bool * bool * octets) :=
  match mb with
  | [] => Some ([], isPadding, direct, uuid)
  | b :: mb =>
      let last_one := match mb with [] => true | _ => false end in
      let ending := if ts_EnableXtls s then CommandPaddingDirect else CommandPaddingEnd in
      if ts_IsTLS s && (6 <=? Len b) && bool_decide (BytesTo b 3 = TlsApplicationDataStart) && isComplete then
        p ← XtlsPadding (Some b) (if last_one then ending else CommandPaddingContinue) uuid true testseed (draw i);
        '(out, isPadding, direct, uuid) ← pad_loop s isComplete testseed draw (S i) false (ts_EnableXtls s || direct) false [] mb;
        Some (p :: out, isPadding, direct, uuid)
      else if negb (ts_IsTLS12orAbove s) && (ts_NumberOfPacketToFilter s <=? 1) then
        p ← XtlsPadding (Some b) CommandPaddingEnd uuid longPadding testseed (draw i);
        Some (p :: mb, false, direct, [])
      else
        p ← XtlsPadding (Some b) (if last_one && negb isPadding then ending else CommandPaddingContinue) uuid longPadding
              testseed (draw i);
        '(out, isPadding, direct, uuid) ← pad_loop s isComplete testseed draw (S i) isPadding direct longPadding [] mb;
        Some (p :: out, isPadding, direct, uuid)
  end.

(** [VisionWriter.WriteMultiBuffer]: what is handed to the writer below.  [None]
    for the single nil buffer that asks for padding alone. *)
Definition WriteMultiBuffer (stale : Z -> Z) (isUplink : bool) (mb : option (list octets)) (draw : nat -> Z -> Z)
  (s : TrafficState) (w : VisionWriter) : option (list octets * TrafficState * VisionWriter) :=
  let '(s, w) :=
    if ln_WriterDirectCopy (writer_link isUplink s)
    then (on_writer_link isUplink (fun l => l <| ln_WriterDirectCopy := false |>) s, w <| vw_raw := true |>)
    else (s, w) in
  let s := if 0 <? ts_NumberOfPacketToFilter s then XtlsFilterTls stale (default [] mb) s else s in
  if ln_IsPadding (writer_link isUplink s) then
    match mb with
    | None =>
        p ← XtlsPadding None CommandPaddingContinue (vw_writeOnceUserUUID w) true (vw_testseed w) (draw 0%nat);
        Some ([p], s, w <| vw_writeOnceUserUUID := [] |>)
    | Some mb =>
        let isComplete := IsCompleteRecord mb in
        '(out, isPadding, direct, uuid) ←
          pad_loop s isComplete (vw_testseed w) draw 0 true (ln_WriterDirectCopy (writer_link isUplink s)) (ts_IsTLS s)
            (vw_writeOnceUserUUID w) (ReshapeMultiBuffer mb);
        Some (out, on_writer_link isUplink (fun l => l <| ln_IsPadding := isPadding |> <| ln_WriterDirectCopy := direct |>) s,
              w <| vw_writeOnceUserUUID := uuid |>)
    end
  else Some (default [] mb, s, w).

(** ** Reading blocks byte by byte *)

(** One byte of a block: the link, the content it adds, whether the block was
    the last one. *)
Definition take_byte (s : LinkState) (c : Z) : LinkState * octets :=
  let '(s', _, new) := unpad_step s [c] [] in (s', new).

Definition feed (s : LinkState) (c : Z) : LinkState * octets * bool :=
  let '(s', new) := take_byte s c in
  if block_done s' then
    if ln_CurrentCommand s' =? 0 then (s' <| ln_RemainingCommand := 5 |>, new, false) else (reset s', new, true)
  else (s', new, false).

Fixpoint feed_all (s : LinkState) (b : octets) : LinkState * octets :=
  match b with
  | [] => (s, [])
  | c :: b =>
      let '(s', new, ended) := feed s c in
      if (ended : bool) then (s', new ++ b) else let '(s'', rest) := feed_all s' b in (s'', new ++ rest)
  end.

(** Inside a block something is left to read. *)
Record in_block (s : LinkState) : Prop := mkInBlock {
  ib_command : 0 <= ln_RemainingCommand s <= 5;
  ib_content : ln_RemainingCommand s <= 3 -> 0 <= ln_RemainingContent s;
  ib_padding : ln_RemainingCommand s <= 1 -> 0 <= ln_RemainingPadding s;
  ib_left : ln_RemainingCommand s = 0 -> 0 < ln_RemainingContent s + ln_RemainingPadding s
}.

Lemma shifted_nonneg c : 0 <= c -> 0 <= Z.shiftl c 8.
Proof. intros. by apply Z.shiftl_nonneg. Qed.

Lemma lor_nonneg n c : 0 <= n -> 0 <= c -> 0 <= Z.lor n c.
Proof. intros. by apply Z.lor_nonneg. Qed.

Lemma in_block_next s : in_block (s <| ln_RemainingCommand := 5 |>).
Proof. by destruct s; constructor; cbn. Qed.

(** A turn of the loop keeps the link inside a block, unless the block is done. *)
Lemma step_in_block s b new : in_block s -> b <> [] -> Forall is_octet b ->
  block_done (unpad_step s b new).1.1 = false -> in_block (unpad_step s b new).1.1.
Proof.
  intros [Hc Hn Hp Hl] Hb Ho. unfold unpad_step. destruct b as [|c b]; [done|]. apply Forall_cons in Ho as [Ho _].
  pose proof (shifted_nonneg c (proj1 Ho)). assert (Hlen : 0 < Len (c :: b)) by (unfold Len; cbn; lia).
  destruct (0 <? ln_RemainingCommand s) eqn:E.
  - assert (ln_RemainingCommand s = 5 \/ ln_RemainingCommand s = 4 \/ ln_RemainingCommand s = 3 \/ ln_RemainingCommand s = 2
            \/ ln_RemainingCommand s = 1) as Hk by lia.
    destruct s as [w d k n p cmd ip wd]. cbn in *.
    destruct Hk as [->|[->|[->|[->| ->]]]]; cbn in *; unfold block_done; cbn; intros Hd.
    1-4: constructor; cbn; try lia; try (intros; apply lor_nonneg; [lia|by destruct Ho]).
    assert (0 <= Z.lor p c) by (apply lor_nonneg; [lia|by destruct Ho]). constructor; cbn; lia.
  - destruct s as [w d k n p cmd ip wd]. cbn in *. assert (k = 0) as -> by lia. remember (Len (c :: b)) as m.
    destruct (0 <? n) eqn:En; unfold block_done; cbn; intros Hd; constructor; cbn; lia.
Qed.

(** A byte keeps the link inside a block, unless it was the last of all. *)
Lemma feed_in_block s c : in_block s -> is_octet c ->
  let '(s', _, ended) := feed s c in if ended then initial_state s' = true /\ ln_CurrentCommand s' <> 0 else in_block s'.
Proof.
  intros Hs Hc. pose proof (step_in_block s [c] [] Hs ltac:(done) ltac:(by constructor)) as H.
  unfold feed, take_byte. destruct (unpad_step s [c] []) as [[s' b] new]. cbn [fst] in H.
  destruct (block_done s'); [|by apply H]. destruct (ln_CurrentCommand s' =? 0) eqn:E; [apply in_block_next|].
  destruct s'. cbn in *. split; [done|lia].
Qed.

(** What follows once a turn is over. *)
Definition turn_over (s : LinkState) (b : octets) : LinkState * octets :=
  if block_done s then
    if ln_CurrentCommand s =? 0 then feed_all (s <| ln_RemainingCommand := 5 |>) b else (reset s, b)
  else feed_all s b.

Definition prepend (o : octets) (p : LinkState * octets) : LinkState * octets := (p.1, o ++ p.2).

Lemma prepend_app o o' p : prepend o (prepend o' p) = prepend (o ++ o') p.
Proof. unfold prepend. cbn. by rewrite app_assoc. Qed.

Lemma prepend_nil p : prepend [] p = p.
Proof. by destruct p. Qed.

Lemma feed_all_cons s c b : feed_all s (c :: b) = prepend (take_byte s c).2 (turn_over (take_byte s c).1 b).
Proof.
  cbn [feed_all]. unfold feed, turn_over, prepend. destruct (take_byte s c) as [s' new]. cbn [fst snd].
  destruct (block_done s'); [destruct (_ =? 0); cbn [fst snd]; [|done]|]; by destruct (feed_all _ b).
Qed.

Lemma take_twice s m n : s <| ln_RemainingContent ::= fun k => k - m |> <| ln_RemainingContent ::= fun k => k - n |>
  = s <| ln_RemainingContent ::= fun k => k - (m + n) |>.
Proof. destruct s. unfold upd. cbn. f_equal. lia. Qed.

Lemma skip_twice s m n : s <| ln_RemainingPadding ::= fun k => k - m |> <| ln_RemainingPadding ::= fun k => k - n |>
  = s <| ln_RemainingPadding ::= fun k => k - (m + n) |>.
Proof. destruct s. unfold upd. cbn. f_equal. lia. Qed.

Lemma feed_content t s b : ln_RemainingCommand s = 0 -> (0 < length t)%nat -> Len t <= ln_RemainingContent s ->
  feed_all s (t ++ b) = prepend t (turn_over (s <| ln_RemainingContent ::= fun n => n - Len t |>) b).
Proof.
  intros Hc. revert s Hc. induction t as [|c t IH]; [cbn; lia|]. intros s Hc _ Hn. rewrite Len_cons in Hn.
  rewrite <- app_comm_cons, feed_all_cons.
  assert (take_byte s c = (s <| ln_RemainingContent ::= fun n => n - 1 |>, [c])) as ->.
  { pose proof (Len_nonneg t). unfold take_byte, unpad_step. rewrite Hc, (proj2 (Z.ltb_lt 0 (ln_RemainingContent s))) by lia.
    cbn [Z.ltb Z.compare]. change (Len [c]) with 1. by rewrite Z.min_r by lia. }
  cbn [fst snd]. destruct t as [|c' t].
  - cbn [app]. by destruct s.
  - unfold turn_over at 1. replace (block_done _) with false.
    2:{ symmetry. unfold block_done. destruct s. cbn in *. rewrite Len_cons in Hn. pose proof (Len_nonneg t). lia. }
    rewrite IH; [|by destruct s|cbn; lia|destruct s; cbn in *; lia].
    rewrite prepend_app. cbn [app]. do 2 f_equal. by rewrite take_twice, <- (Len_cons c).
Qed.

Lemma feed_padding t s b : ln_RemainingCommand s = 0 -> ln_RemainingContent s = 0 -> (0 < length t)%nat ->
  Len t <= ln_RemainingPadding s ->
  feed_all s (t ++ b) = turn_over (s <| ln_RemainingPadding ::= fun n => n - Len t |>) b.
Proof.
  intros Hc Hn0. revert s Hc Hn0. induction t as [|c t IH]; [cbn; lia|]. intros s Hc Hn0 _ Hn. rewrite Len_cons in Hn.
  rewrite <- app_comm_cons, feed_all_cons.
  assert (take_byte s c = (s <| ln_RemainingPadding ::= fun n => n - 1 |>, [])) as ->.
  { pose proof (Len_nonneg t). unfold take_byte, unpad_step. rewrite Hc, Hn0. cbn [Z.ltb Z.compare].
    change (Len [c]) with 1. by rewrite Z.min_r by lia. }
  cbn [fst snd]. rewrite prepend_nil. destruct t as [|c' t].
  - cbn [app]. by destruct s.
  - unfold turn_over at 1. replace (block_done _) with false.
    2:{ symmetry. unfold block_done. destruct s. cbn in *. rewrite Len_cons in Hn. pose proof (Len_nonneg t). lia. }
    rewrite IH; [|by destruct s|by destruct s|cbn; lia|destruct s; cbn in *; lia].
    f_equal. by rewrite skip_twice, <- (Len_cons c).
Qed.

(** A turn of the loop reads at least a byte, and as much as its bytes one by one. *)
Lemma step_feeds s b new : in_block s -> b <> [] -> Len new + Len b <= Size ->
  exists s' t b', b = t ++ b' /\ t <> [] /\ exists o, unpad_step s b new = (s', b', new ++ o) /\ feed_all s b = prepend o (turn_over s' b') /\ Len o <= Len t.
Proof.
  intros Hs Hb Hfit. destruct (ln_RemainingCommand s =? 0) eqn:Ek; [|destruct b as [|c b]; [done|]].
  - assert (Hk : ln_RemainingCommand s = 0) by lia. pose proof (ib_left s Hs Hk). pose proof (ib_content s Hs ltac:(lia)).
    pose proof (ib_padding s Hs ltac:(lia)). assert (Hl : 0 < Len b) by (destruct b; [done|unfold Len; cbn; lia]).
    unfold unpad_step. rewrite Hk. cbn [Z.ltb Z.compare]. destruct (0 <? ln_RemainingContent s) eqn:En.
    + set (n := Z.min (ln_RemainingContent s) (Len b)). exists (s <| ln_RemainingContent ::= fun k => k - n |>), (BytesTo b n), (BytesFrom b n).
      assert (Hle : 0 < n <= Len b /\ n <= ln_RemainingContent s) by (unfold n; lia). clearbody n.
      assert (Hn : Len (BytesTo b n) = n) by (unfold Len, BytesTo in *; rewrite length_take; lia).
      split; [by unfold BytesTo, BytesFrom; rewrite take_drop|]. split; [intros E; rewrite E in Hn; change (Len []) with 0 in Hn; lia|].
      exists (BytesTo b n). split; [by rewrite Write_fits by lia|]. split; [|lia].
      rewrite <- (take_drop (Z.to_nat n) b) at 1. unfold BytesTo, BytesFrom in *.
      rewrite feed_content; [by rewrite Hn|done|unfold Len in Hn; lia|lia].
    + set (n := Z.min (ln_RemainingPadding s) (Len b)). exists (s <| ln_RemainingPadding ::= fun k => k - n |>), (BytesTo b n), (BytesFrom b n).
      assert (Hle : 0 < n <= Len b /\ n <= ln_RemainingPadding s) by (unfold n; lia). clearbody n.
      assert (Hn : Len (BytesTo b n) = n) by (unfold Len, BytesTo in *; rewrite length_take; lia).
      split; [by unfold BytesTo, BytesFrom; rewrite take_drop|]. split; [intros E; rewrite E in Hn; change (Len []) with 0 in Hn; lia|].
      exists []. rewrite app_nil_r. split; [unfold Advance; by rewrite (proj2 (Z.ltb_ge n 0)) by lia|]. split; [|apply Len_nonneg].
      rewrite <- (take_drop (Z.to_nat n) b) at 1. unfold BytesTo, BytesFrom in *. rewrite prepend_nil.
      rewrite feed_padding; [by rewrite Hn|done|lia|unfold Len in Hn; lia|lia].
  - pose proof (ib_command s Hs) as Hc. exists (take_byte s c).1, [c], b. split; [done|]. split; [done|]. exists [].
    assert (Hs' : unpad_step s (c :: b) new = ((take_byte s c).1, b, new) /\ (take_byte s c).2 = []).
    { unfold take_byte, unpad_step. rewrite (proj2 (Z.ltb_lt 0 (ln_RemainingCommand s))) by lia. done. }
    destruct Hs' as [-> Ho]. rewrite app_nil_r, feed_all_cons, Ho. split; [done|]. split; [done|apply Len_nonneg].
Qed.

Lemma feed_all_in_block b : forall s, in_block s -> Forall is_octet b ->
  in_block (feed_all s b).1 \/ initial_state (feed_all s b).1 = true /\ ln_CurrentCommand (feed_all s b).1 <> 0.
Proof.
  induction b as [|c b IH]; intros s Hs Hb; [by left|]. apply Forall_cons in Hb as [Hc Hb]. cbn [feed_all].
  pose proof (feed_in_block s c Hs Hc) as H. destruct (feed s c) as [[s' new] [|]]; [by right|].
  specialize (IH s' H Hb). by destruct (feed_all s' b).
Qed.

(** The loop reads a buffer as its bytes one by one, and always ends. *)
Lemma unpad_loop_feeds fuel : forall s b new, in_block s -> Forall is_octet b -> (length b < fuel)%nat ->
  Len new + Len b <= Size ->
  unpad_loop fuel s b new = Some ((feed_all s b).1, new ++ (feed_all s b).2).
Proof.
  induction fuel as [|fuel IH]; intros s b new Hs Hb Hf Hfit; [lia|].
  destruct (decide (b = [])) as [->|Hne]; [cbn; by rewrite app_nil_r|].
  pose proof (step_in_block s b new Hs Hne Hb) as Hin.
  destruct (step_feeds s b new Hs Hne Hfit) as (s' & t & b' & -> & Ht & o & Hstep & -> & Ho).
  assert (Hl : (0 < length t)%nat) by (destruct t; [done|cbn; lia]). rewrite Hstep in Hin. cbn [fst] in Hin.
  apply Forall_app in Hb as [_ Hb]. rewrite length_app in Hf. rewrite Len_app in Hfit.
  assert (Hlen : forall s1, in_block s1 -> unpad_loop fuel s1 b' (new ++ o)
    = Some ((prepend o (feed_all s1 b')).1, new ++ (prepend o (feed_all s1 b')).2)).
  { intros s1 Hs1. rewrite IH; [|done|done|lia|rewrite Len_app; lia]. unfold prepend. cbn. by rewrite app_assoc. }
  destruct (t ++ b') as [|c l] eqn:E; [by destruct t|]. cbn [unpad_loop]. rewrite Hstep. clear E.
  unfold turn_over. destruct (block_done s').
  - destruct (ln_CurrentCommand s' =? 0); [apply Hlen, in_block_next|].
    rewrite Write_fits by (rewrite Len_app; lia). unfold prepend. cbn. by rewrite app_assoc.
  - by apply Hlen, Hin.
Qed.

(** What the reader makes of a buffer, as a function: the bytes in order. *)
Definition unpadded (s : LinkState) (uuid b : octets) : LinkState * octets :=
  if initial_state s then
    if (21 <=? Len b) && bool_decide (uuid = BytesTo b 16) then feed_all (s <| ln_RemainingCommand := 5 |>) (BytesFrom b 16)
    else (s, b)
  else feed_all s b.

(** Between reads a link is inside a block, or waits for the first byte of a
    padded stream. *)
Definition link_ok (s : LinkState) : Prop := initial_state s = true \/ in_block s.

Lemma XtlsUnpadding_feeds b uuid s : link_ok s -> Forall is_octet b -> Len b <= Size ->
  XtlsUnpadding b uuid s = Some (unpadded s uuid b).
Proof.
  intros Hs Hb Hl. unfold XtlsUnpadding, unpadded. destruct (initial_state s) eqn:Ei.
  - destruct (_ && _) eqn:E; [|done].
    assert (H16 : Len (BytesFrom b 16) <= Len b) by (unfold BytesFrom, Len; rewrite length_drop; lia).
    rewrite unpad_loop_feeds; [by destruct (feed_all _ _)|apply in_block_next|by apply Forall_drop|unfold Len in H16; lia|].
    change (Len []) with 0. lia.
  - destruct Hs as [Hs|Hs]; [by rewrite Hs in Ei|].
    rewrite unpad_loop_feeds; [by destruct (feed_all _ _)|done|done|lia|done].
Qed.

Lemma initial_not_in_block s : initial_state s = true -> in_block s -> False.
Proof. unfold initial_state. intros H [? _ _ _]. lia. Qed.

Lemma unpadded_ok s uuid b : link_ok s -> Forall is_octet b -> link_ok (unpadded s uuid b).1.
Proof.
  intros Hs Hb. unfold unpadded. destruct (initial_state s) eqn:Ei.
  - destruct (_ && _); [|by left]. destruct (feed_all_in_block (BytesFrom b 16) (s <| ln_RemainingCommand := 5 |>)) as [H|[H _]];
      [apply in_block_next|by apply Forall_drop|by right|by left].
  - destruct Hs as [Hs|Hs]; [by rewrite Hs in Ei|].
    destruct (feed_all_in_block b s Hs Hb) as [H|[H _]]; [by right|by left].
Qed.

Lemma feed_all_app b1 : forall s b2, in_block s -> Forall is_octet b1 -> in_block (feed_all s b1).1 ->
  feed_all s (b1 ++ b2) = prepend (feed_all s b1).2 (feed_all (feed_all s b1).1 b2).
Proof.
  induction b1 as [|c b1 IH]; intros s b2 Hs Hb Hin; [by rewrite prepend_nil|]. apply Forall_cons in Hb as [Hc Hb].
  cbn [app feed_all] in *. pose proof (feed_in_block s c Hs Hc) as Hf. destruct (feed s c) as [[s' new] [|]].
  - destruct Hf as [Hi _]. by destruct (initial_not_in_block _ Hi Hin).
  - specialize (IH s' b2 Hf Hb). destruct (feed_all s' b1) as [s1 o1]. rewrite IH by done. cbn. by rewrite app_assoc.
Qed.

(** Within the blocks it does not matter where a read ends. *)
Theorem unpadding_cuts uuid s b1 b2 : in_block s -> Forall is_octet (b1 ++ b2) -> Len (b1 ++ b2) <= Size ->
  exists s1 o1, XtlsUnpadding b1 uuid s = Some (s1, o1) /\
  (in_block s1 -> exists s2 o2, XtlsUnpadding b2 uuid s1 = Some (s2, o2) /\ XtlsUnpadding (b1 ++ b2) uuid s = Some (s2, o1 ++ o2)).
Proof.
  intros Hs Hb Hl. pose proof Hb as [Hb1 Hb2]%Forall_app. rewrite Len_app in Hl. pose proof (Len_nonneg b1). pose proof (Len_nonneg b2).
  exists (feed_all s b1).1, (feed_all s b1).2.
  assert (Hu : forall s b, in_block s -> unpadded s uuid b = feed_all s b).
  { intros s' b Hs'. unfold unpadded. destruct (initial_state s') eqn:E; [by destruct (initial_not_in_block _ E Hs')|done]. }
  split; [rewrite XtlsUnpadding_feeds, Hu by (done || lia || by right); by destruct (feed_all s b1)|]. intros Hin.
  exists (feed_all (feed_all s b1).1 b2).1, (feed_all (feed_all s b1).1 b2).2. split.
  - rewrite XtlsUnpadding_feeds, Hu by (done || lia || by right). by destruct (feed_all (feed_all s b1).1 b2).
  - rewrite XtlsUnpadding_feeds, Hu by (done || (by right) || (rewrite Len_app; lia)). by rewrite feed_all_app.
Qed.

(** ** One block *)

Definition block (cmd : Z) (content : octets) (pad : Z) : octets :=
  [cmd; high_byte (Len content); low_byte (Len content); high_byte pad; low_byte pad] ++ content ++ replicate (Z.to_nat pad) 0.

(** The fields of a link that blocks do not use. *)
Definition at_block (s : LinkState) (k n p cmd : Z) : LinkState :=
  s <| ln_RemainingCommand := k |> <| ln_RemainingContent := n |> <| ln_RemainingPadding := p |> <| ln_CurrentCommand := cmd |>.

Lemma header_byte w d k n p cmd ip wd c b : 1 <= k <= 5 ->
  feed_all (mkLink w d k n p cmd ip wd) (c :: b)
  = turn_over (mkLink w d (k - 1) (if k =? 4 then Z.shiftl c 8 else if k =? 3 then Z.lor n c else n)
                 (if k =? 2 then Z.shiftl c 8 else if k =? 1 then Z.lor p c else p) (if k =? 5 then c else cmd) ip wd) b.
Proof.
  intros Hk. assert (k = 5 \/ k = 4 \/ k = 3 \/ k = 2 \/ k = 1) as [->|[->|[->|[->| ->]]]] by lia.
  all: rewrite feed_all_cons; apply prepend_nil.
Qed.

Lemma header_turn w d k n p cmd ip wd b : 1 <= k -> turn_over (mkLink w d k n p cmd ip wd) b = feed_all (mkLink w d k n p cmd ip wd) b.
Proof. intros Hk. unfold turn_over, block_done. cbn. by rewrite (proj2 (Z.leb_gt k 0)) by lia. Qed.

Lemma feed_header s cmd h1 l1 h2 l2 b : ln_RemainingCommand s = 5 ->
  feed_all s (cmd :: h1 :: l1 :: h2 :: l2 :: b)
  = turn_over (at_block s 0 (Z.lor (Z.shiftl h1 8) l1) (Z.lor (Z.shiftl h2 8) l2) cmd) b.
Proof.
  intros Hk. destruct s as [w d k n p c ip wd]. cbn in Hk. subst k.
  do 4 (rewrite header_byte by lia; cbn [Z.eqb Pos.eqb Z.sub Z.add Z.opp Z.pos_sub Pos.pred_double]; rewrite header_turn by lia).
  by rewrite header_byte by lia.
Qed.

Lemma feed_block s cmd content pad rest : ln_RemainingCommand s = 5 -> Len content < 65536 -> 0 <= pad < 65536 ->
  feed_all s (block cmd content pad ++ rest) = prepend content (turn_over (at_block s 0 0 0 cmd) rest).
Proof.
  intros Hk Hc Hp. pose proof (Len_nonneg content) as Hc0. unfold block. rewrite <- !app_assoc. cbn [app].
  rewrite feed_header, !two_bytes by (done || lia).
  assert (Hpad : turn_over (at_block s 0 0 pad cmd) (replicate (Z.to_nat pad) 0 ++ rest) = turn_over (at_block s 0 0 0 cmd) rest).
  { destruct (decide (pad = 0)) as [->|Hne]; [done|]. unfold turn_over at 1. destruct s as [w d k n p c ip wd]. cbn in Hk. subst k.
    unfold at_block, upd, block_done. cbn -[feed_all replicate Z.to_nat]. rewrite (proj2 (Z.leb_gt pad 0)) by lia.
    assert (Hr : Len (replicate (Z.to_nat pad) 0) = pad) by (unfold Len; rewrite length_replicate; lia).
    rewrite feed_padding; [|done|done|rewrite length_replicate; lia|cbn; lia].
    rewrite Hr. unfold upd. cbn. by rewrite Z.sub_diag. }
  destruct (decide (content = [])) as [->|Hne]; [change (Len []) with 0; rewrite prepend_nil; exact Hpad|].
  assert (Hl : 0 < Len content) by (destruct content; [done|unfold Len; cbn; lia]).
  unfold turn_over at 1. destruct s as [w d k n p c ip wd]. cbn in Hk. subst k.
  unfold at_block, upd, block_done. cbn -[feed_all replicate Z.to_nat]. rewrite (proj2 (Z.leb_gt (Len content) 0)) by lia.
  cbn [andb]. rewrite feed_content; [|done|unfold Len in Hl; lia|cbn; lia].
  f_equal. refine (eq_trans _ Hpad). f_equal. unfold at_block, upd. cbn. by rewrite Z.sub_diag.
Qed.

(** ** What the records carry *)

(** How far one direction has come: nothing sent, inside the padding, padding
    ended, padding ended with the switch to raw bytes. *)
Inductive phase := Starting | Blocks | Plain | Direct.
#[export] Instance phase_dec : EqDecision phase.
Proof. solve_decision. Defined.

Definition after_command (cmd : Z) : phase := if cmd =? 0 then Blocks else if cmd =? 1 then Plain else Direct.

(** The fields of the blocks between two records. *)
Definition at_phase (p : phase) (s : LinkState) : LinkState :=
  match p with
  | Starting => at_block s (-1) (-1) (-1) 0
  | Blocks => at_block s 5 0 0 0
  | Plain => at_block s (-1) (-1) (-1) 1
  | Direct => at_block s (-1) (-1) (-1) 2
  end.

Definition padding_phase (p : phase) : bool := match p with Starting | Blocks => true | _ => false end.

(** The identifier comes before the first block. *)
Definition first_bytes (uuid : octets) (p : phase) : octets := match p with Starting => uuid | _ => [] end.

(** Records that take the reader from one phase to another, with their content. *)
Inductive carries (uuid : octets) : phase -> list octets -> octets -> phase -> Prop :=
| carries_nil p : carries uuid p [] [] p
| carries_block p cmd content pad rs c q : padding_phase p = true -> 0 <= cmd <= 2 -> 0 <= pad ->
    Forall is_octet content -> 21 + Len content + pad <= Size -> carries uuid (after_command cmd) rs c q ->
    carries uuid p (((first_bytes uuid p) ++ block cmd content pad) :: rs) (content ++ c) q
| carries_plain r rs c q : BytesTo r 16 <> uuid -> Forall is_octet r -> Len r <= Size -> carries uuid Plain rs c q ->
    carries uuid Plain (r :: rs) (r ++ c) q.

Lemma carries_app uuid p rs c q rs' c' q' : carries uuid p rs c q -> carries uuid q rs' c' q' ->
  carries uuid p (rs ++ rs') (c ++ c') q'.
Proof.
  induction 1 as [|p cmd content pad rs c q Hp Hcmd Hpad Ho Hl H IH|r rs c q Hn Ho Hl H IH]; intros H'; [done|..].
  - rewrite <- app_assoc. cbn [app]. constructor; auto.
  - rewrite <- app_assoc. cbn [app]. constructor; auto.
Qed.

Lemma carries_split uuid rs1 rs2 : forall p c q, carries uuid p (rs1 ++ rs2) c q ->
  exists c1 m c2, carries uuid p rs1 c1 m /\ carries uuid m rs2 c2 q /\ c = c1 ++ c2.
Proof.
  induction rs1 as [|r rs1 IH]; intros p c q H; [by exists [], p, c; split; [constructor|]|].
  inversion H as [|p' cmd content pad rs c' q' Hp Hcmd Hpad Ho Hl H1|r' rs c' q' Hn Ho Hl H1]; subst.
  - destruct (IH _ _ _ H1) as (c1 & m & c2 & Ha & Hb & ->). exists (content ++ c1), m, c2.
    split; [by constructor|]. by rewrite app_assoc.
  - destruct (IH _ _ _ H1) as (c1 & m & c2 & Ha & Hb & ->). exists (r ++ c1), m, c2.
    split; [by constructor|]. by rewrite app_assoc.
Qed.

Lemma plain_carries uuid rs c q : carries uuid Plain rs c q -> q = Plain /\ c = mjoin rs.
Proof.
  revert c. induction rs as [|r rs IH]; intros c H; inversion H; subst; [done|done|].
  destruct (IH _ ltac:(eassumption)) as [-> ->]. done.
Qed.

Lemma direct_carries uuid rs c q : carries uuid Direct rs c q -> rs = [] /\ c = [] /\ q = Direct.
Proof. inversion 1; subst; done. Qed.

Lemma Len_block cmd content pad : 0 <= pad -> Len (block cmd content pad) = 5 + Len content + pad.
Proof. intros. unfold block, Len. rewrite !length_app, length_replicate. cbn [length]. lia. Qed.

Lemma empty_carries uuid p rs c q : carries uuid p rs c q -> IsEmpty rs = true -> q = p /\ c = mjoin rs.
Proof.
  induction 1 as [|p cmd content pad rs c q Hp Hcmd Hpad Ho Hl H IH|r rs c q Hn Ho Hl H IH]; unfold IsEmpty in *; cbn [forallb]; [done|..].
  - intros [He _]%andb_prop. rewrite Len_app, Len_block in He by done. pose proof (Len_nonneg content).
    pose proof (Len_nonneg (first_bytes uuid p)). lia.
  - intros [_ He]%andb_prop. destruct (IH He) as [-> ->]. done.
Qed.

Lemma block_octets cmd content pad : 0 <= cmd <= 2 -> Forall is_octet content -> Forall is_octet (block cmd content pad).
Proof.
  intros Hc Ho. unfold block. apply Forall_app. split.
  - repeat constructor; try (unfold is_octet; lia); apply (uwrap_range 8); lia.
  - apply Forall_app. split; [done|]. apply Forall_replicate. unfold is_octet. lia.
Qed.

(** ** One read *)

(** Filtering leaves the links alone and keeps that a hello of TLS 1.2 or later
    came before the switch to TLS 1.3. *)
Definition filter_ok (s : TrafficState) : Prop :=
  (0 < ts_RemainingServerHello s -> ts_IsTLS12orAbove s = true) /\ (ts_EnableXtls s = true -> ts_IsTLS12orAbove s = true).

Definition same_links (s s' : TrafficState) : Prop :=
  ts_Inbound s' = ts_Inbound s /\ ts_Outbound s' = ts_Outbound s /\ ts_UserUUID s' = ts_UserUUID s.

#[export] Instance same_links_preorder : PreOrder same_links.
Proof. split; [done|]. intros a b c (H1 & H2 & H3) (H4 & H5 & H6). split_and!; congruence. Qed.

Lemma see_hello_ok stale b s : filter_ok s -> filter_ok (see_hello stale b s) /\ same_links s (see_hello stale b s).
Proof.
  intros [H1 H2]. unfold see_hello. destruct s as [u n e v t c r i o]. cbn in *.
  repeat case_match; (split; [split|]); by cbn.
Qed.

Lemma see_versions_ok b s : filter_ok s -> filter_ok (see_versions b s).1 /\ same_links s (see_versions b s).1.
Proof.
  intros [H1 H2]. unfold see_versions. destruct s as [u n e v t c r i o]. cbn -[Contains Z.sub] in *.
  destruct (0 <? r) eqn:Er; [|by split; [split|]]. assert (v = true) as -> by (apply H1; lia).
  destruct (Contains _ _); [destruct (bool_decide _)|destruct (_ <=? 0)]; (split; [split|]); by cbn.
Qed.

Lemma filter_keeps stale bs : forall s, filter_ok s -> filter_ok (XtlsFilterTls stale bs s) /\ same_links s (XtlsFilterTls stale bs s).
Proof.
  induction bs as [|b bs IH]; intros s Hs; [done|]. cbn [XtlsFilterTls].
  set (s0 := s <| ts_NumberOfPacketToFilter ::= fun n => n - 1 |>).
  assert (H0 : filter_ok s0) by (destruct s; exact Hs). assert (L0 : same_links s s0) by (by destruct s).
  destruct (see_hello_ok stale b s0 H0) as [H1 L1]. destruct (see_versions_ok b _ H1) as [H2 L2].
  destruct (see_versions b _) as [s2 [|]]; cbn [fst] in *; [split; [done|]|destruct (IH s2 H2) as [H3 L3]; split; [done|]].
  - by do 2 (etrans; [eassumption|]).
  - by do 3 (etrans; [eassumption|]).
Qed.

Lemma same_reader s s' up : same_links s s' -> reader_link up s' = reader_link up s.
Proof. intros (H1 & H2 & _). by destruct up. Qed.

Lemma reader_on up f s : reader_link up (on_reader_link up f s) = f (reader_link up s).
Proof. by destruct up, s. Qed.

Lemma other_on up f s : reader_link (negb up) (on_reader_link up f s) = reader_link (negb up) s.
Proof. by destruct up, s. Qed.

Lemma reader_on_writer up f s : reader_link up (on_writer_link up f s) = reader_link up s.
Proof. by destruct up, s. Qed.

Lemma writer_on_writer up f s : writer_link up (on_writer_link up f s) = f (writer_link up s).
Proof. by destruct up, s. Qed.

Lemma writer_on_reader up f s : writer_link up (on_reader_link up f s) = writer_link up s.
Proof. by destruct up, s. Qed.

Lemma uuid_on up f s : ts_UserUUID (on_reader_link up f s) = ts_UserUUID s.
Proof. by destruct up, s. Qed.

Lemma filter_on up f s : filter_ok (on_reader_link up f s) <-> filter_ok s.
Proof. by destruct up, s. Qed.

Lemma packets_on up f s : ts_NumberOfPacketToFilter (on_reader_link up f s) = ts_NumberOfPacketToFilter s.
Proof. by destruct up, s. Qed.

(** The writer's half of a link, and the reader's, of one record. *)
Definition writer_half (s : LinkState) : bool * bool := (ln_IsPadding s, ln_WriterDirectCopy s).

(** Where a reader stands between two reads. *)
Record reader_at (p : phase) (s : LinkState) : Prop := mkReaderAt {
  ra_blocks : s = at_phase p s;
  ra_within : ln_WithinPaddingBuffers s = padding_phase p;
  ra_direct : ln_ReaderDirectCopy s = bool_decide (p = Direct)
}.

Section Reader.
Context (uuid : octets) (uuid_bytes : Forall is_octet uuid) (uuid_length : length uuid = 16%nat).

Lemma read_block p s cmd content pad : padding_phase p = true -> 0 <= cmd <= 2 -> 0 <= pad ->
  Forall is_octet content -> 21 + Len content + pad <= Size ->
  XtlsUnpadding (first_bytes uuid p ++ block cmd content pad) uuid (at_phase p s)
  = Some (at_phase (after_command cmd) s, content).
Proof using uuid_bytes uuid_length.
  intros Hp Hcmd Hpad Ho Hl. unfold first_bytes. pose proof (Len_nonneg content).
  assert (Hu : Len uuid = 16) by (unfold Len; lia).
  assert (Hend : forall s', ln_RemainingCommand s' = 5 -> at_block s' 0 0 0 cmd = at_block s 0 0 0 cmd ->
            feed_all s' (block cmd content pad) = (at_phase (after_command cmd) s, content)).
  { intros s' Hk Hs'. rewrite <- (app_nil_r (block _ _ _)), feed_block by (unfold Size in *; (done || lia)). rewrite Hs'.
    unfold prepend, turn_over. cbn [block_done]. destruct s as [w d k n q c ip wd]. cbn -[Z.eqb].
    assert (cmd = 0 \/ cmd = 1 \/ cmd = 2) as [->|[->| ->]] by lia; cbn; by rewrite app_nil_r. }
  rewrite XtlsUnpadding_feeds.
  - f_equal. unfold unpadded. destruct p; [|cbn [app]|done|done].
    + replace (initial_state _) with true by (by destruct s). rewrite Len_app, Len_block, Hu by done.
      rewrite (proj2 (Z.leb_le 21 _)) by lia. unfold BytesTo, BytesFrom. change (Z.to_nat 16) with 16%nat.
      rewrite <- uuid_length, take_app_length, drop_app_length, bool_decide_true by done. cbn [andb].
      apply Hend; by destruct s.
    + replace (initial_state _) with false by (by destruct s). apply Hend; by destruct s.
  - destruct p; [by left; destruct s| |done|done]. right. destruct s. constructor; cbn; lia.
  - apply Forall_app. split; [by destruct p|by apply block_octets].
  - rewrite Len_app, Len_block by done. destruct p; [|change (Len []) with 0|done|done]; lia.
Qed.

Lemma read_plain s r : BytesTo r 16 <> uuid -> Forall is_octet r -> Len r <= Size ->
  XtlsUnpadding r uuid (at_phase Plain s) = Some (at_phase Plain s, r).
Proof.
  intros Hn Ho Hl. unfold XtlsUnpadding. replace (initial_state _) with true by (by destruct s).
  rewrite (bool_decide_false (uuid = _)) by (intros E; by rewrite E in Hn). by rewrite andb_false_r.
Qed.

Lemma unpad_carries p rs c q s : carries uuid p rs c q ->
  exists out, unpad_all rs uuid (at_phase p s) = Some (at_phase q s, out) /\ mjoin out = c.
Proof using uuid_bytes uuid_length.
  induction 1 as [|p cmd content pad rs c q Hp Hcmd Hpad Ho Hl H (out & E & <-)|r rs c q Hn Ho Hl H (out & E & <-)]; [by exists []|..].
  - cbn [unpad_all]. rewrite read_block by done. cbn [mbind option_bind]. rewrite E. cbn [mbind option_bind].
    exists (if 0 <? Len content then content :: out else out). split; [done|].
    destruct (0 <? Len content) eqn:El; [done|]. by destruct content.
  - cbn [unpad_all]. rewrite read_plain by done. cbn [mbind option_bind]. rewrite E. cbn [mbind option_bind].
    exists (if 0 <? Len r then r :: out else out). split; [done|].
    destruct (0 <? Len r) eqn:El; [done|]. by destruct r.
Qed.

Lemma after_read_at q s : ln_ReaderDirectCopy s = false -> reader_at q (after_read (at_phase q s)).
Proof. intros Hd. destruct s as [w d k n p c ip wd]. cbn in Hd. subst d. by destruct q. Qed.

Lemma after_read_half s : writer_half (after_read s) = writer_half s.
Proof. unfold after_read. destruct s. by repeat case_match. Qed.

(** A read in order: the content of the records, and the reader's next phase. *)
Lemma read_carries stale up rs raw c p q s : carries uuid p rs c q -> ts_UserUUID s = uuid -> filter_ok s ->
  reader_at p (reader_link up s) ->
  exists out s', ReadMultiBuffer stale up rs [] raw s = Some (out, s')
    /\ mjoin out = c ++ (if bool_decide (p <> Direct /\ q = Direct) then mjoin raw else [])
    /\ reader_at q (reader_link up s') /\ filter_ok s' /\ ts_UserUUID s' = uuid
    /\ writer_half (reader_link up s') = writer_half (reader_link up s)
    /\ reader_link (negb up) s' = reader_link (negb up) s.
Proof using uuid_bytes uuid_length.
  intros Hc Hu Hf [Hb Hw Hd]. unfold ReadMultiBuffer. destruct (IsEmpty rs) eqn:Ee.
  { destruct (empty_carries _ _ _ _ _ Hc Ee) as [-> ->]. exists rs, s. rewrite bool_decide_false by (by intros []).
    by rewrite app_nil_r. }
  destruct (decide (p = Direct)) as [->|Hp].
  { apply direct_carries in Hc as (-> & -> & ->). done. }
  rewrite Hd, (bool_decide_false (p = Direct)) by done. rewrite Hu, Hw.
  assert (H : exists out s1,
    (if padding_phase p || (0 <? ts_NumberOfPacketToFilter s) then
         '(link, buffer) ← unpad_all rs uuid (reader_link up s);
         Some (buffer, on_reader_link up (fun _ => after_read link) s)
       else Some (rs, s)) = Some (out, s1) /\ mjoin out = c /\ reader_at q (reader_link up s1) /\ filter_ok s1
    /\ ts_UserUUID s1 = uuid /\ writer_half (reader_link up s1) = writer_half (reader_link up s)
    /\ reader_link (negb up) s1 = reader_link (negb up) s).
  { destruct (padding_phase p || (0 <? ts_NumberOfPacketToFilter s)) eqn:Eb.
    - destruct (unpad_carries p rs c q (reader_link up s) Hc) as (out & E & Ho). rewrite <- Hb in E. rewrite E.
      cbn [mbind option_bind]. exists out, (on_reader_link up (fun _ => after_read (at_phase q (reader_link up s))) s).
      rewrite reader_on, other_on, uuid_on, filter_on, after_read_half. split_and!; try done.
      + apply after_read_at. by rewrite Hd, bool_decide_false.
      + by destruct q, (reader_link up s).
    - apply orb_false_elim in Eb as [Ep _]. destruct p; try done. apply plain_carries in Hc as [-> ->].
      by exists rs, s. }
  destruct H as (out & s1 & -> & Ho & [Hb1 Hw1 Hd1] & Hf1 & Hu1 & Hh1 & Hn1). cbn [mbind option_bind].
  assert (H2 : exists s2, (if 0 <? ts_NumberOfPacketToFilter s1 then XtlsFilterTls stale out s1 else s1) = s2
    /\ filter_ok s2 /\ same_links s1 s2).
  { destruct (0 <? _); [|by exists s1]. destruct (filter_keeps stale out s1 Hf1) as [Hf2 L]. by eexists. }
  destruct H2 as (s2 & -> & Hf2 & L). pose proof L as (_ & _ & Hu2).
  exists (if ln_ReaderDirectCopy (reader_link up s2) then out ++ [] ++ raw else out), s2.
  rewrite !(same_reader s1 s2 _ L), Hd1. split_and!; try done; [|congruence].
  destruct (decide (q = Direct)) as [->|Hq].
  - rewrite !bool_decide_true by done. cbn [app]. by rewrite join_app, Ho.
  - rewrite !bool_decide_false by (done || by intros [_ ?]). by rewrite app_nil_r.
Qed.
End Reader.

(** ** One write *)

(** Seeds and random numbers that [XtlsPadding] can use: the padding it asks for
    is never negative. *)
Definition good_testseed (l : list Z) : Prop :=
  exists s0 s1 s2 s3 rest, l = s0 :: s1 :: s2 :: s3 :: rest /\ 0 <= s0 <= s2 /\ s2 < 2 ^ 30 /\ 0 < s1 < 2 ^ 30 /\ 0 < s3 < 2 ^ 30.

Definition good_draw (draw : Z -> Z) : Prop := forall n, 0 < n -> 0 <= draw n < n.

Lemma default_testseed_good : good_testseed default_testseed.
Proof. exists 900, 500, 900, 256, []. split; [done|lia]. Qed.

Lemma XtlsPadding_block b cmd uuid long seed draw : good_testseed seed -> good_draw draw ->
  Len (default [] b) <= Size - 21 -> Len uuid <= 16 ->
  exists pad, XtlsPadding b cmd uuid long seed draw = Some (uuid ++ block cmd (default [] b) pad)
    /\ 0 <= pad /\ 21 + Len (default [] b) + pad <= Size.
Proof.
  intros (s0 & s1 & s2 & s3 & rest & -> & H0 & H2 & H1 & H3) Hd Hb Hu. unfold XtlsPadding.
  cbn [lookup list_lookup mbind option_bind]. set (n := match b with Some b => Len b | None => 0 end).
  assert (Hn : n = Len (default [] b)) by (by destruct b). pose proof (Len_nonneg (default [] b)).
  pose proof (Hd s1 ltac:(lia)). pose proof (Hd s3 ltac:(lia)). unfold Size in *.
  rewrite (swrap_id 32 s0) by lia. set (long' := (n <? s0) && long).
  rewrite (proj2 (Z.leb_gt (if long' then s1 else s3) 0)) by (destruct long'; lia).
  set (drawn := if long' then _ else _).
  assert (Hp : 0 <= drawn).
  { unfold drawn. destruct long' eqn:El; [|rewrite swrap_id; lia]. apply andb_prop in El as [El _]. rewrite swrap_id; lia. }
  set (pad := if 8192 - 21 - n <? drawn then _ else _). assert (Hpad : 0 <= pad <= 8192 - 21 - n).
  { unfold pad. destruct (_ <? drawn) eqn:E; lia. }
  clearbody pad drawn long'. exists pad. split; [|split; lia].
  assert (Hw1 : Write [] uuid = uuid) by (rewrite Write_fits; [done|change (Len []) with 0; unfold Size; lia]).
  rewrite Hw1. set (hdr := [cmd; high_byte n; low_byte n; high_byte pad; low_byte pad]).
  assert (Hl5 : Len hdr = 5) by done.
  rewrite (Write_fits uuid hdr) by (unfold Size; lia).
  assert (Hb' : match b with Some b => Write (uuid ++ hdr) b | None => uuid ++ hdr end = uuid ++ hdr ++ default [] b).
  { destruct b as [b|]; cbn [default] in *; [|by rewrite app_nil_r]. rewrite Write_fits; [by rewrite app_assoc|].
    rewrite Len_app, Hl5. unfold Size. cbn [default from_option id] in *. lia. }
  rewrite Hb'. unfold Extend. rewrite !Len_app, Hl5.
  rewrite (proj2 (Z.ltb_ge pad 0)), (proj2 (Z.ltb_ge Size _)) by (unfold Size; lia). cbn [orb].
  unfold block, hdr. rewrite Hn. by rewrite <- !app_assoc.
Qed.

(** Data in which the identifier does not occur. *)
Definition clear_of (uuid b : octets) : Prop := forall k, BytesTo (BytesFrom b k) 16 <> uuid.

Record plain_data (uuid b : octets) : Prop := mkPlainData {
  pd_octets : Forall is_octet b;
  pd_length : Len b <= Size;
  pd_clear : clear_of uuid b
}.

(** A buffer that a block can hold. *)
Record fits_block (uuid b : octets) : Prop := mkFits {
  fb_octets : Forall is_octet b;
  fb_length : Len b <= Size - 21;
  fb_clear : BytesTo b 16 <> uuid
}.

Lemma clear_start uuid b : clear_of uuid b -> BytesTo b 16 <> uuid.
Proof. intros H. by specialize (H 0). Qed.

Lemma reshape_fits uuid b : plain_data uuid b -> mjoin (reshape_one b) = b /\ Forall (fits_block uuid) (reshape_one b).
Proof.
  intros [Ho Hl Hc]. unfold reshape_one. destruct (Size - 21 <=? Len b) eqn:E.
  - set (index := if _ || _ then _ else _). assert (Hi : 21 <= index <= Size - 21).
    { unfold index. destruct (_ || _) eqn:Ei; [change (Size / 2) with 4096; unfold Size; lia|]. apply orb_false_elim in Ei. lia. }
    clearbody index. unfold Size in *. assert (Hl2 : Len (BytesFrom b index) <= 8192 - 21) by (unfold BytesFrom, Len in *; rewrite length_drop; lia).
    rewrite Write_fits by (change (Len []) with 0; unfold Size; lia). cbn [app].
    split; [cbn; rewrite app_nil_r; apply take_drop|]. repeat constructor.
    + by apply Forall_take.
    + unfold BytesTo, Len in *. rewrite length_take. unfold Size. lia.
    + unfold BytesTo. rewrite take_take, Nat.min_l by lia. by apply clear_start.
    + by apply Forall_drop.
    + done.
    + apply Hc.
  - split; [cbn; by rewrite app_nil_r|]. repeat constructor; [done|lia|by apply clear_start].
Qed.

Lemma Reshape_fits uuid mb : Forall (plain_data uuid) mb ->
  mjoin (ReshapeMultiBuffer mb) = mjoin mb /\ Forall (fits_block uuid) (ReshapeMultiBuffer mb).
Proof.
  unfold ReshapeMultiBuffer. induction 1 as [|b mb Hb Hmb [E H]]; [done|]. cbn [mbind list_bind].
  destruct (reshape_fits uuid b Hb) as [E1 H1]. rewrite join_app, E1. split; [by rewrite E|by apply Forall_app].
Qed.

Lemma fits_plain uuid mb : Forall (fits_block uuid) mb -> carries uuid Plain mb (mjoin mb) Plain.
Proof.
  induction 1 as [|b mb [Ho Hl Hc] Hmb IH]; [constructor|]. cbn [mjoin list_join]. constructor; [done|done|unfold Size in *; lia|done].
Qed.

Lemma plain_data_carries uuid mb : Forall (plain_data uuid) mb -> carries uuid Plain mb (mjoin mb) Plain.
Proof.
  induction 1 as [|b mb [Ho Hl Hc] Hmb IH]; [constructor|]. cbn [mjoin list_join]. constructor; [by apply clear_start|done|done|done].
Qed.

Section Writer.
Context (uuid : octets) (uuid_length : length uuid = 16%nat).

Lemma first_length p : Len (first_bytes uuid p) <= 16.
Proof using uuid_length. destruct p; unfold first_bytes, Len; cbn [length]; lia. Qed.

(** One padded buffer, and what the rest of the write carries. *)
Lemma padded_carries p b cmd long seed draw : padding_phase p = true -> 0 <= cmd <= 2 -> good_testseed seed -> good_draw draw ->
  fits_block uuid b -> exists r, XtlsPadding (Some b) cmd (first_bytes uuid p) long seed draw = Some r /\
  forall rs c q, carries uuid (after_command cmd) rs c q -> carries uuid p (r :: rs) (b ++ c) q.
Proof using uuid_length.
  intros Hp Hcmd Hs Hd [Ho Hl Hc].
  destruct (XtlsPadding_block (Some b) cmd (first_bytes uuid p) long seed draw Hs Hd Hl (first_length p)) as (pad & -> & H0 & H1).
  eexists. split; [done|]. intros rs c q H. by constructor.
Qed.

Lemma pad_loop_carries s complete seed draw : filter_ok s -> good_testseed seed -> (forall i, good_draw (draw i)) ->
  forall mb i isPadding direct long p, Forall (fits_block uuid) mb -> padding_phase p = true ->
  direct = negb isPadding && ts_EnableXtls s -> isPadding = true \/ mb <> [] ->
  exists out q u, pad_loop s complete seed draw i isPadding direct long (first_bytes uuid p) mb
      = Some (out, padding_phase q, bool_decide (q = Direct), u)
    /\ carries uuid p out (mjoin mb) q /\ (padding_phase q = true -> u = first_bytes uuid q).
Proof using uuid_length.
  intros [_ Hf] Hs Hd. induction mb as [|b mb IH]; intros i ip d long p Hmb Hp -> Hne.
  { exists [], p, (first_bytes uuid p). destruct Hne as [->|?]; [|done]. cbn. rewrite Hp, bool_decide_false by (by destruct p).
    by split_and!; [|constructor|]. }
  apply Forall_cons in Hmb as [Hb Hmb]. cbn [pad_loop mjoin list_join].
  unfold CommandPaddingContinue. change CommandPaddingEnd with 1 at 2.
  set (ending := if ts_EnableXtls s then CommandPaddingDirect else CommandPaddingEnd).
  assert (Hend : 0 <= ending <= 2 /\ after_command ending = if ts_EnableXtls s then Direct else Plain)
    by (unfold ending; by destruct (ts_EnableXtls s)).
  assert (Hlast : exists q, after_command ending = q /\ padding_phase q = false /\ bool_decide (q = Direct) = ts_EnableXtls s).
  { eexists. split; [done|]. destruct Hend as [_ ->]. by destruct (ts_EnableXtls s). }
  destruct Hlast as (q0 & Hq0 & Hq1 & Hq2). destruct Hend as [Hend _].
  destruct (_ && complete).
  - destruct mb as [|b' mb]; cbv iota.
    + destruct (padded_carries p b ending true seed (draw i) Hp Hend Hs (Hd i) Hb) as (r & -> & Hr).
      cbn [mbind option_bind pad_loop]. exists [r], q0, []. rewrite Hq1, Hq2. split_and!; [|apply Hr; rewrite Hq0; constructor|done].
      by destruct (ts_EnableXtls s), ip.
    + destruct (padded_carries p b 0 true seed (draw i) Hp ltac:(lia) Hs (Hd i) Hb) as (r & -> & Hr). cbn [mbind option_bind].
      destruct (IH (S i) false (ts_EnableXtls s) false Blocks Hmb eq_refl ltac:(by rewrite andb_true_l) ltac:(by right)) as (out & q & u & E & Hc & Hu).
      replace (ts_EnableXtls s || _) with (ts_EnableXtls s) by (by destruct (ts_EnableXtls s), ip).
      change (first_bytes uuid Blocks) with (@nil Z) in E. rewrite E. cbn [mbind option_bind]. exists (r :: out), q, u.
      split_and!; [done|by apply Hr|done].
  - destruct (negb (ts_IsTLS12orAbove s) && _) eqn:E12.
    + apply andb_prop in E12 as [E12 _]. assert (He : ts_EnableXtls s = false).
      { destruct (ts_EnableXtls s); [|done]. by rewrite Hf in E12. }
      destruct (padded_carries p b 1 long seed (draw i) Hp ltac:(lia) Hs (Hd i) Hb) as (r & -> & Hr). cbn [mbind option_bind].
      exists (r :: mb), Plain, []. rewrite He, andb_false_r. split_and!; [done|apply Hr, fits_plain, Hmb|done].
    + destruct mb as [|b' mb]; cbv iota.
      * cbn [andb]. destruct ip; cbn [negb].
        -- destruct (padded_carries p b 0 long seed (draw i) Hp ltac:(lia) Hs (Hd i) Hb) as (r & -> & Hr).
           cbn [mbind option_bind pad_loop]. exists [r], Blocks, []. split_and!; [done|apply Hr; constructor|done].
        -- destruct (padded_carries p b ending long seed (draw i) Hp Hend Hs (Hd i) Hb) as (r & -> & Hr).
           cbn [mbind option_bind pad_loop]. exists [r], q0, []. rewrite Hq1, Hq2. split_and!; [done|apply Hr; rewrite Hq0; constructor|done].
      * cbn [andb]. destruct (padded_carries p b 0 long seed (draw i) Hp ltac:(lia) Hs (Hd i) Hb) as (r & -> & Hr). cbn [mbind option_bind].
        destruct (IH (S i) ip (negb ip && ts_EnableXtls s) long Blocks Hmb eq_refl eq_refl ltac:(by right)) as (out & q & u & E & Hc & Hu).
        change (first_bytes uuid Blocks) with (@nil Z) in E. rewrite E. cbn [mbind option_bind]. exists (r :: out), q, u.
        split_and!; [done|by apply Hr|done].
Qed.

(** Where a writer stands between two writes. *)
Record writer_at (p : phase) (s : LinkState) (w : VisionWriter) : Prop := mkWriterAt {
  wa_padding : ln_IsPadding s = padding_phase p;
  wa_once : padding_phase p = true -> vw_writeOnceUserUUID w = first_bytes uuid p;
  wa_direct : if decide (p = Direct) then ln_WriterDirectCopy s = negb (vw_raw w)
              else ln_WriterDirectCopy s = false /\ vw_raw w = false
}.

(** Only the writer's half of its link changes. *)
Definition writer_change (up : bool) (s s' : TrafficState) : Prop :=
  reader_link up s' = reader_link up s /\ ts_UserUUID s' = ts_UserUUID s /\
  exists a b, writer_link up s' = writer_link up s <| ln_IsPadding := a |> <| ln_WriterDirectCopy := b |>.

Lemma write_filtered stale up bs s : filter_ok s ->
  exists s', (if 0 <? ts_NumberOfPacketToFilter s then XtlsFilterTls stale bs s else s) = s' /\ filter_ok s' /\
    reader_link up s' = reader_link up s /\ writer_link up s' = writer_link up s /\ ts_UserUUID s' = ts_UserUUID s.
Proof using.
  intros Hf. destruct (0 <? _); [|by exists s]. destruct (filter_keeps stale bs s Hf) as [Hf' L].
  eexists. split; [done|]. unfold writer_link. rewrite !(same_reader s _ _ L). by destruct L as (_ & _ & ->).
Qed.

(** A write: the content goes into the records of its phase, or, after the
    switch, to the raw connection as it is. *)
Lemma write_carries stale up mb draw s w p : filter_ok s -> writer_at p (writer_link up s) w ->
  good_testseed (vw_testseed w) -> (forall i, good_draw (draw i)) -> Forall (plain_data uuid) (default [] mb) ->
  exists out s' w', WriteMultiBuffer stale up mb draw s w = Some (out, s', w') /\ filter_ok s' /\ writer_change up s s'
    /\ vw_testseed w' = vw_testseed w
    /\ if decide (p = Direct) then vw_raw w' = true /\ out = default [] mb /\ writer_at Direct (writer_link up s') w'
       else vw_raw w' = false /\ exists q, carries uuid p out (mjoin (default [] mb)) q /\ writer_at q (writer_link up s') w'.
Proof using uuid_length.
  intros Hf Hw Hs Hd Hmb. pose proof Hw as [Hip Ho Hwd]. unfold WriteMultiBuffer.
  destruct (decide (p = Direct)) as [->|Hp].
  - rewrite Hwd. set (sw := if negb (vw_raw w) then _ else _).
    assert (Hsw : exists s1 w1, sw = (s1, w1) /\ filter_ok s1 /\ vw_raw w1 = true /\ vw_testseed w1 = vw_testseed w
      /\ reader_link up s1 = reader_link up s /\ ts_UserUUID s1 = ts_UserUUID s
      /\ writer_link up s1 = writer_link up s <| ln_IsPadding := false |> <| ln_WriterDirectCopy := false |>).
    { unfold sw. destruct (vw_raw w) eqn:Er; cbn [negb] in *; eexists _, _; (split; [done|]).
      - split_and!; try done. destruct (writer_link up s). cbn in *. by subst.
      - rewrite reader_on_writer, writer_on_writer. unfold on_writer_link. rewrite filter_on, uuid_on.
        split_and!; try (by destruct w); try done. destruct (writer_link up s). cbn in *. by subst. }
    clearbody sw. destruct Hsw as (s1 & w1 & -> & Hf1 & Hr1 & Ht1 & Hl1 & Hu1 & Hw1).
    destruct (write_filtered stale up (default [] mb) s1 Hf1) as (s2 & -> & Hf2 & Hl2 & Hw2 & Hu2).
    rewrite Hw2, Hw1. replace (ln_IsPadding _) with false by (by destruct (writer_link up s)).
    exists (default [] mb), s2, w1. split_and!; try done; [by split_and!; [congruence|congruence|exists false, false; congruence]|].
    constructor; [by rewrite Hw2, Hw1; destruct (writer_link up s)|done|]. rewrite decide_True by done. rewrite Hw2, Hw1, Hr1.
    by destruct (writer_link up s).
  - destruct Hwd as [Hwd Hraw]. rewrite Hwd.
    destruct (write_filtered stale up (default [] mb) s Hf) as (s2 & -> & Hf2 & Hl2 & Hw2 & Hu2). rewrite Hw2, Hip.
    assert (Hchange : forall a b, writer_change up s (on_writer_link up (fun l => l <| ln_IsPadding := a |> <| ln_WriterDirectCopy := b |>) s2)).
    { intros a b. unfold writer_change. rewrite reader_on_writer, writer_on_writer. unfold on_writer_link. rewrite uuid_on, Hw2.
      split_and!; [done|done|by exists a, b]. }
    assert (Hsame : writer_change up s s2).
    { split_and!; [done|done|]. exists (ln_IsPadding (writer_link up s)), (ln_WriterDirectCopy (writer_link up s)).
      rewrite Hw2. by destruct (writer_link up s). }
    destruct (padding_phase p) eqn:Ep.
    + rewrite (Ho eq_refl). destruct mb as [mb|]; cbn [default from_option id] in *.
      * destruct (Reshape_fits uuid mb Hmb) as [Ej Hfit].
        destruct (pad_loop_carries s2 (IsCompleteRecord mb) (vw_testseed w) draw Hf2 Hs Hd (ReshapeMultiBuffer mb) 0 true false (ts_IsTLS s2) p
          Hfit Ep eq_refl ltac:(by left)) as (out & q & u & E & Hc & Hu).
        rewrite Hwd, E. cbn [mbind option_bind]. eexists out, _, _. split; [done|]. split; [by apply filter_on|].
        split; [apply Hchange|]. split; [by destruct w|]. split; [by destruct w|]. exists q. rewrite <- Ej. split; [done|].
        rewrite writer_on_writer, Hw2. destruct (writer_link up s), w. cbn in *.
        constructor; [done|done|]. cbn. destruct (decide (q = Direct)) as [->|Hq]; [by rewrite Hraw|]. by rewrite bool_decide_false.
      * change CommandPaddingContinue with 0. destruct (XtlsPadding_block None 0 (first_bytes uuid p) true (vw_testseed w) (draw 0%nat) Hs (Hd _)) as (pad & -> & H0 & H1);
          [unfold Len, Size; cbn; lia|apply first_length|].
        cbn [mbind option_bind]. eexists _, s2, _. split; [done|]. split; [done|]. split; [done|]. split; [by destruct w|].
        split; [by destruct w|]. exists Blocks. split; [by apply (carries_block uuid p 0 [] pad [] []); [..|constructor]|].
        rewrite Hw2. constructor; [done|done|]. by destruct w.
    + exists (default [] mb), s2, w. destruct p; try done. split; [done|]. split; [done|]. split; [done|]. split; [done|]. split; [done|].
      exists Plain. split.
      * by apply plain_data_carries.
      * rewrite Hw2. done.
Qed.
End Writer.

(** ** A connection *)

(** What any read or write leaves alone, whatever the other side sent. *)
Lemma unpad_step_half s b new : writer_half (unpad_step s b new).1.1 = writer_half s.
Proof. unfold unpad_step. destruct s. by repeat case_match. Qed.

Lemma unpad_loop_half fuel : forall s b new s' out, unpad_loop fuel s b new = Some (s', out) -> writer_half s' = writer_half s.
Proof.
  induction fuel as [|fuel IH]; intros s b new s' out; cbn [unpad_loop]; destruct b as [|c b]; [by intros [= <- _]|done|by intros [= <- _]|].
  pose proof (unpad_step_half s (c :: b) new) as Hs. destruct (unpad_step s (c :: b) new) as [[s1 b1] new1]. cbn [fst] in Hs.
  rewrite <- Hs. destruct (block_done s1); [destruct (_ =? 0)|].
  - intros H. apply IH in H as ->. by destruct s1.
  - intros [= <- _]. by destruct s1.
  - apply IH.
Qed.

Lemma XtlsUnpadding_half b uuid s s' out : XtlsUnpadding b uuid s = Some (s', out) -> writer_half s' = writer_half s.
Proof.
  unfold XtlsUnpadding. destruct (initial_state s); [destruct (_ && _)|].
  - intros H. apply unpad_loop_half in H as ->. by destruct s.
  - by intros [= <- _].
  - apply unpad_loop_half.
Qed.

Lemma unpad_all_half uuid bs : forall s s' out, unpad_all bs uuid s = Some (s', out) -> writer_half s' = writer_half s.
Proof.
  induction bs as [|b bs IH]; intros s s' out; cbn [unpad_all]; [by intros [= <- _]|].
  destruct (XtlsUnpadding b uuid s) as [[s1 new]|] eqn:E1; [|done]. cbn [mbind option_bind].
  destruct (unpad_all bs uuid s1) as [[s2 rest]|] eqn:E2; [|done]. cbn [mbind option_bind]. intros [= <- _].
  apply XtlsUnpadding_half in E1 as <-. by eapply IH.
Qed.

Lemma read_keeps stale up bs input raw s out s' : ReadMultiBuffer stale up bs input raw s = Some (out, s') -> filter_ok s ->
  filter_ok s' /\ ts_UserUUID s' = ts_UserUUID s /\ reader_link (negb up) s' = reader_link (negb up) s
  /\ writer_half (reader_link up s') = writer_half (reader_link up s).
Proof.
  intros H Hf. unfold ReadMultiBuffer in H. destruct (IsEmpty bs); [by injection H as _ <-|].
  destruct (ln_ReaderDirectCopy _); [by injection H as _ <-|].
  assert (Hmid : forall b1 s1, (if ln_WithinPaddingBuffers (reader_link up s) || (0 <? ts_NumberOfPacketToFilter s) then
         '(link, buffer) ← unpad_all bs (ts_UserUUID s) (reader_link up s);
         Some (buffer, on_reader_link up (fun _ => after_read link) s)
       else Some (bs, s)) = Some (b1, s1) -> filter_ok s1 /\ ts_UserUUID s1 = ts_UserUUID s
       /\ reader_link (negb up) s1 = reader_link (negb up) s /\ writer_half (reader_link up s1) = writer_half (reader_link up s)).
  { intros b1 s1. destruct (_ || _); [|by intros [= _ <-]].
    destruct (unpad_all bs _ _) as [[link buffer]|] eqn:E; [|done]. cbn [mbind option_bind]. intros [= _ <-].
    rewrite filter_on, uuid_on, other_on, reader_on, after_read_half. by apply unpad_all_half in E. }
  destruct (if _ || _ then _ else _) as [[b1 s1]|]; [|done]. cbn [mbind option_bind] in H.
  destruct (Hmid b1 s1 eq_refl) as (Hf1 & Hu1 & Ho1 & Hh1). injection H as _ <-.
  destruct (0 <? _); [|done]. destruct (filter_keeps stale b1 s1 Hf1) as [Hf2 L]. rewrite !(same_reader _ _ _ L).
  by destruct L as (_ & _ & ->).
Qed.

Lemma write_keeps stale up mb draw s w out s' w' : WriteMultiBuffer stale up mb draw s w = Some (out, s', w') -> filter_ok s ->
  filter_ok s' /\ writer_change up s s'.
Proof.
  intros H Hf. unfold WriteMultiBuffer in H.
  assert (Hrefl : forall s1, reader_link up s1 = reader_link up s -> ts_UserUUID s1 = ts_UserUUID s ->
    writer_link up s1 = writer_link up s <| ln_WriterDirectCopy := false |> \/ writer_link up s1 = writer_link up s ->
    writer_change up s s1).
  { intros s1 H1 H2 H3. split_and!; [done|done|]. exists (ln_IsPadding (writer_link up s)), (ln_WriterDirectCopy (writer_link up s1)).
    destruct H3 as [-> | ->]; by destruct (writer_link up s). }
  set (sw := if ln_WriterDirectCopy _ then _ else _) in H.
  assert (Hsw : exists s1 w1, sw = (s1, w1) /\ filter_ok s1 /\ reader_link up s1 = reader_link up s /\ ts_UserUUID s1 = ts_UserUUID s
    /\ (writer_link up s1 = writer_link up s <| ln_WriterDirectCopy := false |> \/ writer_link up s1 = writer_link up s)).
  { unfold sw. destruct (ln_WriterDirectCopy _); eexists _, _; (split; [done|]); [|by split_and!; try right].
    rewrite reader_on_writer, writer_on_writer. unfold on_writer_link. rewrite filter_on, uuid_on. by split_and!; try left. }
  clearbody sw. destruct Hsw as (s1 & w1 & -> & Hf1 & Hr1 & Hu1 & Hw1).
  destruct (write_filtered stale up (default [] mb) s1 Hf1) as (s2 & E2 & Hf2 & Hr2 & Hw2 & Hu2). rewrite E2 in H.
  assert (H2 : filter_ok s2 /\ writer_change up s s2) by (split; [done|apply Hrefl; congruence]).
  destruct (ln_IsPadding _); [|by injection H as _ <- _]. destruct mb as [mb|].
  - destruct (pad_loop _ _ _ _ _ _ _ _ _ _) as [[[[o a] b] u]|]; [|done]. cbn [mbind option_bind] in H. injection H as _ <- _.
    destruct H2 as [_ (H2 & H3 & a' & b' & H4)]. unfold writer_change. rewrite reader_on_writer, writer_on_writer.
    unfold on_writer_link. rewrite filter_on, uuid_on, H4. split_and!; try done. exists a, b. by destruct (writer_link up s).
  - destruct (XtlsPadding _ _ _ _ _ _); [|done]. cbn [mbind option_bind] in H. by injection H as _ <- _.
Qed.

Lemma reader_at_change p s a b : reader_at p s -> reader_at p (s <| ln_IsPadding := a |> <| ln_WriterDirectCopy := b |>).
Proof.
  intros [Hb Hw Hd]. destruct s as [w d k n q c ip wd]. constructor; [|done|done]. cbn in Hw, Hd.
  destruct p; cbn in *; unfold at_block, upd in *; cbn in *; congruence.
Qed.

Lemma writer_at_half uuid p s s' w : writer_half s' = writer_half s -> writer_at uuid p s w -> writer_at uuid p s' w.
Proof. unfold writer_half. intros [= H1 H2] [Ha Ho Hd]. by constructor; rewrite ?H1, ?H2. Qed.

Record Endpoint := mkEndpoint { ep_state : TrafficState; ep_writer : VisionWriter }.

(** One direction of a connection: the writing end, the reading end, the records
    inside the outer TLS and the raw bytes under way; what was written and what
    was read so far. *)
Record channel := mkChannel {
  ch_writer : Endpoint;
  ch_reader : Endpoint;
  ch_records : list octets;
  ch_raw : octets;
  ch_sent : octets;
  ch_received : octets
}.

Definition new_endpoint (uuid : octets) (testseed : list Z) : Endpoint :=
  let s := NewTrafficState uuid in mkEndpoint s (NewVisionWriter s testseed).

Definition new_channel (uuid : octets) (seedA seedB : list Z) : channel :=
  mkChannel (new_endpoint uuid seedA) (new_endpoint uuid seedB) [] [] [] [].

(** What the writer below does with a write. *)
Definition sent_on (c : channel) (s : TrafficState) (w : VisionWriter) (mb : option (list octets)) (out : list octets) : channel :=
  mkChannel (mkEndpoint s w) (ch_reader c)
    (if vw_raw w then ch_records c else ch_records c ++ out) (if vw_raw w then ch_raw c ++ mjoin out else ch_raw c)
    (ch_sent c ++ mjoin (default [] mb)) (ch_received c).

(** Both ends read and write in any order.  A read of this direction takes some
    records, and when it ends with the switch some raw bytes that the outer TLS
    had read ahead; later reads take raw bytes.  The other direction brings
    anything at all. *)
Inductive channel_step (up : bool) (uuid : octets) : channel -> channel -> Prop :=
| step_write c stale mb draw out s w :
    Forall (plain_data uuid) (default [] mb) -> (forall i, good_draw (draw i)) ->
    WriteMultiBuffer stale up mb draw (ep_state (ch_writer c)) (ep_writer (ch_writer c)) = Some (out, s, w) ->
    channel_step up uuid c (sent_on c s w mb out)
| step_read c stale n k out s :
    ln_ReaderDirectCopy (reader_link up (ep_state (ch_reader c))) = false ->
    ReadMultiBuffer stale up (take n (ch_records c)) [] [take k (ch_raw c)] (ep_state (ch_reader c)) = Some (out, s) ->
    channel_step up uuid c
      (mkChannel (ch_writer c) (mkEndpoint s (ep_writer (ch_reader c))) (drop n (ch_records c))
         (if ln_ReaderDirectCopy (reader_link up s) then drop k (ch_raw c) else ch_raw c)
         (ch_sent c) (ch_received c ++ mjoin out))
| step_copy c stale k out s :
    ln_ReaderDirectCopy (reader_link up (ep_state (ch_reader c))) = true ->
    ReadMultiBuffer stale up [take k (ch_raw c)] [] [] (ep_state (ch_reader c)) = Some (out, s) ->
    channel_step up uuid c
      (mkChannel (ch_writer c) (mkEndpoint s (ep_writer (ch_reader c))) (ch_records c) (drop k (ch_raw c))
         (ch_sent c) (ch_received c ++ mjoin out))
| step_writer_reads c stale bs input raw out s :
    ReadMultiBuffer stale (negb up) bs input raw (ep_state (ch_writer c)) = Some (out, s) ->
    channel_step up uuid c
      (mkChannel (mkEndpoint s (ep_writer (ch_writer c))) (ch_reader c) (ch_records c) (ch_raw c) (ch_sent c) (ch_received c))
| step_reader_writes c stale mb draw out s w :
    WriteMultiBuffer stale (negb up) mb draw (ep_state (ch_reader c)) (ep_writer (ch_reader c)) = Some (out, s, w) ->
    channel_step up uuid c
      (mkChannel (ch_writer c) (mkEndpoint s w) (ch_records c) (ch_raw c) (ch_sent c) (ch_received c)).

Section Channel.
Context (up : bool) (uuid : octets) (uuid_bytes : Forall is_octet uuid) (uuid_length : length uuid = 16%nat).

(** What is under way continues what the reader has, and both ends agree where
    the padding ends. *)
Record channel_ok (c : channel) : Prop := mkChannelOk {
  co_writer_filter : filter_ok (ep_state (ch_writer c));
  co_reader_filter : filter_ok (ep_state (ch_reader c));
  co_uuid : ts_UserUUID (ep_state (ch_reader c)) = uuid;
  co_seed : good_testseed (vw_testseed (ep_writer (ch_writer c)));
  co_data : exists p q content, carries uuid p (ch_records c) content q
    /\ reader_at p (reader_link up (ep_state (ch_reader c)))
    /\ writer_at uuid q (writer_link up (ep_state (ch_writer c))) (ep_writer (ch_writer c))
    /\ (q <> Direct -> ch_raw c = [])
    /\ ch_sent c = ch_received c ++ content ++ ch_raw c
}.

Lemma channel_ok_new seedA seedB : good_testseed (if (length seedA <? 4)%nat then default_testseed else seedA) ->
  channel_ok (new_channel uuid seedA seedB).
Proof using.
  intros Hs. constructor; [done|done|done|exact Hs|]. exists Starting, Starting, [].
  split; [constructor|]. split; [by destruct up|]. split; [by destruct up; constructor|]. done.
Qed.

Lemma writes_ok c stale mb draw out s w : channel_ok c -> Forall (plain_data uuid) (default [] mb) -> (forall i, good_draw (draw i)) ->
  WriteMultiBuffer stale up mb draw (ep_state (ch_writer c)) (ep_writer (ch_writer c)) = Some (out, s, w) ->
  channel_ok (sent_on c s w mb out).
Proof using uuid_length.
  intros [Hf Hg Hu Hs (p & q & content & Hc & Hr & Hw & Hraw & Hsent)] Hmb Hd E.
  destruct (write_carries uuid uuid_length stale up mb draw _ _ q Hf Hw Hs Hd Hmb) as (out' & s' & w' & E' & Hf' & _ & Ht & Hcase).
  rewrite E in E'. injection E' as <- <- <-. unfold sent_on. constructor; cbn; [done|done|done|by rewrite Ht|].
  destruct (decide (q = Direct)) as [->|Hq].
  - destruct Hcase as (-> & -> & Hw'). exists p, Direct, content. split_and!; try done. by rewrite Hsent, !app_assoc.
  - destruct Hcase as (-> & q' & Hc' & Hw'). exists p, q', (content ++ mjoin (default [] mb)).
    split_and!; try done; [by eapply carries_app|by intros _; apply Hraw|]. rewrite Hsent, (Hraw Hq), !app_nil_r. by rewrite app_assoc.
Qed.

Lemma reads_ok c stale n k : channel_ok c -> ln_ReaderDirectCopy (reader_link up (ep_state (ch_reader c))) = false ->
  exists out s, ReadMultiBuffer stale up (take n (ch_records c)) [] [take k (ch_raw c)] (ep_state (ch_reader c)) = Some (out, s)
  /\ channel_ok (mkChannel (ch_writer c) (mkEndpoint s (ep_writer (ch_reader c))) (drop n (ch_records c))
         (if ln_ReaderDirectCopy (reader_link up s) then drop k (ch_raw c) else ch_raw c)
         (ch_sent c) (ch_received c ++ mjoin out)).
Proof using uuid_bytes uuid_length.
  intros [Hf Hg Hu Hs (p & q & content & Hc & Hr & Hw & Hraw & Hsent)] Hd.
  assert (Hp : p <> Direct) by (intros ->; by rewrite (ra_direct _ _ Hr) in Hd).
  rewrite <- (take_drop n (ch_records c)) in Hc. apply carries_split in Hc as (c1 & m & c2 & H1 & H2 & ->).
  destruct (read_carries uuid uuid_bytes uuid_length stale up _ [take k (ch_raw c)] c1 p m _ H1 Hu Hg Hr)
    as (out & s & E & Ho & Hr' & Hg' & Hu' & _ & _). exists out, s. split; [done|].
  constructor; cbn; [done|done|done|done|]. rewrite (ra_direct _ _ Hr'). exists m, q, c2. split; [done|]. split; [done|]. split; [done|].
  rewrite Ho, Hsent. destruct (decide (m = Direct)) as [->|Hm].
  - apply direct_carries in H2 as (_ & -> & ->). rewrite !bool_decide_true by done. split; [done|].
    cbn [mjoin list_join app]. by rewrite !app_nil_r, <- !app_assoc, take_drop.
  - rewrite !bool_decide_false by (done || by intros [_ ?]). split; [done|]. by rewrite app_nil_r, <- !app_assoc.
Qed.

Lemma copies_ok c stale k : channel_ok c -> ln_ReaderDirectCopy (reader_link up (ep_state (ch_reader c))) = true ->
  exists out s, ReadMultiBuffer stale up [take k (ch_raw c)] [] [] (ep_state (ch_reader c)) = Some (out, s)
  /\ channel_ok (mkChannel (ch_writer c) (mkEndpoint s (ep_writer (ch_reader c))) (ch_records c) (drop k (ch_raw c))
         (ch_sent c) (ch_received c ++ mjoin out)).
Proof using.
  intros [Hf Hg Hu Hs (p & q & content & Hc & Hr & Hw & Hraw & Hsent)] Hd.
  assert (Hp : p = Direct) by (rewrite (ra_direct _ _ Hr) in Hd; by apply bool_decide_eq_true in Hd). subst p.
  apply direct_carries in Hc as (Hrec & -> & ->). unfold ReadMultiBuffer.
  exists [take k (ch_raw c)], (ep_state (ch_reader c)). split; [destruct (IsEmpty _); [done|by rewrite Hd]|].
  constructor; cbn; [done|done|done|done|]. exists Direct, Direct, []. rewrite Hrec. split_and!; try done; [constructor|].
  cbn [mjoin list_join app]. by rewrite Hsent, app_nil_r, <- app_assoc, take_drop.
Qed.

Lemma channel_step_ok c c' : channel_step up uuid c c' -> channel_ok c -> channel_ok c'.
Proof using uuid_bytes uuid_length.
  intros Hst Hok. destruct Hst as [c stale mb draw out s w Hmb Hd E|c stale n k out s Hd E|c stale k out s Hd E
    |c stale bs input raw out s E|c stale mb draw out s w E].
  - by eapply writes_ok.
  - destruct (reads_ok c stale n k Hok Hd) as (out' & s' & E' & H). rewrite E in E'. by injection E' as <- <-.
  - destruct (copies_ok c stale k Hok Hd) as (out' & s' & E' & H). rewrite E in E'. by injection E' as <- <-.
  - destruct Hok as [Hf Hg Hu Hs (p & q & content & Hc & Hr & Hw & Hraw & Hsent)].
    destruct (read_keeps _ _ _ _ _ _ _ _ E Hf) as (Hf' & _ & _ & Hh). constructor; cbn; [done|done|done|done|].
    exists p, q, content. split_and!; try done. by eapply writer_at_half.
  - destruct Hok as [Hf Hg Hu Hs (p & q & content & Hc & Hr & Hw & Hraw & Hsent)].
    destruct (write_keeps _ _ _ _ _ _ _ _ _ E Hg) as (Hg' & Hro & Hu' & a & b & Hch). constructor; cbn; [done|done|congruence|done|].
    exists p, q, content. split_and!; try done. unfold writer_link in Hch. rewrite negb_involutive in Hch. rewrite Hch.
    by apply reader_at_change.
Qed.

Lemma channel_reachable seedA seedB c : good_testseed (if (length seedA <? 4)%nat then default_testseed else seedA) ->
  rtc (channel_step up uuid) (new_channel uuid seedA seedB) c -> channel_ok c.
Proof using uuid_bytes uuid_length.
  intros Hs H. apply rtc_ind_r with (P := channel_ok) in H; [done|by apply channel_ok_new|].
  intros c1 c2 _ Hst Hok. by eapply channel_step_ok.
Qed.

End Channel.

(** ** Examples *)

Definition example_uuid : octets := [1; 2; 3; 4; 5; 6; 7; 8; 9; 10; 11; 12; 13; 14; 15; 16].
Definition no_stale (i : Z) : Z := 0.
Definition least (i : nat) (n : Z) : Z := 0.

Definition hello_bytes : octets := [104; 101; 108; 108; 111].

(** A client writes once and its server reads the record. *)
Definition after_write : channel :=
  let c := new_channel example_uuid [] [] in
  match WriteMultiBuffer no_stale true (Some [hello_bytes]) least (ep_state (ch_writer c)) (ep_writer (ch_writer c)) with
  | Some (out, s, w) => sent_on c s w (Some [hello_bytes]) out
  | None => c
  end.

Definition after_delivery : channel :=
  match ReadMultiBuffer no_stale true (take 1 (ch_records after_write)) [] [take 0 (ch_raw after_write)] (ep_state (ch_reader after_write)) with
  | Some (out, s) =>
      mkChannel (ch_writer after_write) (mkEndpoint s (ep_writer (ch_reader after_write))) (drop 1 (ch_records after_write))
        (if ln_ReaderDirectCopy (reader_link true s) then drop 0 (ch_raw after_write) else ch_raw after_write)
        (ch_sent after_write) (ch_received after_write ++ mjoin out)
  | None => after_write
  end.

Lemma short_clear b : (length b < 16)%nat -> clear_of example_uuid b.
Proof.
  intros Hl k E. apply (f_equal length) in E. unfold BytesTo, BytesFrom in E. rewrite length_take, length_drop in E. cbn in E. lia.
Qed.


(** A record need not be one read: a reader that is given the last block's header
    in two parts, when nothing is filtered any more, takes the command for the end
    of the padding and hands the rest of the block on as data. *)
Example header_split :
  let s := NewTrafficState example_uuid <| ts_NumberOfPacketToFilter := 0 |> in
  let record := example_uuid ++ block 0 [] 0 ++ block 1 [7] 2 in
  (match ReadMultiBuffer no_stale true [record] [] [] s with Some (out, _) => mjoin out | None => [] end) = [7]
  /\ (match ReadMultiBuffer no_stale true [take 22 record] [] [] s with
      | Some (out, s) => match ReadMultiBuffer no_stale true [drop 22 record] [] [] s with
                         | Some (out', _) => mjoin out ++ mjoin out'
                         | None => []
                         end
      | None => []
      end) = [0; 1; 0; 2; 7; 0; 0].
Proof. vm_compute. split; reflexivity. Qed.
