(* ===== verification/Vless.v ===== *)
(** * The VLESS protocol: [proxy/vless/encoding], [common/protocol/address.go] and
    the request of [proxy/vless/outbound/outbound.go] of the engine

    The header that the tunnel's outbound sends before a connection's data, the
    answer to it, the addresses inside, and the framing of UDP packets, each with
    the decoder of the other end.  A reader is the list of the bytes that are
    still to come; reading fails when they do not suffice.  The protobuf message
    of the add-ons is encoded by a library: [AddonsCodec] is its [Marshal] and
    [Unmarshal], [AddonsLaws] that they are inverse and that the message of the
    one flow is short.  [None] is a panic. *)

From Stdlib Require Import Ascii.
From S2P Require Import Mph IPMatch Geodata Prelude GoStrings EngineRouter Buffers.

#[local] Open Scope Z_scope.

Inductive wire_error :=
| BufferFull | EndOfStream | UnexpectedEOF | OutOfBound | UnknownAddressType | InvalidDomain | SuperLongDomain
| InvalidVersion | InvalidUser | InvalidAddress | BadAddons | UnexpectedVersion.

(** ** Reading and writing *)

(** A text of Go is its bytes. *)
Definition text (l : octets) : string := string_of ((fun b => ascii_of_N (Z.to_N b)) <$> l).

(** [Write] and [WriteByte] of a header's buffer. *)
Definition put (b data : octets) : result wire_error octets :=
  if Len b + Len data <=? Size then Ok (b ++ data) else Err BufferFull.

(** [ReadFullFrom]: the longer buffer and what is left of the stream. *)
Definition ReadFullFrom (b r : octets) (size : Z) : result wire_error (octets * octets) :=
  if Size <? Len b + size then Err OutOfBound
  else if size =? 0 then Ok (b, r)
  else if Len r =? 0 then Err EndOfStream
  else if Len r <? size then Err UnexpectedEOF
  else Ok (b ++ BytesTo r size, BytesFrom r size).

(** [BytesFrom(-n)]: for 0 it is the whole buffer. *)
Definition BytesSince (b : octets) (n : Z) : octets := BytesFrom b (if 0 <? n then Len b - n else 0).

Definition last_byte (b : octets) : Z := default 0 (last b).

(** ** Addresses with ports *)

(** The types of addresses both parsers of the engine are made with. *)
Definition AddressTypeIPv4 : Z := 1.
Definition AddressTypeDomain : Z := 2.
Definition AddressTypeIPv6 : Z := 3.

(** [net.IPAddress]: [None] for bytes that are no address. *)
Definition net_IPAddress (ip : octets) : option Address :=
  match To4 ip with
  | Some ip4 => Some (IPAddress ip4)
  | None => if (length ip =? 16)%nat then Some (IPAddress ip) else None
  end.

Definition maybeIPPrefix (b : Z) : bool := (b =? 91) || ((48 <=? b) && (b <=? 57)).

Definition valid_domain_byte (c : Z) : bool :=
  ((48 <=? c) && (c <=? 57)) || ((97 <=? c) && (c <=? 122)) || ((65 <=? c) && (c <=? 90)) || (c =? 45) || (c =? 46) || (c =? 95).

(** A rune outside ASCII is not valid, and neither are its bytes. *)
Definition isValidDomain (d : octets) : bool := forallb valid_domain_byte d.

Definition isDomainTooLong (domain : string) : bool := 256 <? Len (bytes domain).

Definition two_octets (n : Z) : octets := [high_byte n; low_byte n].
Definition PortFromBytes (b : octets) : Z :=
  match b with h :: l :: _ => Z.lor (Z.shiftl h 8) l | _ => 0 end.

Definition readPort (b r : octets) : result wire_error (Z * octets * octets) :=
  let! (b, r) := ReadFullFrom b r 2 in Ok (PortFromBytes (BytesSince b 2), b, r).

Section Addresses.
Context `{G : GeoParams}.

Definition readAddress (b r : octets) : option (result wire_error (option Address * octets * octets)) :=
  let? (b, r) := Some (ReadFullFrom b r 1) in
  let addrType := last_byte b in
  if addrType =? AddressTypeIPv4 then
    let? (b, r) := Some (ReadFullFrom b r 4) in Some (Ok (net_IPAddress (BytesSince b 4), b, r))
  else if addrType =? AddressTypeIPv6 then
    let? (b, r) := Some (ReadFullFrom b r 16) in Some (Ok (net_IPAddress (BytesSince b 16), b, r))
  else if addrType =? AddressTypeDomain then
    let? (b, r) := Some (ReadFullFrom b r 1) in
    let domainLength := last_byte b in
    let? (b, r) := Some (ReadFullFrom b r domainLength) in
    let domain := BytesSince b domainLength in
    match domain with
    | [] => None
    | c :: _ =>
        match (if maybeIPPrefix c then ParseAddress (text domain) else None) with
        | Some ip => Some (Ok (net_IPAddress ip, b, r))
        | None => if isValidDomain domain then Some (Ok (Some (DomainAddress (text domain)), b, r)) else Some (Err InvalidDomain)
        end
    end
  else Some (Err UnknownAddressType).

(** [portFirstAddressParser.ReadAddressPort]. *)
Definition ReadAddressPort (b r : octets) : option (result wire_error (option Address * Z * octets * octets)) :=
  let? (port, b, r) := Some (readPort b r) in
  let? (addr, b, r) := readAddress b r in
  Some (Ok (addr, port, b, r)).
End Addresses.

Definition writeAddress (b : octets) (address : Address) : result wire_error octets :=
  match address with
  | IPAddress ip => let! b := put b [if (length ip =? 4)%nat then AddressTypeIPv4 else AddressTypeIPv6] in put b ip
  | DomainAddress domain =>
      if isDomainTooLong domain then Err SuperLongDomain
      else let! b := put b [AddressTypeDomain; low_byte (Len (bytes domain))] in put b (bytes domain)
  end.

Definition WriteAddressPort (b : octets) (address : Address) (port : Z) : result wire_error octets :=
  let! b := put b (two_octets port) in writeAddress b address.

(** ** The header *)

Definition XRV : string := "xtls-rprx-vision".
Definition Version : Z := 0.

Inductive RequestCommand := RequestCommandTCP | RequestCommandUDP | RequestCommandMux | RequestCommandRvs | OtherCommand (c : Z).
#[export] Instance RequestCommand_dec : EqDecision RequestCommand.
Proof. solve_decision. Defined.

Definition command_byte (c : RequestCommand) : Z :=
  match c with
  | RequestCommandTCP => 1
  | RequestCommandUDP => 2
  | RequestCommandMux => 3
  | RequestCommandRvs => 4
  | OtherCommand c => c
  end.

Definition command_of (b : Z) : RequestCommand :=
  if b =? 1 then RequestCommandTCP else if b =? 2 then RequestCommandUDP else if b =? 3 then RequestCommandMux
  else if b =? 4 then RequestCommandRvs else OtherCommand b.

(** [MemoryUser] with its [MemoryAccount], the fields the header depends on. *)
Record MemoryAccount := mkAccount { ac_ID : octets; ac_Flow : string }.

Record RequestHeader := mkRequest {
  rq_Version : Z;
  rq_Command : RequestCommand;
  rq_Port : Z;
  rq_Address : option Address;
  rq_User : MemoryAccount
}.

Record Addons := mkAddons { ad_Flow : string; ad_Seed : octets }.

Class AddonsCodec := {
  Marshal : Addons -> option octets;
  Unmarshal : octets -> option Addons
}.

Class AddonsLaws (C : AddonsCodec) : Prop := {
  flow_encoded : forall a, ad_Flow a = XRV -> ad_Seed a = [] -> exists l, Marshal a = Some l /\ Forall is_octet l
    /\ 0 < Len l < 256 /\ Unmarshal l = Some a
}.

Definition mux_address : Address := DomainAddress "v1.mux.cool".
Definition rvs_address : Address := DomainAddress "v1.rvs.cool".

Section Header.
Context `{G : GeoParams, C : AddonsCodec}.

Definition EncodeHeaderAddons (b : octets) (addons : Addons) : result wire_error octets :=
  if bool_decide (ad_Flow addons = XRV) then
    match Marshal addons with
    | None => Err BadAddons
    | Some l => let! b := put b [low_byte (Len l)] in put b l
    end
  else put b [0].

Definition DecodeHeaderAddons (r : octets) : result wire_error (Addons * octets) :=
  let! (b, r) := ReadFullFrom [] r 1 in
  let length := last_byte b in
  if length =? 0 then Ok (mkAddons "" [], r)
  else
    let! (b, r) := ReadFullFrom [] r length in
    match Unmarshal b with Some a => Ok (a, r) | None => Err BadAddons end.

(** A request without an address is [None] of the field: writing it panics. *)
Definition EncodeRequestHeader (request : RequestHeader) (requestAddons : Addons) : option (result wire_error octets) :=
  let? b := Some (put [] [rq_Version request]) in
  let? b := Some (put b (ac_ID (rq_User request))) in
  let? b := Some (EncodeHeaderAddons b requestAddons) in
  let? b := Some (put b [command_byte (rq_Command request)]) in
  if bool_decide (rq_Command request = RequestCommandMux) || bool_decide (rq_Command request = RequestCommandRvs) then Some (Ok b)
  else match rq_Address request with
       | None => None
       | Some addr => Some (WriteAddressPort b addr (rq_Port request))
       end.

(** [DecodeRequestHeader]: [first] is the first read of a server that may fall
    back to another service, and the error says whether it still may.  The answer
    has the identifier, the request, the add-ons and the rest of the stream.
    The inbound passes no first read of fewer than 17 bytes. *)
Definition DecodeRequestHeader (Get : octets -> option MemoryAccount) (first : option octets) (r : octets)
  : option (result (wire_error * bool) (octets * RequestHeader * Addons * octets)) :=
  let isfb := match first with Some _ => true | None => false end in
  let fail {A} (x : result wire_error A) : result (wire_error * bool) A := match x with Ok a => Ok a | Err e => Err (e, false) end in
  let? (version, r) :=
    match first with
    | Some f => match f with [] => None | v :: _ => Some (Ok (v, r)) end
    | None => Some (fail (let! (b, r) := ReadFullFrom [] r 1 in Ok (last_byte b, r)))
    end in
  if negb (version =? 0) then Some (Err (InvalidVersion, isfb))
  else
    let? (id, r) :=
      match first with
      | Some f => if Len f <? 17 then None else Some (Ok (BytesTo (BytesFrom f 1) 16, r))
      | None => Some (fail (ReadFullFrom [] r 16))
      end in
    match Get id with
    | None => Some (Err (InvalidUser, isfb))
    | Some user =>
        let r := match first with Some f => BytesFrom f 17 ++ r | None => r end in
        let? (addons, r) := Some (fail (DecodeHeaderAddons r)) in
        let? (b, r) := Some (fail (ReadFullFrom [] r 1)) in
        let command := command_of (last_byte b) in
        match
          match command with
          | RequestCommandMux => Some (Ok (Some mux_address, 0, r))
          | RequestCommandRvs => Some (Ok (Some rvs_address, 0, r))
          | RequestCommandTCP | RequestCommandUDP =>
              match ReadAddressPort b r with
              | None => None
              | Some (Ok (addr, port, _, r)) => Some (Ok (addr, port, r))
              | Some (Err e) => Some (Ok (None, 0, r))
              end
          | OtherCommand _ => Some (Ok (None, 0, r))
          end
        with
        | None => None
        | Some (Err e) => Some (Err (e, false))
        | Some (Ok (None, _, _)) => Some (Err (InvalidAddress, false))
        | Some (Ok (Some addr, port, r)) => Some (Ok (id, mkRequest version command port (Some addr) user, addons, r))
        end
    end.

Definition EncodeResponseHeader (request : RequestHeader) (responseAddons : Addons) : result wire_error octets :=
  let! b := put [] [rq_Version request] in EncodeHeaderAddons b responseAddons.

Definition DecodeResponseHeader (request : RequestHeader) (r : octets) : result wire_error (Addons * octets) :=
  let! (b, r) := ReadFullFrom [] r 1 in
  if last_byte b =? rq_Version request then DecodeHeaderAddons r else Err UnexpectedVersion.
End Header.

(** ** Packets *)

(** [MultiLengthPacketWriter.WriteMultiBuffer]: each buffer that is not empty and
    leaves room for its length becomes a packet. *)
Definition packet_of (b : octets) : option octets :=
  if (Len b =? 0) || (Size <? Len b + 2) then None else Some (two_octets (Len b) ++ b).
Definition MultiLengthPacketWriter (mb : list octets) : list octets := omap packet_of mb.

(** [LengthPacketWriter.WriteMultiBuffer]: all buffers become one packet. *)
Definition LengthPacketWriter (mb : list octets) : octets :=
  let length := Len (mjoin mb) in if length =? 0 then [] else two_octets length ++ mjoin mb.

(** [readLengthPacketPayload]: the payload in buffers of [Size]. *)
Fixpoint readLengthPacketPayload (fuel : nat) (length : Z) (r : octets) : result wire_error (list octets * octets) :=
  match fuel with
  | O => Err OutOfBound
  | S fuel =>
      if 0 <? length then
        let size := Z.min length Size in
        let! (b, r) := ReadFullFrom [] r size in
        let! (mb, r) := readLengthPacketPayload fuel (length - size) r in
        Ok (b :: mb, r)
      else Ok ([], r)
  end.

(** A packet has at most 65535 bytes, eight buffers. *)
Definition payload_fuel : nat := 9.

Definition LengthPacketReader (r : octets) : result wire_error (list octets * octets) :=
  let! (cache, r) := ReadFullFrom [] r 2 in
  readLengthPacketPayload payload_fuel (PortFromBytes cache) r.

(** ** The request of a connection *)

Record Target := mkTarget { tg_Address : Address; tg_Port : Z; tg_Network : Network }.

Inductive process_error := TargetNotSpecified | NiceTry | RejectedUDP443 | OnlyTLS.

Definition is_domain (a : Address) (d : string) : bool :=
  match a with DomainAddress x => bool_decide (x = d) | IPAddress _ => false end.

(** The command for a target. *)
Definition process_command (target : Target) : result process_error RequestCommand :=
  let command := if bool_decide (tg_Network target = Network_UDP) then RequestCommandUDP else RequestCommandTCP in
  if is_domain (tg_Address target) "v1.mux.cool" then Ok RequestCommandMux
  else if is_domain (tg_Address target) "v1.rvs.cool" then
    if bool_decide (tg_Network target = Network_Unknown) then Ok RequestCommandRvs else Err NiceTry
  else Ok command.

(** [Handler.Process] up to the header: [secure] is whether the connection to the
    server is one whose TLS records can be reached, [cone] the setting of the
    engine.  The request and the add-ons that are sent. *)
Definition process_request (account : MemoryAccount) (cone secure : bool) (target : Target)
  : result process_error (RequestHeader * Addons) :=
  if bool_decide (tg_Network target = Network_Unknown) && negb (is_domain (tg_Address target) "v1.rvs.cool")
  then Err TargetNotSpecified
  else
    let! command := process_command target in
    let allowUDP443 := bool_decide (ac_Flow account = XRV +:+ "-udp443") in
    let flow := if allowUDP443 then XRV else ac_Flow account in
    let! _ :=
      if bool_decide (flow = XRV) then
        match command with
        | RequestCommandUDP => if negb allowUDP443 && (tg_Port target =? 443) then Err RejectedUDP443 else Ok tt
        | _ => if secure then Ok tt else Err OnlyTLS
        end
      else Ok tt in
    let addons := mkAddons flow [] in
    if bool_decide (command = RequestCommandUDP) &&
       (bool_decide (flow = XRV) || cone && negb (tg_Port target =? 53) && negb (tg_Port target =? 443))
    then Ok (mkRequest Version RequestCommandMux 666 (Some mux_address) account, addons)
    else Ok (mkRequest Version command (tg_Port target) (Some (tg_Address target)) account, addons).

(** ** Bytes and buffers *)

Lemma byte_octet c : is_octet (byte c).
Proof. unfold is_octet, byte. pose proof (N_ascii_bounded c). lia. Qed.

Lemma bytes_octets s : Forall is_octet (bytes s).
Proof. unfold bytes. apply Forall_fmap, Forall_true. intros c. apply byte_octet. Qed.

Lemma text_bytes s : text (bytes s) = s.
Proof.
  unfold text, bytes. rewrite <- list_fmap_compose. rewrite (list_fmap_ext _ id).
  - rewrite list_fmap_id. apply String.string_of_list_ascii_of_string.
  - intros i c _. unfold compose, byte. cbn. by rewrite N2Z.id, ascii_N_embedding.
Qed.

Lemma bytes_text l : Forall is_octet l -> bytes (text l) = l.
Proof.
  intros Hl. unfold text, bytes. rewrite bytes_of_string_of, <- list_fmap_compose.
  induction Hl as [|b l Hb Hl IH]; [done|]. cbn. rewrite IH. f_equal. unfold byte. unfold is_octet in Hb.
  rewrite N_ascii_embedding; lia.
Qed.

Lemma Len_nil : Len [] = 0.
Proof. done. Qed.

Lemma Len_two n : Len (two_octets n) = 2.
Proof. done. Qed.

(** Lengths of what is put together. *)
Ltac lens := rewrite ?Len_app, ?Len_two, ?Len_cons, ?Len_nil in *; unfold Size in *; lia.

Lemma put_ok b data : Len b + Len data <= Size -> put b data = Ok (b ++ data).
Proof. intros H. unfold put. by rewrite (proj2 (Z.leb_le _ _)) by done. Qed.

Lemma ReadFullFrom_ok b d r : Len b + Len d <= Size -> ReadFullFrom b (d ++ r) (Len d) = Ok (b ++ d, r).
Proof.
  intros H. unfold ReadFullFrom. pose proof (Len_nonneg d). pose proof (Len_nonneg r). rewrite (proj2 (Z.ltb_ge Size _)) by lia.
  destruct (Len d =? 0) eqn:E; [destruct d; [by rewrite app_nil_r|unfold Len in E; cbn in E; lia]|].
  rewrite Len_app, (proj2 (Z.eqb_neq (Len d + Len r) 0)), (proj2 (Z.ltb_ge (Len d + Len r) (Len d))) by lia.
  unfold BytesTo, BytesFrom, Len. rewrite Nat2Z.id, take_app_length, drop_app_length. done.
Qed.

Lemma BytesSince_app b d : 0 < Len d -> BytesSince (b ++ d) (Len d) = d.
Proof.
  intros H. unfold BytesSince. rewrite (proj2 (Z.ltb_lt 0 _)), Len_app by done. unfold BytesFrom.
  replace (Z.to_nat _) with (length b) by (unfold Len; lia). apply drop_app_length.
Qed.

Lemma read_n b d r n : Len d = n -> Len b + n <= Size -> ReadFullFrom b (d ++ r) n = Ok (b ++ d, r).
Proof. intros <-. apply ReadFullFrom_ok. Qed.

Lemma since_n b d n : Len d = n -> 0 < n -> BytesSince (b ++ d) n = d.
Proof. intros <-. apply BytesSince_app. Qed.

Lemma last_byte_snoc b x : last_byte (b ++ [x]) = x.
Proof. unfold last_byte. by rewrite last_snoc. Qed.

Lemma Len_one x : Len [x] = 1.
Proof. done. Qed.

Lemma read_one b x r : Len b + 1 <= Size -> ReadFullFrom b (x :: r) 1 = Ok (b ++ [x], r).
Proof. intros H. by apply (ReadFullFrom_ok b [x] r). Qed.

Lemma PortFromBytes_two n : 0 <= n < 65536 -> PortFromBytes (two_octets n) = n.
Proof. apply two_bytes. Qed.

(** ** Addresses *)

(** An address the engine holds: an IPv4 address has four bytes, a name is not
    the text of an address, and its bytes are those of a host name. *)
Definition good_address `{G : GeoParams} (a : Address) : Prop :=
  match a with
  | IPAddress ip => Forall is_octet ip /\ (length ip = 4%nat \/ length ip = 16%nat /\ To4 ip = None)
  | DomainAddress d => 0 < Len (bytes d) < 256 /\ isValidDomain (bytes d) = true /\ ParseAddress d = None
  end.

Definition address_bytes (a : Address) : octets :=
  match a with
  | IPAddress ip => (if (length ip =? 4)%nat then AddressTypeIPv4 else AddressTypeIPv6) :: ip
  | DomainAddress d => AddressTypeDomain :: Len (bytes d) :: bytes d
  end.

Section Addresses_read.
Context `{G : GeoParams}.

Lemma address_bytes_short a : good_address a -> Len (address_bytes a) <= 257.
Proof.
  destruct a as [ip|d]; cbn [good_address address_bytes].
  - intros [_ Hl]. rewrite Len_cons. unfold Len. lia.
  - intros ([_ Hl] & _). rewrite !Len_cons. lia.
Qed.

Lemma writeAddress_ok b a : good_address a -> Len b + 257 <= Size -> writeAddress b a = Ok (b ++ address_bytes a).
Proof.
  intros Ha Hb. pose proof (address_bytes_short a Ha) as Hs. destruct a as [ip|d]; cbn [good_address address_bytes writeAddress] in *.
  - rewrite Len_cons in Hs. pose proof (Len_nonneg ip). rewrite put_ok by (rewrite Len_one; lia). cbn [result_bind].
    rewrite put_ok by (rewrite Len_app, Len_one; lia). by rewrite <- app_assoc.
  - destruct Ha as ([Hl0 Hl] & _). rewrite !Len_cons in Hs. unfold isDomainTooLong. rewrite (proj2 (Z.ltb_ge 256 _)) by lia.
    unfold low_byte. rewrite uwrap_id by lia. rewrite put_ok by (rewrite !Len_cons; change (Len []) with 0; lia). cbn [result_bind].
    rewrite put_ok by (rewrite Len_app, !Len_cons; change (Len []) with 0; lia). by rewrite <- app_assoc.
Qed.

Lemma readAddress_ok b a r : good_address a -> Len b + 257 <= Size ->
  readAddress b (address_bytes a ++ r) = Some (Ok (Some a, b ++ address_bytes a, r)).
Proof.
  intros Ha Hb. unfold readAddress. destruct a as [ip|d]; cbn [good_address address_bytes app] in *; rewrite read_one by lia;
    cbn [outcome_bind]; rewrite last_byte_snoc.
  - destruct Ha as [_ [Hl|[Hl H4]]]; rewrite Hl; cbn [Nat.eqb]; unfold AddressTypeIPv4, AddressTypeIPv6; cbn [Z.eqb Pos.eqb].
    + rewrite (read_n _ ip), (since_n _ ip) by (done || (unfold Len; lia) || (rewrite Len_app, Len_one; lia)). rewrite <- app_assoc.
      do 5 (destruct ip as [|? ip]; try done).
    + rewrite (read_n _ ip), (since_n _ ip) by (done || (unfold Len; lia) || (rewrite Len_app, Len_one; lia)). rewrite <- app_assoc.
      unfold net_IPAddress. by rewrite H4, Hl.
  - destruct Ha as ([Hl0 Hl] & Hv & Hp). cbn [Z.eqb Pos.eqb AddressTypeDomain AddressTypeIPv4 AddressTypeIPv6].
    rewrite read_one by (rewrite Len_app, Len_one; lia). cbn [outcome_bind]. rewrite last_byte_snoc.
    rewrite ReadFullFrom_ok by (rewrite !Len_app, !Len_one; lia). cbn [outcome_bind]. rewrite BytesSince_app by done.
    rewrite text_bytes, Hp, Hv, <- !app_assoc. destruct (bytes d) as [|c l]; [done|]. by destruct (maybeIPPrefix c).
Qed.

Lemma ReadAddressPort_ok b a port r : good_address a -> 0 <= port < 65536 -> Len b + 259 <= Size ->
  exists b', ReadAddressPort b (two_octets port ++ address_bytes a ++ r) = Some (Ok (Some a, port, b', r)).
Proof.
  intros Ha Hp Hb. unfold ReadAddressPort, readPort. rewrite (ReadFullFrom_ok b (two_octets port)) by (lens).
  cbn [result_bind outcome_bind]. change 2 with (Len (two_octets port)). rewrite BytesSince_app by done. rewrite PortFromBytes_two by done.
  rewrite readAddress_ok by (done || lens). cbn [outcome_bind]. by eexists.
Qed.
End Addresses_read.

(** ** The header and its decoder *)

(** What the other end learns of the add-ons: only the one flow is sent. *)
Definition known_addons (a : Addons) : Addons := if bool_decide (ad_Flow a = XRV) then a else mkAddons "" [].

(** What it learns of the target: the commands of the multiplexer have none. *)
Definition sent_target (request : RequestHeader) : option Address * Z :=
  match rq_Command request with
  | RequestCommandMux => (Some mux_address, 0)
  | RequestCommandRvs => (Some rvs_address, 0)
  | _ => (rq_Address request, rq_Port request)
  end.

(** A request a client sends for a user the server knows. *)
Record good_request `{G : GeoParams} (Get : octets -> option MemoryAccount) (request : RequestHeader) : Prop := mkGoodRequest {
  gr_version : rq_Version request = 0;
  gr_id : Forall is_octet (ac_ID (rq_User request)) /\ length (ac_ID (rq_User request)) = 16%nat;
  gr_user : Get (ac_ID (rq_User request)) = Some (rq_User request);
  gr_port : 0 <= rq_Port request < 65536;
  gr_target :
    match rq_Command request with
    | RequestCommandTCP | RequestCommandUDP => exists a, rq_Address request = Some a /\ good_address a
    | RequestCommandMux | RequestCommandRvs => True
    | OtherCommand _ => False
    end
}.

Section Header_read.
Context `{G : GeoParams, C : AddonsCodec, L : !AddonsLaws C}.

Lemma addons_ok a : ad_Seed a = [] -> exists l, Len l <= 256 /\
  (forall b, Len b + 256 <= Size -> EncodeHeaderAddons b a = Ok (b ++ l)) /\
  forall r, DecodeHeaderAddons (l ++ r) = Ok (known_addons a, r).
Proof using L.
  intros Hs. unfold EncodeHeaderAddons, known_addons. destruct (decide (ad_Flow a = XRV)) as [Hf|Hf].
  - rewrite bool_decide_true by done. destruct (flow_encoded a Hf Hs) as (l & -> & Hl & Hn & Hu).
    exists (Len l :: l). rewrite Len_cons. split; [lia|]. split.
    + intros b Hb. unfold low_byte. rewrite uwrap_id by lia. rewrite put_ok by (rewrite Len_one; lia). cbn [result_bind].
      rewrite put_ok by (rewrite Len_app, Len_one; lia). by rewrite <- app_assoc.
    + intros r. unfold DecodeHeaderAddons. cbn [app]. rewrite read_one by done. cbn [result_bind]. change ([] ++ [Len l]) with [Len l].
      unfold last_byte at 1. cbn [last default from_option id]. rewrite (proj2 (Z.eqb_neq (Len l) 0)) by lia.
      change (last_byte [Len l]) with (Len l). rewrite ReadFullFrom_ok by (change (Len []) with 0; unfold Size; lia).
      cbn [result_bind app]. by rewrite Hu.
  - rewrite bool_decide_false by done. exists [0]. split; [done|]. split; [intros b Hb; apply put_ok; rewrite Len_one; lia|].
    intros r. unfold DecodeHeaderAddons. cbn [app]. by rewrite read_one.
Qed.

Lemma command_roundtrip c : match c with OtherCommand _ => False | _ => True end -> command_of (command_byte c) = c.
Proof using. by destruct c. Qed.

(** The server reads back the request a client wrote, whatever follows it: the
    identifier of the user, the command, the target and the flow; nothing of what
    follows is lost.  The header is never too long for its buffer. *)
Theorem request_roundtrip Get request addons : good_request Get request -> ad_Seed addons = [] ->
  exists header, EncodeRequestHeader request addons = Some (Ok header) /\ Len header <= Size /\
  forall rest, DecodeRequestHeader Get None (header ++ rest)
    = Some (Ok (ac_ID (rq_User request),
                mkRequest 0 (rq_Command request) (sent_target request).2 (sent_target request).1 (rq_User request),
                known_addons addons, rest)).
Proof using L.
  intros [Hv [Ho Hid] Hu Hp Ht] Hs. destruct (addons_ok addons Hs) as (l & Hl & He & Hd). pose proof (Len_nonneg l).
  assert (Hid' : Len (ac_ID (rq_User request)) = 16) by (unfold Len; lia). set (id := ac_ID (rq_User request)) in *.
  set (target := match rq_Command request with
                 | RequestCommandTCP | RequestCommandUDP =>
                     match rq_Address request with Some a => two_octets (rq_Port request) ++ address_bytes a | None => [] end
                 | _ => []
                 end).
  exists ([0] ++ id ++ l ++ [command_byte (rq_Command request)] ++ target). split; [|split].
  - unfold EncodeRequestHeader. rewrite Hv. rewrite put_ok by lens. cbn [outcome_bind]. fold id.
    rewrite put_ok by lens. cbn [outcome_bind].
    rewrite He by lens. cbn [outcome_bind].
    rewrite put_ok by lens. cbn [outcome_bind].
    destruct (rq_Command request) eqn:Ec; try done; cbn [bool_decide orb].
    1-2: destruct Ht as (a & Ha & Hg); rewrite !bool_decide_false, Ha by done; cbn [orb];
      unfold WriteAddressPort, target; rewrite Ha; rewrite put_ok by lens;
      cbn [result_bind]; rewrite writeAddress_ok by (done || lens);
      by rewrite <- !app_assoc.
    all: match goal with |- context [if ?c then _ else _] => replace c with true by reflexivity end;
      unfold target; by rewrite <- !app_assoc.
  - rewrite !Len_app, Hid', !Len_one. enough (Len target <= 259) by (unfold Size; lia).
    unfold target. destruct (rq_Command request); [| |done|done|done].
    all: destruct Ht as (a & -> & Hg); pose proof (address_bytes_short a Hg); lens.
  - intros rest. unfold DecodeRequestHeader. rewrite <- !app_assoc. cbn [app]. rewrite read_one by done. cbn [result_bind outcome_bind].
    change (last_byte ([] ++ [0])) with 0. cbn [Z.eqb negb].
    rewrite (read_n [] id) by (done || (rewrite Hid'; done)). cbn [outcome_bind app]. rewrite Hu, Hd. cbn [outcome_bind].
    rewrite read_one by done. cbn [outcome_bind app]. change (last_byte [?x]) with x.
    rewrite command_roundtrip by (by destruct (rq_Command request)). unfold sent_target.
    destruct (rq_Command request) eqn:Ec; try done.
    all: destruct Ht as (a & Ha & Hg); unfold target; rewrite Ha, <- app_assoc.
    + by destruct (ReadAddressPort_ok [command_byte RequestCommandTCP] a (rq_Port request) rest Hg Hp ltac:(lens)) as (b' & ->).
    + by destruct (ReadAddressPort_ok [command_byte RequestCommandUDP] a (rq_Port request) rest Hg Hp ltac:(lens)) as (b' & ->).
Qed.

(** The answer to a request is read back as well. *)
Theorem response_roundtrip request addons : 0 <= rq_Version request < 256 -> ad_Seed addons = [] ->
  exists header, EncodeResponseHeader request addons = Ok header /\
  forall rest, DecodeResponseHeader request (header ++ rest) = Ok (known_addons addons, rest).
Proof using L.
  intros Hv Hs. destruct (addons_ok addons Hs) as (l & Hl & He & Hd). exists ([rq_Version request] ++ l). split.
  - unfold EncodeResponseHeader. rewrite put_ok by lens. cbn [result_bind]. by rewrite He by lens.
  - intros rest. unfold DecodeResponseHeader. cbn [app]. rewrite read_one by lens. cbn [result_bind app].
    change (last_byte [?x]) with x. unfold last_byte. cbn [last default from_option id]. by rewrite Z.eqb_refl, Hd.
Qed.
End Header_read.

(** ** No byte of a client makes the decoder fail at run time *)

Section Decoding_total.
Context `{G : GeoParams}.

Lemma ReadFullFrom_octets b r n b' r' : 0 <= n -> Forall is_octet r -> ReadFullFrom b r n = Ok (b', r') ->
  Forall is_octet r' /\ exists d, b' = b ++ d /\ Len d = n /\ Forall is_octet d.
Proof using.
  intros Hn Ho. unfold ReadFullFrom. destruct (Size <? Len b + n); [done|]. destruct (n =? 0) eqn:E0.
  { intros [= <- <-]. split; [done|]. exists []. rewrite app_nil_r. split; [done|]. split; [rewrite Len_nil; lia|done]. }
  destruct (Len r =? 0); [done|]. destruct (Len r <? n) eqn:El; [done|]. intros [= <- <-].
  split; [by apply Forall_drop|]. exists (BytesTo r n). split; [done|]. split; [|by apply Forall_take].
  unfold BytesTo, Len in *. rewrite length_take. lia.
Qed.

Lemma last_byte_read b d : Len d = 1 -> last_byte (b ++ d) = hd 0 d.
Proof using. intros H. destruct d as [|x [|y d]]; [done|apply last_byte_snoc|]. rewrite !Len_cons in H. pose proof (Len_nonneg d). lia. Qed.

Lemma readAddress_total b r : Forall is_octet r -> readAddress b r <> None.
Proof using.
  intros Ho. unfold readAddress. destruct (ReadFullFrom b r 1) as [[b1 r1]|e] eqn:E1; [|done]. cbn [outcome_bind].
  destruct (ReadFullFrom_octets _ _ 1 _ _ ltac:(lia) Ho E1) as [Ho1 (d1 & -> & Hd1 & _)]. rewrite last_byte_read by done.
  destruct (_ =? _); [by destruct (ReadFullFrom _ r1 4) as [[? ?]|]|]. destruct (_ =? _); [by destruct (ReadFullFrom _ r1 16) as [[? ?]|]|].
  destruct (_ =? _); [|done]. destruct (ReadFullFrom _ r1 1) as [[b2 r2]|e] eqn:E2; [|done]. cbn [outcome_bind].
  destruct (ReadFullFrom_octets _ _ 1 _ _ ltac:(lia) Ho1 E2) as [Ho2 (d2 & -> & Hd2 & Hb2)]. rewrite last_byte_read by done.
  assert (Hn : 0 <= hd 0 d2) by (destruct Hb2 as [|x ? [Hx _]]; [done|exact Hx]).
  destruct (ReadFullFrom _ r2 _) as [[b3 r3]|e] eqn:E3; [|done]. cbn [outcome_bind].
  destruct (ReadFullFrom_octets _ _ _ _ _ Hn Ho2 E3) as [_ (d3 & -> & Hd3 & _)].
  set (domain := BytesSince _ _). assert (Hne : domain <> []).
  { unfold domain. destruct (decide (hd 0 d2 = 0)) as [E0|Hnz].
    - unfold BytesSince. rewrite E0. cbn. destruct b, d1; done.
    - rewrite <- Hd3. rewrite BytesSince_app by lia. intros ->. by rewrite Len_nil in Hd3. }
  destruct domain as [|c l]; [done|]. destruct (if maybeIPPrefix c then _ else _); [done|]. by destruct (isValidDomain _).
Qed.

Lemma ReadAddressPort_total b r : Forall is_octet r -> ReadAddressPort b r <> None.
Proof using.
  intros Ho. unfold ReadAddressPort, readPort. destruct (ReadFullFrom b r 2) as [[b1 r1]|e] eqn:E; [|done]. cbn [result_bind outcome_bind].
  destruct (ReadFullFrom_octets _ _ 2 _ _ ltac:(lia) Ho E) as [Ho1 _]. pose proof (readAddress_total b1 r1 Ho1) as H.
  destruct (readAddress b1 r1) as [[[[? ?] ?]|]|]; done.
Qed.

Context `{C : AddonsCodec}.

Lemma DecodeHeaderAddons_octets r a r' : Forall is_octet r -> DecodeHeaderAddons r = Ok (a, r') -> Forall is_octet r'.
Proof using.
  intros Ho. unfold DecodeHeaderAddons. destruct (ReadFullFrom [] r 1) as [[b1 r1]|e] eqn:E1; [|done]. cbn [result_bind].
  destruct (ReadFullFrom_octets _ _ 1 _ _ ltac:(lia) Ho E1) as [Ho1 (d & -> & Hd & Hb)]. rewrite last_byte_read by done.
  destruct (hd 0 d =? 0); [by intros [= _ <-]|].
  assert (Hn : 0 <= hd 0 d) by (destruct Hb as [|x ? [Hx _]]; [done|exact Hx]).
  destruct (ReadFullFrom [] r1 _) as [[b2 r2]|e] eqn:E2; [|done]. cbn [result_bind].
  destruct (ReadFullFrom_octets _ _ _ _ _ Hn Ho1 E2) as [Ho2 _]. by destruct (Unmarshal b2); [intros [= _ <-]|].
Qed.

(** C18. Whatever bytes a client sends, decoding them answers: it never indexes
    outside what was read, not even for a name of no length. *)
Theorem DecodeRequestHeader_total Get first r : Forall is_octet r ->
  match first with Some f => Forall is_octet f /\ 17 <= Len f | None => True end ->
  DecodeRequestHeader Get first r <> None.
Proof using.
  intros Ho Hf. unfold DecodeRequestHeader.
  assert (Htail : forall version id user r0 fl, Forall is_octet r0 ->
    (let? (addons, r1) := Some (match DecodeHeaderAddons r0 with Ok a => Ok a | Err e => Err (e, fl) end) in
     let? (b, r2) := Some (match ReadFullFrom [] r1 1 with Ok a => Ok a | Err e => Err (e, fl) end) in
     match match command_of (last_byte b) with
           | RequestCommandMux => Some (Ok (Some mux_address, 0, r2))
           | RequestCommandRvs => Some (Ok (Some rvs_address, 0, r2))
           | RequestCommandTCP | RequestCommandUDP =>
               match ReadAddressPort b r2 with
               | None => None
               | Some (Ok (addr, port, _, r)) => Some (Ok (addr, port, r))
               | Some (Err e) => Some (Ok (None, 0, r2))
               end
           | OtherCommand _ => Some (Ok (None, 0, r2))
           end with
     | None => None
     | Some (Err e) => Some (Err (e, fl))
     | Some (Ok (None, _, _)) => Some (Err (InvalidAddress, fl))
     | Some (Ok (Some addr, port, r)) =>
         Some (Ok (id, mkRequest version (command_of (last_byte b)) port (Some addr) user, addons, r))
     end) <> None :> option (result (wire_error * bool) (octets * RequestHeader * Addons * octets))).
  { intros version id user r0 fl Ho0. destruct (DecodeHeaderAddons r0) as [[addons r1]|e] eqn:Ea; [|done]. cbn [outcome_bind].
    apply DecodeHeaderAddons_octets in Ea; [|done]. destruct (ReadFullFrom [] r1 1) as [[b r2]|e] eqn:E2; [|done]. cbn [outcome_bind].
    destruct (ReadFullFrom_octets _ _ 1 _ _ ltac:(lia) Ea E2) as [Ho2 _]. pose proof (ReadAddressPort_total b r2 Ho2) as Ht.
    destruct (command_of _); try done; destruct (ReadAddressPort b r2) as [[[[[[?|] ?] ?] ?]|]|]; done. }
  destruct first as [f|].
  - destruct Hf as [Hof Hlf]. destruct f as [|v f]; [by rewrite Len_nil in Hlf|]. cbn [outcome_bind].
    destruct (negb (v =? 0)); [done|]. rewrite (proj2 (Z.ltb_ge _ 17)) by done. cbn [outcome_bind].
    destruct (Get _) as [user|]; [|done]. apply Htail. apply Forall_app. split; [by apply Forall_drop|done].
  - destruct (ReadFullFrom [] r 1) as [[b r1]|e] eqn:E1; [|done]. cbn [result_bind outcome_bind].
    destruct (ReadFullFrom_octets _ _ 1 _ _ ltac:(lia) Ho E1) as [Ho1 _]. destruct (negb (_ =? 0)); [done|].
    destruct (ReadFullFrom [] r1 16) as [[id r2]|e] eqn:E2; [|done]. cbn [outcome_bind].
    destruct (ReadFullFrom_octets _ _ 16 _ _ ltac:(lia) Ho1 E2) as [Ho2 _].
    destruct (Get _) as [user|]; [|done]. by apply Htail.
Qed.
End Decoding_total.

(** ** Packets and requests as a whole *)

Lemma payload_ok fuel : forall n p r, Len p = n -> n <= (Z.of_nat fuel - 1) * Size ->
  exists mb, readLengthPacketPayload fuel n (p ++ r) = Ok (mb, r) /\ mjoin mb = p /\ Forall (fun b => Len b <= Size) mb.
Proof.
  induction fuel as [|fuel IH]; intros n p r Hn Hf; [unfold Size in Hf; pose proof (Len_nonneg p); lia|]. cbn [readLengthPacketPayload].
  destruct (0 <? n) eqn:E; [|exists []; destruct p as [|c p]; [done|rewrite Len_cons in Hn; pose proof (Len_nonneg p); lia]].
  set (size := Z.min n Size). assert (Hs : 0 < size <= n /\ size <= Size) by (unfold size, Size; lia).
  assert (Hd : size = n \/ size = Size) by (unfold size; lia). clearbody size.
  replace (p ++ r) with (take (Z.to_nat size) p ++ drop (Z.to_nat size) p ++ r) by (by rewrite app_assoc, take_drop).
  assert (Ht : Len (take (Z.to_nat size) p) = size) by (unfold Len in *; rewrite length_take; lia).
  rewrite (read_n [] (take _ p)) by (done || lens). cbn [result_bind app].
  destruct (IH (n - size) (drop (Z.to_nat size) p) r) as (mb & -> & Hj & Hl).
  { unfold Len in *. rewrite length_drop. lia. }
  { unfold Size in *. destruct Hd as [->|Hd]; lia. }
  cbn [result_bind]. eexists. split; [done|]. split; [change (take (Z.to_nat size) p ++ mjoin mb = p); by rewrite Hj, take_drop|]. constructor; [lia|done].
Qed.

(** Reading packets off a stream. *)
Fixpoint read_packets (n : nat) (r : octets) : result wire_error (list octets * octets) :=
  match n with
  | O => Ok ([], r)
  | S n =>
      let! (mb, r) := LengthPacketReader r in
      let! (packets, r) := read_packets n r in
      Ok (mjoin mb :: packets, r)
  end.

Lemma packet_ok p r : Len p < 65536 -> exists mb, LengthPacketReader (two_octets (Len p) ++ p ++ r) = Ok (mb, r)
  /\ mjoin mb = p /\ Forall (fun b => Len b <= Size) mb.
Proof.
  intros Hp. pose proof (Len_nonneg p). unfold LengthPacketReader. rewrite (read_n [] (two_octets _)) by (done || lens). cbn [result_bind app].
  rewrite PortFromBytes_two by lia. apply payload_ok; [done|unfold payload_fuel, Size; lia].
Qed.

(** C29. The packets the client writes are read one by one as they were: a buffer that
    is empty or leaves no room for its length is left out, no other is lost,
    joined or cut, and what follows is untouched. *)
Theorem packets_roundtrip mb rest :
  read_packets (length (MultiLengthPacketWriter mb)) (mjoin (MultiLengthPacketWriter mb) ++ rest)
  = Ok (filter (fun b => 0 < Len b <= Size - 2) mb, rest).
Proof.
  induction mb as [|b mb IH]; [done|]. rewrite filter_cons. pose proof (Len_nonneg b).
  assert (E : MultiLengthPacketWriter (b :: mb) = match packet_of b with Some p => p :: MultiLengthPacketWriter mb | None => MultiLengthPacketWriter mb end)
    by reflexivity.
  rewrite E. clear E. set (packets := MultiLengthPacketWriter mb) in *. clearbody packets. unfold packet_of.
  destruct ((Len b =? 0) || (Size <? Len b + 2)) eqn:E.
  - rewrite decide_False by lia. exact IH.
  - rewrite decide_True by lia. change (mjoin ((two_octets (Len b) ++ b) :: packets)) with ((two_octets (Len b) ++ b) ++ mjoin packets).
    cbn [length read_packets]. rewrite <- !app_assoc.
    destruct (packet_ok b (mjoin packets ++ rest)) as (l & -> & Hj & _); [unfold Size in *; lia|].
    cbn [result_bind]. rewrite IH. cbn [result_bind]. by rewrite Hj.
Qed.

Section Request.
Context `{G : GeoParams, C : AddonsCodec, L : !AddonsLaws C}.

End Request.

(** ** An example *)

(** The one message that is sent, as protobuf writes it: the field, its length and
    the text. *)
#[local] Instance flow_codec : AddonsCodec := {|
  Marshal a := Some ([10; low_byte (Len (bytes (ad_Flow a)))] ++ bytes (ad_Flow a));
  Unmarshal l := match l with
                 | 10 :: n :: flow => if Len flow =? n then Some (mkAddons (text flow) []) else None
                 | _ => None
                 end
|}.

#[local] Instance flow_laws : AddonsLaws flow_codec.
Proof.
  constructor. intros [flow seed]. cbn. intros -> ->. eexists. split; [done|]. split; [|split; [done|done]].
  repeat constructor; unfold is_octet; vm_compute; done.
Qed.

Definition example_account : MemoryAccount := mkAccount (replicate 16 7) XRV.
Definition example_users (id : octets) : option MemoryAccount :=
  if bool_decide (id = ac_ID example_account) then Some example_account else None.
Definition example_target : Target := mkTarget (DomainAddress "example.org") 8443 Network_TCP.

#[local] Instance no_addresses : GeoParams := {|
  checkFile _ _ := false; loadSite _ _ _ := None; loadIP _ _ := None; net_ParseIP _ := None; ToUpper s := s;
  regex_compiles _ := false; regex_match _ _ := false; ac_match _ _ := false
|}.


Example DecodeRequestHeader_total_witness :
  DecodeRequestHeader example_users None (0 :: replicate 16 7 ++ [0; 1; 31; 144; 2; 0]) = Some (Err (InvalidAddress, false)).
Proof.
  pose proof (DecodeRequestHeader_total example_users None (0 :: replicate 16 7 ++ [0; 1; 31; 144; 2; 0])) as H.
  destruct (DecodeRequestHeader example_users None _) as [r|] eqn:E; [rewrite <- E; vm_compute; reflexivity|].
  exfalso. apply H; [vm_compute; repeat constructor; discriminate|exact I|reflexivity].
Defined.

(** A name of 256 bytes is not too long for the writer, and its length does not
    fit in the byte written for it: the server cannot read the request. *)
Example domain_of_256 :
  let request := mkRequest 0 RequestCommandTCP 443 (Some (DomainAddress (text (replicate 256 97)))) example_account in
  match EncodeRequestHeader request (mkAddons "" []) with
  | Some (Ok header) => DecodeRequestHeader example_users None header = Some (Err (InvalidAddress, false))
  | _ => False
  end.
Proof. vm_compute. reflexivity. Qed.
