(* ===== verification/Pipe.v ===== *)
(** * The pipe between two goroutines: [transport/pipe] of the engine

    Every connection passes its payload through pipes: a list of buffers under a
    lock, two notifications (channels that hold one token) and a channel that is
    closed with the pipe.  A [proc] is one call that has entered the pipe, at the
    point of the code it has reached; the sections under the lock are single
    steps, and the calls interleave between them.

    A buffer is of any type with a length: of bytes here, of UDP packets in the
    inbound.  [data] is never an empty list that is not nil, because writing
    nothing does nothing. *)

From S2P Require Import Prelude Buffers.

#[local] Open Scope Z_scope.

Class Buffer (B : Type) := buffer_Len : B -> Z.
#[export] Instance octets_buffer : Buffer octets := Len.

(** [MultiBuffer.Len] and [MultiBuffer.IsEmpty]. *)
Definition mb_Len `{Buffer B} (mb : list B) : Z := foldr (fun b n => buffer_Len b + n) 0 mb.
Definition mb_IsEmpty `{Buffer B} (mb : list B) : bool := forallb (fun b => buffer_Len b =? 0) mb.
#[global] Arguments mb_Len {B _} mb : simpl never.
#[global] Arguments mb_IsEmpty {B _} mb : simpl never.

Inductive state := open | closed | errord.
#[export] Instance state_dec : EqDecision state.
Proof. solve_decision. Defined.

Inductive pipe_error := errBufferFull | ErrClosedPipe | EOF | ErrReadTimeout | ErrReturned (e : string).
#[export] Instance pipe_error_dec : EqDecision pipe_error.
Proof. solve_decision. Defined.

Record pipeOption := mkPipeOption { po_limit : Z; po_discardOverflow : bool }.

Definition isFull (o : pipeOption) (curSize : Z) : bool := (0 <=? po_limit o) && (po_limit o <? curSize).

Section Pipe.
Context {B : Type} `{Buffer B}.

(** [readSignal] and [writeSignal] hold a token or not; [done] is closed or not;
    [errChan] holds one error at most. *)
Record pipe := mkPipe {
  pp_data : list B;
  pp_readSignal : bool;
  pp_writeSignal : bool;
  pp_done : bool;
  pp_errChan : option string;
  pp_option : pipeOption;
  pp_state : state
}.

#[export] Instance pipe_eta : Eta pipe := fun p =>
  mkPipe (pp_data p) (pp_readSignal p) (pp_writeSignal p) (pp_done p) (pp_errChan p) (pp_option p) (pp_state p).

Definition New (o : pipeOption) : pipe := mkPipe [] false false false None o open.

Definition getState (forRead : bool) (p : pipe) : option pipe_error :=
  match pp_state p with
  | open => if negb forRead && isFull (pp_option p) (mb_Len (pp_data p)) then Some errBufferFull else None
  | closed =>
      if negb forRead then Some ErrClosedPipe else if negb (mb_IsEmpty (pp_data p)) then None else Some EOF
  | errord => Some ErrClosedPipe
  end.

(** The sections under the lock. *)
Definition readMultiBufferInternal (p : pipe) : pipe * list B * option pipe_error :=
  match getState true p with
  | Some e => (p, [], Some e)
  | None => (p <| pp_data := [] |>, pp_data p, None)
  end.

Definition writeMultiBufferInternal (mb : list B) (p : pipe) : pipe * option pipe_error :=
  match getState false p with
  | Some e => (p, Some e)
  | None => (p <| pp_data ::= fun data => data ++ mb |>, None)
  end.

Definition Close (p : pipe) : pipe :=
  match pp_state p with
  | open => p <| pp_state := closed |> <| pp_done := true |>
  | _ => p
  end.

Definition Interrupt (p : pipe) : pipe :=
  let p :=
    if negb (mb_IsEmpty (pp_data p)) then
      let p := p <| pp_data := [] |> in
      match pp_state p with closed => p <| pp_state := errord |> | _ => p end
    else p in
  match pp_state p with
  | open => p <| pp_state := errord |> <| pp_done := true |>
  | _ => p
  end.

(** ** The calls *)

(** A read that may time out tries once before it makes its timer. *)
Inductive waiting := Blocking | FirstTry | Timed.
#[export] Instance waiting_dec : EqDecision waiting.
Proof. solve_decision. Defined.

Inductive proc :=
| Reading (w : waiting)
| ReadWaiting (w : waiting)
| ReadSignalling (data : list B) (e : option pipe_error)
| ReadReturned (data : list B) (e : option pipe_error)
| Writing (mb : list B)
| WriteWaiting (mb : list B)
| WriteSignalling (e : option pipe_error)
| WriteReturned (e : option pipe_error).

(** What a step does with buffers. *)
Inductive effect := Nothing | Accepted (mb : list B) | Delivered (mb : list B) | Released (mb : list B).

(** [ReadMultiBuffer] and [ReadMultiBufferTimeout]. *)
Inductive read_step : pipe -> proc -> pipe -> proc -> effect -> Prop :=
| read_got p w p' data e : readMultiBufferInternal p = (p', data, e) -> data <> [] \/ e <> None ->
    read_step p (Reading w) p' (ReadSignalling data e) (Delivered data)
| read_nothing p w p' : readMultiBufferInternal p = (p', [], None) ->
    read_step p (Reading w) p' (match w with FirstTry => Reading Timed | _ => ReadWaiting w end) Nothing
| read_notified p w : pp_readSignal p = true ->
    read_step p (ReadWaiting w) (p <| pp_readSignal := false |>) (Reading w) Nothing
| read_done p w : pp_done p = true -> read_step p (ReadWaiting w) p (Reading w) Nothing
| read_error p e : pp_errChan p = Some e ->
    read_step p (ReadWaiting Blocking) (p <| pp_errChan := None |>) (ReadReturned [] (Some (ErrReturned e))) Nothing
| read_signals p data e :
    read_step p (ReadSignalling data e) (p <| pp_writeSignal := true |>) (ReadReturned data e) Nothing.

(** [WriteMultiBuffer], after it has seen that there is something to write. *)
Inductive write_step : pipe -> proc -> pipe -> proc -> effect -> Prop :=
| write_ok p mb p' : writeMultiBufferInternal mb p = (p', None) ->
    write_step p (Writing mb) p' (WriteSignalling None) (Accepted mb)
| write_overflow p mb p' : writeMultiBufferInternal mb p = (p', Some errBufferFull) -> po_discardOverflow (pp_option p) = true ->
    write_step p (Writing mb) p' (WriteReturned None) (Released mb)
| write_full p mb p' : writeMultiBufferInternal mb p = (p', Some errBufferFull) -> po_discardOverflow (pp_option p) = false ->
    write_step p (Writing mb) p' (WriteWaiting mb) Nothing
| write_failed p mb p' e : writeMultiBufferInternal mb p = (p', Some e) -> e <> errBufferFull ->
    write_step p (Writing mb) p' (WriteSignalling (Some e)) (Released mb)
| write_notified p mb : pp_writeSignal p = true ->
    write_step p (WriteWaiting mb) (p <| pp_writeSignal := false |>) (Writing mb) Nothing
| write_done p mb : pp_done p = true ->
    write_step p (WriteWaiting mb) p (WriteReturned (Some ErrClosedPipe)) (Released mb)
| write_signals p e :
    write_step p (WriteSignalling e) (p <| pp_readSignal := true |>) (WriteReturned e) Nothing.

(** ** A pipe with its calls *)

(** [ps_accepted]: all buffers a write has put in; [ps_delivered]: all that a read
    has taken out, in order. *)
Record system := mkSystem {
  ps_pipe : pipe;
  ps_procs : list proc;
  ps_accepted : list B;
  ps_delivered : list B
}.

Definition record_effect (e : effect) (s : system) : system :=
  match e with
  | Accepted mb => mkSystem (ps_pipe s) (ps_procs s) (ps_accepted s ++ mb) (ps_delivered s)
  | Delivered mb => mkSystem (ps_pipe s) (ps_procs s) (ps_accepted s) (ps_delivered s ++ mb)
  | _ => s
  end.

(** A call goes on. *)
Inductive move : system -> system -> Prop :=
| move_call s i q q' p' e : ps_procs s !! i = Some q ->
    read_step (ps_pipe s) q p' q' e \/ write_step (ps_pipe s) q p' q' e ->
    move s (record_effect e (mkSystem p' (<[i := q']> (ps_procs s)) (ps_accepted s) (ps_delivered s))).

(** What comes from outside: new calls, the timer of a read, closing, interrupting
    and an error for the reader, which only [Recover] may take back. *)
Definition with_pipe (s : system) (p : pipe) : system := mkSystem p (ps_procs s) (ps_accepted s) (ps_delivered s).

Inductive outside : system -> system -> Prop :=
| outside_read s w : w <> Timed ->
    outside s (mkSystem (ps_pipe s) (ps_procs s ++ [Reading w]) (ps_accepted s) (ps_delivered s))
| outside_write s mb :
    outside s (mkSystem (ps_pipe s) (ps_procs s ++ [if mb_IsEmpty mb then WriteReturned None else Writing mb])
                 (ps_accepted s) (ps_delivered s))
| outside_timeout s i : ps_procs s !! i = Some (ReadWaiting Timed) ->
    outside s (mkSystem (ps_pipe s) (<[i := ReadReturned [] (Some ErrReadTimeout)]> (ps_procs s)) (ps_accepted s) (ps_delivered s))
| outside_close s : outside s (with_pipe s (Close (ps_pipe s)))
| outside_interrupt s : outside s (with_pipe s (Interrupt (ps_pipe s)))
| outside_error s e : pp_errChan (ps_pipe s) = None -> outside s (with_pipe s (ps_pipe s <| pp_errChan := Some e |>))
| outside_recover s : outside s (with_pipe s (ps_pipe s <| pp_errChan := None |>)).

Definition pipe_step (s s' : system) : Prop := move s s' \/ outside s s'.

Definition new_system (o : pipeOption) : system := mkSystem (New o) [] [] [].
End Pipe.

Arguments pipe : clear implicits.
Arguments proc : clear implicits.
Arguments system : clear implicits.

(** ** Invariants *)

Section Lists.
Context {A : Type}.
Implicit Types (l : list A) (x y : A).

Lemma insert_new l i x y : l !! i = Some x -> y ∈ <[i := y]> l.
Proof. intros Hl. apply list_elem_of_lookup. exists i. apply list_lookup_insert_eq. by eapply lookup_lt_Some. Qed.

Lemma insert_keeps l i x y z : l !! i = Some x -> z ∈ l -> z <> x -> z ∈ <[i := y]> l.
Proof.
  intros Hl [j Hj]%list_elem_of_lookup Hz. apply list_elem_of_lookup. exists j.
  rewrite list_lookup_insert_ne; [done|]. intros ->. rewrite Hl in Hj. by injection Hj as ->.
Qed.

Lemma insert_from l i y z : z ∈ <[i := y]> l -> z = y \/ z ∈ l.
Proof.
  intros [j Hj]%list_elem_of_lookup. apply list_lookup_insert_Some in Hj as [(-> & <- & _)|[_ Hj]]; [by left|right].
  by eapply list_elem_of_lookup_2.
Qed.
End Lists.

Section Invariant.
Context {B : Type} `{Buffer B}.
Implicit Types (p : pipe B) (s : system B) (q : proc B).

Lemma mb_IsEmpty_app (a b : list B) : mb_IsEmpty (a ++ b) = mb_IsEmpty a && mb_IsEmpty b.
Proof. unfold mb_IsEmpty. apply forallb_app. Qed.

(** The flag [done] follows the state, and data is there when it is not nil. *)
Record pipe_ok p : Prop := mkPipeOk {
  pk_done : pp_done p = negb (bool_decide (pp_state p = open));
  pk_data : pp_data p <> [] -> mb_IsEmpty (pp_data p) = false
}.

Definition waits_to_read q : Prop := exists w, q = ReadWaiting w.
Definition will_read q : Prop := (exists w, q = Reading w) \/ exists e, q = WriteSignalling e.
Definition waits_to_write q : Prop := exists mb, q = WriteWaiting mb.
Definition will_write q : Prop := (exists mb, q = Writing mb) \/ exists data e, q = ReadSignalling data e.

Definition writes_something q : Prop :=
  match q with Writing mb | WriteWaiting mb => mb_IsEmpty mb = false | _ => True end.

(** Nobody sleeps through what he waits for: a token is there, or somebody who is
    awake looks at the data or is about to leave a token. *)
Record system_ok s : Prop := mkSystemOk {
  so_pipe : pipe_ok (ps_pipe s);
  so_writes : Forall writes_something (ps_procs s);
  so_readers : pp_data (ps_pipe s) <> [] -> Exists waits_to_read (ps_procs s) ->
    pp_readSignal (ps_pipe s) = true \/ pp_done (ps_pipe s) = true \/ Exists will_read (ps_procs s);
  so_writers : pp_data (ps_pipe s) = [] -> Exists waits_to_write (ps_procs s) ->
    pp_writeSignal (ps_pipe s) = true \/ pp_done (ps_pipe s) = true \/ Exists will_write (ps_procs s);
  so_order : ps_accepted s = ps_delivered s ++ pp_data (ps_pipe s)
    \/ (pp_data (ps_pipe s) = [] /\ pp_state (ps_pipe s) = errord /\ ps_delivered s `prefix_of` ps_accepted s)
}.

Lemma New_ok o : system_ok (new_system (B := B) o).
Proof.
  constructor; cbn; [by constructor|constructor|done|intros _ Hx; inversion Hx|by left].
Qed.

(** ** One call *)

Lemma read_internal p p' data e : pipe_ok p -> readMultiBufferInternal p = (p', data, e) ->
  (e = None /\ p' = p <| pp_data := [] |> /\ data = pp_data p /\ (pp_state p = open \/ data <> []))
  \/ (exists x, e = Some x /\ p' = p /\ data = [] /\ pp_state p <> open).
Proof.
  intros [_ Hd]. unfold readMultiBufferInternal, getState. cbn [negb andb]. destruct (pp_state p) eqn:E; cbn.
  - intros [= <- <- <-]. left. split_and!; try done. by left.
  - destruct (mb_IsEmpty (pp_data p)) eqn:Em; cbn.
    + intros [= <- <- <-]. right. by eexists.
    + intros [= <- <- <-]. left. split_and!; try done. right. intros Hn. by rewrite Hn in Em.
  - intros [= <- <- <-]. right. by eexists.
Qed.

Lemma write_internal mb p p' e : writeMultiBufferInternal mb p = (p', e) ->
  (e = None /\ p' = p <| pp_data ::= fun data => data ++ mb |> /\ pp_state p = open)
  \/ (p' = p /\ exists x, e = Some x /\
      (x = errBufferFull /\ pp_state p = open /\ isFull (pp_option p) (mb_Len (pp_data p)) = true \/ x <> errBufferFull /\ pp_state p <> open)).
Proof.
  unfold writeMultiBufferInternal, getState. destruct (pp_state p) eqn:E; cbn.
  - destruct (isFull _ _) eqn:Ef; intros [= <- <-].
    + right. split; [done|]. eexists. split; [done|]. by left.
    + by left.
  - intros [= <- <-]. right. split; [done|]. eexists. split; [done|]. by right.
  - intros [= <- <-]. right. split; [done|]. eexists. split; [done|]. by right.
Qed.

(** An empty pipe takes any write. *)
Lemma empty_not_full o : isFull o (mb_Len ([] : list B)) = false.
Proof. unfold isFull, mb_Len. cbn. destruct (0 <=? po_limit o) eqn:E; [cbn; lia|done]. Qed.
End Invariant.

(** ** Every step keeps the invariant *)

Section Steps.
Context {B : Type} `{Buffer B}.
Implicit Types (p : pipe B) (s : system B) (q : proc B).

Lemma Exists_insert (P : proc B -> Prop) l i q q' : l !! i = Some q -> P q' -> Exists P (<[i := q']> l).
Proof using. intros Hl Hq. apply list.Exists_exists. exists q'. split; [by eapply insert_new|done]. Qed.

(** A call that neither starts to wait nor was awake for the others changes
    nothing for those who wait. *)
Lemma wakes_kept (P Q : proc B -> Prop) (T T' D D' : Prop) l i q q' : l !! i = Some q -> ~ P q' -> ~ Q q ->
  (Exists P l -> T \/ D \/ Exists Q l) -> (T -> T') -> (D -> D') ->
  Exists P (<[i := q']> l) -> T' \/ D' \/ Exists Q (<[i := q']> l).
Proof using.
  intros Hl HP HQ Hold HT HD (x & [->|Hx]%insert_from & HPx)%list.Exists_exists; [done|].
  destruct Hold as [?|[?|(y & Hy & HQy)%list.Exists_exists]]; [apply list.Exists_exists; by exists x|by left; auto|by right; left; auto|].
  right; right. apply list.Exists_exists. exists y. split; [|done]. eapply insert_keeps; [done|done|]. by intros ->.
Qed.

Lemma read_step_ok s i q p' q' e : system_ok s -> ps_procs s !! i = Some q -> read_step (ps_pipe s) q p' q' e ->
  system_ok (record_effect e (mkSystem p' (<[i := q']> (ps_procs s)) (ps_accepted s) (ps_delivered s))).
Proof using.
  intros [Hp Hw Hr Hwr Ho] Hq Hst. pose proof Hp as [Hdone Hdata].
  destruct Hst as [p w p' data e Hi Hne|p w p' Hi|p w Ht|p w Hd|p e He|p data e].
  - destruct (read_internal _ _ _ _ Hp Hi) as [(-> & -> & -> & Hopen)|(x & -> & -> & -> & Hopen)].
    + constructor; cbn; [by constructor|by apply Forall_insert|done| |].
      * intros _ _. right; right. eapply Exists_insert; [done|]. right. by eexists _, _.
      * left. rewrite app_nil_r. destruct Ho as [->|(Hn & Hs & _)]; [done|]. exfalso. destruct Hopen; congruence.
    + constructor; cbn; [done|by apply Forall_insert| | |by rewrite app_nil_r].
      * intros _ _. right; left. by rewrite Hdone, bool_decide_false.
      * intros _ _. right; left. by rewrite Hdone, bool_decide_false.
  - destruct (read_internal _ _ _ _ Hp Hi) as [(_ & -> & Hn & Hopen)|(x & He & _)]; [|done].
    assert (Heq : p <| pp_data := [] |> = p) by (destruct p; cbn in *; by subst). rewrite Heq in *.
    constructor; cbn; [done|apply Forall_insert; [done|by destruct w]|by rewrite <- Hn| |done].
    intros Hd. eapply wakes_kept; [done| | |by apply Hwr|done|done].
    + intros [mb Hx]. by destruct w.
    + by intros [[? ?]|(? & ? & ?)].
  - constructor; cbn; [by constructor|by apply Forall_insert| | |done].
    + intros _ _. right; right. eapply Exists_insert; [done|]. left. by eexists.
    + intros Hd. eapply wakes_kept; [done|by intros [? ?]|by intros [[? ?]|(? & ? & ?)]|by apply Hwr|done|done].
  - constructor; cbn; [done|by apply Forall_insert| | |done].
    + intros _ _. right; right. eapply Exists_insert; [done|]. left. by eexists.
    + intros Hd'. eapply wakes_kept; [done|by intros [? ?]|by intros [[? ?]|(? & ? & ?)]|by apply Hwr|done|done].
  - constructor; cbn; [by constructor|by apply Forall_insert| | |done].
    + intros Hd. eapply wakes_kept; [done|by intros [? ?]|by intros [[? ?]|(? & ?)]|by apply Hr|done|done].
    + intros Hd. eapply wakes_kept; [done|by intros [? ?]|by intros [[? ?]|(? & ? & ?)]|by apply Hwr|done|done].
  - constructor; cbn; [by constructor|by apply Forall_insert| | |done].
    + intros Hd. eapply wakes_kept; [done|by intros [? ?]|by intros [[? ?]|(? & ?)]|by apply Hr|done|done].
    + intros _ _. by left.
Qed.

Lemma write_step_ok s i q p' q' e : system_ok s -> ps_procs s !! i = Some q -> write_step (ps_pipe s) q p' q' e ->
  system_ok (record_effect e (mkSystem p' (<[i := q']> (ps_procs s)) (ps_accepted s) (ps_delivered s))).
Proof using.
  intros [Hp Hw Hr Hwr Ho] Hq Hst. pose proof Hp as [Hdone Hdata].
  assert (Hqw : writes_something q) by (by eapply Forall_lookup_1).
  destruct Hst as [p mb p' Hi|p mb p' Hi Hd|p mb p' Hi Hd|p mb p' e Hi He|p mb Ht|p mb Ht|p e].
  - destruct (write_internal _ _ _ _ Hi) as [(_ & -> & Hopen)|(_ & x & Hx & _)]; [|done].
    constructor; cbn; [constructor; cbn|by apply Forall_insert| | |].
    + done.
    + intros _. refine (eq_trans (mb_IsEmpty_app _ _) _). cbn in Hqw. by rewrite Hqw, andb_false_r.
    + intros _ _. right; right. eapply Exists_insert; [done|]. right. by eexists.
    + intros Hn. apply app_eq_nil in Hn as [_ ->]. by cbn in Hqw.
    + destruct Ho as [->|(_ & Hs & _)]; [|congruence]. left. by rewrite app_assoc.
  - destruct (write_internal _ _ _ _ Hi) as [(? & _)|(-> & x & [= <-] & [(_ & Hs & Hf)|[? _]])]; [done| |done].
    constructor; cbn; [done|by apply Forall_insert| | |done].
    + intros Hn. eapply wakes_kept; [done|by intros [? ?]|by intros [[? ?]|(? & ?)]|by apply Hr|done|done].
    + intros Hn. by rewrite Hn, empty_not_full in Hf.
  - destruct (write_internal _ _ _ _ Hi) as [(? & _)|(-> & x & [= <-] & [(_ & Hs & Hf)|[? _]])]; [done| |done].
    constructor; cbn; [done|by apply Forall_insert| | |done].
    + intros Hn. eapply wakes_kept; [done|by intros [? ?]|by intros [[? ?]|(? & ?)]|by apply Hr|done|done].
    + intros Hn. by rewrite Hn, empty_not_full in Hf.
  - destruct (write_internal _ _ _ _ Hi) as [(? & _)|(-> & x & [= <-] & [(? & _)|[_ Hs]])]; [done|done|].
    constructor; cbn; [done|by apply Forall_insert| | |done].
    + intros _ _. right; left. by rewrite Hdone, bool_decide_false.
    + intros _ _. right; left. by rewrite Hdone, bool_decide_false.
  - constructor; cbn; [by constructor|by apply Forall_insert| | |done].
    + intros Hn. eapply wakes_kept; [done|by intros [? ?]|by intros [[? ?]|(? & ?)]|by apply Hr|done|done].
    + intros _ _. right; right. eapply Exists_insert; [done|]. left. by eexists.
  - constructor; cbn; [done|by apply Forall_insert| | |done].
    + intros _ _. by right; left.
    + intros _ _. by right; left.
  - constructor; cbn; [by constructor|by apply Forall_insert| | |done].
    + intros _ _. by left.
    + intros Hn. eapply wakes_kept; [done|by intros [? ?]|by intros [[? ?]|(? & ? & ?)]|by apply Hwr|done|done].
Qed.

Lemma move_ok s s' : system_ok s -> move s s' -> system_ok s'.
Proof using.
  intros Hs Hm. destruct Hm as [s i q q' p' e Hq [Hst|Hst]]; [by eapply read_step_ok|by eapply write_step_ok].
Qed.

(** A new call is one more that may be awake. *)
Lemma wakes_more (P Q : proc B -> Prop) (T D : Prop) l q : (Exists P l -> T \/ D \/ Exists Q l) -> ~ P q ->
  Exists P (l ++ [q]) -> T \/ D \/ Exists Q (l ++ [q]).
Proof using.
  intros Hold Hq [Hx|Hx]%Exists_app; [|by apply Exists_cons in Hx as [?|Hx]; [|inversion Hx]].
  destruct (Hold Hx) as [?|[?|?]]; [by left|by right; left|]. right; right. apply Exists_app. by left.
Qed.

Lemma Close_ok s : system_ok s -> system_ok (with_pipe s (Close (ps_pipe s))).
Proof using.
  intros [[Hdone Hdata] Hw Hr Hwr Ho]. unfold with_pipe, Close. destruct s as [p qs acc del]. destruct p as [data rs ws dn ec o st]. cbn in *.
  destruct st; [|by constructor..]. constructor; cbn; [by constructor|done|by intros _ _; right; left|by intros _ _; right; left|].
  destruct Ho as [->|(_ & ? & _)]; [by left|congruence].
Qed.

Lemma Interrupt_ok s : system_ok s -> system_ok (with_pipe s (Interrupt (ps_pipe s))).
Proof using.
  intros [[Hdone Hdata] Hw Hr Hwr Ho]. unfold with_pipe, Interrupt. destruct s as [p qs acc del]. destruct p as [data rs ws dn ec o st]. cbn in *.
  assert (Hpre : del `prefix_of` acc) by (destruct Ho as [->|(_ & _ & ?)]; [by apply prefix_app_r|done]).
  destruct (mb_IsEmpty data) eqn:Em; cbn.
  - assert (data = []) as -> by (destruct data; [done|]; specialize (Hdata ltac:(done)); congruence).
    destruct st; [|by constructor..]. constructor; cbn; [by constructor|done|done|by intros _ _; right; left|by right].
  - destruct st; cbn in Hdone; subst dn; cbn; (constructor; cbn; [by constructor|done|done|by intros _ _; right; left|by right]).
Qed.

Lemma outside_ok s s' : system_ok s -> outside s s' -> system_ok s'.
Proof using.
  intros Hs Hst. pose proof Hs as [Hp Hw Hr Hwr Ho].
  destruct Hst as [s w Hn|s mb|s i Hi|s|s|s e He|s].
  - constructor; cbn; [done|by apply Forall_app; split; [|constructor]| | |done]; intros Hd; apply wakes_more; auto; by intros [? ?].
  - constructor; cbn; [done| | | |done].
    + apply Forall_app. split; [done|]. constructor; [|done]. by destruct (mb_IsEmpty mb) eqn:E.
    + intros Hd. apply wakes_more; auto. intros [? ?]. by destruct (mb_IsEmpty mb).
    + intros Hd. apply wakes_more; auto. intros [? ?]. by destruct (mb_IsEmpty mb).
  - constructor; cbn; [done|by apply Forall_insert| | |done]; intros Hd.
    + eapply wakes_kept; [done|by intros [? ?]|by intros [[? ?]|(? & ?)]|by apply Hr|done|done].
    + eapply wakes_kept; [done|by intros [? ?]|by intros [[? ?]|(? & ? & ?)]|by apply Hwr|done|done].
  - by apply Close_ok.
  - by apply Interrupt_ok.
  - destruct Hp. by constructor; cbn; try done.
  - destruct Hp. by constructor; cbn; try done.
Qed.

Lemma pipe_reachable_ok o s : rtc pipe_step (new_system (B := B) o) s -> system_ok s.
Proof using.
  intros Hs. apply rtc_ind_r with (P := system_ok) in Hs; [done|apply New_ok|].
  intros a b _ [Hm|Hm] Ha; [by eapply move_ok|by eapply outside_ok].
Qed.
End Steps.

(** ** What a pipe promises *)

Section Promises.
Context {B : Type} `{Buffer B}.
Implicit Types (p : pipe B) (s : system B) (q : proc B).

(** How much a call has left to do.  A token is worth one call that wakes up; a
    reader that waits on a closed pipe looks once more. *)
Definition weight (dn : bool) q : nat :=
  match q with
  | Reading FirstTry => 8
  | Reading _ => 7
  | ReadWaiting _ => if dn then 9 else 6
  | Writing _ => 6
  | WriteWaiting _ => 5
  | ReadSignalling _ _ | WriteSignalling _ => 4
  | ReadReturned _ _ | WriteReturned _ => 0
  end.

Definition token (t : bool) : nat := if t then 3 else 0.

Definition left_to_do s : nat :=
  sum_list_with (weight (pp_done (ps_pipe s))) (ps_procs s) + token (pp_readSignal (ps_pipe s)) + token (pp_writeSignal (ps_pipe s)).

Lemma sum_insert (f : proc B -> nat) l : forall i q q', l !! i = Some q ->
  (sum_list_with f (<[i := q']> l) + f q = sum_list_with f l + f q')%nat.
Proof using.
  induction l as [|x l IH]; intros [|i] q q' Hq; try done.
  - injection Hq as ->. cbn. lia.
  - specialize (IH i q q' Hq). change (<[S i := q']> (x :: l)) with (x :: <[i := q']> l).
    cbn [sum_list_with foldr compose]. unfold sum_list_with in *. lia.
Qed.

Lemma read_step_pipe p q p' q' e : pipe_ok p -> read_step p q p' q' e ->
  pp_done p' = pp_done p
  /\ (weight (pp_done p) q' + token (pp_readSignal p') + token (pp_writeSignal p')
      < weight (pp_done p) q + token (pp_readSignal p) + token (pp_writeSignal p))%nat.
Proof using.
  intros Hp Hst. destruct Hst as [p w p' data e Hi Hne|p w p' Hi|p w Ht|p w Hd|p e He|p data e].
  - destruct (read_internal _ _ _ _ Hp Hi) as [(-> & -> & _)|(x & -> & -> & _)]; (split; [done|]); cbn; destruct w; lia.
  - destruct (read_internal _ _ _ _ Hp Hi) as [(_ & -> & Hn & Hopen)|(x & ? & _)]; [|done].
    destruct Hopen as [Hopen|?]; [|done]. pose proof (pk_done _ Hp) as Hd. rewrite Hopen, bool_decide_true in Hd by done.
    split; [done|]. cbn. rewrite Hd. destruct w; cbn; lia.
  - split; [done|]. cbn. rewrite Ht. destruct (pp_done p), w; cbn; lia.
  - split; [done|]. cbn. rewrite Hd. destruct w; cbn; lia.
  - split; [done|]. cbn. destruct (pp_done p); lia.
  - split; [done|]. cbn. destruct (pp_writeSignal p); cbn; lia.
Qed.

Lemma write_step_pipe p q p' q' e : write_step p q p' q' e ->
  pp_done p' = pp_done p
  /\ (weight (pp_done p) q' + token (pp_readSignal p') + token (pp_writeSignal p')
      < weight (pp_done p) q + token (pp_readSignal p) + token (pp_writeSignal p))%nat.
Proof using.
  intros Hst. destruct Hst as [p mb p' Hi|p mb p' Hi Hd|p mb p' Hi Hd|p mb p' e Hi He|p mb Ht|p mb Ht|p e].
  1-4: destruct (write_internal _ _ _ _ Hi) as [(_ & -> & _)|(-> & _)]; (split; [done|]); cbn; lia.
  - split; [done|]. cbn. rewrite Ht. cbn. lia.
  - split; [done|]. cbn. lia.
  - split; [done|]. cbn. destruct (pp_readSignal p); cbn; lia.
Qed.

Lemma move_less s s' : system_ok s -> move s s' -> (left_to_do s' < left_to_do s)%nat.
Proof using.
  intros Hs Hm. destruct Hm as [s i q q' p' e Hq Hst].
  assert (H' : pp_done p' = pp_done (ps_pipe s)
    /\ (weight (pp_done (ps_pipe s)) q' + token (pp_readSignal p') + token (pp_writeSignal p')
        < weight (pp_done (ps_pipe s)) q + token (pp_readSignal (ps_pipe s)) + token (pp_writeSignal (ps_pipe s)))%nat)
    by (destruct Hst as [Hst|Hst]; [by eapply read_step_pipe, Hst; apply so_pipe|by eapply write_step_pipe]).
  destruct H' as [Hd Hlt]. pose proof (sum_insert (weight (pp_done (ps_pipe s))) _ i q q' Hq) as Hsum.
  unfold left_to_do. destruct e; cbn; rewrite Hd; lia.
Qed.

(** ** Calls that can go on *)

Definition can_move p q : Prop := exists p' q' e, read_step p q p' q' e \/ write_step p q p' q' e.

Lemma reading_moves p w : can_move p (Reading w).
Proof using.
  destruct (readMultiBufferInternal p) as [[p' data] e] eqn:E. unfold can_move.
  destruct (decide (data = [] /\ e = None)) as [[-> ->]|Hne].
  - do 3 eexists. left. by apply read_nothing.
  - do 3 eexists. left. eapply read_got; [done|]. destruct data; [right|by left]. intros ->. by apply Hne.
Qed.

Lemma writing_moves p mb : can_move p (Writing mb).
Proof using.
  destruct (writeMultiBufferInternal mb p) as [p' [e|]] eqn:E; unfold can_move; [|do 3 eexists; right; by apply write_ok].
  destruct (decide (e = errBufferFull)) as [->|He].
  - destruct (po_discardOverflow (pp_option p)) eqn:Ed; do 3 eexists; right; [by eapply write_overflow|by eapply write_full].
  - do 3 eexists. right. by eapply write_failed.
Qed.

Lemma awake_moves p q : will_read q \/ will_write q -> can_move p q.
Proof using.
  unfold can_move. intros [[[w ->]|[e ->]]|[[mb ->]|(data & e & ->)]].
  - apply reading_moves.
  - do 3 eexists. right. apply write_signals.
  - apply writing_moves.
  - do 3 eexists. left. apply read_signals.
Qed.

(** How a call can stand when nothing moves. *)
Definition settled p q : Prop :=
  match q with
  | ReadReturned _ _ | WriteReturned _ => True
  | ReadWaiting w => pp_state p = open /\ pp_data p = [] /\ (w = Blocking -> pp_errChan p = None)
  | WriteWaiting _ => pp_state p = open /\ pp_data p <> []
  | _ => False
  end.

Lemma still_settled s : system_ok s -> (forall s', ~ move s s') -> Forall (settled (ps_pipe s)) (ps_procs s).
Proof using.
  intros Hs Hstill.
  assert (Hno : forall i q, ps_procs s !! i = Some q -> ~ can_move (ps_pipe s) q).
  { intros i q Hq (p' & q' & e & Hst). eapply Hstill. by eapply move_call. }
  assert (Hex : forall P : proc B -> Prop, (forall q, P q -> can_move (ps_pipe s) q) -> ~ Exists P (ps_procs s)).
  { intros P HP (q & [i Hi]%list_elem_of_lookup & HPq)%list.Exists_exists. by eapply Hno; [|apply HP]. }
  pose proof (so_pipe _ Hs) as Hp. pose proof (pk_done _ Hp) as Hd.
  assert (Hopen : pp_done (ps_pipe s) <> true -> pp_state (ps_pipe s) = open).
  { rewrite Hd. by destruct (pp_state (ps_pipe s)). }
  apply Forall_lookup. intros i q Hq. pose proof (Hno i q Hq) as Hn. destruct q; cbn; try done.
  1: by destruct Hn; apply reading_moves.
  3: by destruct Hn; apply writing_moves.
  2,4: by destruct Hn; apply awake_moves; unfold will_read, will_write; eauto 8.
  - assert (Hnd : pp_done (ps_pipe s) <> true) by (intros E; apply Hn; do 3 eexists; left; by apply read_done).
    assert (Hnt : pp_readSignal (ps_pipe s) <> true) by (intros E; apply Hn; do 3 eexists; left; by apply read_notified).
    split; [by apply Hopen|]. split.
    + destruct (decide (pp_data (ps_pipe s) = [])) as [|Hne]; [done|]. exfalso.
      destruct (so_readers _ Hs Hne) as [?|[?|Hx]]; [|done|done|].
      * apply list.Exists_exists. eexists. split; [by eapply list_elem_of_lookup_2|by eexists].
      * revert Hx. apply Hex. intros q Hq'. apply awake_moves. by left.
    + intros ->. destruct (pp_errChan (ps_pipe s)) eqn:E; [|done]. destruct Hn. do 3 eexists. left. by apply read_error.
  - assert (Hnd : pp_done (ps_pipe s) <> true) by (intros E; apply Hn; do 3 eexists; right; by apply write_done).
    assert (Hnt : pp_writeSignal (ps_pipe s) <> true) by (intros E; apply Hn; do 3 eexists; right; by apply write_notified).
    split; [by apply Hopen|]. intros Hne.
    destruct (so_writers _ Hs Hne) as [?|[?|Hx]]; [|done|done|].
    + apply list.Exists_exists. eexists. split; [by eapply list_elem_of_lookup_2|by eexists].
    + revert Hx. apply Hex. intros q Hq'. apply awake_moves. by right.
Qed.

Lemma moves_bounded n : forall s s', system_ok s -> nsteps move n s s' -> (n <= left_to_do s)%nat.
Proof using.
  induction n as [|n IH]; intros s s' Hs Hn; [lia|]. inversion Hn as [|? ? y ? Hm Hr]; subst.
  pose proof (move_less _ _ Hs Hm). specialize (IH y s' (move_ok _ _ Hs Hm) Hr). lia.
Qed.

(** Nobody sleeps through a wake-up.  However calls, closings, interruptions and
    time-outs came together: the calls that are under way can only take so many
    steps, and when none can go on each has returned, or reads a pipe that is
    open and empty, or writes to one that is open and still has data to be read. *)
Theorem pipe_answers o s : rtc pipe_step (new_system (B := B) o) s ->
  (forall n s', nsteps move n s s' -> (n <= left_to_do s)%nat)
  /\ ((forall s', ~ move s s') -> Forall (settled (ps_pipe s)) (ps_procs s)).
Proof using.
  intros Hs%pipe_reachable_ok. split; [|by apply still_settled]. intros n s'. by apply moves_bounded.
Qed.

(** A pipe is a queue: what the reads have taken is the beginning of what the
    writes have put in, in order, and unless the pipe was interrupted the rest is
    in the pipe. *)
Theorem pipe_fifo o s : rtc pipe_step (new_system (B := B) o) s ->
  ps_delivered s `prefix_of` ps_accepted s
  /\ (pp_state (ps_pipe s) <> errord -> ps_accepted s = ps_delivered s ++ pp_data (ps_pipe s)).
Proof using.
  intros Hs%pipe_reachable_ok. destruct (so_order _ Hs) as [E|(_ & Hst & Hpre)].
  - rewrite E. split; [by apply prefix_app_r|done].
  - split; [done|]. by rewrite Hst.
Qed.
End Promises.

(** ** What is in a pipe *)

Section Contents.
Context {B : Type} `{Buffer B} (P : B -> Prop).
Implicit Types (s : system B).

(** Every buffer that was accepted, or is about to be. *)
Definition all_buffers s : Prop :=
  Forall P (ps_accepted s)
  /\ Forall (fun q => match q with Writing mb | WriteWaiting mb => Forall P mb | _ => True end) (ps_procs s).

Lemma move_buffers s s' : all_buffers s -> move s s' -> all_buffers s'.
Proof using.
  intros [Ha Hq] Hm. destruct Hm as [s i q q' p' e Hi Hst].
  pose proof (Forall_lookup_1 _ _ _ _ Hq Hi) as Hqi. cbn in Hqi.
  assert (H' : match q' with Writing mb | WriteWaiting mb => Forall P mb | _ => True end
    /\ match e with Accepted mb => Forall P mb | _ => True end).
  { destruct Hst as [Hst|Hst]; destruct Hst; try done.
    match goal with w : waiting |- _ => by destruct w end. }
  destruct H' as [Hq' He]. split.
  - destruct e; cbn; try done. by apply Forall_app.
  - destruct e; cbn; by apply Forall_insert.
Qed.

Lemma delivered_buffers s : system_ok s -> all_buffers s -> Forall P (ps_delivered s).
Proof using.
  intros Hs [Ha _]. assert (Hp : ps_delivered s `prefix_of` ps_accepted s).
  { destruct (so_order _ Hs) as [->|(_ & _ & ?)]; [by apply prefix_app_r|done]. }
  destruct Hp as [l E]. rewrite E in Ha. by apply Forall_app in Ha as [? _].
Qed.

(** Nothing is in the pipe and nothing comes in any more. *)
Definition shut s : Prop := pp_state (ps_pipe s) <> open /\ pp_data (ps_pipe s) = [].

Lemma move_shut s s' : system_ok s -> shut s -> move s s' -> shut s'.
Proof using.
  intros Hok [Hs Hd] Hm. pose proof (so_pipe _ Hok) as Hp. destruct Hm as [s i q q' p' e Hi Hst]. unfold shut.
  assert (H' : pp_state p' <> open /\ pp_data p' = []).
  { destruct Hst as [Hst|Hst]; destruct Hst as [p w p' data e Hr Hne|p w p' Hr|p w Ht|p w Hw|p e He|p data e]
      || destruct Hst as [p mb p' Hr|p mb p' Hr Hw|p mb p' Hr Hw|p mb p' e Hr He|p mb Ht|p mb Hw|p e]; try done.
    1-2: destruct (read_internal _ _ _ _ Hp Hr) as [(_ & -> & _)|(? & _ & -> & _)]; done.
    1-4: destruct (write_internal _ _ _ _ Hr) as [(_ & -> & Ho)|(-> & _)]; done. }
  by destruct e.
Qed.

Lemma close_shut s : system_ok s -> shut (with_pipe s (Interrupt (Close (ps_pipe s)))).
Proof using.
  intros Hs. destruct (so_pipe _ Hs) as [_ Hd]. unfold shut, with_pipe, Close, Interrupt. cbn.
  destruct (ps_pipe s) as [data rs ws dn ec o st]. cbn in *.
  destruct (mb_IsEmpty data) eqn:E; destruct st; cbn; rewrite ?E; cbn; (split; [done|]); try done.
  all: destruct data as [|b data]; [done|]; specialize (Hd ltac:(done)); congruence.
Qed.
End Contents.

(** ** Examples *)

(** A reader waits, a write of five bytes comes, and the reader has not looked. *)
Definition example_option : pipeOption := mkPipeOption 16384 false.
Definition five : octets := [104; 101; 108; 108; 111].

Definition reader_asleep : system octets :=
  mkSystem (mkPipe [five] false false false None example_option open) [ReadWaiting Blocking; WriteSignalling None] [five] [].

(** Call [i] takes the step [c]; something comes from outside. *)
#[local] Ltac call i c := eapply rtc_l; [left; eapply (move_call _ i); [reflexivity|c; first [reflexivity|by left|discriminate]]|cbn].
#[local] Ltac comes c := eapply rtc_l; [right; c; try discriminate|cbn].

Lemma reader_asleep_reachable : rtc pipe_step (new_system example_option) reader_asleep.
Proof.
  comes ltac:(eapply (outside_read _ Blocking)). call 0%nat ltac:(left; eapply (read_nothing _ Blocking)).
  comes ltac:(eapply (outside_write _ [five])). call 1%nat ltac:(right; eapply write_ok). apply rtc_refl.
Qed.

Example pipe_answers_witness :
  (forall n s', nsteps move n reader_asleep s' -> (n <= 10)%nat)
  /\ ((forall s', ~ move reader_asleep s') -> Forall (settled (ps_pipe reader_asleep)) (ps_procs reader_asleep)).
Proof. exact (pipe_answers example_option reader_asleep reader_asleep_reachable). Defined.

Example pipe_fifo_witness : ps_delivered reader_asleep `prefix_of` ps_accepted reader_asleep.
Proof. exact (proj1 (pipe_fifo example_option reader_asleep reader_asleep_reachable)). Defined.

(** The reader takes its token, reads and signals: it has the five bytes. *)
Definition reader_answered : system octets :=
  mkSystem (mkPipe [] false true false None example_option open) [ReadReturned [five] None; WriteReturned None] [five] [five].

Example reader_wakes : rtc pipe_step reader_asleep reader_answered.
Proof.
  call 1%nat ltac:(right; eapply write_signals). call 0%nat ltac:(left; eapply read_notified).
  call 0%nat ltac:(left; eapply read_got). call 0%nat ltac:(left; eapply read_signals). apply rtc_refl.
Qed.

(** Two writers wait while the pipe is full.  One read makes room for both and wakes
    one; when that one writes little, the other goes on waiting although the pipe is
    no longer full, until the next read. *)
Definition small : pipeOption := mkPipeOption 10 false.
Definition second_waits : system octets :=
  mkSystem (mkPipe [five] true false false None small open)
    [WriteReturned None; WriteReturned None; WriteWaiting [five]; ReadReturned [five; five; five] None] [five; five; five; five]
    [five; five; five].

Example second_writer_waits :
  rtc pipe_step (new_system small) second_waits /\ (forall s', ~ move second_waits s')
  /\ isFull small (mb_Len (pp_data (ps_pipe second_waits))) = false.
Proof.
  split; [|split; [|reflexivity]].
  - comes ltac:(eapply (outside_write _ [five; five; five])). call 0%nat ltac:(right; eapply write_ok). call 0%nat ltac:(right; eapply write_signals).
    comes ltac:(eapply (outside_write _ [five])). call 1%nat ltac:(right; eapply write_full; [reflexivity|]).
    comes ltac:(eapply (outside_write _ [five])). call 2%nat ltac:(right; eapply write_full; [reflexivity|]).
    comes ltac:(eapply (outside_read _ Blocking)). call 3%nat ltac:(left; eapply read_got; [reflexivity|]). call 3%nat ltac:(left; eapply read_signals).
    call 1%nat ltac:(right; eapply write_notified). call 1%nat ltac:(right; eapply write_ok). call 1%nat ltac:(right; eapply write_signals).
    apply rtc_refl.
  - intros s' Hm. inversion Hm as [s i q q' p' e Hq Hst Hs He]. subst s.
    do 4 (destruct i as [|i]; [injection Hq as <-; destruct Hst as [Hst|Hst]; inversion Hst; subst; done|]). done.
Qed.
