(* ===== verification/UdpSessions.v ===== *)
(** * UDP sessions of a transparent inbound: [app/proxyman/inbound/worker.go] of
    the engine, with [common/task/periodic.go]

    The router's UDP traffic reaches the engine through one socket.  A loop hands
    each packet to the session of its source and its original destination; a
    session has a pipe ([Pipe.v]) and a goroutine that routes it once.  A checker
    that runs every minute ends the sessions that were idle, and closing the worker
    ends all of them.  The loop, the goroutines of the sessions, the runs of the
    checker and [Close] interleave; what happens under the worker's lock is one
    step.

    An invalid destination (the zero value) is [None].  [pk_from] remembers who
    sent a packet; the buffer itself does not.  Counters of traffic, contexts but
    for their cancellation, and sniffing are left out. *)

From S2P Require Import Mph IPMatch Geodata Prelude GoStrings EngineRouter Buffers Vless Pipe.

#[local] Open Scope Z_scope.

(** ** Data *)

#[export] Instance Address_dec : EqDecision Address.
Proof. solve_decision. Defined.
#[export] Instance Target_dec : EqDecision Target.
Proof. solve_decision. Defined.

#[export] Instance Address_countable : Countable Address.
Proof.
  refine (inj_countable' (fun a => match a with IPAddress ip => inl ip | DomainAddress d => inr d end)
            (fun x => match x with inl ip => IPAddress ip | inr d => DomainAddress d end) _).
  by intros [].
Defined.

#[export] Instance Network_countable : Countable Network.
Proof.
  refine (inj_countable' (fun n => match n with Network_Unknown => 0%nat | Network_TCP => 1%nat | Network_UDP => 2%nat | Network_UNIX => 3%nat end)
            (fun x => match x with 0%nat => Network_Unknown | 1%nat => Network_TCP | 2%nat => Network_UDP | _ => Network_UNIX end) _).
  by intros [].
Defined.

#[export] Instance Target_countable : Countable Target.
Proof.
  refine (inj_countable' (fun t => (tg_Address t, tg_Port t, tg_Network t)) (fun x => mkTarget x.1.1 x.1.2 x.2) _).
  by intros [].
Defined.

Record connID := mkConnID { ci_src : Target; ci_dest : option Target }.
#[export] Instance connID_dec : EqDecision connID.
Proof. solve_decision. Defined.
#[export] Instance connID_countable : Countable connID.
Proof.
  refine (inj_countable' (fun i => (ci_src i, ci_dest i)) (fun x => mkConnID x.1 x.2) _). by intros [].
Defined.

Record Packet := mkPacket { pk_bytes : octets; pk_UDP : option Target; pk_from : Target }.
#[export] Instance packet_buffer : Buffer Packet := fun b => Len (pk_bytes b).

(** The goroutine of a session: [Process] has not begun, runs, has returned; the
    session has been closed, removed from the table. *)
Inductive session := NotStarted | Running | Returned | Ended | Removed.

(** [cn_target] is the destination [Process] is given. *)
Record udpConn := mkConn {
  cn_id : connID;
  cn_pipe : system Packet;
  cn_lastActivityTime : Z;
  cn_done : bool;
  cn_cancelled : bool;
  cn_target : option Target;
  cn_session : session
}.
#[export] Instance udpConn_eta : Eta udpConn := fun k =>
  mkConn (cn_id k) (cn_pipe k) (cn_lastActivityTime k) (cn_done k) (cn_cancelled k) (cn_target k) (cn_session k).

Inductive clean_error := WorkerClosed | NoMoreConnections.

(** A run of [checkedExecute]: about to ask whether it is closed, about to execute,
    about to note a failure, about to arm the timer; how it ended. *)
Inductive run := CheckClosed | Execute | Failing (e : clean_error) | Arming | RunOk | RunErr (e : clean_error).

(** The loop over the received packets, inside [callback]: about to write to the
    pipe of a session, waiting for the write, about to start the checker, in its
    first run, about to note that run's failure, about to start the session's
    goroutine.  [Must] panics, which ends the program. *)
Inductive loop :=
| LoopIdle
| LoopWrite (c : nat) (existing : bool) (p : Packet)
| LoopWriting (c : nat) (existing : bool) (i : nat)
| LoopStart (c : nat)
| LoopStarting (c : nat) (x : run)
| LoopSpawn (c : nat)
| LoopPanicked.

(** [wk_running], [wk_armed]: the checker is running; the timers it has armed.
    [wk_runs]: the goroutines of its timers. *)
Record udpWorker := mkWorker {
  wk_conns : list udpConn;
  wk_activeConn : gmap connID nat;
  wk_closed : bool;
  wk_running : bool;
  wk_armed : nat;
  wk_loop : loop;
  wk_runs : list run
}.
#[export] Instance udpWorker_eta : Eta udpWorker := fun w =>
  mkWorker (wk_conns w) (wk_activeConn w) (wk_closed w) (wk_running w) (wk_armed w) (wk_loop w) (wk_runs w).

Definition new_worker : udpWorker := mkWorker [] ∅ false false 0 LoopIdle [].

(** ** Sessions *)

(** Seconds since the epoch in 32 bits. *)
Definition epoch (now : Z) : Z := swrap 32 now.

Definition updateActivity (now : Z) (k : udpConn) : udpConn := k <| cn_lastActivityTime := epoch now |>.

Definition session_pipe : pipeOption := mkPipeOption (16 * 1024) true.

(** [udpConn.Close]. *)
Definition conn_Close (k : udpConn) : udpConn :=
  k <| cn_cancelled := true |> <| cn_done := true |>
    <| cn_pipe ::= fun s => with_pipe s (Interrupt (Close (ps_pipe s))) |>.

Definition on_conn (c : nat) (f : udpConn -> udpConn) (w : udpWorker) : udpWorker := w <| wk_conns ::= alter f c |>.

(** [getConnection]: the session and whether it is an old one, [None] when the
    worker is closed. *)
Definition getConnection (now : Z) (id : connID) (target : option Target) (w : udpWorker)
  : udpWorker * option (nat * bool) :=
  if wk_closed w then (w, None)
  else
    match (c ← wk_activeConn w !! id; k ← wk_conns w !! c; Some (c, cn_done k)) with
    | Some (c, false) => (on_conn c (updateActivity now) w, Some (c, true))
    | _ =>
        let c := length (wk_conns w) in
        let k := mkConn id (new_system session_pipe) (epoch now) false false target NotStarted in
        (w <| wk_conns ::= fun l => l ++ [k] |> <| wk_activeConn ::= <[id := c]> |>, Some (c, false))
    end.

Definition removeConn (id : connID) (c : nat) (w : udpWorker) : udpWorker :=
  if bool_decide (wk_activeConn w !! id = Some c) then w <| wk_activeConn ::= delete id |> else w.

(** A session leaves the table and is closed. *)
Definition end_session (w : udpWorker) (x : connID * nat) : udpWorker :=
  on_conn x.2 conn_Close (w <| wk_activeConn ::= delete x.1 |>).

(** More than two minutes idle, by the difference of two 32-bit times. *)
Definition expired (now : Z) (w : udpWorker) (x : connID * nat) : bool :=
  match wk_conns w !! x.2 with Some k => 120 <? swrap 32 (epoch now - cn_lastActivityTime k) | None => false end.

Definition clean (now : Z) (w : udpWorker) : udpWorker * option clean_error :=
  if wk_closed w then (w, Some WorkerClosed)
  else if bool_decide (wk_activeConn w = ∅) then (w, Some NoMoreConnections)
  else (foldl end_session w (filter (fun x => expired now w x = true) (map_to_list (wk_activeConn w))), None).

(** [udpWorker.Close]; the timer that is armed is stopped. *)
Definition worker_Close (w : udpWorker) : udpWorker :=
  if wk_closed w then w
  else
    let w := w <| wk_closed := true |> in
    let w := foldl end_session w (map_to_list (wk_activeConn w)) in
    w <| wk_running := false |> <| wk_armed ::= pred |>.

(** ** The checker *)

Definition run_step (now : Z) (w : udpWorker) (x : run) : udpWorker * run :=
  match x with
  | CheckClosed => (w, if wk_running w then Execute else RunOk)
  | Execute => let '(w, e) := clean now w in (w, match e with Some e => Failing e | None => Arming end)
  | Failing e => (w <| wk_running := false |>, RunErr e)
  | Arming => if wk_running w then (w <| wk_armed ::= S |>, RunOk) else (w, RunOk)
  | RunOk | RunErr _ => (w, x)
  end.

Section Worker.
(** The engine's [cone] setting, and whether the socket is a transparent one. *)
Context (cone tproxy : bool).

Definition connectionID (source : Target) (originalDest : option Target) : connID :=
  mkConnID source (match originalDest with
                   | Some _ => if negb cone || tproxy then originalDest else None
                   | None => None
                   end).

(** [callback] up to the write. *)
Definition callback (now : Z) (b : octets) (source : Target) (originalDest : option Target) (w : udpWorker) : udpWorker :=
  let id := connectionID source originalDest in
  let p := mkPacket b originalDest source in
  let '(w, r) := getConnection now id originalDest w in
  match r with
  | None => w
  | Some (c, existing) => w <| wk_loop := LoopWrite c existing p |>
  end.

Definition on_pipe (f : system Packet -> system Packet) (k : udpConn) : udpConn := k <| cn_pipe ::= f |>.

(** A call enters the pipe. *)
Definition enters (q : proc Packet) (s : system Packet) : system Packet :=
  mkSystem (ps_pipe s) (ps_procs s ++ [q]) (ps_accepted s) (ps_delivered s).

Inductive worker_step : udpWorker -> udpWorker -> Prop :=
| step_receive w now b source dest : wk_loop w = LoopIdle -> worker_step w (callback now b source dest w)
| step_write w c existing p k : wk_loop w = LoopWrite c existing p -> wk_conns w !! c = Some k ->
    worker_step w (on_conn c (on_pipe (enters (if mb_IsEmpty [p] then WriteReturned None else Writing [p]))) w
                     <| wk_loop := LoopWriting c existing (length (ps_procs (cn_pipe k))) |>)
| step_written w c existing i k e : wk_loop w = LoopWriting c existing i -> wk_conns w !! c = Some k ->
    ps_procs (cn_pipe k) !! i = Some (WriteReturned e) ->
    worker_step w (w <| wk_loop := if existing then LoopIdle else LoopStart c |>)
| step_start w c : wk_loop w = LoopStart c ->
    worker_step w (if wk_running w then w <| wk_loop := LoopSpawn c |>
                   else w <| wk_running := true |> <| wk_loop := LoopStarting c CheckClosed |>)
| step_starting w c now x : wk_loop w = LoopStarting c x -> x <> RunOk -> (forall e, x <> RunErr e) ->
    worker_step w (let '(w, x) := run_step now w x in w <| wk_loop := LoopStarting c x |>)
| step_started w c : wk_loop w = LoopStarting c RunOk -> worker_step w (w <| wk_loop := LoopSpawn c |>)
| step_panics w c e : wk_loop w = LoopStarting c (RunErr e) ->
    worker_step w (w <| wk_running := false |> <| wk_loop := LoopPanicked |>)
| step_spawn w c : wk_loop w = LoopSpawn c ->
    worker_step w (on_conn c (fun k => k <| cn_session := Running |>) w <| wk_loop := LoopIdle |>)
(** The checker's timers. *)
| step_timer w n : wk_armed w = S n -> worker_step w (w <| wk_armed := n |> <| wk_runs ::= fun l => l ++ [CheckClosed] |>)
| step_run w j now x : wk_runs w !! j = Some x ->
    worker_step w (let '(w, x) := run_step now w x in w <| wk_runs ::= <[j := x]> |>)
(** A pipe goes on; a session reads, is active, returns, is closed and removed. *)
| step_pipe w c k s : wk_conns w !! c = Some k -> move (cn_pipe k) s -> worker_step w (on_conn c (on_pipe (fun _ => s)) w)
| step_read w c k : wk_conns w !! c = Some k -> cn_session k = Running ->
    worker_step w (on_conn c (on_pipe (enters (Reading Blocking))) w)
| step_active w c k now : wk_conns w !! c = Some k -> cn_session k = Running -> worker_step w (on_conn c (updateActivity now) w)
| step_returns w c k : wk_conns w !! c = Some k -> cn_session k = Running ->
    worker_step w (on_conn c (fun k => k <| cn_session := Returned |>) w)
| step_ends w c k : wk_conns w !! c = Some k -> cn_session k = Returned ->
    worker_step w (on_conn c (fun k => conn_Close k <| cn_session := Ended |>) w)
| step_removes w c k : wk_conns w !! c = Some k -> cn_session k = Ended ->
    worker_step w (removeConn (cn_id k) c (on_conn c (fun k => k <| cn_session := Removed |>) w))
| step_close w : worker_step w (worker_Close w).
End Worker.
