(* ===== verification/Engine.v ===== *)
(** * The embedded engine: [xray_embed.go] and the probe of one server
    ([ping.go], [main.go])

    What surrounds the vendored core: the bridge from its global logger to the
    service log, starting and closing an instance with all clean-up paths, the
    traffic counters, connections into the core, a probe through a temporary
    core.  What the core itself answers (whether it can be built, created,
    started; the value of a counter) is a parameter.  Starts of the main engine
    exclude each other and its closing ([Process]); other engines start and stop
    at any time, but never touch what a start of the main engine shares. *)

From Stdlib Require Import Ascii.
From S2P Require Import Prelude GoStrings Settings Servers Config Subscriptions ServiceLog Process Routing Bypass XrayConfig Selection.

#[local] Open Scope Z_scope.

(** ** The log bridge *)

(** [xlog.Severity] and the messages of the core's logger; only a
    [GeneralMessage] has a severity. *)
Inductive severity := Severity_Unknown | Severity_Error | Severity_Warning | Severity_Info | Severity_Debug.
Inductive xlog_message := GeneralMessage (s : severity) (content : string) | OtherMessage.

(** A pointer to an [xrayLogTarget] is the number of the engine it was made for;
    the ring is the manager's. *)
Record xrayLogTarget := mkTarget {
  xt_engine : nat;
  xt_level : serviceLogLevel;
  xt_disabled : bool
}.

Definition message_level (s : severity) : serviceLogLevel :=
  match s with
  | Severity_Warning => serviceLogWarn
  | Severity_Info => serviceLogInfo
  | Severity_Debug => serviceLogDebug
  | _ => serviceLogError
  end.

Definition Handle (target : option xrayLogTarget) (message : xlog_message) (now : Time) (rb : ringBuffer)
  : ringBuffer :=
  match target with
  | None => rb
  | Some target =>
      if xt_disabled target then rb
      else match message with
      | OtherMessage => rb
      | GeneralMessage s content =>
          let level := message_level s in
          if (level_value (xt_level target) <? level_value level)%nat then rb
          else logEventUnfiltered rb now level "xray" "runtime" content
                 [mkField "xray_level" (Some (ToLower (serviceLogLevelName level)))]
      end
  end.

(** ** Starting and closing *)

(** [engineLogs.target], and what must not outlive an engine: contexts that are
    not cancelled, instances that are not closed. *)
Record glue := mkGlue {
  gl_target : option xrayLogTarget;
  gl_contexts : gset nat;
  gl_instances : gset nat;
  gl_next : nat
}.
#[export] Instance glue_eta : Eta glue := fun g =>
  mkGlue (gl_target g) (gl_contexts g) (gl_instances g) (gl_next g).

Record embeddedXray := mkEmbedded {
  bx_id : nat;
  bx_logTarget : option xrayLogTarget;
  bx_stats : bool;
  bx_proxyTags : list string;
  bx_proxyRule : option (list (string * json))
}.

(** What the core answers; [bt_stats]: it has a [stats.Manager]. *)
Record boot := mkBoot { bt_parsed : bool; bt_created : bool; bt_stats : bool; bt_started : bool }.

Inductive boot_error := ParseXrayConfig | CreateXray | ReadProxyRule | StartXray.

Definition raw_log_level (config : json) : string :=
  match field "log" config with
  | Some log => match field "loglevel" log with Some (JStr level) => level | _ => "" end
  | None => ""
  end.

Definition new_target (n : nat) (config : json) : xrayLogTarget :=
  let level := raw_log_level config in
  let level := if bool_decide (level = "warning") then "warn" else level in
  mkTarget n (parseServiceLogLevel level) (bool_decide (level = "none")).

(** [engineLogs.target.CompareAndSwap(target, nil)]. *)
Definition release_target (target : option xrayLogTarget) (g : glue) : glue :=
  match target, gl_target g with
  | Some t, Some u => if bool_decide (xt_engine t = xt_engine u) then g <| gl_target := None |> else g
  | _, _ => g
  end.

Definition closeEmbedded (b : embeddedXray) (g : glue) : glue :=
  release_target (bx_logTarget b)
    (g <| gl_contexts ::= (.∖ {[bx_id b]}) |> <| gl_instances ::= (.∖ {[bx_id b]}) |>).

(** The last rule, unmarshalled into a map: [null] leaves the map [nil]. *)
Definition read_rule (config : json) : option (option (list (string * json))) :=
  match last (rules_of config) with
  | None | Some JNull => Some None
  | Some (JObj rule) => Some (Some rule)
  | Some _ => None
  end.

Definition outbound_tag (out : json) : string :=
  match field "tag" out with Some (JStr tag) => tag | _ => "" end.

Definition outbounds_of (config : json) : list json :=
  match field "outbounds" config with Some (JArr outs) => outs | _ => [] end.

Definition is_proxy_tag (tag : string) : bool := bool_decide (tag = "proxy") || HasPrefix tag "proxy-".

Definition proxy_tags (config : json) : list string :=
  filter (fun tag => is_proxy_tag tag = true) (outbound_tag <$> outbounds_of config).

Definition startXray (o : boot) (mainTunnel : bool) (config : json) (g : glue)
  : result boot_error embeddedXray * glue :=
  if negb (bt_parsed o) then (Err ParseXrayConfig, g) else
  let n := gl_next g in
  let target := if mainTunnel then Some (new_target n config) else None in
  let g := if mainTunnel then g <| gl_target := target |> else g in
  let g := g <| gl_next := S n |> <| gl_contexts ::= ({[n]} ∪.) |> in
  if negb (bt_created o) then
    (Err CreateXray, release_target target (g <| gl_contexts ::= (.∖ {[n]}) |>))
  else
    let g := g <| gl_instances ::= ({[n]} ∪.) |> in
    let b := mkEmbedded n target false [] None in
    match read_rule config with
    | None => (Err ReadProxyRule, closeEmbedded b g)
    | Some rule =>
        let b := mkEmbedded n target (bt_stats o) (proxy_tags config) rule in
        if negb (bt_started o) then (Err StartXray, closeEmbedded b g) else (Ok b, g)
    end.

(** ** Traffic *)

(** [counter]: the value of a counter of the core, [None] when there is none. *)
Definition read_counter (stats : bool) (counter : string -> option Z) (tag direction : string) : Z :=
  if stats then
    match counter ("outbound>>>" +:+ tag +:+ ">>>traffic>>>" +:+ direction) with
    | Some value => Z.max 0 value
    | None => 0
    end
  else 0.

Definition engineTraffic (counter : string -> option Z) (b : embeddedXray) : outboundTrafficSnapshot :=
  let read := read_counter (bx_stats b) counter in
  foldl (fun r tag =>
    mkOutbound (uwrap 64 (ot_VPNDownload r + read tag "downlink")) (uwrap 64 (ot_VPNUpload r + read tag "uplink"))
      (ot_BypassDownload r) (ot_BypassUpload r))
    (mkOutbound 0 0 (read "direct" "downlink") (read "direct" "uplink")) (bx_proxyTags b).

(** ** Connections into the core *)

(** The streams into a core: contexts not cancelled, connections not closed. *)
Record streams := mkStreams { sm_contexts : gset nat; sm_conns : gset nat; sm_next : nat }.
#[export] Instance streams_eta : Eta streams := fun s => mkStreams (sm_contexts s) (sm_conns s) (sm_next s).

Inductive dial_error := DialContextDone | DialNotTCP (network : string) | DialAddress | DialPort | DialCore.

(** [dv_address]: what [net.SplitHostPort] makes of the address, with what
    [xnet.PortFromString] makes of the port. *)
Record dial_env := mkDial {
  dv_before : bool;
  dv_network : string;
  dv_address : option (string * option Z);
  dv_core : bool;
  dv_after : bool
}.

Definition DialContext (e : dial_env) (s : streams) : result dial_error nat * streams :=
  if dv_before e then (Err DialContextDone, s)
  else if negb (bool_decide (dv_network e ∈ ["tcp"; "tcp4"; "tcp6"])) then (Err (DialNotTCP (dv_network e)), s)
  else match dv_address e with
  | None => (Err DialAddress, s)
  | Some (_, None) => (Err DialPort, s)
  | Some (host, Some port) =>
      let n := sm_next s in
      let s := s <| sm_next := S n |> <| sm_contexts ::= ({[n]} ∪.) |> in
      if negb (dv_core e) then (Err DialCore, s <| sm_contexts ::= (.∖ {[n]}) |>)
      else
        let s := s <| sm_conns ::= ({[n]} ∪.) |> in
        if dv_after e
        then (Err DialContextDone, s <| sm_contexts ::= (.∖ {[n]}) |> <| sm_conns ::= (.∖ {[n]}) |>)
        else (Ok n, s)
  end.

(** [xrayClientConn.Close]. *)
Definition closeConn (n : nat) (s : streams) : streams :=
  s <| sm_contexts ::= (.∖ {[n]}) |> <| sm_conns ::= (.∖ {[n]}) |>.

(** ** One probe *)

Definition pingHTTPStatusOK (status : Z) : bool := (200 <=? status) && (status <? 400).

(** [Unsent]: the dialer or the request could not be made; [Unanswered]: the
    exchange failed; [Response]: its status and the time until its body was
    read, or as much of it as is. *)
Inductive socks_outcome := Unsent (err : string) | Unanswered (err : string) | Response (status : Z) (elapsed : Duration).

Definition pingViaSOCKSContext (srv : VLESSServer) (x : socks_outcome) : PingResult :=
  let res := mkPing (sv_ID srv) (sv_Name srv) (sv_Address srv) (sv_Port srv) "" (-1) "" false zero_time "" in
  match x with
  | Unsent e | Unanswered e => res <| pr_Error := e |>
  | Response status elapsed =>
      if pingHTTPStatusOK status then res <| pr_LatencyMS := Z.quot elapsed Millisecond |>
      else res <| pr_Error := "HTTP " +:+ pretty status |>
  end.

Inductive probe_error :=
| ProbeListen (err : string)
| ProbeConfig (err : xray_error)
| ProbeBoot (err : boot_error).

(** [pv_ctx], [pv_wait]: the context is done before, during the wait for the
    engine. *)
Record probe_env := mkProbe {
  pv_ctx : option string;
  pv_port : result string Z;
  pv_boot : boot;
  pv_wait : option string;
  pv_http : socks_outcome;
  pv_begun : Time;
  pv_ended : Time
}.

Section Probe.
Context `{JSONCodec, ParseJSON}.
Context (error_text : probe_error -> string).

Definition startTemporaryVLESSSOCKS (srv : VLESSServer) (probeURL : string) (port : result string Z) (o : boot)
    (g : glue) : result probe_error embeddedXray * glue :=
  match port with
  | Err e => (Err (ProbeListen e), g)
  | Ok port =>
      match xrayBaseConfig srv probeURL [xraySOCKSInbound port] with
      | Err e => (Err (ProbeConfig e), g)
      | Ok config =>
          match startXray o false config g with
          | (Err e, g) => (Err (ProbeBoot e), g)
          | (Ok b, g) => (Ok b, g)
          end
      end
  end.

Definition pingOneThroughVLESSContext (e : probe_env) (srv : VLESSServer) (testURL : string) (g : glue)
  : PingResult * glue :=
  let failed := mkPing (sv_ID srv) (sv_Name srv) (sv_Address srv) (sv_Port srv) (describeProtocol srv) (-1) ""
                  false (pv_begun e) "" in
  match pv_ctx e with
  | Some err => (failed <| pr_Error := err |>, g)
  | None =>
      match startTemporaryVLESSSOCKS srv testURL (pv_port e) (pv_boot e) g with
      | (Err err, g) => (failed <| pr_Error := error_text err |>, g)
      | (Ok b, g) =>
          match pv_wait e with
          | Some err => (failed <| pr_Error := err |>, closeEmbedded b g)
          | None =>
              (pingViaSOCKSContext srv (pv_http e) <| pr_Protocol := pr_Protocol failed |>
                 <| pr_CheckedAt := pv_ended e |>, closeEmbedded b g)
          end
      end
  end.

Inductive selected_probe_error := NoConfig (e : load_error) | NoSelectedServer | ProbeFailure (name err : string).

Definition probeSelectedServer (cfg : result load_error Config) (e : probe_env) (g : glue)
  : result selected_probe_error Z * glue :=
  match cfg with
  | Err err => (Err (NoConfig err), g)
  | Ok cfg =>
      match activeServer cfg with
      | None => (Err NoSelectedServer, g)
      | Some server =>
          let server := serverWithTLSProfile server (TLSClientProfile (cfg_Settings cfg)) in
          let '(r, g) := pingOneThroughVLESSContext e server (PingTestURL (cfg_Settings cfg)) g in
          (if bool_decide (pr_Error r = "") then Ok (pr_LatencyMS r)
           else Err (ProbeFailure (sv_Name server) (pr_Error r)), g)
      end
  end.
End Probe.

(** ** No clean-up is forgotten *)

(** What a glue state is about, apart from the numbers handed out. *)
Definition same_glue (g h : glue) : Prop :=
  gl_target g = gl_target h /\ gl_contexts g = gl_contexts h /\ gl_instances g = gl_instances h.

(** Numbers handed out are below the next one. *)
Definition glue_fresh (g : glue) : Prop :=
  (forall n, n ∈ gl_contexts g -> (n < gl_next g)%nat) /\
  (forall n, n ∈ gl_instances g -> (n < gl_next g)%nat).

Lemma readd_fresh (n : nat) (X : gset nat) : n ∉ X -> ({[n]} ∪ X) ∖ {[n]} = X.
Proof. set_solver. Qed.

(** A start either adds one engine to both sets and, for the tunnel, points the
    bridge at it, or leaves nothing behind. *)
Lemma startXray_spec o main config g :
  glue_fresh g -> (main = true -> gl_target g = None) ->
  match startXray o main config g with
  | (Ok b, h) =>
      bx_id b = gl_next g /\ gl_next h = S (gl_next g) /\
      gl_contexts h = {[bx_id b]} ∪ gl_contexts g /\ gl_instances h = {[bx_id b]} ∪ gl_instances g /\
      bx_logTarget b = (if main then Some (new_target (bx_id b) config) else None) /\
      gl_target h = (if main then bx_logTarget b else gl_target g) /\
      bx_stats b = bt_stats o /\ bx_proxyTags b = proxy_tags config /\ read_rule config = Some (bx_proxyRule b)
  | (Err _, h) => same_glue h g /\ (gl_next g <= gl_next h)%nat
  end.
Proof.
  intros Hfresh Hm. destruct Hfresh as [Hc Hi].
  assert (Hnc : gl_next g ∉ gl_contexts g) by (intros Hin; apply Hc in Hin; lia).
  assert (Hni : gl_next g ∉ gl_instances g) by (intros Hin; apply Hi in Hin; lia).
  destruct g as [t cs ins n]. cbn in *. unfold startXray, same_glue.
  destruct (bt_parsed o); cbn; [|auto].
  destruct (bt_created o); cbn.
  - destruct (read_rule config) as [rule|]; [destruct (bt_started o)|];
      destruct main; cbn; unfold closeEmbedded, release_target; cbn;
      rewrite ?bool_decide_eq_true_2 by done; cbn; rewrite ?readd_fresh by done;
      try rewrite Hm by done; repeat split; lia.
  - destruct main; cbn; unfold release_target; cbn; rewrite ?bool_decide_eq_true_2 by done; cbn;
      rewrite ?readd_fresh by done; try rewrite Hm by done; repeat split; lia.
Qed.

(** ** Every order of starts and closings *)

(** The main engine, the temporary ones. *)
Record engines := mkEngines { es_glue : glue; es_main : option embeddedXray; es_temporary : list embeddedXray }.

Definition no_engines : engines := mkEngines (mkGlue None ∅ ∅ 0) None [].

Inductive engine_step : engines -> engines -> Prop :=
| start_main o config g temps r h :
    startXray o true config g = (r, h) ->
    engine_step (mkEngines g None temps)
      (mkEngines h (match r with Ok b => Some b | Err _ => None end) temps)
| start_temporary o config g main temps r h :
    startXray o false config g = (r, h) ->
    engine_step (mkEngines g main temps)
      (mkEngines h main (match r with Ok b => b :: temps | Err _ => temps end))
| close_main b g temps :
    engine_step (mkEngines g (Some b) temps) (mkEngines (closeEmbedded b g) None temps)
| close_temporary b g main before after :
    engine_step (mkEngines g main (before ++ b :: after)) (mkEngines (closeEmbedded b g) main (before ++ after)).

Definition alive (s : engines) : list embeddedXray :=
  match es_main s with Some b => [b] | None => [] end ++ es_temporary s.

Definition engines_ok (s : engines) : Prop :=
  let g := es_glue s in
  glue_fresh g /\
  gl_target g = (b ← es_main s; bx_logTarget b) /\
  (forall b, es_main s = Some b -> is_Some (bx_logTarget b)) /\
  Forall (fun b => bx_logTarget b = None) (es_temporary s) /\
  NoDup (bx_id <$> alive s) /\
  gl_contexts g = list_to_set (bx_id <$> alive s) /\
  gl_instances g = list_to_set (bx_id <$> alive s).

Lemma engine_ids_fresh s b : engines_ok s -> b ∈ alive s -> (bx_id b < gl_next (es_glue s))%nat.
Proof.
  intros (Hf & _ & _ & _ & _ & Hc & _) Hb. apply (proj1 Hf). rewrite Hc.
  apply elem_of_list_to_set, list_elem_of_fmap. by exists b.
Qed.

(** A new engine joins the others; [alive] up to its order. *)
Lemma engines_add s b h main temps :
  engines_ok s -> bx_id b = gl_next (es_glue s) -> gl_next h = S (gl_next (es_glue s)) ->
  gl_contexts h = {[bx_id b]} ∪ gl_contexts (es_glue s) ->
  gl_instances h = {[bx_id b]} ∪ gl_instances (es_glue s) ->
  gl_target h = (b ← main; bx_logTarget b) ->
  (forall b, main = Some b -> is_Some (bx_logTarget b)) ->
  Forall (fun b => bx_logTarget b = None) temps ->
  alive (mkEngines h main temps) ≡ₚ b :: alive s ->
  engines_ok (mkEngines h main temps).
Proof.
  intros Hok Hid Hn Hc Hi Ht Hm Htemps Hp.
  assert (Hnew : bx_id b ∉ bx_id <$> alive s).
  { intros (b' & Heq & Hb')%list_elem_of_fmap. apply (engine_ids_fresh s b' Hok) in Hb'. lia. }
  destruct Hok as (Hf & _ & _ & _ & Hd & Hcs & His). repeat split; cbn [es_glue es_main es_temporary]; try done.
  - intros n. rewrite Hc, Hn. intros [->%elem_of_singleton|Hin%Hf]%elem_of_union; lia.
  - intros n. rewrite Hi, Hn. intros [->%elem_of_singleton|Hin%Hf]%elem_of_union; lia.
  - rewrite Hp. cbn. by apply NoDup_cons.
  - rewrite Hc, Hcs. apply leibniz_equiv. rewrite Hp. cbn. set_solver.
  - rewrite Hi, His. apply leibniz_equiv. rewrite Hp. cbn. set_solver.
Qed.

Lemma engines_same s h main temps :
  engines_ok s -> same_glue h (es_glue s) -> (gl_next (es_glue s) <= gl_next h)%nat ->
  main = es_main s -> temps = es_temporary s -> engines_ok (mkEngines h main temps).
Proof.
  intros (Hf & Ht & Hm & Htemps & Hd & Hc & Hi) (Et & Ec & Ei) Hn -> ->.
  repeat split; cbn [es_glue es_main es_temporary]; rewrite ?Et, ?Ec, ?Ei; try done;
    intros n Hin%Hf; lia.
Qed.

Lemma closeEmbedded_fields b g :
  gl_contexts (closeEmbedded b g) = gl_contexts g ∖ {[bx_id b]} /\
  gl_instances (closeEmbedded b g) = gl_instances g ∖ {[bx_id b]} /\
  gl_next (closeEmbedded b g) = gl_next g /\
  gl_target (closeEmbedded b g) =
    match bx_logTarget b, gl_target g with
    | Some t, Some u => if bool_decide (xt_engine t = xt_engine u) then None else gl_target g
    | _, _ => gl_target g
    end.
Proof.
  unfold closeEmbedded, release_target. destruct g as [[u|] ? ? ?], (bx_logTarget b); cbn; try done.
  by destruct (bool_decide _).
Qed.

Lemma engines_remove s b h main temps :
  engines_ok s -> alive s ≡ₚ b :: alive (mkEngines h main temps) ->
  gl_contexts h = gl_contexts (es_glue s) ∖ {[bx_id b]} ->
  gl_instances h = gl_instances (es_glue s) ∖ {[bx_id b]} -> gl_next h = gl_next (es_glue s) ->
  gl_target h = (b ← main; bx_logTarget b) ->
  (forall b, main = Some b -> is_Some (bx_logTarget b)) ->
  Forall (fun b => bx_logTarget b = None) temps ->
  engines_ok (mkEngines h main temps).
Proof.
  intros (Hf & _ & _ & _ & Hd & Hcs & His) Hp Hc Hi Hn Ht Hm Htemps.
  rewrite Hp in Hd. cbn in Hd. apply NoDup_cons in Hd as [Hb Hd].
  assert (Hset : list_to_set (bx_id <$> alive s) ∖ {[bx_id b]} =@{gset nat}
                 list_to_set (bx_id <$> alive (mkEngines h main temps))).
  { apply leibniz_equiv. rewrite Hp. cbn. set_solver. }
  repeat split; cbn [es_glue es_main es_temporary]; try done.
  - intros n. rewrite Hc, Hn. intros [Hin%Hf _]%elem_of_difference. done.
  - intros n. rewrite Hi, Hn. intros [Hin%Hf _]%elem_of_difference. done.
  - by rewrite Hc, Hcs.
  - by rewrite Hi, His.
Qed.

Lemma engine_step_ok s t : engine_step s t -> engines_ok s -> engines_ok t.
Proof.
  intros Hstep Hok. pose proof Hok as (Hf & Ht & Hm & Htemps & _).
  destruct Hstep as [o c g temps r h Hs|o c g main temps r h Hs|b g temps|b g main before after];
    cbn [es_glue es_main es_temporary] in *.
  - pose proof (startXray_spec o true c g Hf (fun _ => Ht)) as Hspec. rewrite Hs in Hspec.
    destruct r as [b|e]; [|by destruct Hspec; eapply engines_same].
    destruct Hspec as (Hid & Hn & Hc & Hi & Hl & Hg & _). eapply engines_add; [done..| | |done|done].
    + by rewrite Hg.
    + intros ? [= <-]. by rewrite Hl.
  - pose proof (startXray_spec o false c g Hf ltac:(done)) as Hspec. rewrite Hs in Hspec.
    destruct r as [b|e]; [|by destruct Hspec; eapply engines_same].
    destruct Hspec as (Hid & Hn & Hc & Hi & Hl & Hg & _). eapply engines_add; [done..| |done| |].
    + by rewrite Hg.
    + by constructor.
    + unfold alive. cbn. destruct main; cbn; [apply Permutation_swap|done].
  - destruct (closeEmbedded_fields b g) as (Ec & Ei & En & Et). apply (engines_remove (mkEngines g (Some b) temps) b); try done.
    destruct (Hm b eq_refl) as [t Hbt]. rewrite Et, Ht. cbn. rewrite Hbt. by rewrite bool_decide_eq_true_2.
  - destruct (closeEmbedded_fields b g) as (Ec & Ei & En & Et).
    apply Forall_app in Htemps as [Hbefore [Hb Hafter]%Forall_cons_1].
    eapply engines_remove; try done.
    + unfold alive. cbn. rewrite Permutation_middle, Permutation_middle. by destruct main.
    + by rewrite Et, Hb.
    + by apply Forall_app.
Qed.

Lemma engines_reachable s : rtc engine_step no_engines s -> engines_ok s.
Proof.
  apply (rtc_ind_r engines_ok); [|by intros x y _; apply engine_step_ok].
  split; [split; intros n Hn%not_elem_of_empty; done|].
  repeat split; cbn; [done|by apply Forall_nil|apply NoDup_nil_2].
Qed.

(** Whatever starts fail where and in which order engines are started and
    closed, exactly the open engines hold a context and an instance, and the
    core's log goes to the service log exactly while the tunnel's engine is
    open, at the level and with the switch its configuration asks for. *)
Theorem engines_accounted s :
  rtc engine_step no_engines s ->
  (forall n, n ∈ gl_contexts (es_glue s) <-> exists b, b ∈ alive s /\ bx_id b = n) /\
  gl_instances (es_glue s) = gl_contexts (es_glue s) /\
  (gl_target (es_glue s) = None <-> es_main s = None) /\
  forall m now rb,
    Handle (gl_target (es_glue s)) m now rb =
    match es_main s with
    | None => rb
    | Some b => Handle (bx_logTarget b) m now rb
    end.
Proof.
  intros (_ & Ht & Hm & _ & _ & Hc & Hi)%engines_reachable. split; [|split; [by rewrite Hi, Hc|split]].
  - intros n. rewrite Hc, elem_of_list_to_set, list_elem_of_fmap. naive_solver.
  - rewrite Ht. destruct (es_main s) as [b|]; [|done]. cbn. destruct (Hm b eq_refl) as [t ->]. naive_solver.
  - intros m now rb. rewrite Ht. by destruct (es_main s).
Qed.

(** ** The engine of a generated configuration *)

Section Started.
Context `{U : URLParser, J : JSONCodec, P : ParseJSON, E : EmbeddedList}.

Lemma member_tag_inj i j : member_tag i = member_tag j -> i = j.
Proof. unfold member_tag. intros Heq. apply (inj (String.app "proxy-")) in Heq. by apply (inj pretty), (inj S) in Heq. Qed.

Lemma outbound_tags_NoDup srv : NoDup (outbound_tags srv).
Proof.
  unfold outbound_tags. destruct (sv_Members srv); [apply NoDup_singleton|].
  apply (NoDup_fmap_2_strong member_tag); [by intros i j _ _ ?%member_tag_inj|apply NoDup_seq].
Qed.

Lemma outbound_tags_are_proxy srv tag : tag ∈ outbound_tags srv -> is_proxy_tag tag = true.
Proof.
  intros Ht. unfold is_proxy_tag. destruct (sv_Members srv) eqn:Hm.
  - unfold outbound_tags in Ht. rewrite Hm in Ht. by apply list_elem_of_singleton in Ht as ->.
  - rewrite (outbound_tags_proxy srv) by (done || by rewrite Hm). by destruct (bool_decide _).
Qed.

(** The engine counts every outbound of the tunnel and no other. *)
Lemma proxy_tags_spec srv probe outs rules log inbounds :
  buildXrayProxyOutbounds srv = Ok outs ->
  proxy_tags (xrayConfig srv probe (outs ++ [direct_outbound]) rules log inbounds) = outbound_tags srv.
Proof.
  intros [_ Htags]%outbounds_spec. unfold proxy_tags, outbounds_of. rewrite config_outbounds, fmap_app.
  assert (Heq : outbound_tag <$> outs = outbound_tags srv).
  { change outbound_tag with (fun out => match field "tag" out with Some (JStr tag) => tag | _ => "" end).
    rewrite (list_fmap_compose (field "tag") (fun t => match t with Some (JStr tag) => tag | _ => "" end)).
    rewrite Htags, <- list_fmap_compose. apply list_fmap_id. }
  rewrite Heq, filter_app. cbn. rewrite app_nil_r.
  apply filter_all, Forall_forall. apply outbound_tags_are_proxy.
Qed.

Definition counted (counter : string -> option Z) (direction : string) (tags : list string) : Z :=
  foldr Z.add 0 ((fun tag => read_counter true counter tag direction) <$> tags).

Lemma engineTraffic_sum counter b :
  bx_stats b = true ->
  engineTraffic counter b =
    mkOutbound (uwrap 64 (counted counter "downlink" (bx_proxyTags b)))
      (uwrap 64 (counted counter "uplink" (bx_proxyTags b)))
      (read_counter true counter "direct" "downlink") (read_counter true counter "direct" "uplink").
Proof.
  intros Hs. unfold engineTraffic. cbv zeta. rewrite Hs.
  assert (Hgen : forall tags d u,
    foldl (fun r tag =>
      mkOutbound (uwrap 64 (ot_VPNDownload r + read_counter true counter tag "downlink"))
        (uwrap 64 (ot_VPNUpload r + read_counter true counter tag "uplink"))
        (ot_BypassDownload r) (ot_BypassUpload r))
      (mkOutbound (uwrap 64 d) (uwrap 64 u) (read_counter true counter "direct" "downlink")
         (read_counter true counter "direct" "uplink")) tags =
    mkOutbound (uwrap 64 (d + counted counter "downlink" tags)) (uwrap 64 (u + counted counter "uplink" tags))
      (read_counter true counter "direct" "downlink") (read_counter true counter "direct" "uplink")).
  { induction tags as [|tag tags IH]; intros d u; cbn [foldl].
    - unfold counted. cbn. by rewrite !Z.add_0_r.
    - cbn [ot_VPNDownload ot_VPNUpload ot_BypassDownload ot_BypassUpload].
      assert (Hw : forall x y, uwrap 64 (uwrap 64 x + y) = uwrap 64 (x + y))
        by (intros; unfold uwrap; apply Z.add_mod_idemp_l; lia).
      rewrite !Hw, IH. unfold counted. cbn. f_equal; f_equal; lia. }
  apply (Hgen (bx_proxyTags b) 0 0).
Qed.

Lemma counted_nonneg counter direction tags : 0 <= counted counter direction tags.
Proof.
  unfold counted. induction tags as [|tag tags IH]; cbn [fmap list_fmap foldr]; [lia|].
  assert (0 <= read_counter true counter tag direction) by (unfold read_counter; case_match; lia). lia.
Qed.

Lemma level_names level :
  level ∈ ["none"; "error"; "warn"; "info"; "debug"] ->
  let raw := xrayLogLevel level in
  let raw := if bool_decide (raw = "warning") then "warn" else raw in
  parseServiceLogLevel raw = parseServiceLogLevel level /\ (raw = "none" <-> level = "none").
Proof.
  intros Hin. repeat (apply elem_of_cons in Hin as [->|Hin]; [by split|]). by apply not_elem_of_nil in Hin.
Qed.

Lemma validate_level st : validate st = None -> LogLevel st ∈ ["none"; "error"; "warn"; "info"; "debug"].
Proof.
  unfold validate. rewrite !then_None, !guard_None, !negb_false_iff. intros Hv. apply oneOf_spec. tauto.
Qed.

Lemma read_kept rule config : kept_rule config = Some rule -> read_rule config = Some (Some rule).
Proof. unfold kept_rule, read_rule. destruct (last _) as [[]|]; naive_solver. Qed.

(** The engine started for the tunnel logs at the level the settings name,
    and not at all for "none"; keeps the rule later rule updates are built
    around; and reports as the VPN's traffic the sum over exactly the tunnel's
    outbounds, each once, as long as it fits in 64 bits, apart from what left
    directly. *)
Theorem tunnel_started cfg srv config o g b h counter :
  validate (cfg_Settings cfg) = None ->
  generateXrayConfig cfg srv = Ok config -> glue_fresh g -> gl_target g = None ->
  startXray o true config g = (Ok b, h) ->
  (exists t, gl_target h = Some t /\ xt_level t = parseServiceLogLevel (LogLevel (cfg_Settings cfg)) /\
     (xt_disabled t = true <-> LogLevel (cfg_Settings cfg) = "none")) /\
  bx_proxyRule b = kept_rule config /\ is_Some (kept_rule config) /\
  bx_proxyTags b = outbound_tags srv /\ NoDup (outbound_tags srv) /\ ("direct" ∉ outbound_tags srv) /\
  (bt_stats o = true ->
   let up := counted counter "uplink" (outbound_tags srv) in
   let down := counted counter "downlink" (outbound_tags srv) in
   up <= uint64_max -> down <= uint64_max ->
   engineTraffic counter b =
     mkOutbound down up (read_counter true counter "direct" "downlink") (read_counter true counter "direct" "uplink")).
Proof.
  intros Hv Hgen Hf Hn Hs. pose proof (startXray_spec o true config g Hf (fun _ => Hn)) as Hspec. rewrite Hs in Hspec.
  destruct Hspec as (_ & _ & _ & _ & Hl & Ht & Hstats & Htags & Hrule). rewrite Hl in Ht.
  pose proof Hgen as Hgen'. apply generate_cases in Hgen' as (outs & probe & log & Hb & Hc).
  assert (Hkept : kept_rule config = Some (proxyRule (serverWithTLSProfile srv (TLSClientProfile (cfg_Settings cfg))))).
  { rewrite Hc. unfold kept_rule. rewrite config_rules, fmap_last, rules_last. done. }
  assert (Hlog : raw_log_level config = xrayLogLevel (LogLevel (cfg_Settings cfg))).
  { unfold generateXrayConfig in Hgen. cbv zeta in Hgen. rewrite Hb in Hgen. cbn [result_bind] in Hgen.
    injection Hgen as <-. reflexivity. }
  assert (Hproxy : bx_proxyTags b = outbound_tags srv).
  { rewrite Htags, Hc, proxy_tags_spec by done. apply outbound_tags_tls. }
  split; [|split; [|split; [|split; [|split; [|split]]]]].
  - eexists. split; [exact Ht|]. unfold new_target. cbv zeta. rewrite Hlog. cbn [xt_level xt_disabled].
    destruct (level_names _ (validate_level _ Hv)) as [Hlevel Hnone]. by rewrite bool_decide_eq_true.
  - rewrite (read_kept _ _ Hkept) in Hrule. by injection Hrule as <-.
  - by rewrite Hkept.
  - done.
  - apply outbound_tags_NoDup.
  - intros Hd%outbound_tags_are_proxy. by vm_compute in Hd.
  - intros Ho. cbv zeta. intros Hu Hd. rewrite engineTraffic_sum by congruence. rewrite Hproxy.
    unfold uint64_max in *. rewrite !uwrap_id by (split; [apply counted_nonneg|lia]). done.
Qed.
End Started.

(** ** Probes and connections *)

Section Probes.
Context `{J : JSONCodec, P : ParseJSON}.
Context (error_text : probe_error -> string).

Definition boots (o : boot) : Prop := bt_parsed o = true /\ bt_created o = true /\ bt_started o = true.

Lemma base_config_rule srv probe inbounds config :
  xrayBaseConfig srv probe inbounds = Ok config -> read_rule config = Some (Some (proxyRule srv)).
Proof.
  unfold xrayBaseConfig. destruct (buildXrayProxyOutbounds srv); [|done]. cbn [result_bind]. intros [= <-].
  by apply read_kept.
Qed.

Lemma base_config_ok srv probe inbounds :
  is_ok (xrayBaseConfig srv probe inbounds) = is_ok (buildXrayProxyOutbounds srv).
Proof. unfold xrayBaseConfig. by destruct (buildXrayProxyOutbounds srv). Qed.

Lemma startXray_ok o main config g rule :
  read_rule config = Some rule -> is_ok (startXray o main config g).1 = true <-> boots o.
Proof.
  intros Hr. unfold startXray, boots. rewrite Hr.
  destruct (bt_parsed o), (bt_created o), (bt_started o), main; cbn; naive_solver.
Qed.

Lemma close_after_start o config g b h :
  glue_fresh g -> startXray o false config g = (Ok b, h) -> same_glue (closeEmbedded b h) g.
Proof.
  intros Hf Hs. pose proof (startXray_spec o false config g Hf ltac:(done)) as Hspec. rewrite Hs in Hspec.
  destruct Hspec as (Hid & _ & Hc & Hi & Hl & Ht & _). destruct Hf as [Hfc Hfi].
  destruct (closeEmbedded_fields b h) as (Ec & Ei & _ & Et). rewrite Hl in Et. unfold same_glue.
  rewrite Ec, Ei, Et, Ht, Hc, Hi, !readd_fresh; [done| |]; rewrite Hid;
    [intros Hin%Hfi|intros Hin%Hfc]; lia.
Qed.

(** The conditions under which a probe is answered. *)
Definition answered (e : probe_env) (srv : VLESSServer) (elapsed : Duration) : Prop :=
  pv_ctx e = None /\ is_ok (pv_port e) = true /\ is_ok (buildXrayProxyOutbounds srv) = true /\
  boots (pv_boot e) /\ pv_wait e = None /\
  exists status, pv_http e = Response status elapsed /\ 200 <= status < 400.

(** One probe: a temporary engine for exactly this server is started and, on
    every path, gone again, without touching the log of the tunnel; the result
    names the server, and has a latency exactly when the configuration could be
    made, the engine ran, and an answer with a status from 200 to 399 came.
    These are the outcomes batches of probes are made of. *)
Theorem probe_outcomes e srv testURL g :
  glue_fresh g ->
  let '(r, h) := pingOneThroughVLESSContext error_text e srv testURL g in
  same_glue h g /\
  ((exists elapsed, answered e srv elapsed /\ r = pingOne srv (pv_ended e) (Answered (Z.quot elapsed Millisecond))) \/
   ((forall elapsed, ~ answered e srv elapsed) /\ exists now err, r = pingOne srv now (ProbeFailed err))).
Proof.
  intros Hf. unfold pingOneThroughVLESSContext. cbv zeta.
  destruct (pv_ctx e) as [err|] eqn:Hctx.
  { split; [done|]. right. split; [intros el (? & _); congruence|]. by exists (pv_begun e), err. }
  unfold startTemporaryVLESSSOCKS.
  destruct (pv_port e) as [port|err] eqn:Hport.
  2:{ split; [done|]. right. split; [intros el (_ & Hp & _); by rewrite Hport in Hp|]. by eexists _, _. }
  pose proof (base_config_ok srv testURL [xraySOCKSInbound port]) as Hok.
  destruct (xrayBaseConfig srv testURL [xraySOCKSInbound port]) as [config|err] eqn:Hconfig.
  2:{ split; [done|]. right. split; [intros el (_ & _ & Hp & _); by rewrite <- Hok in Hp|]. by eexists _, _. }
  pose proof (startXray_ok (pv_boot e) false config g _ (base_config_rule _ _ _ _ Hconfig)) as Hboot.
  destruct (startXray (pv_boot e) false config g) as [[b|err] h] eqn:Hstart; cbn [fst is_ok] in Hboot.
  2:{ pose proof (startXray_spec (pv_boot e) false config g Hf ltac:(done)) as Hspec. rewrite Hstart in Hspec.
      split; [apply Hspec|]. right. split; [intros el (_ & _ & _ & Hp & _); by apply Hboot in Hp|]. by eexists _, _. }
  pose proof (close_after_start _ _ _ _ _ Hf Hstart) as Hclosed.
  destruct (pv_wait e) as [err|] eqn:Hwait.
  { split; [done|]. right. split; [intros el (_ & _ & _ & _ & Hp & _); congruence|]. by eexists _, _. }
  split; [done|]. unfold pingViaSOCKSContext. destruct (pv_http e) as [err|err|status elapsed] eqn:Hhttp.
  1,2: right; split; [intros el (_ & _ & _ & _ & _ & s & Hs & _); congruence|by exists (pv_ended e), err].
  unfold pingHTTPStatusOK. destruct (Z.leb_spec 200 status), (Z.ltb_spec status 400); cbn [andb].
  2-4: right; split;
    [intros el (_ & _ & _ & _ & _ & s & Hs & Hr); assert (s = status) as -> by congruence; lia|
     by exists (pv_ended e), ("HTTP " +:+ pretty status)].
  left. exists elapsed. split; [|done]. unfold answered. rewrite Hport, Hboot in *. rewrite <- Hok.
  repeat split; try done; try apply Hboot; try done. by exists status.
Qed.
End Probes.

(** Dialing into the core leaves a context behind exactly for the connection it
    returns, and closing that ends both. *)
Theorem dial_accounted e s :
  (forall n, n ∈ sm_contexts s \/ n ∈ sm_conns s -> (n < sm_next s)%nat) ->
  match DialContext e s with
  | (Ok n, t) =>
      (dv_before e = false /\ dv_after e = false) /\ (n ∉ sm_contexts s) /\
      sm_contexts t = {[n]} ∪ sm_contexts s /\ sm_conns t = {[n]} ∪ sm_conns s /\
      sm_contexts (closeConn n t) = sm_contexts s /\ sm_conns (closeConn n t) = sm_conns s
  | (Err _, t) => sm_contexts t = sm_contexts s /\ sm_conns t = sm_conns s
  end.
Proof.
  intros Hf. destruct s as [cs ns n]. cbn [sm_contexts sm_conns sm_next] in Hf.
  assert (Hc : n ∉ cs) by (intros Hin; specialize (Hf n (or_introl Hin)); lia).
  assert (Hn : n ∉ ns) by (intros Hin; specialize (Hf n (or_intror Hin)); lia).
  unfold DialContext. destruct (dv_before e); [done|]. destruct (negb (bool_decide _)); [done|].
  destruct (dv_address e) as [[host [port|]]|]; [|done..]. cbv zeta.
  destruct (dv_core e); cbn.
  - destruct (dv_after e); cbn; rewrite !readd_fresh by done; done.
  - by rewrite readd_fresh.
Qed.
