(* ===== verification/PingCache.v ===== *)
(** * The cache of probe results and its file: [pingcache.go]

    The map is [byID]; the file system is a map from paths to contents, and what
    each write comes to is a parameter of the operation, so that a crash is a
    write or a rename that did not happen.  [encoding/json] on the map is the
    parameter [CacheCodec]. *)

From Stdlib Require Import Ascii.
From S2P Require Import Prelude GoStrings Settings Servers Config Subscriptions Selection.

#[local] Open Scope Z_scope.

(** [cache_decode]: [None] is an error, [Some None] the document [null]. *)
Class CacheCodec := {
  cache_encode : gmap string PingResult -> string;
  cache_decode : string -> option (option (gmap string PingResult));
  cache_valid : gmap string PingResult -> Prop
}.

(** What is valid UTF-8 with times the format can hold is read back as written. *)
Class CacheLaws (C : CacheCodec) : Prop :=
  cache_roundtrip : forall m, cache_valid m -> cache_decode (cache_encode m) = Some (Some m).

Abbreviation files := (gmap string string) (only parsing).

Inductive save_outcome :=
| NotEncoded
| NotWritten (left : option string)
| NotRenamed
| Saved.

Record pingCache := mkPingCache { pc_path : string; pc_byID : gmap string PingResult }.
#[export] Instance pingCache_eta : Eta pingCache := fun c => mkPingCache (pc_path c) (pc_byID c).

Section Cache.
Context `{CacheCodec}.

Definition load (disk : files) (path : string) : option (gmap string PingResult) :=
  data ← disk !! path; results ← cache_decode data; results.

Fixpoint load_legacy (disk : files) (path : string) (legacyPaths : list string)
  : gmap string PingResult :=
  match legacyPaths with
  | [] => ∅
  | legacy :: rest =>
      if bool_decide (legacy = path) then load_legacy disk path rest
      else match load disk legacy with
           | Some results => results
           | None => load_legacy disk path rest
           end
  end.

Definition newPingCache (path : string) (legacyPaths : list string) (disk : files) : pingCache :=
  mkPingCache path
    (match load disk path with
     | Some results => results
     | None => load_legacy disk path legacyPaths
     end).

Definition tmp_path (path : string) : string := path +:+ ".tmp".

Definition save (o : save_outcome) (c : pingCache) (disk : files) : files :=
  let tmp := tmp_path (pc_path c) in
  let data := cache_encode (pc_byID c) in
  match o with
  | NotEncoded => disk
  | NotWritten None => disk
  | NotWritten (Some partial) => <[tmp := partial]> disk
  | NotRenamed => <[tmp := data]> disk
  | Saved => <[pc_path c := data]> (delete tmp disk)
  end.

Definition Update (results : list PingResult) (o : save_outcome) (c : pingCache) (disk : files)
  : pingCache * files :=
  let c := c <| pc_byID ::= fun m => update_cache m results |> in (c, save o c disk).

Definition Set_ (result : PingResult) (c : pingCache) : pingCache :=
  c <| pc_byID ::= insert (pr_ServerID result) result |>.

(** The result of the first equivalent server, under the candidate's name. *)
Definition carry (r : PingResult) (candidate : VLESSServer) : PingResult :=
  r <| pr_ServerID := sv_ID candidate |> <| pr_ServerName := sv_Name candidate |>
    <| pr_Address := sv_Address candidate |> <| pr_Port := sv_Port candidate |>
    <| pr_Protocol := describeProtocol candidate |>.

Definition migrate_candidate (previous : list VLESSServer)
    (acc : gmap string PingResult * nat) (candidate : VLESSServer) : gmap string PingResult * nat :=
  let '(m, migrated) := acc in
  match m !! sv_ID candidate with
  | Some _ => acc
  | None =>
      match list_find (fun old => sameCatalogServer old candidate = true) previous with
      | None => acc
      | Some (_, old) =>
          match m !! sv_ID old with
          | None => acc
          | Some r => (<[sv_ID candidate := carry r candidate]> m, S migrated)
          end
      end
  end.

Definition MigrateEquivalent (previous fresh : list VLESSServer) (o : save_outcome) (c : pingCache)
    (disk : files) : nat * pingCache * files :=
  let '(m, migrated) := foldl (migrate_candidate previous) (pc_byID c, O) fresh in
  let c := c <| pc_byID := m |> in
  (migrated, c, if (0 <? migrated)%nat then save o c disk else disk).

Definition All (c : pingCache) : list PingResult := (map_to_list (pc_byID c)).*2.
Definition Get (id : string) (c : pingCache) : option PingResult := pc_byID c !! id.

Definition Prune (keepIDs : gset string) (o : save_outcome) (c : pingCache) (disk : files)
  : pingCache * files :=
  let kept := filter (fun p => p.1 ∈ keepIDs) (pc_byID c) in
  let changed := negb (bool_decide (dom (pc_byID c) ⊆ keepIDs)) in
  let c := c <| pc_byID := kept |> in
  (c, if changed then save o c disk else disk).

(** ** Runs, with restarts *)

Inductive cache_op :=
| OpUpdate (results : list PingResult) (o : save_outcome)
| OpSet (result : PingResult)
| OpMigrate (previous fresh : list VLESSServer) (o : save_outcome)
| OpPrune (keepIDs : gset string) (o : save_outcome)
| OpRestart.

Definition cache_step (legacy : list string) (s : pingCache * files) (op : cache_op)
  : pingCache * files :=
  let '(c, disk) := s in
  match op with
  | OpUpdate results o => Update results o c disk
  | OpSet result => (Set_ result c, disk)
  | OpMigrate previous fresh o => let '(_, c, disk) := MigrateEquivalent previous fresh o c disk in (c, disk)
  | OpPrune keep o => Prune keep o c disk
  | OpRestart => (newPingCache (pc_path c) legacy disk, disk)
  end.

(** ** The promise: a map in memory and the map a restart brings back *)

Record spec_cache := mkSpecCache {
  sc_mem : gmap string PingResult;
  sc_durable : gmap string PingResult
}.

Definition spec_save (o : save_outcome) (s : spec_cache) : spec_cache :=
  match o with Saved => mkSpecCache (sc_mem s) (sc_mem s) | _ => s end.

Definition spec_step (s : spec_cache) (op : cache_op) : spec_cache :=
  let m := sc_mem s in
  match op with
  | OpUpdate results o => spec_save o (mkSpecCache (update_cache m results) (sc_durable s))
  | OpSet result => mkSpecCache (<[pr_ServerID result := result]> m) (sc_durable s)
  | OpMigrate previous fresh o =>
      let '(m', migrated) := foldl (migrate_candidate previous) (m, O) fresh in
      let s := mkSpecCache m' (sc_durable s) in
      if (0 <? migrated)%nat then spec_save o s else s
  | OpPrune keep o =>
      let m' := filter (fun p => p.1 ∈ keep) m in
      let s := mkSpecCache m' (sc_durable s) in
      if bool_decide (dom m ⊆ keep) then s else spec_save o s
  | OpRestart => mkSpecCache (sc_durable s) (sc_durable s)
  end.

(** ** Lemmas *)

Lemma tmp_path_ne path : tmp_path path <> path.
Proof.
  intros Heq. apply (f_equal String.length) in Heq. revert Heq. unfold tmp_path.
  assert (Hl : forall a b, String.length (a +:+ b) = (String.length a + String.length b)%nat).
  { induction a as [|c a IH]; intros b; [done|].
    change (S (String.length (a +:+ b)) = S (String.length a + String.length b)). by rewrite IH. }
  rewrite Hl. cbn. lia.
Qed.

Lemma load_legacy_ext disk disk' path legacy :
  (forall p, p ∈ legacy -> p <> path -> disk !! p = disk' !! p) ->
  load_legacy disk path legacy = load_legacy disk' path legacy.
Proof.
  induction legacy as [|p legacy IH]; intros Hext; [done|]. cbn [load_legacy].
  case_bool_decide as Hp; [apply IH; intros q Hq; apply Hext; by right|].
  unfold load. rewrite (Hext p) by (done || left). destruct (disk' !! p ≫= _); [done|].
  apply IH. intros q Hq. apply Hext. by right.
Qed.

Context {laws : CacheLaws _}.
Variables (path : string) (legacy : list string).
Hypothesis Hlegacy : tmp_path path ∉ legacy.

Definition reloaded (disk : files) : gmap string PingResult := pc_byID (newPingCache path legacy disk).

Lemma reloaded_tmp disk data : reloaded (<[tmp_path path := data]> disk) = reloaded disk.
Proof using Hlegacy.
  unfold reloaded, newPingCache, load. cbn [pc_byID].
  rewrite lookup_insert_ne by (apply tmp_path_ne). destruct (disk !! path ≫= _); [done|].
  apply load_legacy_ext. intros p Hp _. rewrite lookup_insert_ne; [done|]. by intros <-.
Qed.

Lemma reloaded_saved disk m :
  cache_valid m ->
  reloaded (<[path := cache_encode m]> (delete (tmp_path path) disk)) = m.
Proof using laws.
  intros Hm. unfold reloaded, newPingCache, load. cbn [pc_byID]. rewrite lookup_insert_eq. cbn [mbind option_bind].
  by rewrite cache_roundtrip.
Qed.

(** The concrete state holds what the promise says. *)
Definition implements (s : pingCache * files) (a : spec_cache) : Prop :=
  pc_path s.1 = path /\ pc_byID s.1 = sc_mem a /\ reloaded s.2 = sc_durable a.

Lemma save_implements o c disk a :
  implements (c, disk) a -> (o = Saved -> cache_valid (sc_mem a)) ->
  implements (c, save o c disk) (spec_save o a).
Proof using laws Hlegacy.
  intros (Hp & Hm & Hd) Hv. unfold save. cbn [fst snd] in *. rewrite Hp, Hm.
  destruct o as [|[partial|]| |]; (split; [done|]; split; [done|]); cbn [snd spec_save sc_durable].
  - done.
  - by rewrite reloaded_tmp.
  - done.
  - by rewrite reloaded_tmp.
  - apply reloaded_saved. by apply Hv.
Qed.

Lemma step_implements s a op :
  implements s a -> cache_valid (sc_mem (spec_step a op)) ->
  implements (cache_step legacy s op) (spec_step a op).
Proof using laws Hlegacy.
  destruct s as [c disk], a as [m d]. intros (Hp & Hm & Hd) Hv. cbn [fst snd sc_mem sc_durable] in *.
  destruct op as [results o|r|previous fresh o|keep o|]; cbn [cache_step spec_step sc_mem sc_durable] in *.
  - apply save_implements; [by repeat split; cbn; rewrite ?Hm|]. intros ->. exact Hv.
  - repeat split; cbn; by rewrite ?Hm.
  - unfold MigrateEquivalent. rewrite Hm in *. destruct (foldl _ _ _) as [m' n].
    destruct (0 <? n)%nat; [|by repeat split]. apply save_implements; [by repeat split|].
    intros ->. exact Hv.
  - unfold Prune. rewrite Hm in *. destruct (bool_decide (dom m ⊆ keep)); cbn [negb]; [by repeat split|].
    apply save_implements; [by repeat split|]. intros ->. exact Hv.
  - split; [done|]. split; [|done]. cbn [fst sc_mem]. by rewrite Hp.
Qed.

Lemma run_implements ops s a :
  implements s a ->
  (forall prefix, prefix `prefix_of` ops -> cache_valid (sc_mem (foldl spec_step a prefix))) ->
  implements (foldl (cache_step legacy) s ops) (foldl spec_step a ops).
Proof using laws Hlegacy.
  revert s a. induction ops as [|op ops IH]; intros s a Hs Hv; [done|]. cbn [foldl]. apply IH.
  - apply step_implements; [done|]. apply (Hv [op]). exists ops. done.
  - intros prefix [rest ->]. apply (Hv (op :: prefix)). by exists rest.
Qed.
End Cache.

(** C31. Whatever updates, migrations, prunings and restarts happen and however many
    writes are lost half-way, memory is what the operations make of it and a
    restart brings back the map of the last completed write, or what the first
    start found, possibly in a legacy file; never a mixture. *)
Theorem ping_cache_durable `{C : CacheCodec, !CacheLaws C} path legacy disk ops :
  tmp_path path ∉ legacy ->
  let start := newPingCache path legacy disk in
  let promise := foldl spec_step (mkSpecCache (pc_byID start) (pc_byID start)) in
  (forall prefix, prefix `prefix_of` ops -> cache_valid (sc_mem (promise prefix))) ->
  let '(c, disk') := foldl (cache_step legacy) (start, disk) ops in
  pc_byID c = sc_mem (promise ops) /\
  pc_byID (newPingCache path legacy disk') = sc_durable (promise ops).
Proof.
  intros Hlegacy. cbv zeta. intros Hv.
  destruct (run_implements path legacy Hlegacy ops (newPingCache path legacy disk, disk)
    (mkSpecCache (pc_byID (newPingCache path legacy disk)) (pc_byID (newPingCache path legacy disk))))
    as (_ & Hm & Hd); [by repeat split|done|].
  by destruct (foldl (cache_step legacy) _ ops).
Qed.

(** ** Carrying results over a change of identifiers *)

(** Carrying results over never touches a result that is there; every new one
    is the result of an equivalent earlier server under the new server's name;
    the count is the number of new ones; and a new server without one has an
    equivalent earlier server that had none. *)
Theorem MigrateEquivalent_history `{CacheCodec} previous fresh o c disk :
  let '(migrated, c', disk') := MigrateEquivalent previous fresh o c disk in
  pc_byID c ⊆ pc_byID c' /\ size (pc_byID c') = (size (pc_byID c) + migrated)%nat /\
  (migrated = O -> c' = c /\ disk' = disk) /\
  (forall id r, pc_byID c' !! id = Some r -> pc_byID c !! id = None ->
     exists candidate old r0, candidate ∈ fresh /\ sv_ID candidate = id /\ old ∈ previous /\
       sameCatalogServer old candidate = true /\ pc_byID c' !! sv_ID old = Some r0 /\
       r = carry r0 candidate) /\
  (forall candidate, candidate ∈ fresh -> pc_byID c' !! sv_ID candidate = None ->
     forall i old, list_find (fun old => sameCatalogServer old candidate = true) previous = Some (i, old) ->
       pc_byID c !! sv_ID old = None).
Proof.
  unfold MigrateEquivalent. destruct c as [path m]. cbn [pc_byID].
  pose (inv := fun (seen : list VLESSServer) (acc : gmap string PingResult * nat) =>
    m ⊆ acc.1 /\ size acc.1 = (size m + acc.2)%nat /\
    (forall id r, acc.1 !! id = Some r -> m !! id = None ->
       exists candidate old r0, candidate ∈ seen /\ sv_ID candidate = id /\ old ∈ previous /\
         sameCatalogServer old candidate = true /\ acc.1 !! sv_ID old = Some r0 /\
         r = carry r0 candidate) /\
    (forall candidate, candidate ∈ seen -> acc.1 !! sv_ID candidate = None ->
       forall i old, list_find (fun old => sameCatalogServer old candidate = true) previous = Some (i, old) ->
         m !! sv_ID old = None)).
  assert (Hinv : inv fresh (foldl (migrate_candidate previous) (m, O) fresh)).
  { apply (foldl_seen inv).
    - intros seen candidate [m1 n] _ (Hsub & Hsize & Hnew & Hleft). unfold migrate_candidate.
      assert (Hstay : (m1 !! sv_ID candidate = None ->
          forall i old, list_find (fun old => sameCatalogServer old candidate = true) previous = Some (i, old) ->
            m1 !! sv_ID old = None) -> inv (seen ++ [candidate]) (m1, n)).
      { intros Hc. split; [done|]. split; [done|]. split.
        - intros id r Hr Hm. destruct (Hnew id r Hr Hm) as (c & old & r0 & Hin & Hrest).
          exists c, old, r0. split; [|done]. apply elem_of_snoc. by left.
        - intros c [Hin| ->]%elem_of_snoc; [by apply Hleft|]. intros Hnone i old Hf.
          cbn [fst] in *. eapply lookup_weaken_None; [by eapply Hc|done]. }
      cbn [fst snd] in *.
      destruct (m1 !! sv_ID candidate) as [x|] eqn:Hx; [by apply Hstay|].
      destruct (list_find _ previous) as [[i old]|] eqn:Hf; [|by apply Hstay].
      destruct (m1 !! sv_ID old) as [r0|] eqn:Hr0; [|by apply Hstay; intros _ ? ? [= <- <-]].
      clear Hstay. apply list_find_Some in Hf as (Hi & Hsame & _).
      apply list_elem_of_lookup_2 in Hi. repeat split; cbn [fst snd].
      + apply insert_subseteq_r; [|done]. by eapply lookup_weaken_None.
      + rewrite map_size_insert_None by done. lia.
      + intros id r [[<- <-]|[Hne Hr]]%lookup_insert_Some Hm.
        * exists candidate, old, r0. split; [apply elem_of_snoc; by right|]. repeat split; try done.
          rewrite lookup_insert_ne; [done|]. congruence.
        * destruct (Hnew id r Hr Hm) as (c & old' & r1 & Hin & Hid & Hold & Hs & Hl & ->).
          exists c, old', r1. split; [apply elem_of_snoc; by left|]. repeat split; try done.
          rewrite lookup_insert_ne; [done|]. congruence.
      + intros c [Hin| ->]%elem_of_snoc; [|by rewrite lookup_insert_eq].
        intros [Hnone _]%lookup_insert_None. by apply Hleft.
    - repeat split; cbn; [done|lia| |].
      + intros id r Hr Hm. congruence.
      + intros c Hc. by apply not_elem_of_nil in Hc. }
  destruct (foldl _ _ fresh) as [m' n] eqn:Hrun. destruct Hinv as (Hsub & Hsize & Hnew & Hleft).
  cbn [fst snd] in *. unfold upd; cbn [pc_byID pc_path]. repeat split; try done.
  - f_equal. symmetry. apply map_subseteq_size_eq; [done|lia].
  - by subst.
Qed.

(** ** A codec, and a concrete run *)

#[local] Instance PingResult_eq_dec : EqDecision PingResult.
Proof. solve_decision. Defined.
#[local] Instance PingResult_countable : Countable PingResult :=
  inj_countable'
    (fun r => (pr_ServerID r, pr_ServerName r, pr_Address r, pr_Port r, pr_Protocol r,
               pr_LatencyMS r, pr_Error r, pr_Incompat r, pr_CheckedAt r, pr_SelectedMemberID r))
    (fun '(a, b, c, d, e, f, g, h, i, j) => mkPing a b c d e f g h i j)
    (fun r => match r with mkPing _ _ _ _ _ _ _ _ _ _ => eq_refl end).

Fixpoint pos_text (p : positive) : string :=
  match p with
  | xH => ""
  | xO p => String "0"%char (pos_text p)
  | xI p => String "1"%char (pos_text p)
  end.
Fixpoint text_pos (s : string) : option positive :=
  match s with
  | EmptyString => Some xH
  | String c s => p ← text_pos s;
      if bool_decide (c = "0"%char) then Some (xO p)
      else if bool_decide (c = "1"%char) then Some (xI p) else None
  end.

Lemma text_pos_text p : text_pos (pos_text p) = Some p.
Proof. induction p as [p IH|p IH|]; cbn; by rewrite ?IH. Qed.

#[local] Instance bit_codec : CacheCodec := {|
  cache_encode m := pos_text (encode m);
  cache_decode s := Some <$> (text_pos s ≫= decode);
  cache_valid _ := True |}.
#[local] Instance bit_codec_laws : CacheLaws bit_codec.
Proof. intros m _. cbn. rewrite text_pos_text. cbn. by rewrite decode_encode. Qed.

Definition one_result (id : string) (ms : Z) : PingResult := mkPing id "n" "h" 443 "VLESS" ms "" false 1 "".

Definition crash_run : list cache_op :=
  [OpUpdate [one_result "a" 10] Saved; OpUpdate [one_result "a" 90; one_result "b" 20] NotRenamed;
   OpRestart].

Lemma ping_cache_durable_witness :
  let '(c, disk) := foldl (cache_step ["/old"]) (newPingCache "/run/p" ["/old"] ∅, ∅) crash_run in
  pc_byID c = {["a" := one_result "a" 10]} /\
  pc_byID (newPingCache "/run/p" ["/old"] disk) = {["a" := one_result "a" 10]}.
Proof.
  assert (Hl : tmp_path "/run/p" ∉ ["/old"])
    by (apply (bool_decide_eq_true_1 _); vm_compute; reflexivity).
  pose proof (ping_cache_durable "/run/p" ["/old"] ∅ crash_run Hl (fun _ _ => I)) as H.
  cbv zeta in H. destruct (foldl (cache_step _) _ _) as [c disk]. destruct H as [Hm Hd]. split.
  - etransitivity; [exact Hm|]. vm_compute. reflexivity.
  - etransitivity; [exact Hd|]. vm_compute. reflexivity.
Defined.
