(* ===== verification/Traffic.v ===== *)
(** * The uplink: [traffic.go], the local part of [health.go], [util.go]

    Which interface carries the default route, how many bytes it has carried,
    whether it is ready, how long the start waits for it.  The route table is
    the text of [/proc/net/route]; the state of an interface, its counters and
    the clock are parameters. *)

From Stdlib Require Import Ascii.
From S2P Require Import Prelude GoStrings Settings Servers Config Subscriptions Routing Bypass Failover.

#[local] Open Scope Z_scope.

(** ** Counters *)

Definition addTrafficCounters (base extra : Z) : Z :=
  if uint64_max - base <? extra then uint64_max else base + extra.

(** The text of a counter file, when it can be read. *)
Definition readUint64File (data : option string) : option Z :=
  text ← data; ParseUint (TrimSpace text) 10 64.

(** ** The route table *)

Definition routeUp : Z := 1.
Definition routeReject : Z := 512.

(** The interface of a default route that is up and not a reject route. *)
Definition default_route (line : string) : option string :=
  match Fields line with
  | name :: destination :: _ :: flags :: _ :: _ :: _ :: mask :: _ =>
      if bool_decide (name = "lo") || bool_decide (name = tunIface) then None
      else match ParseUint destination 16 32, ParseUint flags 16 32, ParseUint mask 16 32 with
           | Some dst, Some fl, Some mk =>
               if (dst =? 0) && (mk =? 0) && negb (Z.land fl routeUp =? 0) &&
                  (Z.land fl routeReject =? 0)
               then Some name else None
           | _, _, _ => None
           end
  | _ => None
  end.

Definition defaultWANRouteReady (routes : string) (interfaceReady : string -> bool) : bool :=
  existsb (fun line => match default_route line with
                       | Some name => interfaceReady name
                       | None => false
                       end) (ScanLines routes).1.

Record internetTraffic := mkTraffic {
  it_Interface : string;
  it_Source : string;
  it_Download : Z;
  it_Upload : Z
}.
#[export] Instance internetTraffic_eta : Eta internetTraffic := fun t =>
  mkTraffic (it_Interface t) (it_Source t) (it_Download t) (it_Upload t).

Inductive traffic_error := ScanFailed | NoUsableRoute | CounterUnreadable (path : string).

Definition route_name (usable : string -> bool) (names : gset string) (line : string) : gset string :=
  match default_route line with
  | Some name => if bool_decide (name ∈ names) || negb (usable name) then names else {[name]} ∪ names
  | None => names
  end.

Definition counter_path (name direction : string) : string :=
  "/sys/class/net/" +:+ name +:+ "/statistics/" +:+ direction +:+ "_bytes".

Fixpoint add_interfaces (read : string -> option Z) (names : list string) (t : internetTraffic)
  : result traffic_error internetTraffic :=
  match names with
  | [] => Ok t
  | name :: names =>
      match read (counter_path name "rx") with
      | None => Err (CounterUnreadable (counter_path name "rx"))
      | Some rx =>
          match read (counter_path name "tx") with
          | None => Err (CounterUnreadable (counter_path name "tx"))
          | Some tx =>
              add_interfaces read names
                (t <| it_Download ::= fun d => addTrafficCounters d rx |>
                   <| it_Upload ::= fun u => addTrafficCounters u tx |>)
          end
      end
  end.

(** The names of the set in order: [sort.Strings] of its elements. *)
Definition interfaces_of (names : gset string) : list string := sort_strings (elements names).

Definition internetTrafficSnapshot (routes : string) (usable : string -> bool)
    (read : string -> option Z) : result traffic_error internetTraffic :=
  let '(lines, ok) := ScanLines routes in
  let names := foldl (route_name usable) ∅ lines in
  if negb ok then Err ScanFailed
  else match interfaces_of names with
       | [] => Err NoUsableRoute
       | interfaces =>
           add_interfaces read interfaces
             (mkTraffic (Join interfaces ", ") ("wan:" +:+ Join interfaces ",") 0 0)
       end.

(** ** Waiting for the uplink *)

Definition wan_delays : list Duration :=
  [500 * Millisecond; 1 * Second; 2 * Second; 3 * Second].

(** What iteration [i] sees: the clock at its head, whether the uplink is
    ready, the clock when the rest of the time is computed. *)
Record wan_env := mkWan {
  wn_now : nat -> Time;
  wn_ready : nat -> bool;
  wn_until : nat -> Time
}.

Definition wan_delay (deadline : Time) (env : wan_env) (i : nat) : Duration :=
  let d := default (3 * Second) (wan_delays !! i) in
  let remaining := deadline - wn_until env i in
  if remaining <? d then remaining else d.

Fixpoint wan_loop (fuel : nat) (deadline : Time) (env : wan_env) (i : nat) : option bool :=
  match fuel with
  | O => None
  | S fuel =>
      if wn_now env i <? deadline then
        if wn_ready env i then Some true
        else if wan_delay deadline env i <=? 0 then Some false
        else wan_loop fuel deadline env (S i)
      else Some false
  end.

Definition wan_fuel (timeout : Duration) : nat := (2 + Z.to_nat (timeout / (500 * Millisecond)))%nat.

Definition waitForWAN (timeout : Duration) (start : Time) (env : wan_env) : option bool :=
  wan_loop (wan_fuel timeout) (start + timeout) env 0.

(** ** Lemmas *)

Lemma addTrafficCounters_spec base extra :
  0 <= base <= uint64_max -> 0 <= extra ->
  addTrafficCounters base extra = Z.min uint64_max (base + extra).
Proof. intros Hb He. unfold addTrafficCounters. destruct (Z.ltb_spec (uint64_max - base) extra); lia. Qed.

(** The names of the usable default routes of a table. *)
Definition uplinks (usable : string -> bool) (lines : list string) : list string :=
  filter (fun name => usable name = true) (omap default_route lines).

Lemma route_names usable lines names :
  foldl (route_name usable) names lines = list_to_set (uplinks usable lines) ∪ names.
Proof.
  revert names. induction lines as [|line lines IH]; intros names; cbn [foldl].
  { cbn. by rewrite (left_id_L ∅ (∪)). }
  rewrite IH. unfold uplinks, route_name. cbn [omap list_omap].
  destruct (default_route line) as [name|]; [|done]. rewrite filter_cons.
  destruct (usable name) eqn:Hu; cbn [negb].
  - rewrite decide_True by done. rewrite orb_false_r. cbn [list_to_set foldr].
    case_bool_decide as Hn; [|set_solver]. apply set_eq. intros x. rewrite !elem_of_union, elem_of_singleton.
    naive_solver.
  - rewrite decide_False by done. by rewrite orb_true_r.
Qed.

Lemma interfaces_spec names :
  Sorted String.le (interfaces_of names) /\ NoDup (interfaces_of names) /\
  forall x, x ∈ interfaces_of names <-> x ∈ names.
Proof.
  unfold interfaces_of. destruct (sort_strings_spec (elements names)) as [Hs Hp]. split; [done|].
  split; [rewrite Hp; apply NoDup_elements|]. intros x. rewrite Hp. apply elem_of_elements.
Qed.

Definition total (read : string -> option Z) (direction : string) (names : list string) : Z :=
  foldr (fun name t => match read (counter_path name direction) with Some v => v | None => 0 end + t)
    0 names.

Lemma total_nonneg read direction names :
  (forall path v, read path = Some v -> 0 <= v) -> 0 <= total read direction names.
Proof.
  intros Hr. unfold total. induction names as [|name names IH]; [done|]. cbn [foldr].
  destruct (read (counter_path name direction)) as [v|] eqn:Hv; [apply Hr in Hv|]; lia.
Qed.

Lemma add_interfaces_spec read names t r :
  (forall path v, read path = Some v -> 0 <= v) ->
  0 <= it_Download t <= uint64_max -> 0 <= it_Upload t <= uint64_max ->
  add_interfaces read names t = Ok r ->
  it_Interface r = it_Interface t /\ it_Source r = it_Source t /\
  it_Download r = Z.min uint64_max (it_Download t + total read "rx" names) /\
  it_Upload r = Z.min uint64_max (it_Upload t + total read "tx" names) /\
  (forall name, name ∈ names -> is_Some (read (counter_path name "rx")) /\ is_Some (read (counter_path name "tx"))).
Proof.
  intros Hread. revert t. induction names as [|name names IH]; intros t Hd Hu; cbn [add_interfaces].
  { intros [= <-]. cbn. repeat split; try lia; by apply not_elem_of_nil in H. }
  destruct (read (counter_path name "rx")) as [rx|] eqn:Hrx; [|done].
  destruct (read (counter_path name "tx")) as [tx|] eqn:Htx; [|done]. intros Hrun.
  pose proof (Hread _ _ Hrx). pose proof (Hread _ _ Htx).
  pose proof (total_nonneg read "rx" names Hread). pose proof (total_nonneg read "tx" names Hread).
  apply IH in Hrun; unfold upd in *; cbn [it_Interface it_Source it_Download it_Upload] in *.
  2,3: rewrite addTrafficCounters_spec by lia; lia.
  destruct Hrun as (Hi & Hs & HD & HU & Hall). rewrite !addTrafficCounters_spec in HD, HU by lia.
  cbn [total foldr]. rewrite Hrx, Htx. unfold total in *.
  split; [done|]. split; [done|]. split; [lia|]. split; [lia|].
  intros x [->|Hx]%elem_of_cons; [split; by eexists|by apply Hall].
Qed.

(** ** Waiting *)

(** Times are read in order, and a sleep lasts at least as long as asked. *)
Definition clock_runs (deadline start : Time) (env : wan_env) : Prop :=
  start <= wn_now env 0%nat /\
  forall i, wn_now env i <= wn_until env i /\
    wn_until env i + Z.max 0 (wan_delay deadline env i) <= wn_now env (S i).

Lemma wan_delay_bound i : 500 * Millisecond <= default (3 * Second) (wan_delays !! i).
Proof. destruct i as [|[|[|[|i]]]]; vm_compute; discriminate. Qed.

Lemma wan_delay_max deadline env i : wan_delay deadline env i <= 3 * Second.
Proof.
  assert (Hd : default (3 * Second) (wan_delays !! i) <= 3 * Second)
    by (destruct i as [|[|[|[|i]]]]; vm_compute; discriminate).
  unfold wan_delay. cbv zeta. destruct (Z.ltb_spec (deadline - wn_until env i)
    (default (3 * Second) (wan_delays !! i))); lia.
Qed.

Lemma now_advances deadline start env i :
  clock_runs deadline start env ->
  deadline <= wn_now env i \/ start + 500 * Millisecond * Z.of_nat i <= wn_now env i.
Proof.
  intros [H0 Hstep]. induction i as [|i IH]; [right; lia|]. destruct (Hstep i) as [Hu Hn].
  destruct IH as [IH|IH]; [left; lia|]. pose proof (wan_delay_bound i) as Hd.
  unfold wan_delay in Hn. cbv zeta in Hn. destruct (Z.ltb_spec (deadline - wn_until env i)
    (default (3 * Second) (wan_delays !! i))); [left|right]; lia.
Qed.

Lemma now_mono deadline start env i j :
  clock_runs deadline start env -> (i <= j)%nat -> wn_now env i <= wn_now env j.
Proof.
  intros [_ Hstep] Hij. induction Hij as [|j Hij IH]; [lia|]. destruct (Hstep j). lia.
Qed.

(** The first ready check before the deadline. *)
Definition ready_in_time (deadline : Time) (env : wan_env) (i : nat) : Prop :=
  exists k, (i <= k)%nat /\ wn_now env k < deadline /\ wn_ready env k = true.

Lemma wan_loop_spec fuel deadline start env i :
  clock_runs deadline start env ->
  deadline <= start + 500 * Millisecond * (Z.of_nat fuel + Z.of_nat i - 1) -> (0 < fuel)%nat ->
  exists b, wan_loop fuel deadline env i = Some b /\ (b = true <-> ready_in_time deadline env i).
Proof.
  intros Hclock. revert i. induction fuel as [|fuel IH]; intros i Hfuel Hpos; [lia|]. cbn [wan_loop].
  destruct (Z.ltb_spec (wn_now env i) deadline) as [Hlt|Hge].
  2: { exists false. split; [done|]. split; [done|]. intros (k & Hk & Hlt & _).
       pose proof (now_mono deadline start env i k Hclock Hk). lia. }
  destruct (wn_ready env i) eqn:Hr.
  { exists true. split; [done|]. split; [|done]. intros _. by exists i. }
  assert (Hrest : ready_in_time deadline env i <-> ready_in_time deadline env (S i)).
  { split; intros (k & Hk & Hlt' & Hrk); exists k; (split; [|done]); [|lia].
    destruct (decide (k = i)) as [->|]; [congruence|lia]. }
  destruct (Z.leb_spec (wan_delay deadline env i) 0) as [Hd|Hd].
  - exists false. split; [done|]. split; [done|]. rewrite Hrest. intros (k & Hk & Hlt' & _).
    pose proof (now_mono deadline start env (S i) k Hclock Hk) as Hm.
    destruct Hclock as [_ Hstep]. destruct (Hstep i) as [_ Hn]. pose proof (wan_delay_bound i) as Hb.
    unfold wan_delay in Hd, Hn. cbv zeta in Hd, Hn. unfold Millisecond in Hb.
    destruct (Z.ltb_spec (deadline - wn_until env i) (default (3 * Second) (wan_delays !! i))); lia.
  - destruct fuel as [|fuel].
    + exfalso. destruct (now_advances deadline start env i Hclock); lia.
    + destruct (IH (S i)) as (b & Hb & Hiff); [lia|lia|]. exists b. split; [done|]. by rewrite Hrest.
Qed.

(** C34. Waiting for the uplink ends, whatever the clock and the uplink do: within
    the fuel the loop answers, and it answers yes exactly when some check
    before the deadline found the uplink ready. *)
Theorem waitForWAN_terminates timeout start env :
  0 <= timeout -> clock_runs (start + timeout) start env ->
  exists b, waitForWAN timeout start env = Some b /\
    (b = true <-> exists k, wn_now env k < start + timeout /\ wn_ready env k = true).
Proof.
  intros Ht Hclock. unfold waitForWAN.
  destruct (wan_loop_spec (wan_fuel timeout) (start + timeout) start env 0 Hclock) as (b & Hb & Hiff).
  - unfold wan_fuel. rewrite Nat2Z.inj_add, Z2Nat.id by (apply Z.div_pos; unfold Millisecond; lia).
    pose proof (Z.mul_succ_div_gt timeout (500 * Millisecond)). unfold Millisecond in *. lia.
  - unfold wan_fuel. lia.
  - exists b. split; [done|]. rewrite Hiff. unfold ready_in_time.
    split; [intros (k & _ & ?)|intros (k & ?); exists k; split; [lia|done]]. by exists k.
Qed.

(** The traffic of the uplink is that of the usable default routes, every
    interface once and in order; the counters add up and stop at the largest
    number instead of wrapping; without such a route, with an unreadable table
    or counter there is no answer. *)
Theorem internetTrafficSnapshot_spec routes usable read :
  (forall path v, read path = Some v -> 0 <= v) ->
  let names := interfaces_of (list_to_set (uplinks usable (ScanLines routes).1)) in
  (forall name, name ∈ names <-> name ∈ uplinks usable (ScanLines routes).1) /\ NoDup names /\
  match internetTrafficSnapshot routes usable read with
  | Ok t =>
      names <> [] /\ it_Interface t = Join names ", " /\
      it_Download t = Z.min uint64_max (total read "rx" names) /\
      it_Upload t = Z.min uint64_max (total read "tx" names) /\
      forall name, name ∈ names ->
        is_Some (read (counter_path name "rx")) /\ is_Some (read (counter_path name "tx"))
  | Err ScanFailed => (ScanLines routes).2 = false
  | Err NoUsableRoute => names = []
  | Err (CounterUnreadable path) => read path = None
  end /\
  (defaultWANRouteReady routes usable = true <-> names <> []).
Proof.
  intros Hread. cbv zeta. unfold internetTrafficSnapshot, defaultWANRouteReady.
  destruct (ScanLines routes) as [lines ok]. cbn [fst snd]. rewrite route_names, (right_id_L ∅ (∪)).
  destruct (interfaces_spec (list_to_set (uplinks usable lines))) as (_ & Hd & Hin).
  assert (Hin' : forall x, x ∈ interfaces_of (list_to_set (uplinks usable lines)) <-> x ∈ uplinks usable lines).
  { intros x. by rewrite Hin, elem_of_list_to_set. }
  clear Hin. set (names := interfaces_of _) in *. clearbody names. split; [done|]. split; [done|]. split.
  - destruct ok; cbn [negb]; [|done]. destruct names as [|name names]; [done|].
    set (all := name :: names) in *.
    assert (Hbad : forall l t path, add_interfaces read l t = Err (CounterUnreadable path) -> read path = None).
    { clear. induction l as [|x l IH]; intros t path; [done|]. cbn [add_interfaces].
      destruct (read (counter_path x "rx")) eqn:Hrx; [|by intros [= <-]].
      destruct (read (counter_path x "tx")) eqn:Htx; [|by intros [= <-]]. apply IH. }
    assert (Hkind : forall l t e, add_interfaces read l t = Err e -> exists path, e = CounterUnreadable path).
    { clear. induction l as [|x l IH]; intros t e; [done|]. cbn [add_interfaces].
      destruct (read (counter_path x "rx")); [|intros [= <-]; by eexists].
      destruct (read (counter_path x "tx")); [|intros [= <-]; by eexists]. apply IH. }
    destruct (add_interfaces read all _) as [t|e] eqn:Hrun.
    + apply add_interfaces_spec in Hrun as (Hi & _ & HD & HU & Hall);
        [|done|cbn; unfold uint64_max; lia..]. cbn [it_Interface it_Download it_Upload] in *. done.
    + destruct (Hkind _ _ _ Hrun) as [path ->]. by eapply Hbad.
  - assert (Hex : existsb (fun line => match default_route line with
        | Some name => usable name | None => false end) lines = true <-> exists x, x ∈ uplinks usable lines).
    { clear. unfold uplinks. induction lines as [|line lines IH]; cbn.
      - split; [done|]. by intros [x Hx%not_elem_of_nil].
      - destruct (default_route line) as [name|]; [|exact IH]. rewrite filter_cons.
        destruct (usable name) eqn:Hu; cbn.
        + rewrite decide_True by done. split; [|done]. intros _. exists name. left.
        + rewrite decide_False by done. exact IH. }
    rewrite Hex. split.
    + intros [x Hx] ->. apply Hin' in Hx. by apply not_elem_of_nil in Hx.
    + intros Hne. destruct names as [|x names]; [done|]. exists x. apply Hin'. left.
Qed.

(** ** Concrete runs *)

Definition slow_uplink : wan_env :=
  mkWan (fun i => Z.of_nat i * (4 * Second)) (fun i => (2 <=? i)%nat) (fun i => Z.of_nat i * (4 * Second)).

Lemma waitForWAN_terminates_witness :
  waitForWAN (30 * Second) 0 slow_uplink = Some true /\
  exists k, wn_now slow_uplink k < 0 + 30 * Second /\ wn_ready slow_uplink k = true.
Proof.
  assert (Hrun : waitForWAN (30 * Second) 0 slow_uplink = Some true) by (vm_compute; reflexivity).
  split; [exact Hrun|].
  destruct (waitForWAN_terminates (30 * Second) 0 slow_uplink) as (b & Hb & Hiff).
  - vm_compute. discriminate.
  - split; [vm_compute; discriminate|]. intros i. split; [apply Z.le_refl|].
    pose proof (wan_delay_max (0 + 30 * Second) slow_uplink i) as Hd.
    cbn [slow_uplink wn_now wn_until]. unfold Second in *. lia.
  - apply Hiff. rewrite Hb in Hrun. by injection Hrun.
Defined.

Definition two_routes : string :=
  Join ["Iface	Destination	Gateway	Flags	RefCnt	Use	Metric	Mask";
        "ppp0	00000000	0101A8C0	0003	0	0	0	00000000";
        "eth3	00000000	0101A8C0	0003	0	0	1	00000000";
        "eth3	00000000	0101A8C0	0003	0	0	2	00000000";
        "tun0	00000000	00000000	0003	0	0	0	00000000"] (String newline "").

Lemma internetTrafficSnapshot_spec_witness :
  internetTrafficSnapshot two_routes (fun _ => true) (fun _ => Some (2 ^ 63)) =
    Ok (mkTraffic "eth3, ppp0" "wan:eth3,ppp0" uint64_max uint64_max) /\
  NoDup (interfaces_of (list_to_set (uplinks (fun _ => true) (ScanLines two_routes).1))).
Proof.
  split; [vm_compute; reflexivity|].
  assert (Hread : forall path v, (fun _ : string => Some (2 ^ 63)) path = Some v -> 0 <= v)
    by (intros path v [= <-]; vm_compute; discriminate).
  exact (proj1 (proj2 (internetTrafficSnapshot_spec two_routes (fun _ => true) _ Hread))).
Defined.
