(* ===== verification/Api.v ===== *)
(** * The handlers that change the catalog, the selection and the tunnel:
      [api.go]

    A handler is a function from what the request carries, what the writes come
    to and the store of [Selection] to an HTTP status, the new store and the
    calls it makes to the other components.  Where a handler lets the lock go,
    [interfere] is what the rest of the program does to the store meanwhile.
    JSON bodies are decoded by the standard library; a body that does not
    decode is [None]. *)

From Stdlib Require Import Ascii.
From S2P Require Import Prelude GoStrings Settings Servers Config Subscriptions Selection.

#[local] Open Scope Z_scope.

(** The calls to the process manager, the failover controller, the caches. *)
Inductive api_call :=
| StopVPN
| StartVPN (cfg : Config)
| ResetBackoff
| CancelPings
| PrunePings (keep : gset string)
| MigratePings (previous fresh : list VLESSServer)
| SetEnabled (on : bool)
| SetTunnelFailover (on : bool)
| ReloadSettings
| SetLogLevel (level : string)
| ClearLogs
| ForgetPings.

Record answer := mkAnswer { an_code : Z; an_store : store; an_calls : list api_call }.

Definition refuse (code : Z) (s : store) : answer := mkAnswer code s [].

(** [persistMutationLocked] and the reply to its error. *)
Definition commit (w : writes) (cfg : Config) (subs : list Subscription)
    (configChanged subsChanged : bool) (s : store) (calls : list api_call) : answer :=
  match persistMutationLocked w cfg subs configChanged subsChanged s with
  | (true, s) => mkAnswer 200 s calls
  | (false, s) => mkAnswer 500 s []
  end.

Definition find_server (id : string) (servers : list VLESSServer) : option nat :=
  fst <$> list_find (fun s => sv_ID s = id) servers.
Definition find_sub (id : string) (subs : list Subscription) : option nat :=
  fst <$> list_find (fun s => sub_ID s = id) subs.

(** ** Servers *)

(** [persistConfigLocked], with the caller's own way back. *)
Definition handleServersPost `{ServerDigest} (w : writes) (body : option VLESSServer) (s : store)
  : answer :=
  match body with
  | None => refuse 400 s
  | Some srv =>
      if bool_decide (sv_Address srv = "") || bool_decide (sv_UUID srv = "") then refuse 400 s
      else
        let srv := if bool_decide (sv_Name srv = "") then srv <| sv_Name := sv_Address srv |> else srv in
        let srv := srv <| sv_Network ::= normalizeVLESSNetwork |> in
        if negb (isSupportedServer srv) then refuse 400 s
        else
          let srv := if bool_decide (sv_Fingerprint srv = "") then srv <| sv_Fingerprint := "chrome" |>
                     else srv in
          let srv := srv <| sv_Manual := true |> in
          let srv := srv <| sv_ID := serverFingerprint srv |> in
          let next := st_cfg s <| cfg_Servers ::= fun l => l ++ [srv] |> in
          if w_config w then mkAnswer 200 (s <| st_cfg := next |> <| st_cfgFile := next |>) []
          else refuse 500 s
  end.

(** Selecting "Connect": [running] is the manager's state, [started] what
    starting the tunnel comes to. *)
Definition connectServer (w : writes) (id : string) (running started : bool) (s : store) : answer :=
  match persistMutationLocked w (st_cfg s) [] true false
          (s <| st_cfg ::= fun c => c <| cfg_ActiveServer := id |> |>) with
  | (false, s) => refuse 500 s
  | (true, s) =>
      mkAnswer (if started then 200 else 500) s
        ((if running then [StopVPN] else [ResetBackoff]) ++ [StartVPN (st_cfg s)])
  end.

Definition handleServerPut (w : writes) (id : string) (body : option VLESSServer) (s : store) : answer :=
  match find_server id (cfg_Servers (st_cfg s)) with
  | None => refuse 404 s
  | Some idx =>
      match body with
      | None => refuse 400 s
      | Some srv =>
          let srv := srv <| sv_ID := id |> <| sv_Manual := true |>
                         <| sv_Network ::= normalizeVLESSNetwork |> in
          if negb (isSupportedServer srv) then refuse 400 s
          else commit w (st_cfg s) [] true false
                 (s <| st_cfg ::= fun c => c <| cfg_Servers ::= <[idx := srv]> |> |>) []
      end
  end.

Definition handleServerDelete (w : writes) (id : string) (s : store) : answer :=
  match find_server id (cfg_Servers (st_cfg s)) with
  | None => refuse 404 s
  | Some idx =>
      commit w (st_cfg s) [] true false
        (s <| st_cfg ::= fun c => c <| cfg_Servers ::= delete idx |>
             <| cfg_ActiveServer ::= fun a => if bool_decide (a = id) then "" else a |> |>) []
  end.

Definition handleServerConnect (w : writes) (id : string) (running started : bool)
    (interfere : store -> store) (s : store) : answer :=
  match find_server id (cfg_Servers (st_cfg s)) ≫= fun idx => cfg_Servers (st_cfg s) !! idx with
  | None => refuse 404 s
  | Some srv =>
      if negb (isSupportedServer srv) then refuse 409 s
      else connectServer w id running started (interfere s)
  end.

(** ** Subscriptions *)

(** [fetched] is the subscription the download gave, or its error's text. *)
Definition handleSubscriptionsPost (w : writes) (body : option (string * string))
    (fetched : result string Subscription) (interfere : store -> store) (s : store) : answer :=
  match body with
  | None => refuse 400 s
  | Some (url, name) =>
      if bool_decide (url = "") then refuse 400 s
      else
        let s := interfere s in
        match fetched with
        | Err _ => refuse 502 s
        | Ok sub =>
            let sub := if bool_decide (name = "") then sub else sub <| sub_Name := name |> in
            commit w (st_cfg s) (st_subs s) false true (s <| st_subs ::= fun l => l ++ [sub] |>) []
        end
  end.

Definition keep_ids (s : store) : gset string :=
  list_to_set (sv_ID <$> allServersLocked (st_cfg s) (st_subs s)).

Definition handleSubscriptionDelete (w : writes) (id : string) (vpnRunning : bool)
    (interfere : store -> store) (s : store) : answer :=
  match find_sub id (st_subs s) with
  | None => refuse 404 s
  | Some _ =>
      let s := interfere s in
      match find_sub id (st_subs s) with
      | None => refuse 404 s
      | Some idx =>
          let cfg := st_cfg s in
          let subs := delete idx (st_subs s) in
          let '(cfg', pruned) :=
            if vpnRunning then pruneStaleServersPreservingActive cfg subs
            else pruneStaleServers cfg subs in
          let active := cfg_ActiveServer cfg in
          let activeRemoved :=
            negb (bool_decide (active = "")) && bool_decide (cfg_ActiveServer cfg' = "") in
          let activeDetached :=
            vpnRunning && negb (bool_decide (active = "")) &&
            bool_decide (cfg_ActiveServer cfg' = active) && negb (serverAvailableLocked cfg' subs active) in
          let configChanged := (0 <? pruned)%nat || activeRemoved || activeDetached in
          let s' := s <| st_cfg := cfg' |> <| st_subs := subs |> in
          commit w cfg (st_subs s) configChanged true s'
            [PrunePings ((if activeDetached then {[active]} else ∅) ∪ keep_ids s')]
      end
  end.

(** The neighbour in the direction, when there is one. *)
Definition move_target (idx : nat) (direction : Z) (n : nat) : option nat :=
  let target := Z.of_nat idx + direction in
  if (target <? 0) || (Z.of_nat n <=? target) then None else Some (Z.to_nat target).

Definition swap_subs (i j : nat) (subs : list Subscription) : list Subscription :=
  match subs !! i, subs !! j with
  | Some a, Some b => <[i := b]> (<[j := a]> subs)
  | _, _ => subs
  end.

Definition handleSubscriptionMove (w : writes) (id : string) (direction : option Z)
    (interfere : store -> store) (s : store) : answer :=
  match find_sub id (st_subs s) with
  | None => refuse 404 s
  | Some _ =>
      match direction with
      | Some d =>
          if negb (d =? -1) && negb (d =? 1) then refuse 400 s
          else
            let s := interfere s in
            match find_sub id (st_subs s) with
            | None => refuse 404 s
            | Some idx =>
                match move_target idx d (length (st_subs s)) with
                | None => refuse 200 s
                | Some target =>
                    commit w (st_cfg s) (st_subs s) false true (s <| st_subs ::= swap_subs idx target |>) []
                end
            end
      | None => refuse 400 s
      end
  end.

(** What a finished download does to the list. *)
Definition merge_fetched `{URLCodec} (id : string) (fetched : result string Subscription)
    (subs : list Subscription) : list Subscription :=
  match find_sub id subs with
  | None => subs
  | Some idx =>
      match fetched with
      | Err e => alter (fun sub => sub <| sub_Error := e |>) idx subs
      | Ok sub =>
          alter (fun current =>
            preserveSubscriptionOptions
              (preserveSubscriptionDisplayName (sub <| sub_ID := id |>) current) current) idx subs
      end
  end.

(** The catalog after a refresh, and whether the configuration changed. *)
Definition sync_catalog `{ServerDigest} (cfg : Config) (subs : list Subscription) : Config * bool :=
  let '(cfg1, resynced) := resyncServersFromSubs cfg subs in
  let '(cfg2, pruned) := pruneStaleServersPreservingActive cfg1 subs in
  let activeRemoved :=
    negb (bool_decide (cfg_ActiveServer cfg = "")) && bool_decide (cfg_ActiveServer cfg2 = "") in
  (cfg2, (0 <? resynced)%nat || (0 <? pruned)%nat || activeRemoved).

Definition handleSubscriptionRefresh `{ServerDigest, URLCodec} (w : writes) (id : string)
    (fetched : result string Subscription) (interfere : store -> store) (s : store) : answer :=
  match find_sub id (st_subs s) ≫= fun idx => st_subs s !! idx with
  | None => refuse 404 s
  | Some current =>
      if sub_Disabled current then refuse 409 s
      else
        let s := interfere s in
        match find_sub id (st_subs s) with
        | None => refuse 404 s
        | Some _ =>
            let subs := merge_fetched id fetched (st_subs s) in
            match fetched with
            | Err _ =>
                let a := commit w (st_cfg s) (st_subs s) false true (s <| st_subs := subs |>) [] in
                if an_code a =? 200 then mkAnswer 502 (an_store a) [] else a
            | Ok sub =>
                let '(cfg', changed) := sync_catalog (st_cfg s) subs in
                commit w (st_cfg s) (st_subs s) changed true
                  (s <| st_cfg := cfg' |> <| st_subs := subs |>)
                  [MigratePings (sub_Servers current) (sub_Servers sub)]
            end
        end
  end.

(** [pinged] is the result of testing the profile. *)
Definition handleSubscriptionConnect (w1 w2 : writes) (id : string) (index : option Z)
    (pinged : option PingResult) (running started : bool)
    (interfere between : store -> store) (s : store) : answer :=
  match find_sub id (st_subs s) ≫= fun idx => st_subs s !! idx with
  | None => refuse 404 s
  | Some sub =>
      if sub_Disabled sub then refuse 409 s
      else match index with
      | None => refuse 400 s
      | Some i =>
          match (if i <? 0 then None else sub_Servers sub !! Z.to_nat i) with
          | None => refuse 400 s
          | Some srv =>
              if serverDisabled sub (sv_ID srv) then refuse 409 s
              else
                let s := interfere s in
                let selected :=
                  match sv_Members srv with
                  | [] => Some srv
                  | _ => r ← pinged;
                         if pr_LatencyMS r <? 0 then None
                         else Some (preferGroupMember srv (pr_SelectedMemberID r))
                  end in
                match selected with
                | None => refuse 502 s
                | Some srv =>
                    match commitSelectedServer w1 srv s with
                    | (false, s) => refuse 500 s
                    | (true, s) => connectServer w2 (sv_ID srv) running started (between s)
                    end
                end
          end
      end
  end.

Record sub_patch := mkPatch {
  pt_Name : option string;
  pt_URL : option string;
  pt_Disabled : option bool
}.

(** A usable http or https URL: the scheme is a part of [url.Parse]'s result
    [URLCodec] does not give, so it is a parameter of the request. *)
Definition patch_url `{ServerDigest, URLCodec} (http : string -> bool) (id : string) (p : sub_patch)
  : option (option (string * string)) :=
  match pt_URL p with
  | None => Some None
  | Some raw =>
      let url := normalizeSubscriptionURL raw in
      match url_Parse url with
      | Some u => if bool_decide (pu_Host u = "") || negb (http url) then None
                  else Some (Some (url, subscriptionID url))
      | None => None
      end
  end.

Definition set_url (url : option (string * string)) (sub : Subscription) : Subscription :=
  match url with
  | Some (u, newID) =>
      if bool_decide (newID = sub_ID sub) then sub
      else sub <| sub_URL := u |> <| sub_ID := newID |> <| sub_Error := "" |>
  | None => sub
  end.

(** Whether the subscription at [idx] carried the selection and no other does. *)
Definition lost_selection (cfg : Config) (subs : list Subscription) (idx : nat) : bool :=
  match subs !! idx with
  | None => false
  | Some sub =>
      existsb (fun srv => bool_decide (sv_ID srv = cfg_ActiveServer cfg) &&
                          negb (serverAvailableLocked cfg subs (sv_ID srv))) (sub_Servers sub)
  end.

Definition deselect (lost : bool) (cfg : Config) : Config :=
  if lost then cfg <| cfg_ActiveServer := "" |> else cfg.

Definition handleSubscriptionPatch `{ServerDigest, URLCodec} (http : string -> bool) (w : writes)
    (id : string) (body : option sub_patch) (interfere : store -> store) (s : store) : answer :=
  match find_sub id (st_subs s) with
  | None => refuse 404 s
  | Some _ =>
      match body with
      | None => refuse 400 s
      | Some p =>
          if bool_decide (pt_Name p = None) && bool_decide (pt_URL p = None) &&
             bool_decide (pt_Disabled p = None) then refuse 400 s
          else if bool_decide (TrimSpace <$> pt_Name p = Some "") then refuse 400 s
          else match patch_url http id p with
          | None => refuse 400 s
          | Some url =>
              let s := interfere s in
              match find_sub id (st_subs s) with
              | None => refuse 404 s
              | Some idx =>
                  let taken newID :=
                    existsb (fun q => negb (bool_decide (q.1 = idx)) && bool_decide (sub_ID q.2 = newID))
                      (imap pair (st_subs s)) in
                  if match url with
                     | Some (_, newID) => negb (bool_decide (newID = id)) && taken newID
                     | None => false
                     end
                  then refuse 409 s
                  else
                    let change sub :=
                      let sub := set_url url sub in
                      let sub := match pt_Name p with
                                 | Some name => sub <| sub_Name := TrimSpace name |>
                                 | None => sub
                                 end in
                      match pt_Disabled p with
                      | Some d => sub <| sub_Disabled := d |>
                      | None => sub
                      end in
                    let subs := alter change idx (st_subs s) in
                    let stopped :=
                      bool_decide (pt_Disabled p = Some true) && lost_selection (st_cfg s) subs idx in
                    commit w (st_cfg s) (st_subs s) stopped true
                      (s <| st_cfg ::= deselect stopped |> <| st_subs := subs |>)
                      (if stopped then [StopVPN] else [])
              end
          end
      end
  end.

Definition handleSubscriptionServerPatch (w : writes) (id serverID : string) (disabled : option bool)
    (interfere : store -> store) (s : store) : answer :=
  match find_sub id (st_subs s) ≫= fun idx => st_subs s !! idx with
  | None => refuse 404 s
  | Some sub =>
      match disabled with
      | None => refuse 400 s
      | Some d =>
          if negb (existsb (fun srv => bool_decide (sv_ID srv = serverID)) (sub_Servers sub))
          then refuse 404 s
          else
            let s := interfere s in
            match find_sub id (st_subs s) with
            | None => refuse 404 s
            | Some idx =>
                let subs := alter (fun sub => setServerDisabled sub serverID d) idx (st_subs s) in
                let stopped := d && bool_decide (cfg_ActiveServer (st_cfg s) = serverID) &&
                               negb (serverAvailableLocked (st_cfg s) subs serverID) in
                commit w (st_cfg s) (st_subs s) stopped true
                  (s <| st_cfg ::= deselect stopped |> <| st_subs := subs |>)
                  (if stopped then [StopVPN] else [])
            end
      end
  end.

(** ** All subscriptions at once *)

Definition enabled_work (subs : list Subscription) : list Subscription :=
  filter (fun sub => sub_Disabled sub = false) subs.

(** The downloads, in order, until the context ends: what came back, and the
    results carried over. *)
Fixpoint fetch_all (cancelled : nat -> bool) (fetch : string -> result string Subscription) (i : nat)
    (work : list Subscription) : option (list (string * result string Subscription)) * list api_call :=
  match work with
  | [] => (Some [], [])
  | sub :: work =>
      if cancelled i then (None, [])
      else
        let r := fetch (sub_URL sub) in
        let calls := match r with
                     | Ok fresh => [MigratePings (sub_Servers sub) (sub_Servers fresh)]
                     | Err _ => []
                     end in
        let '(rest, more) := fetch_all cancelled fetch (S i) work in
        ((fun l => (sub_ID sub, r) :: l) <$> rest, calls ++ more)
  end.

(** [true]: no error. *)
Definition refreshAllSubscriptionsCore `{ServerDigest, URLCodec} (w : writes)
    (cancelled : nat -> bool) (fetch : string -> result string Subscription)
    (vpnRunning : bool) (interfere : store -> store) (s : store) : answer :=
  let '(results, calls) := fetch_all cancelled fetch 0 (enabled_work (st_subs s)) in
  match results with
  | None => mkAnswer 499 s calls
  | Some results =>
      let s := interfere s in
      let subs := foldl (fun subs r => merge_fetched r.1 r.2 subs) (st_subs s) results in
      let '(cfg', changed) := sync_catalog (st_cfg s) subs in
      let s' := s <| st_cfg := cfg' |> <| st_subs := subs |> in
      let active := cfg_ActiveServer (st_cfg s) in
      let kept := if vpnRunning && negb (bool_decide (active = "")) then {[active]} else ∅ in
      let a := commit w (st_cfg s) (st_subs s) changed true s' [PrunePings (kept ∪ keep_ids s')] in
      mkAnswer (an_code a) (an_store a) (calls ++ an_calls a)
  end.

(** ** The tunnel *)

Definition handleStop (w : writes) (stops : bool) (interfere : store -> store) (s : store) : answer :=
  if negb stops then mkAnswer 500 s [CancelPings; StopVPN]
  else
    let s := interfere s in
    let '(cfg', pruned) := pruneStaleServers (st_cfg s) (st_subs s) in
    if (0 <? pruned)%nat then
      match persistMutationLocked w (st_cfg s) [] true false (s <| st_cfg := cfg' |>) with
      | (ok, s) => mkAnswer (if ok then 200 else 500) s [CancelPings; StopVPN]
      end
    else mkAnswer 200 (s <| st_cfg := cfg' |>) [CancelPings; StopVPN].

Definition handleStart `{SortSlice} (w1 w2 : writes) (sc : scan) (stopped started : bool)
    (interfere : store -> store) (s : store) : answer :=
  match prepareServerForStart w1 w2 sc stopped interfere s with
  | (Err _, s) => mkAnswer 503 s [ResetBackoff]
  | (Ok _, s) => mkAnswer (if started then 200 else 400) s [ResetBackoff; StartVPN (st_cfg s)]
  end.

Definition handleRestart (stops started : bool) (interfere : store -> store) (s : store) : answer :=
  if negb stops then mkAnswer 500 s [CancelPings; StopVPN]
  else
    let s := interfere s in
    mkAnswer (if started then 200 else 400) s [CancelPings; StopVPN; StartVPN (st_cfg s)].

Definition handlePingAutoSelect `{SortSlice} (w1 w2 : writes) (sc : scan) (running started : bool)
    (interfere between : store -> store) (s : store) : answer :=
  let '(name, s) := autoSelectBest w1 sc interfere s in
  if bool_decide (name = "") then refuse 503 s
  else let s := between s in connectServer w2 (cfg_ActiveServer (st_cfg s)) running started s.

(** [startVPNInternal], which the failover controller calls. *)
Inductive vpn_start_error := NotPrepared (e : prepare_error) | NoActiveServer.

Definition startVPNInternal `{SortSlice} (w1 w2 : writes) (sc : scan) (stopped : bool)
    (interfere between : store -> store) (s : store) : result vpn_start_error Config * store :=
  match prepareServerForStart w1 w2 sc stopped interfere s with
  | (Err e, s) => (Err (NotPrepared e), s)
  | (Ok _, s) =>
      let s := between s in
      (if bool_decide (cfg_ActiveServer (st_cfg s) = "") then Err NoActiveServer else Ok (st_cfg s), s)
  end.

(** ** Settings *)

(** A body that decodes: the configuration and whether it names servers. *)
Definition handleConfigPost `{ServerDigest, URLParser} (w : writes) (body : option (Config * bool))
    (s : store) : answer :=
  match body with
  | None => refuse 400 s
  | Some (cfg, named) =>
      let cfg := if cfg_Port cfg =? 0 then cfg <| cfg_Port := cfg_Port (st_cfg s) |> else cfg in
      if (cfg_Port cfg <? 1) || (65535 <? cfg_Port cfg) then refuse 400 s
      else
        let cfg := if named then cfg else cfg <| cfg_Servers := cfg_Servers (st_cfg s) |> in
        let cfg := cfg <| cfg_Settings ::= fun st => (fillDefaults st).1 |> in
        match validate (cfg_Settings cfg) with
        | Some _ => refuse 400 s
        | None =>
            let cfg := migrateServerIDs cfg in
            if w_config w then
              mkAnswer 200 (s <| st_cfg := cfg |> <| st_cfgFile := cfg |>)
                [SetLogLevel (ServiceLogLevel (cfg_Settings cfg)); ReloadSettings;
                 SetEnabled (cfg_AutoFailover cfg); SetTunnelFailover (cfg_AutoTunnelFailover cfg)]
            else refuse 500 s
        end
  end.

Definition handleFailoverPost (w : writes) (body : option (option bool * option bool)) (s : store)
  : answer :=
  match body with
  | None | Some (None, None) => refuse 400 s
  | Some (enabled, tunnel) =>
      let cfg := st_cfg s in
      let cfg := match enabled with Some b => cfg <| cfg_AutoFailover := b |> | None => cfg end in
      let cfg := match tunnel with Some b => cfg <| cfg_AutoTunnelFailover := b |> | None => cfg end in
      if w_config w then
        mkAnswer 200 (s <| st_cfg := cfg |> <| st_cfgFile := cfg |>)
          [SetEnabled (cfg_AutoFailover cfg); SetTunnelFailover (cfg_AutoTunnelFailover cfg)]
      else refuse 500 s
  end.

(** The settings as a JSON object and back: its keys, and the value of an
    overlay of raw fields when it decodes. *)
Class SettingsCodec := {
  settings_keys : list string;
  settings_overlay : AppSettings -> list (string * string) -> option AppSettings
}.

(** The old name of a key stands for the new one when that is not given. *)
Definition rename_legacy (patch : list (string * string)) : list (string * string) :=
  match list_find (fun p => p.1 = "failover_health_url") patch with
  | None => patch
  | Some (_, (_, value)) =>
      let rest := filter (fun p => p.1 <> "failover_health_url") patch in
      if existsb (fun p => bool_decide (p.1 = "ping_test_url")) patch then rest
      else rest ++ [("ping_test_url", value)]
  end.

Definition restart_required (previous out : AppSettings) (active : option VLESSServer) : bool :=
  let profileChanged := negb (bool_decide (TLSClientProfile previous = TLSClientProfile out)) in
  let groupProbeChanged :=
    negb (bool_decide (PingTestURL previous = PingTestURL out)) &&
    match active with Some srv => negb (bool_decide (length (sv_Members srv) = O)) | None => false end in
  negb (Bool.eqb (BypassRouteRussia previous) (BypassRouteRussia out)) ||
  negb (bool_decide (BypassDomains previous = BypassDomains out)) ||
  negb (bool_decide (LogLevel previous = LogLevel out)) || profileChanged || groupProbeChanged.

(** [pings_idle]: [pingRunMu] could be taken; [running] the tunnel, [started]
    what its restart comes to. *)
Definition handleSettingsPatch `{SettingsCodec, URLParser} (w : writes)
    (body : option (list (string * string))) (pings_idle running started : bool) (s : store) : answer :=
  match body with
  | None => refuse 400 s
  | Some patch =>
      let patch := rename_legacy patch in
      let previous := cfg_Settings (st_cfg s) in
      if existsb (fun p => negb (bool_decide (p.1 ∈ settings_keys))) patch then refuse 400 s
      else match settings_overlay previous patch with
      | None => refuse 400 s
      | Some out =>
          let out := (fillDefaults out).1 in
          match validate out with
          | Some _ => refuse 400 s
          | None =>
              let profileChanged :=
                negb (bool_decide (TLSClientProfile previous = TLSClientProfile out)) in
              if profileChanged && negb pings_idle then refuse 409 s
              else
                let cfg := st_cfg s <| cfg_Settings := out |> in
                if negb (w_config w) then refuse 500 s
                else
                  let s := s <| st_cfg := cfg |> <| st_cfgFile := cfg |> in
                  let logChanged :=
                    negb (bool_decide (ServiceLogLevel previous = ServiceLogLevel out)) ||
                    negb (bool_decide (LogLevel previous = LogLevel out)) in
                  let restart := restart_required previous out (activeServer cfg) && running in
                  mkAnswer (if restart && negb started then 500 else 200) s
                    ((if profileChanged then [ForgetPings] else []) ++
                     [SetLogLevel (ServiceLogLevel out)] ++
                     (if logChanged then [ClearLogs] else []) ++ [ReloadSettings] ++
                     (if restart then [StopVPN; StartVPN cfg] else []))
          end
      end
  end.

(** ** What the interface shows of the active server *)

Definition activeSubUserInfoLocked (cfg : Config) (subs : list Subscription) : option SubUserInfo :=
  if bool_decide (cfg_ActiveServer cfg = "") then None
  else
    active ← activeServer cfg;
    let holds sub := bool_decide (is_Some (sub_UserInfo sub)) &&
                     existsb (sameCatalogServer active) (sub_Servers sub) in
    found ← list_find (fun sub => holds sub = true) subs;
    sub_UserInfo found.2.

(** The name of the subscription the active server belongs to. *)
Definition activeSubscriptionName (cfg : Config) (subs : list Subscription) (running : bool)
  : option string :=
  active ← activeServer cfg;
  match list_find (fun sub => existsb (sameCatalogServer active) (sub_Servers sub) = true) subs with
  | Some (_, sub) => Some (sub_Name sub)
  | None => if running && negb (sv_Manual active) then Some "Удалённая подписка" else None
  end.

(** The latency shown: the cache, the last cycle, the tunnel's own check. *)
Definition activeLatency (cache : gmap string PingResult) (lastPing : list PingResult)
    (serverID : string) (running healthOK : bool) (healthCheck : Time) (healthMS : Z) : Z :=
  let measured :=
    match cache !! serverID with
    | Some r => pr_LatencyMS r
    | None => match list_find (fun r => pr_ServerID r = serverID) lastPing with
              | Some (_, r) => pr_LatencyMS r
              | None => -1
              end
    end in
  if (measured <? 0) && running && healthOK && negb (IsZero healthCheck) && (0 <=? healthMS)
  then healthMS else measured.

(** ** Any handlers, in any order, inside each other's gaps *)

(** A failed second write is undone, or there was nothing to undo. *)
Definition recoverable (w : writes) : bool := w_subs w || w_rollback w || negb (w_config w).

Inductive api_step `{ServerDigest, URLCodec, URLParser, SettingsCodec, SortSlice}
  : store -> answer -> Prop :=
| step_servers_post w body s : api_step s (handleServersPost w body s)
| step_server_put w id body s : recoverable w = true -> api_step s (handleServerPut w id body s)
| step_server_delete w id s : recoverable w = true -> api_step s (handleServerDelete w id s)
| step_server_connect w id running started f s :
    recoverable w = true -> (forall s, api_runs s (f s)) ->
    api_step s (handleServerConnect w id running started f s)
| step_subs_post w body fetched f s :
    recoverable w = true -> (forall s, api_runs s (f s)) ->
    api_step s (handleSubscriptionsPost w body fetched f s)
| step_sub_delete w id running f s :
    recoverable w = true -> (forall s, api_runs s (f s)) ->
    api_step s (handleSubscriptionDelete w id running f s)
| step_sub_move w id direction f s :
    recoverable w = true -> (forall s, api_runs s (f s)) ->
    api_step s (handleSubscriptionMove w id direction f s)
| step_sub_refresh w id fetched f s :
    recoverable w = true -> (forall s, api_runs s (f s)) ->
    api_step s (handleSubscriptionRefresh w id fetched f s)
| step_sub_connect w1 w2 id index pinged running started f g s :
    recoverable w1 = true -> recoverable w2 = true ->
    (forall s, api_runs s (f s)) -> (forall s, api_runs s (g s)) ->
    api_step s (handleSubscriptionConnect w1 w2 id index pinged running started f g s)
| step_sub_patch http w id body f s :
    recoverable w = true -> (forall s, api_runs s (f s)) ->
    api_step s (handleSubscriptionPatch http w id body f s)
| step_sub_server_patch w id serverID disabled f s :
    recoverable w = true -> (forall s, api_runs s (f s)) ->
    api_step s (handleSubscriptionServerPatch w id serverID disabled f s)
| step_refresh_all w cancelled fetch running f s :
    recoverable w = true -> (forall s, api_runs s (f s)) ->
    api_step s (refreshAllSubscriptionsCore w cancelled fetch running f s)
| step_stop w stops f s :
    recoverable w = true -> (forall s, api_runs s (f s)) -> api_step s (handleStop w stops f s)
| step_start w1 w2 sc stopped started f s :
    recoverable w1 = true -> recoverable w2 = true -> (forall s, api_runs s (f s)) ->
    api_step s (handleStart w1 w2 sc stopped started f s)
| step_restart stops started f s :
    (forall s, api_runs s (f s)) -> api_step s (handleRestart stops started f s)
| step_auto_select w1 w2 sc running started f g s :
    recoverable w1 = true -> recoverable w2 = true ->
    (forall s, api_runs s (f s)) -> (forall s, api_runs s (g s)) ->
    api_step s (handlePingAutoSelect w1 w2 sc running started f g s)
| step_config w body s : api_step s (handleConfigPost w body s)
| step_failover w body s : api_step s (handleFailoverPost w body s)
| step_settings w body idle running started s :
    api_step s (handleSettingsPatch w body idle running started s)
with api_runs `{ServerDigest, URLCodec, URLParser, SettingsCodec, SortSlice}
  : store -> store -> Prop :=
| runs_nil s : api_runs s s
| runs_cons s a s' : api_step s a -> api_runs (an_store a) s' -> api_runs s s'.

Scheme api_step_mut := Minimality for api_step Sort Prop
  with api_runs_mut := Minimality for api_runs Sort Prop.
Combined Scheme api_mutind from api_step_mut, api_runs_mut.

(** ** The invariant *)

Definition synced (s : store) : Prop := st_cfgFile s = st_cfg s /\ st_subsFile s = st_subs s.

(** What the settings and the port have to be at all times. *)
Definition cfg_ok `{URLParser} (cfg : Config) : Prop :=
  validate (cfg_Settings cfg) = None /\ 1 <= cfg_Port cfg <= 65535.

Definition store_ok `{URLParser} (s : store) : Prop := synced s /\ cfg_ok (st_cfg s).

(** The same settings and port. *)
Definition cfg_like (a b : Config) : Prop := cfg_Settings a = cfg_Settings b /\ cfg_Port a = cfg_Port b.

Section Invariant.
Context `{SD : ServerDigest, UC : URLCodec, UP : URLParser, SC : SettingsCodec, SS : SortSlice}.

Lemma cfg_like_ok a b : cfg_like a b -> cfg_ok b -> cfg_ok a.
Proof. intros [Hs Hp]. unfold cfg_ok. by rewrite Hs, Hp. Qed.

Lemma persist_ok w cfg prevSubs cc sc s :
  recoverable w = true -> cfg_ok cfg -> st_cfgFile s = cfg -> cfg_like (st_cfg s) cfg ->
  (cc = false -> st_cfg s = cfg) -> (sc = false -> st_subs s = st_subsFile s) ->
  (sc = true -> prevSubs = st_subsFile s) ->
  store_ok (persistMutationLocked w cfg prevSubs cc sc s).2.
Proof.
  intros Hw Hok Hf Hlike Hcc Hsc Hprev.
  assert (Hok' : cfg_ok (st_cfg s)) by (by eapply cfg_like_ok).
  destruct s as [cfg' subs' cfgFile subsFile]. cbn [st_cfg st_subs st_cfgFile st_subsFile] in *. subst.
  unfold persistMutationLocked, recoverable in *.
  destruct cc, sc; try specialize (Hcc eq_refl); try specialize (Hsc eq_refl);
    try specialize (Hprev eq_refl); subst;
    destruct (w_config w), (w_subs w), (w_rollback w); try done; unfold upd; cbn;
    (split; [split|]); done.
Qed.

(** A handler's mutation of a store that is in order. *)
Lemma persist_from w cfg' subs' prevSubs cc sc s s' :
  recoverable w = true -> store_ok s ->
  s' = mkStore cfg' subs' (st_cfgFile s) (st_subsFile s) -> cfg_like cfg' (st_cfg s) ->
  (cc = false -> cfg' = st_cfg s) -> (sc = false -> subs' = st_subs s) ->
  (sc = true -> prevSubs = st_subs s) ->
  store_ok (persistMutationLocked w (st_cfg s) prevSubs cc sc s').2.
Proof.
  intros Hw [[Hf Hsf] Hok] -> Hlike Hcc Hsc Hprev.
  apply persist_ok; cbn [st_cfg st_subs st_cfgFile st_subsFile]; [done|done|done|done|done| |].
  - rewrite Hsf. done.
  - rewrite Hsf. done.
Qed.

Lemma commit_store w cfg subs cc sc s calls :
  an_store (commit w cfg subs cc sc s calls) = (persistMutationLocked w cfg subs cc sc s).2.
Proof. unfold commit. by destruct (persistMutationLocked _ _ _ _ _ _) as [[] ?]. Qed.

Lemma prune_like cfg subs b :
  let '(cfg', n) := pruneStaleServersWithActivePolicy cfg subs b in
  cfg_like cfg' cfg /\ (n = O -> cfg' = cfg).
Proof.
  unfold pruneStaleServersWithActivePolicy.
  assert (Hkeep : forall P : VLESSServer -> bool, length (filter (fun s => P s = false) (cfg_Servers cfg)) = O ->
    filter (fun s => P s = true) (cfg_Servers cfg) = cfg_Servers cfg /\
    existsb (fun s => negb (P s) && bool_decide (cfg_ActiveServer cfg = sv_ID s)) (cfg_Servers cfg) = false).
  { intros P. induction (cfg_Servers cfg) as [|s l IH]; [done|]. rewrite !filter_cons.
    destruct (P s) eqn:HP; [rewrite decide_False, decide_True by done|by rewrite decide_True].
    intros [-> He]%IH. cbn [existsb]. by rewrite HP. }
  destruct b.
  - rewrite prune_stale_true. split; [by destruct cfg|]. intros [-> _]%Hkeep. by destruct cfg.
  - rewrite prune_stale_false. unfold prune_result. rewrite list_fmap_id. split; [by destruct cfg|].
    intros [-> ->]%Hkeep. by destruct cfg.
Qed.

Lemma resync_like cfg subs :
  let '(cfg', n) := resyncServersFromSubs cfg subs in cfg_like cfg' cfg /\ (n = O -> cfg' = cfg).
Proof using Type*.
  unfold resyncServersFromSubs.
  pose proof (resync_fold_inv _ (cfg_Servers cfg) (subs ≫= sub_Servers) (server_index_ok _))
    as (_ & _ & Hz & _).
  destruct (foldl _ _ _) as [servers n]. split; [by destruct cfg|]. cbn [fst snd] in Hz.
  intros ->%Hz. by destruct cfg.
Qed.

Lemma sync_like cfg subs :
  let '(cfg', changed) := sync_catalog cfg subs in
  cfg_like cfg' cfg /\ cfg_ActiveServer cfg' = cfg_ActiveServer cfg /\ (changed = false -> cfg' = cfg).
Proof using Type*.
  unfold sync_catalog. pose proof (resync_like cfg subs) as H1.
  assert (Ha1 : cfg_ActiveServer (resyncServersFromSubs cfg subs).1 = cfg_ActiveServer cfg).
  { unfold resyncServersFromSubs. destruct (foldl _ _ _); by destruct cfg. }
  destruct (resyncServersFromSubs cfg subs) as [cfg1 n1]. destruct H1 as [[Hs1 Hp1] Hz1]. cbn [fst] in Ha1.
  unfold pruneStaleServersPreservingActive. pose proof (prune_like cfg1 subs true) as H2.
  assert (Ha2 : cfg_ActiveServer (pruneStaleServersWithActivePolicy cfg1 subs true).1 = cfg_ActiveServer cfg1).
  { unfold pruneStaleServersWithActivePolicy. rewrite prune_stale_true. by destruct cfg1. }
  destruct (pruneStaleServersWithActivePolicy cfg1 subs true) as [cfg2 n2].
  destruct H2 as [[Hs2 Hp2] Hz2]. cbn [fst] in Ha2. split; [split; congruence|]. split; [congruence|].
  intros [[Hr Hp]%orb_false_iff _]%orb_false_iff.
  rewrite Hz2, Hz1; [done|destruct n1; [done|discriminate]|destruct n2; [done|discriminate]].
Qed.

Definition keeps_ok (f : store -> store) : Prop := forall s, store_ok s -> store_ok (f s).

Ltac persist :=
  rewrite ?commit_store; eapply persist_from;
  [done|done|reflexivity|first [by split|assumption|idtac]|try assumption; try done..].

Lemma select_ok w server : recoverable w = true -> keeps_ok (fun s => (commitSelectedServer w server s).2).
Proof. intros Hw s Hs. unfold commitSelectedServer. persist. Qed.

Lemma clear_ok w : recoverable w = true -> keeps_ok (fun s => (clearActiveServer w s).2).
Proof. intros Hw s Hs. unfold clearActiveServer. persist. Qed.

Lemma connect_ok w id running started :
  recoverable w = true -> keeps_ok (fun s => an_store (connectServer w id running started s)).
Proof.
  intros Hw s Hs. unfold connectServer.
  assert (Hp : store_ok (persistMutationLocked w (st_cfg s) [] true false
    (s <| st_cfg ::= fun c => c <| cfg_ActiveServer := id |> |>)).2) by persist.
  by destruct (persistMutationLocked _ _ _ _ _ _) as [[] ?].
Qed.

(** A handler that writes the configuration alone. *)
Lemma config_ok cfg s calls : store_ok s -> cfg_ok cfg ->
  store_ok (an_store (mkAnswer 200 (s <| st_cfg := cfg |> <| st_cfgFile := cfg |>) calls)).
Proof. intros [[_ Hsf] _] Hok. by split; [split|]. Qed.

Lemma prepare_ok w1 w2 sc stopped f :
  recoverable w1 = true -> recoverable w2 = true -> keeps_ok f ->
  keeps_ok (fun s => (prepareServerForStart w1 w2 sc stopped f s).2).
Proof using Type*.
  intros Hw1 Hw2 Hf s Hs. unfold prepareServerForStart.
  pose proof (clear_ok w1 Hw1 s Hs) as H1. cbv beta in H1. destruct (clearActiveServer w1 s) as [[] s1]; [|done].
  cbn [snd] in H1. cbv zeta. destruct stopped; [by apply (Hf s1)|].
  destruct (findBestConfigured _ _ _ _ _ _) as [[server r]|]; [|by apply (Hf s1)].
  pose proof (select_ok w2 (preferGroupMember server (pr_SelectedMemberID r)) Hw2 _ (Hf _ H1)) as H2.
  cbv beta in H2. by destruct (commitSelectedServer _ _ _) as [[] s2].
Qed.

Lemma auto_select_ok w sc f : recoverable w = true -> keeps_ok f ->
  keeps_ok (fun s => (autoSelectBest w sc f s).2).
Proof using Type*.
  intros Hw Hf s Hs. unfold autoSelectBest. cbv zeta.
  destruct (findBestConfigured _ _ _ _ _ _) as [[server r]|]; [|by apply clear_ok, Hf].
  pose proof (select_ok w (preferGroupMember server (pr_SelectedMemberID r)) Hw _ (Hf _ Hs)) as H2.
  cbv beta in H2. by destruct (commitSelectedServer _ _ _) as [[] s2].
Qed.

Lemma deselect_like b cfg : cfg_like (deselect b cfg) cfg /\ (b = false -> deselect b cfg = cfg).
Proof. by destruct b. Qed.

(** The handlers of the list of servers. *)
Lemma servers_ok w body id running started f :
  keeps_ok (fun s => an_store (handleServersPost w body s)) /\
  (recoverable w = true ->
   keeps_ok (fun s => an_store (handleServerPut w id body s)) /\
   keeps_ok (fun s => an_store (handleServerDelete w id s)) /\
   (keeps_ok f -> keeps_ok (fun s => an_store (handleServerConnect w id running started f s)))).
Proof using Type*.
  split; [|intros Hw; split_and!].
  - intros s Hs. unfold handleServersPost. destruct body as [srv|]; [|done]. repeat case_match; try done;
      (apply config_ok; [done|]; eapply cfg_like_ok; [by split|apply Hs]).
  - intros s Hs. unfold handleServerPut. repeat case_match; try done; persist.
  - intros s Hs. unfold handleServerDelete. case_match; [|done]. persist.
  - intros Hf s Hs. unfold handleServerConnect. repeat case_match; try done; by apply connect_ok, Hf.
Qed.

Lemma subs_post_ok w body fetched f : recoverable w = true -> keeps_ok f ->
  keeps_ok (fun s => an_store (handleSubscriptionsPost w body fetched f s)).
Proof using Type*.
  intros Hw Hf s Hs. unfold handleSubscriptionsPost. specialize (Hf s Hs).
  cbv zeta; repeat case_match; try done; persist.
Qed.

Lemma sub_delete_ok w id running f : recoverable w = true -> keeps_ok f ->
  keeps_ok (fun s => an_store (handleSubscriptionDelete w id running f s)).
Proof using Type*.
  intros Hw Hf s Hs. unfold handleSubscriptionDelete.
  destruct (find_sub id (st_subs s)) as [i0|]; [|done].
  specialize (Hf s Hs). destruct (find_sub id (st_subs (f s))) as [i|]; [|done]. cbv zeta.
  unfold pruneStaleServersPreservingActive, pruneStaleServers.
  replace (if running then _ else _)
    with (pruneStaleServersWithActivePolicy (st_cfg (f s)) (delete i (st_subs (f s))) running)
    by (by destruct running).
  pose proof (prune_like (st_cfg (f s)) (delete i (st_subs (f s))) running) as Hlike.
  destruct (pruneStaleServersWithActivePolicy _ _ _) as [cfg' n]. destruct Hlike as [Hlike Hn]. persist.
  intros [[Hz _]%orb_false_iff _]%orb_false_iff. apply Hn. destruct n; [done|discriminate].
Qed.

Lemma sub_move_ok w id direction f : recoverable w = true -> keeps_ok f ->
  keeps_ok (fun s => an_store (handleSubscriptionMove w id direction f s)).
Proof using Type*.
  intros Hw Hf s Hs. unfold handleSubscriptionMove. specialize (Hf s Hs).
  repeat case_match; try done; persist.
Qed.

Lemma sub_refresh_ok w id fetched f : recoverable w = true -> keeps_ok f ->
  keeps_ok (fun s => an_store (handleSubscriptionRefresh w id fetched f s)).
Proof using Type*.
  intros Hw Hf s Hs. unfold handleSubscriptionRefresh. specialize (Hf s Hs).
  destruct (find_sub id (st_subs s) ≫= _) as [current|]; [|done].
  destruct (sub_Disabled current); [done|].
  destruct (find_sub id (st_subs (f s))) as [i|]; [|done]. cbv zeta. destruct fetched as [sub|e].
  - pose proof (sync_like (st_cfg (f s)) (merge_fetched id (Ok sub) (st_subs (f s)))) as Hlike.
    destruct (sync_catalog _ _) as [cfg' changed]. destruct Hlike as (Hlike & _ & Hsame). persist.
  - case_match; cbn [an_store]; persist.
Qed.

Lemma sub_connect_ok w1 w2 id index pinged running started f g :
  recoverable w1 = true -> recoverable w2 = true -> keeps_ok f -> keeps_ok g ->
  keeps_ok (fun s => an_store (handleSubscriptionConnect w1 w2 id index pinged running started f g s)).
Proof using Type*.
  intros Hw1 Hw2 Hf Hg s Hs. unfold handleSubscriptionConnect. specialize (Hf s Hs). cbv zeta.
  destruct (find_sub id (st_subs s) ≫= _) as [sub|]; [|done]. destruct (sub_Disabled sub); [done|].
  destruct index as [i|]; [|done]. destruct (if i <? 0 then _ else _) as [srv|]; [|done].
  destruct (serverDisabled _ _); [done|]. destruct (match sv_Members srv with [] => _ | _ => _ end) as [srv'|];
    [|done].
  pose proof (select_ok w1 srv' Hw1 _ Hf) as H2. cbv beta in H2.
  destruct (commitSelectedServer _ _ _) as [[] s2]; [|done]. by apply connect_ok, Hg.
Qed.

Lemma sub_patch_ok http w id body f : recoverable w = true -> keeps_ok f ->
  keeps_ok (fun s => an_store (handleSubscriptionPatch http w id body f s)).
Proof using Type*.
  intros Hw Hf s Hs. unfold handleSubscriptionPatch. specialize (Hf s Hs). cbv zeta.
  destruct (find_sub id (st_subs s)); [|done]. destruct body as [p|]; [|done].
  destruct (_ && _ && _); [done|]. destruct (bool_decide _); [done|].
  destruct (patch_url http id p) as [url|]; [|done].
  destruct (find_sub id (st_subs (f s))) as [i|]; [|done].
  destruct (match url with Some _ => _ | None => _ end); [done|].
  persist; apply deselect_like.
Qed.

Lemma sub_server_patch_ok w id serverID disabled f : recoverable w = true -> keeps_ok f ->
  keeps_ok (fun s => an_store (handleSubscriptionServerPatch w id serverID disabled f s)).
Proof using Type*.
  intros Hw Hf s Hs. unfold handleSubscriptionServerPatch. specialize (Hf s Hs). cbv zeta.
  destruct (find_sub id (st_subs s) ≫= _) as [sub|]; [|done]. destruct disabled as [d|]; [|done].
  destruct (negb _); [done|]. destruct (find_sub id (st_subs (f s))) as [i|]; [|done].
  persist; apply deselect_like.
Qed.

Lemma refresh_all_ok w cancelled fetch running f : recoverable w = true -> keeps_ok f ->
  keeps_ok (fun s => an_store (refreshAllSubscriptionsCore w cancelled fetch running f s)).
Proof using Type*.
  intros Hw Hf s Hs. unfold refreshAllSubscriptionsCore. specialize (Hf s Hs).
  destruct (fetch_all _ _ _ _) as [[results|] calls]; [|done]. cbv zeta.
  set (subs := foldl _ _ _).
  pose proof (sync_like (st_cfg (f s)) subs) as Hlike.
  destruct (sync_catalog _ _) as [cfg' changed]. destruct Hlike as (Hlike & _ & Hsame).
  cbn [an_store]. persist.
Qed.

(** The handlers of the tunnel. *)
Lemma tunnel_ok w w' sc stops stopped started running f g :
  recoverable w = true -> recoverable w' = true -> keeps_ok f -> keeps_ok g ->
  keeps_ok (fun s => an_store (handleStop w stops f s)) /\
  keeps_ok (fun s => an_store (handleStart w w' sc stopped started f s)) /\
  keeps_ok (fun s => an_store (handlePingAutoSelect w w' sc running started f g s)).
Proof using Type*.
  intros Hw Hw' Hf Hg. split_and!; intros s Hs.
  - unfold handleStop. destruct stops; [|done]. cbn [negb]. specialize (Hf s Hs). cbv zeta.
    unfold pruneStaleServers. pose proof (prune_like (st_cfg (f s)) (st_subs (f s)) false) as Hlike.
    destruct (pruneStaleServersWithActivePolicy _ _ _) as [cfg' n]. destruct Hlike as [Hlike Hn].
    destruct (Nat.ltb_spec 0 n).
    + assert (Hp : store_ok (persistMutationLocked w (st_cfg (f s)) [] true false
        (f s <| st_cfg := cfg' |>)).2) by persist.
      by destruct (persistMutationLocked _ _ _ _ _ _) as [? ?].
    + rewrite Hn by lia. destruct Hf as [[? ?] ?]. by split; [split|].
  - unfold handleStart. pose proof (prepare_ok w w' sc stopped f Hw Hw' Hf s Hs) as Hp. cbv beta in Hp.
    by destruct (prepareServerForStart _ _ _ _ _ _) as [[] ?].
  - unfold handlePingAutoSelect. pose proof (auto_select_ok w sc f Hw Hf s Hs) as Hp. cbv beta in Hp.
    destruct (autoSelectBest _ _ _ _) as [name s1]. case_match; [done|]. by apply connect_ok, Hg.
Qed.

(** The handlers of the configuration: what they take is validated. *)
Lemma settings_ok w cbody fbody pbody idle running started :
  keeps_ok (fun s => an_store (handleConfigPost w cbody s)) /\
  keeps_ok (fun s => an_store (handleFailoverPost w fbody s)) /\
  keeps_ok (fun s => an_store (handleSettingsPatch w pbody idle running started s)).
Proof using Type*.
  split_and!; intros s Hs; pose proof Hs as [_ [Hv Hp]].
  - unfold handleConfigPost. destruct cbody as [[cfg named]|]; [|done]. cbv zeta.
    set (cfg1 := if cfg_Port cfg =? 0 then _ else _).
    destruct ((cfg_Port cfg1 <? 1) || (65535 <? cfg_Port cfg1)) eqn:Hport; [done|].
    set (cfg2 := if named then _ else _).
    assert (Hp2 : cfg_Port cfg2 = cfg_Port cfg1) by (unfold cfg2; destruct named; reflexivity).
    clearbody cfg2. set (cfg3 := cfg2 <| cfg_Settings ::= _ |>).
    assert (Hp3 : cfg_Port cfg3 = cfg_Port cfg1) by exact Hp2. clearbody cfg3.
    destruct (validate (cfg_Settings cfg3)) eqn:Hval; [done|]. destruct (w_config w); [|done].
    apply config_ok; [done|]. destruct (migrate_other cfg3) as [Hms Hmp].
    split; rewrite ?Hms, ?Hmp; [done|]. rewrite Hp3.
    apply orb_false_iff in Hport as [? ?]. lia.
  - unfold handleFailoverPost. destruct fbody as [[[e|] [t|]]|]; try done; cbv zeta;
      (destruct (w_config w); [|done]; apply config_ok; [done|]; by split).
  - unfold handleSettingsPatch. destruct pbody as [patch|]; [|done]. cbv zeta. case_match; [done|].
    destruct (settings_overlay _ _) as [out|]; [|done].
    generalize (fillDefaults out).1. clear out. intros out.
    destruct (validate out) eqn:Hval; [done|]. case_match; [done|].
    destruct (w_config w); [|done]. cbn [negb].
    eapply (config_ok (st_cfg s <| cfg_Settings := out |>) _ []); [done|]. split; [exact Hval|exact Hp].
Qed.

Lemma api_step_keeps :
  (forall s a, api_step s a -> store_ok s -> store_ok (an_store a)) /\
  (forall s s', api_runs s s' -> store_ok s -> store_ok s').
Proof using Type*.
  apply api_mutind; intros;
    repeat match goal with H : forall s : store, store_ok s -> store_ok (?f s) |- _ =>
      change (keeps_ok f) in H end;
    [by apply (servers_ok w body "" false false id)
    |by apply (servers_ok w body id false false (fun s => s))
    |by apply (servers_ok w None id false false (fun s => s))
    |by apply (servers_ok w None id running started f)
    |by apply subs_post_ok|by apply sub_delete_ok|by apply sub_move_ok|by apply sub_refresh_ok
    |by apply sub_connect_ok|by apply sub_patch_ok|by apply sub_server_patch_ok|by apply refresh_all_ok
    |by apply (tunnel_ok w w (mkScan (fun _ => false) (fun _ => 0) (fun _ => ∅) (fun _ _ => []))
        stops false false false f f)
    |by apply (tunnel_ok w1 w2 sc false stopped started false f f)
    | |by apply (tunnel_ok w1 w2 sc false false started running f g)
    |by apply (proj1 (settings_ok w body None None false false false))
    |by apply (proj1 (proj2 (settings_ok w None body None false false false)))
    |by apply (proj2 (proj2 (settings_ok w None None body idle running started)))|done|auto].
  unfold handleRestart. destruct stops; [|done]. by apply H0.
Qed.

End Invariant.

(** ** What a disabled server takes with it *)

Lemma commit_done w cfg subs cc sc s calls :
  an_code (commit w cfg subs cc sc s calls) = 200 ->
  st_cfg (an_store (commit w cfg subs cc sc s calls)) = st_cfg s /\
  st_subs (an_store (commit w cfg subs cc sc s calls)) = st_subs s /\
  an_calls (commit w cfg subs cc sc s calls) = calls.
Proof.
  unfold commit, persistMutationLocked.
  destruct cc, sc, (w_config w), (w_subs w), s; cbn; done.
Qed.

Lemma set_state_fst ids id present :
  (setServerIDState ids id present).1 =
    let kept := if present then ids else filter (fun x => x <> id) ids in
    if present && negb (bool_decide (id ∈ ids)) then kept ++ [id] else kept.
Proof.
  unfold setServerIDState.
  assert (Hfold : forall next found,
    foldl (fun '(next, found) disabledID =>
      if bool_decide (disabledID = id)
      then (if present then next ++ [disabledID] else next, true)
      else (next ++ [disabledID], found)) (next, found) ids =
    (next ++ (if present then ids else filter (fun x => x <> id) ids),
     found || bool_decide (id ∈ ids))).
  { induction ids as [|x ids IH]; intros next found.
    { cbn. rewrite orb_false_r. by destruct present; rewrite app_nil_r. }
    cbn [foldl]. rewrite filter_cons. destruct (bool_decide_reflect (x = id)) as [Hx|Hx]; rewrite IH.
    - subst x. rewrite (bool_decide_eq_true_2 (id ∈ id :: ids)) by left.
      rewrite decide_False by (intros Hn; by apply Hn).
      destruct present; cbn; rewrite ?orb_true_r; f_equal; by rewrite <- app_assoc.
    - rewrite decide_True by done.
      rewrite (bool_decide_ext (id ∈ x :: ids) (id ∈ ids)) by (rewrite elem_of_cons; naive_solver).
      destruct present; f_equal; by rewrite <- app_assoc. }
  rewrite Hfold. cbn. by destruct present.
Qed.

Lemma containsServerID_spec ids id : containsServerID ids id = true <-> id ∈ ids.
Proof.
  unfold containsServerID. rewrite existsb_exists. split.
  - by intros (x & Hx%list_elem_of_In & ->%bool_decide_eq_true).
  - intros Hx. exists id. split; [by apply list_elem_of_In|by apply bool_decide_eq_true].
Qed.

Lemma disabled_other sub id d id' :
  id' <> id \/ d = false ->
  serverDisabled sub id' = false -> serverDisabled (setServerDisabled sub id d) id' = false.
Proof.
  unfold serverDisabled, setServerDisabled, upd. cbn [sub_DisabledServerIDs].
  rewrite <- !not_true_iff_false, !containsServerID_spec, set_state_fst. cbv zeta.
  intros Hor Hn. destruct d; cbn [andb].
  - destruct Hor as [Hne|]; [|done]. case_match; [|done].
    intros [?|?%list_elem_of_singleton]%elem_of_app; done.
  - by intros [_ ?]%list_elem_of_filter.
Qed.

(** A change to one subscription keeps what it still offers, and what comes
    from elsewhere. *)
Lemma available_alter cfg subs i change id :
  serverAvailableLocked cfg subs id = true ->
  serverAvailableLocked cfg (alter change i subs) id = true \/
  exists sub, subs !! i = Some sub /\ sub_Disabled sub = false /\ serverDisabled sub id = false /\
    id ∈ sv_ID <$> sub_Servers sub /\
    (sub_Disabled (change sub) = false -> serverDisabled (change sub) id = false ->
     id ∉ sv_ID <$> sub_Servers (change sub)).
Proof.
  intros Hav.
  destruct (serverAvailableLocked cfg (alter change i subs) id) eqn:Hno; [by left|right].
  apply not_true_iff_false in Hno. rewrite available_iff in Hno.
  apply available_iff in Hav as [(sub & [j Hj]%list_elem_of_lookup & Hd & Hs & Hin)|Hm]; [|tauto].
  destruct (decide (j = i)) as [->|Hne].
  - exists sub. split_and!; try done. intros Hd' Hs' Hin'. apply Hno. left. exists (change sub).
    split_and!; try done. apply list_elem_of_lookup. exists i. by rewrite list_lookup_alter_eq, Hj.
  - exfalso. apply Hno. left. exists sub. split_and!; try done. apply list_elem_of_lookup. exists j.
    by rewrite list_lookup_alter_ne.
Qed.

(** What the three changes of [handleSubscriptionPatch] leave alone. *)
Definition patch_sub (url : option (string * string)) (p : sub_patch) (sub : Subscription)
  : Subscription :=
  let sub := set_url url sub in
  let sub := match pt_Name p with Some name => sub <| sub_Name := TrimSpace name |> | None => sub end in
  match pt_Disabled p with Some d => sub <| sub_Disabled := d |> | None => sub end.

Lemma patch_sub_spec url p sub :
  sub_Servers (patch_sub url p sub) = sub_Servers sub /\
  (forall id, serverDisabled (patch_sub url p sub) id = serverDisabled sub id) /\
  sub_Disabled (patch_sub url p sub) = default (sub_Disabled sub) (pt_Disabled p).
Proof.
  unfold patch_sub, set_url. destruct url as [[u newID]|], (pt_Name p), (pt_Disabled p);
    try case_bool_decide; by destruct sub.
Qed.

Lemma lost_selection_spec cfg subs i url p :
  serverAvailableLocked cfg subs (cfg_ActiveServer cfg) = true ->
  bool_decide (pt_Disabled p = Some true) && lost_selection cfg (alter (patch_sub url p) i subs) i =
  negb (serverAvailableLocked cfg (alter (patch_sub url p) i subs) (cfg_ActiveServer cfg)).
Proof.
  intros Hav. set (subs' := alter (patch_sub url p) i subs).
  destruct (serverAvailableLocked cfg subs' (cfg_ActiveServer cfg)) eqn:Hnow; cbn [negb].
  - apply andb_false_iff. right. unfold lost_selection. destruct (subs' !! i) as [sub|]; [|done].
    apply not_true_iff_false. intros (srv & _ & [->%bool_decide_eq_true Hn]%andb_true_iff)%existsb_exists.
    by rewrite Hnow in Hn.
  - destruct (available_alter cfg subs i (patch_sub url p) _ Hav) as [Ha|(sub & Hi & Hd & Hs & Hin & Hgone)];
      [unfold subs' in Hnow; congruence|].
    destruct (patch_sub_spec url p sub) as (Hsv & Hdis & Hsd). rewrite Hsv, Hdis, Hsd in Hgone.
    destruct (pt_Disabled p) as [[]|] eqn:Hp; cbn [default] in Hgone; [|exfalso; by apply Hgone..].
    rewrite bool_decide_eq_true_2 by done. cbn [andb]. unfold lost_selection, subs'.
    rewrite list_lookup_alter_eq, Hi. cbn [fmap option_fmap option_map]. rewrite Hsv.
    apply list_elem_of_fmap in Hin as (srv & Hid & Hsrv). apply existsb_exists. exists srv.
    split; [by apply list_elem_of_In|]. rewrite <- Hid. rewrite bool_decide_eq_true_2 by done.
    unfold subs' in Hnow. by rewrite Hnow.
Qed.

(** C15. Disabling what the tunnel runs on stops the tunnel, and nothing else
    does.  Take a state in which the selected server may be used, and a PATCH
    of a subscription or of a server of one that succeeds.  If the selected
    server may still be used afterwards (another subscription offers it, it is
    also a manual one, or it was not concerned), the selection stays and the
    tunnel is not touched; if it may not, the selection is cleared and the
    tunnel is stopped.  A request that is refused calls nothing. *)
Theorem disabled_selection_stops `{ServerDigest, URLCodec} http w id serverID body disabled f s a :
  serverAvailableLocked (st_cfg (f s)) (st_subs (f s)) (cfg_ActiveServer (st_cfg (f s))) = true ->
  a = handleSubscriptionPatch http w id body f s \/
  a = handleSubscriptionServerPatch w id serverID disabled f s ->
  let active := cfg_ActiveServer (st_cfg (f s)) in
  (an_code a = 200 ->
   if serverAvailableLocked (st_cfg (an_store a)) (st_subs (an_store a)) active
   then cfg_ActiveServer (st_cfg (an_store a)) = active /\ an_calls a = []
   else cfg_ActiveServer (st_cfg (an_store a)) = "" /\ an_calls a = [StopVPN]) /\
  (an_code a <> 200 -> an_calls a = []).
Proof.
  intros Hav Ha. cbv zeta.
  assert (Hcommit : forall subs' stopped,
    stopped = negb (serverAvailableLocked (st_cfg (f s)) subs' (cfg_ActiveServer (st_cfg (f s)))) ->
    a = commit w (st_cfg (f s)) (st_subs (f s)) stopped true
      (f s <| st_cfg ::= deselect stopped |> <| st_subs := subs' |>) (if stopped then [StopVPN] else []) ->
    (an_code a = 200 ->
     if serverAvailableLocked (st_cfg (an_store a)) (st_subs (an_store a)) (cfg_ActiveServer (st_cfg (f s)))
     then cfg_ActiveServer (st_cfg (an_store a)) = cfg_ActiveServer (st_cfg (f s)) /\ an_calls a = []
     else cfg_ActiveServer (st_cfg (an_store a)) = "" /\ an_calls a = [StopVPN]) /\
    (an_code a <> 200 -> an_calls a = [])).
  { intros subs' stopped Hst ->. split.
    - intros (-> & -> & ->)%commit_done. unfold upd. cbn [st_cfg st_subs].
      assert (serverAvailableLocked (deselect stopped (st_cfg (f s))) subs' (cfg_ActiveServer (st_cfg (f s))) =
        negb stopped) as ->.
      { rewrite Hst, negb_involutive. by destruct (negb _). }
      by destruct stopped.
    - unfold commit. by destruct (persistMutationLocked _ _ _ _ _ _) as [[] ?]. }
  destruct Ha as [Ha|Ha].
  - unfold handleSubscriptionPatch in Ha. cbv zeta in Ha.
    destruct (find_sub id (st_subs s)); [|by subst]. destruct body as [p|]; [|by subst].
    destruct (_ && _ && _); [by subst|]. destruct (bool_decide (TrimSpace <$> _ = _)); [by subst|].
    destruct (patch_url http id p) as [url|]; [|by subst].
    destruct (find_sub id (st_subs (f s))) as [i|]; [|by subst].
    destruct (match url with Some _ => _ | None => _ end); [by subst|].
    change (alter _ i (st_subs (f s))) with (alter (patch_sub url p) i (st_subs (f s))) in Ha.
    eapply Hcommit; [|exact Ha]. by apply lost_selection_spec.
  - unfold handleSubscriptionServerPatch in Ha. cbv zeta in Ha.
    destruct (find_sub id (st_subs s) ≫= _) as [sub0|]; [|by subst]. destruct disabled as [d|]; [|by subst].
    destruct (negb _); [by subst|]. destruct (find_sub id (st_subs (f s))) as [i|]; [|by subst].
    eapply Hcommit; [|exact Ha].
    destruct (available_alter _ _ i (fun sub => setServerDisabled sub serverID d) _ Hav)
      as [Hnow|(sub & Hi & Hd & Hs & Hin & Hgone)].
    + rewrite Hnow. cbn [negb]. apply andb_false_iff. case_bool_decide as Heq; [|left; by rewrite andb_false_r].
      right. rewrite Heq in Hnow. by rewrite Hnow.
    + assert (Hcase : cfg_ActiveServer (st_cfg (f s)) = serverID /\ d = true).
      { destruct (decide (cfg_ActiveServer (st_cfg (f s)) = serverID /\ d = true)) as [|Hn]; [done|exfalso].
        apply Hgone; [done|apply disabled_other; [|done]|done].
        destruct d; [left; intros Heq; by apply Hn|by right]. }
      destruct Hcase as [<- ->]. by rewrite bool_decide_eq_true_2.
Qed.

(** ** What a refresh keeps *)

(** A subscription before and after: its catalog is the old one or a fetched
    one, the rest that the user decided is as it was. *)
Definition refreshed (fetched : Subscription -> Prop) (old new : Subscription) : Prop :=
  sub_ID new = sub_ID old /\ sub_Disabled new = sub_Disabled old /\
  (sub_Servers new = sub_Servers old \/ exists fresh, fetched fresh /\ sub_Servers new = sub_Servers fresh).

Lemma refreshed_id fetched subs : Forall2 (refreshed fetched) subs subs.
Proof. induction subs; constructor; [|done]. split_and!; [done|done|by left]. Qed.

Lemma refreshed_trans (fetched : Subscription -> Prop) a b c :
  Forall2 (refreshed fetched) a b -> Forall2 (refreshed fetched) b c -> Forall2 (refreshed fetched) a c.
Proof.
  apply Forall2_trans. intros x y z (? & ? & Hxy) (? & ? & Hyz). split_and!; [congruence..|].
  destruct Hyz as [->|]; [|by right]. done.
Qed.

Lemma merge_refreshed `{URLCodec} (fetched : Subscription -> Prop) id r subs :
  (forall sub, r = Ok sub -> fetched sub) ->
  Forall2 (refreshed fetched) subs (merge_fetched id r subs).
Proof.
  intros Hr. unfold merge_fetched, find_sub.
  destruct (list_find _ subs) as [[i sub0]|] eqn:Hi; [|apply refreshed_id].
  apply list_find_Some in Hi as (Hi & Hid & _). cbn [fmap option_fmap option_map fst].
  assert (Halter : forall change, refreshed fetched sub0 (change sub0) ->
    Forall2 (refreshed fetched) subs (alter change i subs)).
  { intros change Hc. apply Forall2_same_length_lookup. split; [by rewrite length_alter|].
    intros j x y Hx Hy. destruct (decide (i = j)) as [<-|Hne].
    - rewrite list_lookup_alter_eq, Hi in Hy. cbn in Hy. congruence.
    - rewrite list_lookup_alter_ne, Hx in Hy by done. injection Hy as ->.
      split_and!; [done|done|by left]. }
  destruct r as [sub|e]; apply Halter.
  - unfold preserveSubscriptionOptions, preserveSubscriptionDisplayName. cbv zeta.
    split_and!; [rewrite <- Hid; by case_match|done|]. right. exists sub. split; [by apply Hr|by case_match].
  - split_and!; [done|done|by left].
Qed.

Lemma fetch_all_from cancelled fetch i work results calls :
  fetch_all cancelled fetch i work = (results, calls) ->
  (forall l, results = Some l -> Forall (fun r => exists url, r.2 = fetch url) l) /\
  Forall (fun c => exists previous fresh, c = MigratePings previous fresh) calls.
Proof.
  revert i results calls. induction work as [|sub work IH]; intros i results calls; cbn [fetch_all].
  { intros [= <- <-]. split; [|constructor]. intros l [= <-]. constructor. }
  destruct (cancelled i); [intros [= <- <-]; split; [done|constructor]|].
  destruct (fetch_all _ _ (S i) work) as [rest more] eqn:Hrest. intros [= <- <-].
  destruct (IH _ _ _ Hrest) as [Hl Hc]. split.
  - intros l. destruct rest as [l'|]; [|done]. cbn. intros [= <-]. constructor; [by eexists|]. by apply Hl.
  - apply Forall_app. split; [|done]. destruct (fetch (sub_URL sub)); repeat constructor; eauto.
Qed.

Lemma fold_refreshed `{URLCodec} (fetched : Subscription -> Prop) results subs :
  Forall (fun r => forall sub, r.2 = Ok sub -> fetched sub) results ->
  Forall2 (refreshed fetched) subs (foldl (fun subs r => merge_fetched r.1 r.2 subs) subs results).
Proof.
  revert subs. induction results as [|r results IH]; intros subs; [intros _; apply refreshed_id|].
  intros [Hr Hrs]%Forall_cons. cbn [foldl].
  eapply refreshed_trans; [by apply merge_refreshed|]. by apply IH.
Qed.

(** The selection survives, its profile included. *)
Definition selection_kept (cfg cfg' : Config) : Prop :=
  cfg_ActiveServer cfg' = cfg_ActiveServer cfg /\ cfg_Settings cfg' = cfg_Settings cfg /\
  (is_Some (activeServer cfg) -> is_Some (activeServer cfg')).

Lemma sync_selection `{ServerDigest} cfg subs : selection_kept cfg (sync_catalog cfg subs).1.
Proof.
  pose proof (sync_like cfg subs) as Hlike.
  assert (Hact : is_Some (activeServer cfg) -> is_Some (activeServer (sync_catalog cfg subs).1)).
  { unfold sync_catalog, activeServer, findServer. unfold resyncServersFromSubs.
    pose proof (resync_fold_inv _ (cfg_Servers cfg) (subs ≫= sub_Servers) (server_index_ok _))
      as (Hids & _).
    destruct (foldl _ _ _) as [servers n]. cbn [fst] in Hids.
    unfold pruneStaleServersPreservingActive, pruneStaleServersWithActivePolicy. cbv zeta.
    rewrite prune_stale_true. unfold upd. cbn [cfg_Servers cfg_ActiveServer fst].
    set (active := cfg_ActiveServer cfg).
    rewrite find_by_id_filter.
    - intros Hs. apply find_by_id_is_Some. rewrite Hids. by apply find_by_id_is_Some.
    - intros s Hs. unfold stale_keeps. rewrite (bool_decide_eq_true_2 (_ = sv_ID s)) by done.
      by rewrite !orb_true_r. }
  destruct (sync_catalog cfg subs) as [cfg' changed]. destruct Hlike as ([? ?] & ? & _). by split.
Qed.

Definition touches_tunnel (c : api_call) : bool :=
  match c with StopVPN | StartVPN _ | ResetBackoff => true | _ => false end.

(** Committing a refreshed catalog. *)
Lemma commit_refreshed `{ServerDigest} w fetched s cfg' subs' cc calls a' :
  a' = commit w (st_cfg s) (st_subs s) cc true (s <| st_cfg := cfg' |> <| st_subs := subs' |>) calls ->
  selection_kept (st_cfg s) cfg' -> Forall2 (refreshed fetched) (st_subs s) subs' ->
  (cc = false -> cfg' = st_cfg s) ->
  Forall (fun c => touches_tunnel c = false) calls ->
  (selection_kept (st_cfg s) (st_cfg (an_store a')) /\
   Forall2 (refreshed fetched) (st_subs s) (st_subs (an_store a'))) /\
  Forall (fun c => touches_tunnel c = false) (an_calls a').
Proof.
  intros -> Hk Hr Hcc Hc. assert (Hself : selection_kept (st_cfg s) (st_cfg s)) by done.
  pose proof (refreshed_id fetched (st_subs s)) as Hrself.
  unfold commit, persistMutationLocked. destruct cc; [|rewrite Hcc in * by done];
    destruct (w_config w), (w_subs w); cbn [negb andb]; unfold upd; by cbn.
Qed.


(** ** What the handlers allow *)

(** POST adds a subscription that is there already: its identifier, the digest
    of its URL, then stands twice, and the next start drops the second one.
    PATCH refuses the same URL with 409. *)
Theorem subscription_twice w url name fetched f s old :
  w_subs w = true -> url <> "" -> old ∈ st_subs (f s) -> sub_ID fetched = sub_ID old ->
  let a := handleSubscriptionsPost w (Some (url, name)) (Ok fetched) f s in
  an_code a = 200 /\ ~ NoDup (sub_ID <$> st_subs (an_store a)).
Proof.
  intros Hw Hurl Hold Hid. unfold handleSubscriptionsPost. rewrite (bool_decide_eq_false_2 _ Hurl). cbv zeta.
  set (sub := if bool_decide (name = "") then _ else _).
  assert (Hsub : sub_ID sub = sub_ID old) by (unfold sub; by case_match). clearbody sub.
  unfold commit, persistMutationLocked. rewrite Hw. cbn [andb]. unfold upd. cbn.
  split; [done|]. rewrite fmap_app, NoDup_app. intros (_ & Hd & _).
  apply (Hd (sub_ID old)); [by apply list_elem_of_fmap_2|]. cbn. rewrite Hsub. by left.
Qed.

(** The switch of the controller that a sequence of calls leaves. *)
Definition switch_after (on : bool) (calls : list api_call) : bool :=
  foldl (fun on c => match c with SetEnabled b => b | _ => on end) on calls.

(** The controller is told after the lock is released: the calls of a request
    that enabled it can come after those of a later one that disabled it, and
    then the configuration says off and the controller runs. *)
Theorem failover_toggle_race : exists s,
  let on := handleFailoverPost (mkWrites true true true) (Some (Some true, None)) s in
  let off := handleFailoverPost (mkWrites true true true) (Some (Some false, None)) (an_store on) in
  an_code on = 200 /\ an_code off = 200 /\
  cfg_AutoFailover (st_cfgFile (an_store off)) = false /\
  switch_after false (an_calls off ++ an_calls on) = true /\
  switch_after false (an_calls on ++ an_calls off) = false.
Proof. exists (mkStore defaultConfig [] defaultConfig []). vm_compute. done. Qed.

(** An encoding that shows the flag, as the JSON of a server does. *)
Definition flag_digest : ServerDigest := {|
  server_json := fun s => (if sv_Manual s then "manual " else "") +:+ sv_Address s;
  sha256_hex8 := id
|}.

(** PUT makes a server the user's own, but under the identifier it has.  When
    that is one a subscription lists (a server selected from it is kept in the
    configuration under it), the next refresh puts the subscription's copy back
    and the edit is gone. *)
Theorem refresh_takes_edited_server : exists s,
  let put := handleServerPut (mkWrites true true true) "x" (Some (plain_leaf "mine")) s in
  let refreshed := @handleSubscriptionRefresh flag_digest plain_url (mkWrites true true true) "s"
    (Ok (mkSubscription "s" "s" "" "" "" [plain_leaf "x"] zero_time "" None false [] 0 ∅)) id
    (an_store put) in
  an_code put = 200 /\ (fun srv => (sv_Address srv, sv_Manual srv)) <$> cfg_Servers (st_cfg (an_store put)) =
    [("mine", true)] /\
  an_code refreshed = 200 /\ cfg_Servers (st_cfg (an_store refreshed)) = [plain_leaf "x"].
Proof.
  set (sub := mkSubscription "s" "s" "" "" "" [plain_leaf "x"] zero_time "" None false [] 0 ∅).
  set (cfg := defaultConfig <| cfg_Servers := [plain_leaf "x"] |> <| cfg_ActiveServer := "x" |>).
  exists (mkStore cfg [sub] cfg [sub]). vm_compute. done.
Qed.


(** ** Witnesses *)

Definition plain_settings_codec : SettingsCodec := {|
  settings_keys := ["log_level"];
  settings_overlay := fun st patch => Some (st <| LogLevel := default "" (snd <$> head patch) |>)
|}.

Definition plain_sub (disabled : bool) : Subscription :=
  mkSubscription "s" "s" "" "" "" [plain_leaf "y"] zero_time "" None disabled [] 0 ∅.

Definition active_store : store :=
  let cfg := defaultConfig <| cfg_Servers := [plain_leaf "y"] |> <| cfg_ActiveServer := "y" |> in
  mkStore cfg [plain_sub false] cfg [plain_sub false].

Definition all_written : writes := mkWrites true true true.

(** The subscription is renamed while a refresh of it is under way, whose
    second write then fails. *)
Definition rename_meanwhile (s : store) : store :=
  an_store (@handleSubscriptionPatch plain_digest plain_url (fun _ => true) all_written "s"
    (Some (mkPatch (Some "mine") None None)) id s).

Definition refresh_interleaved : answer :=
  @handleSubscriptionRefresh flag_digest plain_url (mkWrites true false true) "s"
    (Ok (plain_sub false <| sub_Servers := [] |>)) rename_meanwhile active_store.


Lemma disabled_selection_stops_witness :
  let a := handleSubscriptionServerPatch all_written "s" "y" (Some true) id active_store in
  an_calls a = [StopVPN] /\ cfg_ActiveServer (st_cfg (an_store a)) = "".
Proof.
  pose proof (@disabled_selection_stops plain_digest plain_url (fun _ => true) all_written "s" "y"
    None (Some true) id active_store
    (handleSubscriptionServerPatch all_written "s" "y" (Some true) id active_store)
    ltac:(vm_compute; reflexivity) (or_intror eq_refl)) as [H _].
  split; vm_compute; reflexivity.
Defined.

