(* ===== verification/Release.v ===== *)
(** * Releases of the program: versions, history, packages ([update.go])

    How a release is chosen and checked before anything is installed: the
    comparison of versions, the pages of the history, the assets of a release,
    the download with its checksum, the contents of the package.  The parsing
    of URLs, JSON and archives, SHA-256 and the network are parameters. *)

From Stdlib Require Import Ascii.
From stdpp Require Import pretty.
From S2P Require Import Prelude GoStrings.

#[local] Open Scope Z_scope.

(** ** Versions *)

Definition all_digits (s : string) : bool :=
  negb (bool_decide (s = "")) && forallb (between 48 57) (bytes_of s).

(** [versionPattern] on the trimmed value: the match without its [v], and the
    three groups. *)
Definition versionMatch (value : string) : option (string * (string * string * string)) :=
  let v := TrimPrefix (TrimSpace value) "v" in
  match Split v char_dot with
  | [a; b; c] => if all_digits a && all_digits b && all_digits c then Some (v, (a, b, c)) else None
  | _ => None
  end.

Definition normalizedVersion (value : string) : option string := fst <$> versionMatch value.

Section Versions.
(** The width of [int]: 32 on mipsel, 64 on aarch64. *)
Context (bits : Z).

Definition versionParts (value : string) : option (Z * Z * Z) :=
  m ← versionMatch value;
  let '(_, (a, b, c)) := m in
  x ← ParseInt a bits; y ← ParseInt b bits; z ← ParseInt c bits; Some (x, y, z).

Definition parts_newer (candidate current : Z * Z * Z) : bool :=
  let '(a1, b1, c1) := candidate in
  let '(a2, b2, c2) := current in
  if negb (a1 =? a2) then a2 <? a1
  else if negb (b1 =? b2) then b2 <? b1
  else if negb (c1 =? c2) then c2 <? c1
  else false.

(** [None] is the error. *)
Definition newerVersion (candidate current : string) : option bool :=
  x ← versionParts candidate; y ← versionParts current; Some (parts_newer x y).

End Versions.

Example newer_ex : newerVersion 32 "v1.10.0" "1.9.9" = Some true.
Proof. vm_compute. reflexivity. Qed.
Example newer_range : newerVersion 32 "1.2147483648.0" "1.9.9" = None.
Proof. vm_compute. reflexivity. Qed.

(** ** Releases *)

Record githubAsset := mkAsset { ga_Name : string; ga_URL : string; ga_Size : Z }.

Record githubRelease := mkRelease {
  gr_TagName : string;
  gr_HTMLURL : string;
  gr_Name : string;
  gr_Body : string;
  gr_PublishedAt : option Time;
  gr_Draft : bool;
  gr_Prerelease : bool;
  gr_Assets : list githubAsset
}.

Record UpdateHistoryRelease := mkHistoryRelease {
  hr_Tag : string;
  hr_Version : string;
  hr_Name : string;
  hr_Body : string;
  hr_ReleaseURL : string;
  hr_PublishedAt : option Time;
  hr_Prerelease : bool
}.

(** What the code reads of a [url.URL]. *)
Record release_url := mkReleaseURL {
  ru_Scheme : string;
  ru_Host : string;
  ru_Hostname : string;
  ru_User : bool;
  ru_Path : string;
  ru_Query : string -> string;
  ru_String : string
}.

(** [url.Parse]; [json.Unmarshal] of a list of releases, where [null] and an
    error are [None], and of one release. *)
Class ReleaseCodec := {
  parse_release_url : string -> option release_url;
  decode_releases : string -> option (list githubRelease);
  decode_release : string -> option githubRelease
}.

(** The answer to one request. *)
Inductive reply :=
| NoReply
| Reply (status : Z) (link : string) (body : string) (complete : bool).

(** ** The history *)

Definition maxHistoryPageBytes : Z := 2 * 2 ^ 20.
Definition maxHistoryBytes : Z := 8 * 2 ^ 20.
Definition maxHistoryPages : nat := 32.

Definition len (s : string) : Z := Z.of_nat (String.length s).

(** What a limited reader gives of a text. *)
Definition read_upto (n : Z) (s : string) : string :=
  if len s <=? n then s else string_of (take (Z.to_nat n) (bytes_of s)).

Definition historyReleaseURL `{ReleaseCodec} (repository value : string) : string :=
  let prefix := "/" +:+ ToLower repository +:+ "/releases/tag/" in
  match parse_release_url value with
  | None => ""
  | Some u =>
      if negb (bool_decide (ru_Scheme u = "https")) || negb (bool_decide (ru_Host u = "github.com")) ||
         ru_User u || negb (HasPrefix (ToLower (ru_Path u)) prefix) || (len (ru_Path u) <=? len prefix)
      then "" else ru_String u
  end.

(** [strings.Trim] with a set of bytes. *)
Definition Trim (s : string) (cutset : list ascii) : string :=
  let p c := existsb (Ascii.eqb c) cutset in
  string_of (drop_while_end p (drop_while p (bytes_of s))).

Definition quote : ascii := ascii_of_nat 34.
Definition angles : list ascii := ["<"%char; ">"%char].

(** One parameter of a link: whether a [rel] was seen, whether a next page. *)
Definition link_parameter `{ReleaseCodec} (base : release_url) (page : Z) (target : string)
    (st : bool * bool) (parameter : string) : option (bool * bool) :=
  let '(hasRelation, hasNext) := st in
  match Cut (TrimSpace parameter) char_eq with
  | None => Some st
  | Some (key, value) =>
      if negb (bool_decide (key = "rel")) then Some st
      else if negb (existsb (fun r => bool_decide (r = "next")) (Fields (Trim value [quote])))
      then Some (true, hasNext)
      else match parse_release_url (Trim (TrimSpace target) angles) with
      | None => None
      | Some next =>
          if hasNext || negb (bool_decide (ru_Scheme next = ru_Scheme base)) ||
             negb (bool_decide (ru_Host next = ru_Host base)) || ru_User next ||
             negb (bool_decide (ru_Query next "page" = pretty (page + 1))) ||
             negb (bool_decide (ru_Query next "per_page" = "100"))
          then None else Some (true, true)
      end
  end.

Fixpoint fold_option {A B} (f : A -> B -> option A) (a : A) (l : list B) : option A :=
  match l with
  | [] => Some a
  | x :: l => a' ← f a x; fold_option f a' l
  end.

Definition history_link `{ReleaseCodec} (base : release_url) (page : Z) (hasNext : bool) (link : string)
  : option bool :=
  if bool_decide (TrimSpace link = "") then Some hasNext
  else match Split link char_semicolon with
  | [] => None
  | target :: parameters =>
      if negb (HasPrefix (TrimSpace target) "<") || negb (HasSuffix (TrimSpace target) ">") then None
      else match fold_option (link_parameter base page target) (false, hasNext) parameters with
      | Some (true, hasNext) => Some hasNext
      | _ => None
      end
  end.

(** [None] is the error. *)
Definition historyNextPage `{ReleaseCodec} (header : string) (base : release_url) (page : Z)
  : option bool :=
  if 8192 <? len header then None
  else fold_option (history_link base page) false (Split header char_comma).

(** The loop over a page. *)
Definition history_entry `{ReleaseCodec} (repository : string) (bits : Z) (release : githubRelease)
  : UpdateHistoryRelease :=
  let version := default "" (normalizedVersion (gr_TagName release)) in
  let version := if versionParts bits version is Some _ then version else "" in
  mkHistoryRelease (gr_TagName release) version (gr_Name release) (gr_Body release)
    (historyReleaseURL repository (gr_HTMLURL release)) (gr_PublishedAt release) (gr_Prerelease release).

Definition add_release `{ReleaseCodec} (repository : string) (bits : Z)
    (acc : list UpdateHistoryRelease * gset string) (release : githubRelease)
  : list UpdateHistoryRelease * gset string :=
  let '(releases, seen) := acc in
  if gr_Draft release || bool_decide (gr_TagName release = "") || bool_decide (gr_TagName release ∈ seen)
  then acc
  else (releases ++ [history_entry repository bits release], {[gr_TagName release]} ∪ seen).

(** The comparison of the final sort. *)
Definition stable_release (r : UpdateHistoryRelease) : bool :=
  negb (bool_decide (hr_Version r = "")) && negb (hr_Prerelease r).

Definition history_less (bits : Z) (a b : UpdateHistoryRelease) : bool :=
  let aStable := stable_release a in
  let bStable := stable_release b in
  if negb (Bool.eqb aStable bStable) then aStable
  else if aStable && negb (bool_decide (hr_Version a = hr_Version b)) then
    default false (newerVersion bits (hr_Version a) (hr_Version b))
  else match hr_PublishedAt a, hr_PublishedAt b with
  | Some x, Some y => y <? x
  | Some _, None => true
  | None, _ => false
  end.

(** [sort.SliceStable]: a permutation that keeps equals in order, and in which,
    when the comparison is a strict weak order, no entry is less than one before
    it. *)
Class SliceStable := slice_stable :
  (UpdateHistoryRelease -> UpdateHistoryRelease -> bool) -> list UpdateHistoryRelease ->
  list UpdateHistoryRelease.
Class StableLaws (S : SliceStable) : Prop := {
  stable_permutation : forall less l, slice_stable less l ≡ₚ l;
  stable_sorted : forall less l,
    (forall x y, x ∈ l -> y ∈ l -> less x y = true -> less y x = false) ->
    (forall x y z, x ∈ l -> y ∈ l -> z ∈ l -> less x y = true -> less x z = true \/ less z y = true) ->
    Sorted (fun x y => less y x = false) (slice_stable less l)
}.

Inductive history_error :=
| PageRequest (page : Z)
| PageStatus (page status : Z)
| PageLimit (page : Z)
| PageInvalid (page : Z)
| PageLink (page : Z)
| TooManyPages.

(** The loop: [get] answers the request for a page; [pages] are still allowed. *)
Fixpoint history_pages `{ReleaseCodec, SliceStable} (repository : string) (bits : Z)
    (base : release_url) (get : Z -> reply) (pages : nat) (page totalBytes : Z)
    (acc : list UpdateHistoryRelease * gset string)
  : result history_error (list UpdateHistoryRelease) :=
  match pages with
  | O => Err TooManyPages
  | S pages =>
      match get page with
      | NoReply => Err (PageRequest page)
      | Reply status link body complete =>
          let size := Z.min (len body) (maxHistoryPageBytes + 1) in
          let totalBytes := totalBytes + size in
          if negb (status =? 200) then Err (PageStatus page status)
          else if negb complete || (maxHistoryPageBytes <? size) || (maxHistoryBytes <? totalBytes)
          then Err (PageLimit page)
          else match decode_releases body with
          | None => Err (PageInvalid page)
          | Some batch =>
              if (100 <? length batch)%nat then Err (PageInvalid page)
              else
                let acc := foldl (add_release repository bits) acc batch in
                match historyNextPage link base page with
                | None => Err (PageLink page)
                | Some hasNext =>
                    if negb hasNext && (negb (bool_decide (link = "")) || (length batch <? 100)%nat)
                    then Ok (slice_stable (history_less bits) acc.1)
                    else history_pages repository bits base get pages (page + 1) totalBytes acc
                end
          end
      end
  end.

Definition fetchReleaseHistory `{ReleaseCodec, SliceStable} (repository : string) (bits : Z)
    (base : release_url) (get : Z -> reply) : result history_error (list UpdateHistoryRelease) :=
  history_pages repository bits base get maxHistoryPages 1 0 ([], ∅).

(** ** The assets of a release *)

Definition maxUpdateBytes : Z := 64 * 2 ^ 20.

Inductive update_error :=
| UnsupportedArchitecture (goarch : string)
| InvalidVersion (value : string)
| UpToDate
| ReleaseRequest
| ReleaseStatus (status : Z)
| ReleaseDecode
| UnfitRelease
| MissingAsset (tag name : string)
| BadSize (size : Z)
| BadAssetURL
| UnexpectedHost (host : string)
| ChecksumRequest
| ChecksumStatus (status : Z)
| ChecksumEmpty
| ChecksumInvalid
| DownloadRequest
| DownloadStatus (status : Z)
| FileFailed
| CopyFailed
| TooLarge
| ChecksumMismatch
| PackageInvalid
| Cancelled
| ScheduleFailed.

Definition currentPackageArchitecture (goarch : string) : result update_error string :=
  if bool_decide (goarch = "mipsle") then Ok "mipsel-3.4"
  else if bool_decide (goarch = "arm64") then Ok "aarch64-3.10"
  else Err (UnsupportedArchitecture goarch).

Definition github_host (host : string) : bool :=
  bool_decide (host = "github.com") || HasSuffix host ".github.com" ||
  bool_decide (host = "githubusercontent.com") || HasSuffix host ".githubusercontent.com".

Definition validateGitHubAssetURL `{ReleaseCodec} (raw : string) : result update_error unit :=
  match parse_release_url raw with
  | None => Err BadAssetURL
  | Some u =>
      if negb (bool_decide (ru_Scheme u = "https")) then Err BadAssetURL
      else
        let host := ToLower (ru_Hostname u) in
        if negb (github_host host) then Err (UnexpectedHost host) else Ok tt
  end.

Definition noAsset : githubAsset := mkAsset "" "" 0.

(** The last asset of each of the two names. *)
Definition pick_asset (packageName checksumName : string) (acc : githubAsset * githubAsset)
    (asset : githubAsset) : githubAsset * githubAsset :=
  if bool_decide (ga_Name asset = packageName) then (asset, acc.2)
  else if bool_decide (ga_Name asset = checksumName) then (acc.1, asset)
  else acc.

Definition packageName (version architecture : string) : string :=
  "vless-manager_" +:+ version +:+ "_" +:+ architecture +:+ ".ipk".

Definition releaseAssets `{ReleaseCodec} (release : githubRelease) (version architecture : string)
  : result update_error (githubAsset * githubAsset) :=
  let name := packageName version architecture in
  let '(pkg, checksum) := foldl (pick_asset name (name +:+ ".sha256")) (noAsset, noAsset) (gr_Assets release) in
  if bool_decide (ga_URL pkg = "") || bool_decide (ga_URL checksum = "")
  then Err (MissingAsset (gr_TagName release) name)
  else if (ga_Size pkg <=? 0) || (maxUpdateBytes <? ga_Size pkg) then Err (BadSize (ga_Size pkg))
  else let! _ := validateGitHubAssetURL (ga_URL pkg) in
       let! _ := validateGitHubAssetURL (ga_URL checksum) in
       Ok (pkg, checksum).

(** ** The latest release *)

Definition githubReleaseAPIURL (repository : string) : string :=
  "https://api.github.com/repos/" +:+ repository +:+ "/releases/latest".

(** A client answers requests by their URL. *)
Definition client : Type := string -> reply.

(** [json.Decoder] reads at most one MiB. *)
Definition fetchLatestRelease `{ReleaseCodec} (c : client) (endpoint : string)
  : result update_error githubRelease :=
  match c endpoint with
  | NoReply => Err ReleaseRequest
  | Reply status _ body _ =>
      if negb (status =? 200) then Err (ReleaseStatus status)
      else match decode_release (read_upto (2 ^ 20) body) with
      | None => Err ReleaseDecode
      | Some release =>
          if gr_Draft release || gr_Prerelease release || bool_decide (gr_TagName release = "")
          then Err UnfitRelease else Ok release
      end
  end.

Definition hex_digit (c : ascii) : bool := bool_decide (is_Some (digit_of 16 c)).

(** [bufio.Scanner] over at most 4096 bytes, [hex.DecodeString]. *)
Definition fetchChecksum (c : client) (url : string) : result update_error string :=
  match c url with
  | NoReply => Err ChecksumRequest
  | Reply status _ body _ =>
      if negb (status =? 200) then Err (ChecksumStatus status)
      else match (ScanLines (read_upto 4096 body)).1 with
      | [] => Err ChecksumEmpty
      | line :: _ =>
          match Fields line with
          | [] => Err ChecksumInvalid
          | value :: _ =>
              if negb (len value =? 64) then Err ChecksumInvalid
              else if negb (forallb hex_digit (bytes_of value)) then Err ChecksumInvalid
              else Ok (ToLower value)
          end
      end
  end.

(** ** The package

    An archive is its entries and whether it ends as it should; an entry whose
    data breaks off is not complete. *)

Record entry := mkEntry { en_Name : string; en_Data : string; en_Complete : bool }.

(** [gzip.NewReader] and [tar.NewReader]: [None] is no gzip stream; the flag
    tells whether reading on ended with [io.EOF].  SHA-256 in hexadecimal. *)
Class Archives := {
  untar : string -> bool -> option (list entry * bool);
  sha256_hex : string -> string
}.

(** [io.ReadAll] of at most [n] bytes. *)
Definition read_limit (n : Z) (e : entry) : option string :=
  if en_Complete e || (n <=? len (en_Data e)) then Some (read_upto n (en_Data e)) else None.

Definition parse_control_line (fields : gmap string string) (line : string) : gmap string string :=
  match Cut line char_colon with
  | Some (name, value) =>
      if HasPrefix line " " then fields else <[TrimSpace name := TrimSpace value]> fields
  | None => fields
  end.

Definition parsePackageControl (data : string) : gmap string string :=
  foldl parse_control_line ∅ (ScanLines data).1.

Definition control_field (fields : gmap string string) (name : string) : string := default "" (fields !! name).

(** The loops stop at the first entry of the name: [None] is an error. *)
Fixpoint control_entries (version architecture : string) (entries : list entry) (ends : bool)
  : option bool :=
  match entries with
  | [] => if ends then Some false else None
  | e :: entries =>
      if negb (bool_decide (TrimPrefix (en_Name e) "./" = "control"))
      then control_entries version architecture entries ends
      else
        data ← read_limit (2 ^ 16) e;
        let fields := parsePackageControl data in
        if negb (bool_decide (control_field fields "Package" = "vless-manager")) ||
           negb (bool_decide (control_field fields "Version" = version)) ||
           negb (bool_decide (control_field fields "Architecture" = architecture))
        then None else Some true
  end.

Definition validateIPKControl `{Archives} (version architecture : string) (e : entry) : option bool :=
  '(entries, ends) ← untar (en_Data e) (en_Complete e);
  control_entries version architecture entries ends.

Definition elf_byte (header : list ascii) (i : nat) : Z :=
  default 0 ((fun c => Z.of_N (N_of_ascii c)) <$> header !! i).

(** [true]: no error. *)
Definition validateELFArchitecture (header : list ascii) (architecture : string) : bool :=
  if (length header <? 20)%nat || negb (bool_decide (elf_byte header <$> [0; 1; 2; 3]%nat = [127; 69; 76; 70])) ||
     negb (elf_byte header 5 =? 1) then false
  else
    let expected :=
      if bool_decide (architecture = "mipsel-3.4") then Some (1, 8)
      else if bool_decide (architecture = "aarch64-3.10") then Some (2, 183)
      else None in
    match expected with
    | None => false
    | Some (class, machine) =>
        (elf_byte header 4 =? class) && (elf_byte header 18 =? machine) && (elf_byte header 19 =? 0)
    end.

Fixpoint data_entries (architecture : string) (entries : list entry) (ends : bool) : option bool :=
  match entries with
  | [] => if ends then Some false else None
  | e :: entries =>
      if negb (bool_decide (TrimPrefix (en_Name e) "./" = "opt/bin/vless-manager"))
      then data_entries architecture entries ends
      else
        let header := take 20 (bytes_of (en_Data e)) in
        if (length header <? 20)%nat then None
        else if validateELFArchitecture header architecture then Some true else None
  end.

Definition validateIPKData `{Archives} (architecture : string) (e : entry) : option bool :=
  '(entries, ends) ← untar (en_Data e) (en_Complete e);
  data_entries architecture entries ends.

Record ipk_flags := mkFlags { fl_debian : bool; fl_control : bool; fl_manager : bool }.

Definition ipk_entry `{Archives} (version architecture : string) (f : ipk_flags) (e : entry)
  : option ipk_flags :=
  let name := TrimPrefix (en_Name e) "./" in
  if bool_decide (name = "debian-binary") then
    data ← read_limit 16 e;
    Some (mkFlags (bool_decide (data = "2.0" +:+ String newline "")) (fl_control f) (fl_manager f))
  else if bool_decide (name = "control.tar.gz") then
    ok ← validateIPKControl version architecture e; Some (mkFlags (fl_debian f) ok (fl_manager f))
  else if bool_decide (name = "data.tar.gz") then
    ok ← validateIPKData architecture e; Some (mkFlags (fl_debian f) (fl_control f) ok)
  else Some f.

(** [true]: no error. *)
Definition validateIPK `{Archives} (content version architecture : string) : bool :=
  match untar content true with
  | None => false
  | Some (entries, ends) =>
      match fold_option (ipk_entry version architecture) (mkFlags false false false) entries with
      | None => false
      | Some f => ends && fl_debian f && fl_control f && fl_manager f
      end
  end.

(** ** The download *)

(** The outcomes of the file operations. *)
Record file_ops := mkFileOps { fo_create : bool; fo_write : bool; fo_close : bool; fo_rename : bool }.

(** A phase reported to the caller: its name, the bytes so far, the total. *)
Inductive phase := PhaseChecksum | PhaseDownloading | PhaseVerifying | PhasePreparing.
Definition phase_report : Type := phase * Z * Z.

Abbreviation files := (gmap string string) (only parsing).

(** [pieces] are the counts [io.Copy] reports. *)
Definition downloadVerifiedPackage `{Archives} (c : client) (ops : file_ops) (pieces : list Z)
    (pkg checksum : githubAsset) (version architecture destination : string) (fs : files)
  : result update_error unit * files * list phase_report :=
  let total := ga_Size pkg in
  let r0 := [(PhaseChecksum, 0, total)] in
  match fetchChecksum c (ga_URL checksum) with
  | Err e => (Err e, fs, r0)
  | Ok expected =>
      match c (ga_URL pkg) with
      | NoReply => (Err DownloadRequest, fs, r0)
      | Reply status _ body complete =>
          if negb (status =? 200) then (Err (DownloadStatus status), fs, r0)
          else
            let tmp := destination +:+ ".part" in
            let fs := delete tmp fs in
            if negb (fo_create ops) then (Err FileFailed, fs, r0)
            else
              let r1 := r0 ++ (PhaseDownloading, 0, total) :: ((fun n => (PhaseDownloading, n, total)) <$> pieces) in
              let content := read_upto (maxUpdateBytes + 1) body in
              let written := len content in
              let copied := fo_write ops && (complete || (maxUpdateBytes <? written)) in
              if negb copied then (Err CopyFailed, fs, r1)
              else if negb (fo_close ops) then (Err FileFailed, fs, r1)
              else if maxUpdateBytes <? written then (Err TooLarge, fs, r1)
              else
                let r2 := r1 ++ [(PhaseVerifying, written, total)] in
                if negb (EqualFold (sha256_hex content) expected) then (Err ChecksumMismatch, fs, r2)
                else if negb (validateIPK content version architecture) then (Err PackageInvalid, fs, r2)
                else
                  let r3 := r2 ++ [(PhasePreparing, written, total)] in
                  if fo_rename ops then (Ok tt, <[destination := content]> fs, r3)
                  else (Err FileFailed, <[tmp := content]> (delete destination fs), r3)
      end
  end.

(** ** Lemmas: versions *)

Definition parts_lt (x y : Z * Z * Z) : Prop := parts_newer y x = true.

Lemma parts_newer_spec x y :
  parts_newer x y = true <->
  (let '(a1, b1, c1) := x in let '(a2, b2, c2) := y in
   a2 < a1 \/ (a1 = a2 /\ (b2 < b1 \/ (b1 = b2 /\ c2 < c1)))).
Proof.
  destruct x as [[a1 b1] c1], y as [[a2 b2] c2]. unfold parts_newer.
  destruct (Z.eqb_spec a1 a2), (Z.eqb_spec b1 b2), (Z.eqb_spec c1 c2); cbn [negb];
    rewrite ?Z.ltb_lt; try lia; (split; [done|lia]).
Qed.

(** A version is newer than another exactly when it is lexicographically
    greater: a strict total order on the numbers. *)
Lemma parts_newer_order x y z :
  parts_newer x x = false /\
  (parts_newer x y = true -> parts_newer y x = false) /\
  (parts_newer x y = true -> parts_newer x z = true \/ parts_newer z y = true) /\
  (parts_newer x y = false -> parts_newer y x = false -> x = y).
Proof.
  rewrite <- !not_true_iff_false, !parts_newer_spec.
  destruct x as [[a1 b1] c1], y as [[a2 b2] c2], z as [[a3 b3] c3].
  split_and!; try lia. intros H1 H2.
  assert (a1 = a2 /\ b1 = b2 /\ c1 = c2) as (-> & -> & ->) by lia. done.
Qed.

Definition no_dot (s : string) : Prop := Forall (fun c => Ascii.eqb c char_dot = false) (bytes_of s).

(** ** Lemmas: the history *)

Section History.
Context `{ReleaseCodec, SliceStable} (repository : string) (bits : Z) (base : release_url).

(** A page the loop accepts: its releases and size, and whether it is the last. *)
Definition good_page (get : Z -> reply) (page : Z) (batch : list githubRelease) (size : Z) (last : bool)
  : Prop :=
  exists link body hasNext,
    get page = Reply 200 link body true /\ size = len body /\ size <= maxHistoryPageBytes /\
    decode_releases body = Some batch /\ (length batch <= 100)%nat /\
    historyNextPage link base page = Some hasNext /\
    last = negb hasNext && (negb (bool_decide (link = "")) || (length batch <? 100)%nat).

Definition sum_sizes (l : list (list githubRelease * Z)) : Z := foldr (fun p n => p.2 + n) 0 l.

Lemma sum_sizes_cons b l : sum_sizes (b :: l) = b.2 + sum_sizes l.
Proof. done. Qed.

(** The pages from [page] on, the last one and no other marked as such. *)
Fixpoint good_pages (get : Z -> reply) (page : Z) (batches : list (list githubRelease * Z)) : Prop :=
  match batches with
  | [] => False
  | [b] => good_page get page b.1 b.2 true
  | b :: rest => good_page get page b.1 b.2 false /\ good_pages get (page + 1) rest
  end.

Lemma good_page_size get page batch size last : good_page get page batch size last -> 0 <= size.
Proof. intros (link & body & hasNext & _ & -> & _). unfold len. lia. Qed.

Lemma good_pages_size get page batches : good_pages get page batches -> 0 <= sum_sizes batches.
Proof.
  revert page. induction batches as [|b [|b' rest] IH]; intros page; [done| |].
  - intros Hg%good_page_size. cbn. lia.
  - intros [Hg%good_page_size Hr%IH]. cbn in *. lia.
Qed.

Definition after_pages (acc : list UpdateHistoryRelease * gset string)
    (batches : list (list githubRelease * Z)) : list UpdateHistoryRelease * gset string :=
  foldl (add_release repository bits) acc (mjoin batches.*1).

(** One turn of the loop. *)
Lemma history_turn get pages page total acc l :
  history_pages repository bits base get (S pages) page total acc = Ok l <->
  exists batch size last, good_page get page batch size last /\ total + size <= maxHistoryBytes /\
    let acc := foldl (add_release repository bits) acc batch in
    if last : bool then l = slice_stable (history_less bits) acc.1
    else history_pages repository bits base get pages (page + 1) (total + size) acc = Ok l.
Proof.
  cbn [history_pages]. unfold good_page. cbv zeta.
  destruct (get page) as [|status link body complete]; [naive_solver|].
  destruct (Z.eqb_spec status 200) as [->|Hst]; cbn [negb]; [|naive_solver].
  destruct (negb complete || _ || _) eqn:Hlim.
  { split; [done|]. intros (batch & size & last & (link' & body' & hn & [= <- <- ->] & -> & Hsz & _) & Ht & _).
    cbn [negb orb] in Hlim. apply orb_true_iff in Hlim as [Hl|Hl]; apply Z.ltb_lt in Hl; lia. }
  apply orb_false_iff in Hlim as [Hlim Htot]. apply orb_false_iff in Hlim as [Hcomp Hsize].
  apply negb_false_iff in Hcomp as ->. apply Z.ltb_ge in Hsize, Htot. rewrite Z.min_l in * by lia.
  destruct (decode_releases body) as [batch|] eqn:Hdec; [|naive_solver].
  destruct (Nat.ltb_spec 100 (length batch)) as [Hbig|Hsmall].
  { split; [done|]. intros (? & ? & ? & (? & ? & ? & [= <- <-] & _ & _ & Hd & Hn & _) & _).
    rewrite Hdec in Hd. injection Hd as <-. lia. }
  destruct (historyNextPage link base page) as [hasNext|] eqn:Hnext.
  2: { split; [done|]. intros (? & ? & ? & (? & ? & ? & [= <- <-] & _ & _ & _ & _ & Hn & _) & _). congruence. }
  set (last := negb hasNext && _). split.
  - intros Heq. exists batch, (len body), last. split; [|split; [lia|by destruct last; [injection Heq as <-|]]].
    exists link, body, hasNext. split_and!; try done; lia.
  - intros (b & size & last' & (? & ? & ? & [= <- <-] & -> & _ & Hd & _ & Hn & ->) & _ & Heq).
    rewrite Hdec in Hd. injection Hd as <-. rewrite Hnext in Hn. injection Hn as <-.
    fold last in Heq. destruct last; [by rewrite Heq|done].
Qed.

Lemma history_pages_spec get pages page total acc l :
  history_pages repository bits base get pages page total acc = Ok l <->
  exists batches, good_pages get page batches /\ (length batches <= pages)%nat /\
    total + sum_sizes batches <= maxHistoryBytes /\
    l = slice_stable (history_less bits) (after_pages acc batches).1.
Proof.
  revert page total acc. induction pages as [|pages IH]; intros page total acc.
  { split; [done|]. intros ([|b rest] & Hg & Hlen & _); [done|cbn in Hlen; lia]. }
  rewrite history_turn. unfold after_pages in *. split.
  - intros (batch & size & [|] & Hg & Ht & Hl); cbv zeta in Hl.
    + exists [(batch, size)]. cbn. rewrite app_nil_r. split_and!; [done|lia|lia|done].
    + apply IH in Hl as (batches & Hgs & Hlen & Hs & ->). exists ((batch, size) :: batches).
      rewrite sum_sizes_cons. cbn [snd length fmap list_fmap fst mjoin list_join]. rewrite foldl_app.
      split_and!; [by destruct batches|lia|lia|done].
  - intros ([|[batch size] [|b rest]] & Hg & Hlen & Hs & ->); [done| |].
    + exists batch, size, true. cbn in *. rewrite app_nil_r. split_and!; [done|lia|done].
    + destruct Hg as [Hg Hgs]. rewrite sum_sizes_cons in Hs. cbn [snd] in Hs.
      exists batch, size, false. split; [done|]. pose proof (good_pages_size _ _ _ Hgs). split; [lia|].
      cbv zeta. apply IH. exists (b :: rest). rewrite <- foldl_app. cbn [length] in Hlen.
      split_and!; [done|cbn [length]; lia|lia|done].
Qed.

(** What a list of releases comes to: every published tag once. *)
Definition published (r : githubRelease) : Prop := gr_Draft r = false /\ gr_TagName r <> "".

Lemma add_release_fold releases :
  let '(out, seen) := foldl (add_release repository bits) ([], ∅) releases in
  NoDup (hr_Tag <$> out) /\ seen = list_to_set (hr_Tag <$> out) /\
  (forall e, e ∈ out -> exists r, r ∈ releases /\ published r /\ e = history_entry repository bits r) /\
  (forall r, r ∈ releases -> published r -> gr_TagName r ∈ hr_Tag <$> out).
Proof.
  apply (foldl_seen (fun seen_releases acc => let '(out, seen) := acc in
    NoDup (hr_Tag <$> out) /\ seen = list_to_set (hr_Tag <$> out) /\
    (forall e, e ∈ out -> exists r, r ∈ seen_releases /\ published r /\ e = history_entry repository bits r) /\
    (forall r, r ∈ seen_releases -> published r -> gr_TagName r ∈ hr_Tag <$> out))).
  2: { split_and!; [constructor|done|by intros e ?%not_elem_of_nil|by intros r ?%not_elem_of_nil]. }
  intros done r [out seen] _ (Hnd & Hseen & Hfrom & Hall). unfold add_release.
  destruct (gr_Draft r || _ || _) eqn:Hskip.
  - split_and!; [done|done| |].
    + intros e (r' & Hr' & ?)%Hfrom. exists r'. split; [apply elem_of_snoc; by left|done].
    + intros r' [Hr'| ->]%elem_of_snoc Hp; [by apply Hall|]. destruct Hp as [Hd Ht].
      rewrite Hd, (bool_decide_eq_false_2 _ Ht) in Hskip. cbn in Hskip.
      apply bool_decide_eq_true in Hskip. rewrite Hseen in Hskip. by apply elem_of_list_to_set in Hskip.
  - apply orb_false_iff in Hskip as [[Hd Ht%bool_decide_eq_false]%orb_false_iff Hn%bool_decide_eq_false].
    assert (Htag : hr_Tag (history_entry repository bits r) = gr_TagName r) by done.
    rewrite fmap_snoc, Htag. split_and!.
    + apply NoDup_snoc; [|done]. intros Hin. apply Hn. rewrite Hseen. by apply elem_of_list_to_set.
    + rewrite Hseen, list_to_set_app_L. cbn. set_solver.
    + intros e [He| ->]%elem_of_snoc.
      * apply Hfrom in He as (r' & Hr' & ?). exists r'. split; [apply elem_of_snoc; by left|done].
      * exists r. split; [apply elem_of_snoc; by right|done].
    + intros r' [Hr'| ->]%elem_of_snoc Hp; apply elem_of_snoc; [left; by apply Hall|by right].
Qed.

Lemma entry_version r :
  hr_Version (history_entry repository bits r) <> "" ->
  is_Some (versionParts bits (hr_Version (history_entry repository bits r))).
Proof.
  unfold history_entry. cbn [hr_Version].
  destruct (versionParts bits (default "" (normalizedVersion (gr_TagName r)))) eqn:Hv; [|done]. by rewrite Hv.
Qed.

End History.

(** ** Lemmas: the order of the history *)

Definition weak_order {A} (f : A -> A -> bool) : Prop :=
  (forall x y, f x y = true -> f y x = false) /\
  (forall x y z, f x y = true -> f x z = true \/ f z y = true).

Definition lexicographic {A} (f g : A -> A -> bool) (x y : A) : bool := f x y || negb (f y x) && g x y.

Lemma lexicographic_weak {A} (f g : A -> A -> bool) :
  weak_order f -> weak_order g -> weak_order (lexicographic f g).
Proof.
  intros [Hfa Hft] [Hga Hgt]. unfold lexicographic. split.
  - intros x y [Hf|[Hnf Hg]%andb_true_iff]%orb_true_iff; [by rewrite (Hfa _ _ Hf), Hf|].
    apply negb_true_iff in Hnf. rewrite Hnf, (Hga _ _ Hg). by rewrite andb_false_r.
  - intros x y z [Hf|[Hnf%negb_true_iff Hg]%andb_true_iff]%orb_true_iff.
    + destruct (Hft x y z Hf) as [->| ->]; [by left|by right].
    + destruct (f x z) eqn:Hxz; [by left|]. destruct (f z y) eqn:Hzy; [by right|]. cbn [orb].
      destruct (f z x) eqn:Hzx; [destruct (Hft z x y Hzx); congruence|].
      destruct (f y z) eqn:Hyz; [destruct (Hft y z x Hyz); congruence|].
      destruct (Hgt x y z Hg) as [->| ->]; [by left|by right].
Qed.

Definition version_key (bits : Z) (e : UpdateHistoryRelease) : Z * Z * Z :=
  if stable_release e then default (0, 0, 0) (versionParts bits (hr_Version e)) else (0, 0, 0).

Definition published_after (a b : UpdateHistoryRelease) : bool :=
  match hr_PublishedAt a, hr_PublishedAt b with
  | Some x, Some y => y <? x
  | Some _, None => true
  | None, _ => false
  end.

Definition history_order (bits : Z) : UpdateHistoryRelease -> UpdateHistoryRelease -> bool :=
  lexicographic (fun a b => stable_release a && negb (stable_release b))
    (lexicographic (fun a b => parts_newer (version_key bits a) (version_key bits b)) published_after).

Lemma history_order_weak bits : weak_order (history_order bits).
Proof.
  apply lexicographic_weak; [|apply lexicographic_weak].
  - split; [intros x y|intros x y z]; repeat destruct (stable_release _); cbn; intuition congruence.
  - split; [intros x y|intros x y z]; eapply parts_newer_order; exact (0, 0, 0).
  - unfold published_after. split; [intros x y|intros x y z];
      repeat destruct (hr_PublishedAt _); rewrite ?Z.ltb_lt, ?Z.ltb_ge; intuition (congruence || lia).
Qed.

(** The versions of a list of releases: readable, and equal numbers written
    alike. *)
Definition versions_ok (bits : Z) (l : list UpdateHistoryRelease) : Prop :=
  (forall a, a ∈ l -> hr_Version a <> "" -> is_Some (versionParts bits (hr_Version a))) /\
  (forall a b, a ∈ l -> b ∈ l -> versionParts bits (hr_Version a) = versionParts bits (hr_Version b) ->
     hr_Version a <> "" -> hr_Version b <> "" -> hr_Version a = hr_Version b).

Lemma history_less_order bits l a b :
  versions_ok bits l -> a ∈ l -> b ∈ l -> history_less bits a b = history_order bits a b.
Proof.
  intros [Hread Hsame] Ha Hb. unfold history_less, history_order, lexicographic. cbv zeta.
  change (match hr_PublishedAt a with Some _ => _ | None => _ end) with (published_after a b).
  unfold version_key. destruct (stable_release a) eqn:Hsa, (stable_release b) eqn:Hsb; try done.
  cbn [Bool.eqb negb andb orb]. unfold stable_release in Hsa, Hsb.
  apply andb_true_iff in Hsa as [Hva%negb_true_iff%bool_decide_eq_false _].
  apply andb_true_iff in Hsb as [Hvb%negb_true_iff%bool_decide_eq_false _].
  destruct (Hread a Ha Hva) as [pa Hpa], (Hread b Hb Hvb) as [pb Hpb].
  unfold newerVersion. rewrite Hpa, Hpb. cbn [mbind option_bind].
  change (default (0, 0, 0) (Some pa)) with pa. change (default (0, 0, 0) (Some pb)) with pb.
  change (default false (Some (parts_newer pa pb))) with (parts_newer pa pb).
  case_bool_decide as Heq; cbn [negb].
  - rewrite Heq, Hpb in Hpa. injection Hpa as ->. by rewrite (proj1 (parts_newer_order pa pa pa)).
  - destruct (parts_newer_order pa pb pa) as (_ & Hasym & _ & Htotal).
    destruct (parts_newer pa pb) eqn:Hn; [done|]. destruct (parts_newer pb pa) eqn:Hn'; [done|].
    exfalso. apply Heq, Hsame; try done. rewrite Hpa, Hpb. f_equal. by apply Htotal.
Qed.

Lemma history_sorted `{SS : SliceStable, !StableLaws SS} bits l :
  versions_ok bits l -> Sorted (fun x y => history_less bits y x = false) (slice_stable (history_less bits) l).
Proof.
  intros Hok. apply stable_sorted; intros *.
  - intros Hx Hy. rewrite !(history_less_order bits l) by done. apply history_order_weak.
  - intros Hx Hy Hz. rewrite !(history_less_order bits l) by done. apply history_order_weak.
Qed.

Lemma Sorted_impl_in {A} (R R' : A -> A -> Prop) l :
  (forall x y, x ∈ l -> y ∈ l -> R x y -> R' x y) -> Sorted R l -> Sorted R' l.
Proof.
  intros Himpl Hs. induction Hs as [|x l Hs IH Hd]; constructor.
  - apply IH. intros y z Hy Hz. apply Himpl; by right.
  - destruct Hd as [|y l Hxy]; constructor. apply Himpl; [by left|right; by left|done].
Qed.

(** C27. The history of releases is complete or an error.  It is returned
    exactly when pages 1 to n, at most 32, were answered with 200, each within
    2 MiB and all within 8 MiB, each with a list of at most 100 releases and a
    sound Link header, page n being the first that announces no further one;
    it then holds every published tag of these pages once, with the data of a
    release of that tag, and nothing else.  When equal versions are written
    alike, stable releases come first, the newest version first, and the others
    by their date. *)
Theorem fetchReleaseHistory_complete `{ReleaseCodec, SS : SliceStable, !StableLaws SS}
    repository bits base get l :
  (fetchReleaseHistory repository bits base get = Ok l <->
   exists batches, good_pages base get 1 batches /\ (length batches <= 32)%nat /\
     sum_sizes batches <= maxHistoryBytes /\
     l = slice_stable (history_less bits) (after_pages repository bits ([], ∅) batches).1) /\
  (forall batches, l = slice_stable (history_less bits) (after_pages repository bits ([], ∅) batches).1 ->
   NoDup (hr_Tag <$> l) /\
   (forall e, e ∈ l -> exists r, r ∈ mjoin batches.*1 /\ published r /\ e = history_entry repository bits r) /\
   (forall r, r ∈ mjoin batches.*1 -> published r -> gr_TagName r ∈ hr_Tag <$> l) /\
   ((forall a b, a ∈ l -> b ∈ l -> hr_Version a <> "" -> hr_Version b <> "" ->
       versionParts bits (hr_Version a) = versionParts bits (hr_Version b) -> hr_Version a = hr_Version b) ->
    Sorted (fun x y => history_order bits y x = false) l)).
Proof.
  split; [unfold fetchReleaseHistory; apply history_pages_spec|].
  intros batches ->. unfold after_pages.
  pose proof (add_release_fold repository bits (mjoin batches.*1)) as Hfold.
  destruct (foldl _ _ _) as [out seen]. destruct Hfold as (Hnd & _ & Hfrom & Hall). cbn [fst].
  pose proof (stable_permutation (history_less bits) out) as Hperm.
  split_and!.
  - by rewrite Hperm.
  - intros e He. rewrite Hperm in He. by apply Hfrom.
  - intros r Hr Hp. rewrite Hperm. by apply Hall.
  - intros Hsame. assert (Hok : versions_ok bits out).
    { split.
      - intros a (r & _ & _ & ->)%Hfrom. apply entry_version.
      - intros a b Ha Hb Heq Hna Hnb. apply Hsame; rewrite ?Hperm; done. }
    eapply Sorted_impl_in; [|by apply history_sorted]. intros x y Hx Hy.
    rewrite Hperm in Hx, Hy. by rewrite (history_less_order bits out).
Qed.

(** ** Lemmas: the package *)

Lemma fold_option_seen {A B} (P : list B -> A -> Prop) (f : A -> B -> option A) l a a' :
  (forall seen x a a', P seen a -> f a x = Some a' -> P (seen ++ [x]) a') ->
  P [] a -> fold_option f a l = Some a' -> P l a'.
Proof.
  intros Hstep. assert (Hgen : forall seen a, P seen a -> fold_option f a l = Some a' -> P (seen ++ l) a').
  { induction l as [|x l IH]; intros seen a0 Ha; cbn [fold_option].
    - intros [= <-]. by rewrite app_nil_r.
    - intros Hf. destruct (f a0 x) as [a1|] eqn:Hx; [|done]. cbn in Hf.
      specialize (IH (seen ++ [x]) a1 (Hstep _ _ _ _ Ha Hx) Hf). by rewrite <- app_assoc in IH. }
  apply (Hgen [] a).
Qed.

Lemma length_bytes_of s : length (bytes_of s) = String.length s.
Proof. unfold bytes_of. induction s as [|c s IH]; [done|]. cbn. by rewrite IH. Qed.

Lemma length_string_of l : String.length (string_of l) = length l.
Proof. unfold string_of. induction l as [|c l IH]; [done|]. cbn. by rewrite IH. Qed.

Lemma length_append a b : String.length (a +:+ b) = (String.length a + String.length b)%nat.
Proof. induction a as [|c a IH]; [done|]. change (S (String.length (a +:+ b)) = S (String.length a + String.length b)). by rewrite IH. Qed.

Definition has_entry (entries : list entry) (name : string) (P : entry -> Prop) : Prop :=
  exists e, e ∈ entries /\ TrimPrefix (en_Name e) "./" = name /\ P e.

(** What the architecture of the device means for the program's ELF header. *)
Definition elf_for (architecture : string) (header : list ascii) : Prop :=
  elf_byte header <$> [0; 1; 2; 3]%nat = [127; 69; 76; 70] /\ elf_byte header 5 = 1 /\
  ((architecture = "mipsel-3.4" /\ elf_byte header 4 = 1 /\ elf_byte header 18 = 8) \/
   (architecture = "aarch64-3.10" /\ elf_byte header 4 = 2 /\ elf_byte header 18 = 183)) /\
  elf_byte header 19 = 0.

Lemma validateELF_spec header architecture :
  validateELFArchitecture header architecture = true <->
  (20 <= length header)%nat /\ elf_for architecture header.
Proof.
  unfold validateELFArchitecture, elf_for.
  destruct (Nat.ltb_spec (length header) 20); cbn [orb]; [split; [done|lia]|].
  case_bool_decide as Hmagic; cbn [negb orb]; [|split; [done|tauto]].
  destruct (Z.eqb_spec (elf_byte header 5) 1) as [H5|H5]; cbn [negb]; [|split; [done|tauto]].
  cbv zeta. destruct (bool_decide_reflect (architecture = "mipsel-3.4")) as [->|Hm];
    [|destruct (bool_decide_reflect (architecture = "aarch64-3.10")) as [->|Ha]];
    rewrite ?andb_true_iff, ?Z.eqb_eq; [intuition congruence..|]. split; [done|tauto].
Qed.

Section Package.
Context `{Archives} (version architecture : string).

(** The three parts a package must have. *)
Definition control_part (e : entry) : Prop :=
  exists entries ends, untar (en_Data e) (en_Complete e) = Some (entries, ends) /\
    has_entry entries "control" (fun c =>
      let fields := parsePackageControl (read_upto (2 ^ 16) (en_Data c)) in
      control_field fields "Package" = "vless-manager" /\ control_field fields "Version" = version /\
      control_field fields "Architecture" = architecture).

Definition manager_part (e : entry) : Prop :=
  exists entries ends, untar (en_Data e) (en_Complete e) = Some (entries, ends) /\
    has_entry entries "opt/bin/vless-manager" (fun b =>
      (20 <= String.length (en_Data b))%nat /\ elf_for architecture (take 20 (bytes_of (en_Data b)))).

Lemma control_entries_sound entries ends :
  control_entries version architecture entries ends = Some true ->
  has_entry entries "control" (fun c =>
    let fields := parsePackageControl (read_upto (2 ^ 16) (en_Data c)) in
    control_field fields "Package" = "vless-manager" /\ control_field fields "Version" = version /\
    control_field fields "Architecture" = architecture).
Proof.
  induction entries as [|e entries IH]; cbn [control_entries]; [by destruct ends|].
  destruct (bool_decide_reflect (TrimPrefix (en_Name e) "./" = "control")) as [Hn|Hn]; cbn [negb].
  - unfold read_limit. destruct (_ || _); [|done]. cbn [mbind option_bind]. cbv zeta.
    destruct (_ || _ || _) eqn:Hf; [done|]. intros _.
    apply orb_false_iff in Hf as [[Hp Hv]%orb_false_iff Ha].
    apply negb_false_iff, bool_decide_eq_true in Hp, Hv, Ha. exists e. split_and!; [left|done..].
  - intros (c & Hc & ?)%IH. exists c. split; [by right|done].
Qed.

Lemma data_entries_sound entries ends :
  data_entries architecture entries ends = Some true ->
  has_entry entries "opt/bin/vless-manager" (fun b =>
    (20 <= String.length (en_Data b))%nat /\ elf_for architecture (take 20 (bytes_of (en_Data b)))).
Proof.
  induction entries as [|e entries IH]; cbn [data_entries]; [by destruct ends|].
  destruct (bool_decide_reflect (TrimPrefix (en_Name e) "./" = "opt/bin/vless-manager")) as [Hn|Hn]; cbn [negb].
  - cbv zeta. destruct (length (take 20 _) <? 20)%nat eqn:Hl; [done|].
    destruct (validateELFArchitecture _ _) eqn:He; [|done]. intros _.
    apply validateELF_spec in He as [Hlen Helf]. rewrite length_take, length_bytes_of in Hlen.
    exists e. split_and!; [left|done|lia|done].
  - intros (c & Hc & ?)%IH. exists c. split; [by right|done].
Qed.

(** A package that is accepted has the format, the metadata of the release and
    the device, and a program for its processor. *)
Lemma validateIPK_sound content :
  validateIPK content version architecture = true ->
  exists entries, untar content true = Some (entries, true) /\
    has_entry entries "debian-binary" (fun e => read_upto 16 (en_Data e) = "2.0" +:+ String newline "") /\
    has_entry entries "control.tar.gz" control_part /\
    has_entry entries "data.tar.gz" manager_part.
Proof.
  unfold validateIPK. destruct (untar content true) as [[entries ends]|]; [|done].
  destruct (fold_option _ _ _) as [f|] eqn:Hfold; [|done].
  intros [[[-> Hd]%andb_true_iff Hc]%andb_true_iff Hm]%andb_true_iff. exists entries. split; [done|].
  pose (P := fun (entries : list entry) (f : ipk_flags) =>
    (fl_debian f = true -> has_entry entries "debian-binary"
       (fun e => read_upto 16 (en_Data e) = "2.0" +:+ String newline "")) /\
    (fl_control f = true -> has_entry entries "control.tar.gz" control_part) /\
    (fl_manager f = true -> has_entry entries "data.tar.gz" manager_part)).
  enough (HP : P entries f) by (destruct HP as (H1 & H2 & H3); auto).
  assert (Hmore : forall seen x name Q, has_entry seen name Q -> has_entry (seen ++ [x]) name Q).
  { intros seen x name Q (e & He & ?). exists e. split; [apply elem_of_snoc; by left|done]. }
  assert (Hlast : forall seen x name (Q : entry -> Prop), TrimPrefix (en_Name x) "./" = name -> Q x ->
    has_entry (seen ++ [x]) name Q).
  { intros seen x name Q Hn HQ. exists x. split; [apply elem_of_snoc; by right|done]. }
  eapply (fold_option_seen P); [| |exact Hfold]; [|unfold P; by split_and!].
  intros seen x f0 f1 (H1 & H2 & H3). unfold ipk_entry. cbv zeta.
  destruct (bool_decide_reflect (TrimPrefix (en_Name x) "./" = "debian-binary")) as [Hn|_].
  { unfold read_limit. destruct (_ || _); [|done]. cbn [mbind option_bind]. intros [= <-].
    split_and!; cbn [fl_debian fl_control fl_manager]; [intros Hdata%bool_decide_eq_true; by apply Hlast|auto..]. }
  destruct (bool_decide_reflect (TrimPrefix (en_Name x) "./" = "control.tar.gz")) as [Hn|_].
  { destruct (validateIPKControl _ _ _) as [ok|] eqn:Hok; [|done]. cbn [mbind option_bind]. intros [= <-].
    split_and!; cbn [fl_debian fl_control fl_manager]; [auto| |auto]. intros ->. apply Hlast; [done|].
    unfold validateIPKControl in Hok. unfold control_part.
    destruct (untar _ _) as [[inner iends]|]; [|done]. exists inner, iends. split; [done|].
    by eapply control_entries_sound. }
  destruct (bool_decide_reflect (TrimPrefix (en_Name x) "./" = "data.tar.gz")) as [Hn|_].
  { destruct (validateIPKData _ _) as [ok|] eqn:Hok; [|done]. cbn [mbind option_bind]. intros [= <-].
    split_and!; cbn [fl_debian fl_control fl_manager]; [auto..|]. intros ->. apply Hlast; [done|].
    unfold validateIPKData in Hok. unfold manager_part.
    destruct (untar _ _) as [[inner iends]|]; [|done]. exists inner, iends. split; [done|].
    by eapply data_entries_sound. }
  intros [= <-]. split_and!; auto.
Qed.

(** What a download leaves behind: the verified package, or nothing new. *)
Definition verified (c : client) (pkg checksum : githubAsset) (content : string) : Prop :=
  (exists link complete, c (ga_URL pkg) = Reply 200 link content complete) /\
  len content <= maxUpdateBytes /\
  (exists expected, fetchChecksum c (ga_URL checksum) = Ok expected /\
     EqualFold (sha256_hex content) expected = true) /\
  validateIPK content version architecture = true.

Lemma read_upto_len n s : 0 <= n -> len (read_upto n s) <= n.
Proof.
  intros Hn. unfold read_upto. destruct (Z.leb_spec (len s) n); [done|]. unfold len.
  rewrite length_string_of, length_take. lia.
Qed.

Lemma read_upto_all n s : len (read_upto n s) < n -> read_upto n s = s.
Proof.
  unfold read_upto. destruct (Z.leb_spec (len s) n) as [|Hlt]; [done|]. unfold len in *.
  rewrite length_string_of, length_take, length_bytes_of. lia.
Qed.

Lemma download_spec c ops pieces pkg checksum destination fs :
  let '(r, fs', reports) :=
    downloadVerifiedPackage c ops pieces pkg checksum version architecture destination fs in
  match r with
  | Ok _ => exists content, verified c pkg checksum content /\
      fs' = <[destination := content]> (delete (destination +:+ ".part") fs)
  | Err _ => (forall path, path <> destination -> path <> destination +:+ ".part" -> fs' !! path = fs !! path) /\
      (fs' !! destination = fs !! destination \/ fs' !! destination = None)
  end.
Proof.
  assert (Hne : destination +:+ ".part" <> destination).
  { intros Heq. apply (f_equal String.length) in Heq. rewrite length_append in Heq. cbn in Heq. lia. }
  assert (Hdel : (forall path, path <> destination -> path <> destination +:+ ".part" ->
      delete (destination +:+ ".part") fs !! path = fs !! path) /\
    (delete (destination +:+ ".part") fs !! destination = fs !! destination \/
     delete (destination +:+ ".part") fs !! destination = None)).
  { split; [|left]; [intros path _ Hp; by rewrite lookup_delete_ne|by rewrite lookup_delete_ne]. }
  unfold downloadVerifiedPackage. cbv zeta.
  destruct (fetchChecksum c (ga_URL checksum)) as [expected|e] eqn:Hsum; [|by split; [|left]].
  destruct (c (ga_URL pkg)) as [|status link body complete] eqn:Hreply; [by split; [|left]|].
  destruct (Z.eqb_spec status 200) as [->|]; cbn [negb]; [|by split; [|left]].
  destruct (fo_create ops); cbn [negb]; [|done].
  destruct (fo_write ops && _); cbn [negb]; [|done]. destruct (fo_close ops); cbn [negb]; [|done].
  destruct (Z.ltb_spec maxUpdateBytes (len (read_upto (maxUpdateBytes + 1) body))) as [|Hsize]; [done|].
  assert (Hbody : read_upto (maxUpdateBytes + 1) body = body) by (apply read_upto_all; lia).
  rewrite Hbody in *.
  destruct (EqualFold _ _) eqn:Hsha; cbn [negb]; [|done].
  destruct (validateIPK body version architecture) eqn:Hipk; cbn [negb]; [|done].
  destruct (fo_rename ops).
  - exists body. split; [|done]. split_and!; [by exists link, complete|done|by exists expected|done].
  - split.
    + intros path Hp Hp'. by rewrite lookup_insert_ne, lookup_delete_ne, lookup_delete_ne.
    + right. rewrite lookup_insert_ne by done. apply lookup_delete_eq.
Qed.

End Package.

(** ** Witnesses *)

Definition plain_release : githubRelease :=
  mkRelease "v2.0.0" "https://github.com/r/releases/tag/v2.0.0" "" "" None false false
    [mkAsset "vless-manager_2.0.0_aarch64-3.10.ipk" "pkg" 10;
     mkAsset "vless-manager_2.0.0_aarch64-3.10.ipk.sha256" "sum" 64].

Definition plain_release_codec : ReleaseCodec := {|
  parse_release_url := fun s => Some (mkReleaseURL "https" "github.com" "GitHub.com" false s (fun k =>
    if bool_decide (k = "page") then "2" else "100") s);
  decode_releases := fun s => Some (if bool_decide (s = "first") then repeat plain_release 100 else []);
  decode_release := fun _ => Some plain_release
|}.

(** A stable insertion sort meets the law of [sort.SliceStable]. *)
Definition insertion_sort : SliceStable := fun less => foldr (insert_by less) [].

Lemma insertion_sort_perm less l : insertion_sort less l ≡ₚ l.
Proof. apply sort_stable_perm. Qed.

#[export] Instance insertion_sort_laws : StableLaws insertion_sort.
Proof.
  split; [intros; apply insertion_sort_perm|]. intros less l Hasym _. unfold slice_stable.
  induction l as [|x l IH]; [constructor|]. cbn.
  assert (Hs : Sorted (fun x y => less y x = false) (insertion_sort less l)).
  { apply IH. intros y z Hy Hz. apply Hasym; by right. }
  assert (Hx : forall y, y ∈ insertion_sort less l -> less y x = true -> less x y = false).
  { intros y Hy. rewrite insertion_sort_perm in Hy. apply Hasym; [by right|by left]. }
  revert Hs Hx. fold (insertion_sort less l). generalize (insertion_sort less l). clear.
  induction l as [|y l IH]; intros Hs Hx; cbn [insert_by]; [by repeat constructor|].
  destruct (less y x) eqn:Hyx; [|constructor; [done|by constructor]].
  inversion_clear Hs as [|? ? Hs' Hd]. constructor.
  - apply IH; [done|]. intros z Hz. apply Hx. by right.
  - destruct l as [|z l]; cbn [insert_by]; [constructor; apply Hx; [by left|done]|].
    destruct (less z x); constructor; [by inversion_clear Hd|apply Hx; [by left|done]].
Qed.

(** Two pages; the first one is full and has no Link header. *)
Definition plain_pages (page : Z) : reply := Reply 200 "" (if page =? 1 then "first" else "rest") true.
Definition plain_base : release_url := mkReleaseURL "https" "github.com" "github.com" false "" (fun _ => "") "".

Lemma fetchReleaseHistory_complete_witness : exists l,
  @fetchReleaseHistory plain_release_codec insertion_sort "owner/name" 64 plain_base plain_pages = Ok l /\
  hr_Tag <$> l = ["v2.0.0"] /\
  exists batches, @good_pages plain_release_codec plain_base plain_pages 1 batches /\ (length batches <= 32)%nat.
Proof.
  eexists. split; [vm_compute; reflexivity|]. split; [vm_compute; reflexivity|].
  destruct (@fetchReleaseHistory_complete plain_release_codec insertion_sort insertion_sort_laws
    "owner/name" 64 plain_base plain_pages (default [] (match
      @fetchReleaseHistory plain_release_codec insertion_sort "owner/name" 64 plain_base plain_pages
      with Ok l => Some l | Err _ => None end))) as [[H _] _].
  destruct H as (batches & Hg & Hlen & _); [vm_compute; reflexivity|]. eauto.
Defined.
