(* ===== verification/Updater.v ===== *)
(** * The updater: its status, the checks, the installation ([update.go])

    The status the interface shows is one record that a check and an
    installation change in turn, guarded by [busy]; each operation here is one
    critical section or, for a check and an installation, their sequence with
    what the rest of the program does in between.  The text of an error, the
    clock and the speed of a download (floating point) are parameters. *)

From Stdlib Require Import Ascii.
From S2P Require Import Prelude GoStrings Settings Servers Config Release.

#[local] Open Scope Z_scope.

(** ** State *)

Record UpdateStatus := mkUpdateStatus {
  us_CurrentVersion : string;
  us_LatestVersion : string;
  us_TargetVersion : string;
  us_Available : bool;
  us_State : string;
  us_Message : string;
  us_Progress : Z;
  us_DownloadedBytes : Z;
  us_TotalBytes : Z;
  us_BytesPerSecond : Z;
  us_Transport : string;
  us_CheckedAt : option Time;
  us_StartedAt : option Time;
  us_UpdatedAt : option Time;
  us_ReleaseURL : string;
  us_Error : string;
  us_CheckAttemptedAt : option Time;
  us_CheckError : string
}.
#[export] Instance UpdateStatus_eta : Eta UpdateStatus := fun s =>
  mkUpdateStatus (us_CurrentVersion s) (us_LatestVersion s) (us_TargetVersion s) (us_Available s)
    (us_State s) (us_Message s) (us_Progress s) (us_DownloadedBytes s) (us_TotalBytes s)
    (us_BytesPerSecond s) (us_Transport s) (us_CheckedAt s) (us_StartedAt s) (us_UpdatedAt s)
    (us_ReleaseURL s) (us_Error s) (us_CheckAttemptedAt s) (us_CheckError s).

Definition zeroStatus : UpdateStatus :=
  mkUpdateStatus "" "" "" false "" "" 0 0 0 0 "" None None None "" "" None "".

Record UpdateHistoryStatus := mkHistoryStatus {
  hs_Releases : list UpdateHistoryRelease;
  hs_Complete : bool;
  hs_Busy : bool;
  hs_CheckedAt : option Time;
  hs_Transport : string;
  hs_Error : string
}.
#[export] Instance UpdateHistoryStatus_eta : Eta UpdateHistoryStatus := fun s =>
  mkHistoryStatus (hs_Releases s) (hs_Complete s) (hs_Busy s) (hs_CheckedAt s) (hs_Transport s) (hs_Error s).

(** [au_file] is what the file of [persist] decodes to. *)
Record appUpdater := mkUpdater {
  au_busy : bool;
  au_status : UpdateStatus;
  au_history : UpdateHistoryStatus;
  au_file : option UpdateStatus
}.
#[export] Instance appUpdater_eta : Eta appUpdater := fun u =>
  mkUpdater (au_busy u) (au_status u) (au_history u) (au_file u).

Definition updateInitialCheckDelay : Duration := 15 * Second.
Definition updateAutoCheckInterval : Duration := Hour.

Definition updateStateMessage (state : string) : string :=
  if bool_decide (state = "checking") then "Проверяем последний релиз"
  else if bool_decide (state = "checksum") then "Получаем контрольную сумму"
  else if bool_decide (state = "downloading") then "Скачиваем обновление"
  else if bool_decide (state = "verifying") then "Проверяем целостность и архитектуру"
  else if bool_decide (state = "preparing") then "Подготавливаем установку"
  else if bool_decide (state = "restarting") then "Перезапускаем сервис"
  else "".

(** No bytes and no message: what a finished check shows. *)
Definition idle_fields (s : UpdateStatus) : UpdateStatus :=
  s <| us_Message := "" |> <| us_Progress := 0 |> <| us_DownloadedBytes := 0 |>
    <| us_TotalBytes := 0 |> <| us_BytesPerSecond := 0 |> <| us_StartedAt := None |>
    <| us_Error := "" |>.

(** ** The script that installs *)

(** [strings.ReplaceAll] of one byte. *)
Fixpoint replace_byte (old : ascii) (new : string) (s : string) : string :=
  match s with
  | EmptyString => EmptyString
  | String c r => if Ascii.eqb c old then new +:+ replace_byte old new r else String c (replace_byte old new r)
  end.

Definition apostrophe : ascii := ascii_of_nat 39.
Definition quoted_apostrophe : string :=
  string_of [apostrophe; quote; apostrophe; quote; apostrophe].

Definition shellQuote (value : string) : string :=
  String apostrophe (replace_byte apostrophe quoted_apostrophe value +:+ String apostrophe "").

Definition update_script (updatePath : string) : string :=
  Join ["#!/bin/sh"; "sleep 2"; "PKG=" +:+ shellQuote updatePath;
        "INIT=" +:+ shellQuote "/opt/etc/init.d/S99vless-manager"; "OPKG=" +:+ shellQuote "/opt/bin/opkg";
        "LOG=" +:+ shellQuote "/tmp/vless-manager-update.log";
        "echo " +:+ String quote ("[$(date '+%Y-%m-%d %H:%M:%S')] installing $PKG via opkg" +:+
          String quote (" >>" +:+ String quote ("$LOG" +:+ String quote "")));
        "if " +:+ String quote ("$OPKG" +:+ String quote (" install --force-reinstall " +:+
          String quote ("$PKG" +:+ String quote (" >>" +:+ String quote ("$LOG" +:+ String quote " 2>&1; then")))));
        "  sleep 4";
        "  if " +:+ String quote ("$INIT" +:+ String quote (" status >>" +:+
          String quote ("$LOG" +:+ String quote " 2>&1; then")));
        "    rm -f " +:+ String quote ("$PKG" +:+ String quote (" " +:+ String quote ("$0" +:+ String quote "")));
        "    exit 0"; "  fi"; "fi";
        String quote ("$INIT" +:+ String quote (" start >>" +:+ String quote ("$LOG" +:+ String quote " 2>&1")));
        "rm -f " +:+ String quote ("$PKG" +:+ String quote (" " +:+ String quote ("$0" +:+ String quote "")));
        "exit 1"; ""] (String newline "").

(** The file operations of [schedulePackageUpdate]: both programs are there,
    the script and the log can be written, the shell starts. *)
Record schedule_ops := mkScheduleOps {
  so_init : bool; so_opkg : bool; so_script : bool; so_log : bool; so_start : bool; so_close : bool
}.

(** No error, and the script that was started. *)
Definition schedulePackageUpdate (ops : schedule_ops) (updatePath : string) : bool * option string :=
  if negb (so_init ops) || negb (so_opkg ops) || negb (so_script ops) || negb (so_log ops) ||
     negb (so_start ops) then (false, None)
  else (so_close ops, Some (update_script updatePath)).

Section Updater.
(** The build: the version of the program, the width of [int]; the text of an
    error. *)
Context (Version : string) (bits : Z) (error_text : update_error -> string).

Definition is_dev : bool := bool_decide (Version = "dev").

(** [newerVersion] against the running version: [None] is the error that
    stops; a development build takes everything. *)
Definition update_available (latest : string) : option bool :=
  match newerVersion bits latest Version with
  | Some newer => Some (newer || is_dev)
  | None => if is_dev then Some true else None
  end.

(** ** Critical sections *)

Definition snapshot (u : appUpdater) : UpdateStatus := au_status u <| us_CurrentVersion := Version |>.

Definition begin_ (state : string) (now : Time) (u : appUpdater) : bool * appUpdater :=
  if au_busy u || bool_decide (us_State (au_status u) = "restarting") then (false, u)
  else
    (true, u <| au_busy := true |>
             <| au_status ::= fun s => s <| us_State := state |> <| us_Message := updateStateMessage state |>
                  <| us_Progress := 2 |> <| us_DownloadedBytes := 0 |> <| us_TotalBytes := 0 |>
                  <| us_BytesPerSecond := 0 |> <| us_StartedAt := Some now |>
                  <| us_UpdatedAt := Some now |> <| us_Error := "" |> |>).

Definition finish (status : UpdateStatus) (now : Time) (u : appUpdater) : appUpdater :=
  u <| au_busy := false |>
    <| au_status := status <| us_CurrentVersion := Version |> <| us_UpdatedAt := Some now |> |>.

Definition persist (status : UpdateStatus) (saved : bool) (u : appUpdater) : appUpdater :=
  if saved then u <| au_file := Some status |> else u.

Definition failed_status (e : update_error) (transport : string) (now : Time) (s : UpdateStatus)
  : UpdateStatus :=
  let s := s <| us_CurrentVersion := Version |> <| us_CheckAttemptedAt := Some now |>
             <| us_CheckError := error_text e |> <| us_UpdatedAt := Some now |> in
  if negb (bool_decide (us_LatestVersion s = "")) && bool_decide (is_Some (us_CheckedAt s))
  then idle_fields (s <| us_State := "ready" |>)
  else
    let s := s <| us_State := "error" |> <| us_Error := error_text e |> in
    if bool_decide (transport = "") then s else s <| us_Transport := transport |>.

Definition finishCheckFailure (e : update_error) (transport : string) (now : Time) (saved : bool)
    (u : appUpdater) : appUpdater :=
  let status := failed_status e transport now (au_status u) in
  persist status saved (u <| au_busy := false |> <| au_status := status |>).

Definition updateStatus (f : UpdateStatus -> UpdateStatus) (now : Time) (u : appUpdater) : appUpdater :=
  u <| au_status ::= fun s => f s <| us_CurrentVersion := Version |> <| us_UpdatedAt := Some now |> |>.

Definition setTransport (transport : string) (now : Time) (u : appUpdater) : appUpdater :=
  updateStatus (fun s => s <| us_Transport := transport |>) now u.

(** What a stored status gives at start; [None] leaves the fresh one. *)
Definition loaded_status (status : UpdateStatus) : option UpdateStatus :=
  if bool_decide (us_LatestVersion status = "") || bool_decide (us_CheckedAt status = None) then None
  else
    available ← update_available (us_LatestVersion status);
    Some (idle_fields (status <| us_CurrentVersion := Version |> <| us_Available := available |>
                              <| us_State := "ready" |> <| us_TargetVersion := "" |>)).

Inductive status_read := StatusMissing | StatusUnreadable | StatusData (s : option UpdateStatus).

(** [load]: the file, or the legacy one when there is none; [StatusData None]
    does not decode. *)
Definition load (file legacy : status_read) : option UpdateStatus :=
  match (match file with StatusMissing => legacy | _ => file end) with
  | StatusData (Some status) => loaded_status status
  | _ => None
  end.

Definition newAppUpdater (file legacy : status_read) : appUpdater :=
  mkUpdater false (default (zeroStatus <| us_CurrentVersion := Version |> <| us_State := "idle" |>)
    (load file legacy)) (mkHistoryStatus [] false false None "" "")
    (match file with StatusData s => s | _ => None end).

Definition nextAutoCheckDelay (now : Time) (u : appUpdater) : Duration :=
  match (match us_CheckAttemptedAt (au_status u) with
         | Some t => Some t
         | None => us_CheckedAt (au_status u)
         end) with
  | None => updateInitialCheckDelay
  | Some last => Z.max updateInitialCheckDelay (last + updateAutoCheckInterval - now)
  end.

(** ** A check *)

Definition checked_status (latest : string) (available : bool) (transport : string) (at_ : Time) (url : string)
  : UpdateStatus :=
  mkUpdateStatus Version latest "" available "ready" "" 0 0 0 0 transport (Some at_) None None url ""
    (Some at_) "".

(** [fetched] is the latest release or the error, with the transport used;
    [meanwhile] what others do to the updater before the answer. *)
Definition checkUncoordinated (t0 t1 : Time) (fetched : result update_error githubRelease)
    (transport : string) (saved : bool) (meanwhile : appUpdater -> appUpdater) (u : appUpdater)
  : option (result update_error UpdateStatus) * appUpdater :=
  match begin_ "checking" t0 u with
  | (false, u) => (None, u)
  | (true, u) =>
      let u := meanwhile u in
      let fail e transport :=
        let u := finishCheckFailure e transport t1 saved u in (Some (Err e), u) in
      match fetched with
      | Err e => fail e ""
      | Ok release =>
          match normalizedVersion (gr_TagName release) with
          | None => fail (InvalidVersion (gr_TagName release)) transport
          | Some latest =>
              match update_available latest with
              | None => fail (InvalidVersion latest) transport
              | Some available =>
                  let status := checked_status latest available transport t1 (gr_HTMLURL release) in
                  (Some (Ok status), persist status saved (finish status t1 u))
              end
          end
      end
  end.

(** ** The history *)

Definition beginHistory (u : appUpdater) : bool * appUpdater :=
  if hs_Busy (au_history u) then (false, u)
  else (true, u <| au_history ::= fun h => h <| hs_Busy := true |> <| hs_Error := "" |> |>).

Definition finishHistory (fetched : result string (list UpdateHistoryRelease)) (transport : string)
    (now : Time) (u : appUpdater) : appUpdater :=
  u <| au_history ::= fun h =>
    match fetched with
    | Err e => h <| hs_Busy := false |> <| hs_Error := e |>
    | Ok releases => mkHistoryStatus releases true false (Some now) transport ""
    end |>.

Definition refreshHistory (fetched : result string (list UpdateHistoryRelease)) (transport : string)
    (now : Time) (meanwhile : appUpdater -> appUpdater) (u : appUpdater) : bool * appUpdater :=
  match beginHistory u with
  | (false, u) => (false, u)
  | (true, u) => (is_ok fetched, finishHistory fetched transport now (meanwhile u))
  end.

(** ** Installation *)

Definition failInstall (e : update_error) (now : Time) (u : appUpdater) : appUpdater :=
  let previous := snapshot u in
  finish (mkUpdateStatus Version (us_LatestVersion previous) (us_TargetVersion previous) false "error"
    "Обновление не установлено" (us_Progress previous) 0 0 0 (us_Transport previous) None
    (us_StartedAt previous) None (us_ReleaseURL previous) (error_text e) None "") now u.

Definition setInstallProgress (state message : string) (progress downloaded total speed : Z) (now : Time)
    (u : appUpdater) : appUpdater :=
  updateStatus (fun s => s <| us_State := state |> <| us_Message := message |> <| us_Progress := progress |>
    <| us_DownloadedBytes := downloaded |> <| us_TotalBytes := total |> <| us_BytesPerSecond := speed |>)
    now u.

(** The share of the download in the progress: 64-bit arithmetic, then [int]. *)
Definition download_progress (downloaded total : Z) : Z :=
  let progress := if 0 <? total
                  then swrap bits (10 + swrap bits (Z.quot (swrap 64 (downloaded * 65)) total))
                  else 10 in
  if 75 <? progress then 75 else progress.

Definition install_phase (speed : Z -> Z) (now : Time) (u : appUpdater) (r : phase_report) : appUpdater :=
  let '(p, downloaded, total) := r in
  match p with
  | PhaseChecksum => setInstallProgress "checksum" (updateStateMessage "checksum") 8 0 total 0 now u
  | PhaseDownloading =>
      setInstallProgress "downloading" (updateStateMessage "downloading") (download_progress downloaded total)
        downloaded total (speed downloaded) now u
  | PhaseVerifying =>
      setInstallProgress "verifying" (updateStateMessage "verifying") 82 downloaded total 0 now u
  | PhasePreparing =>
      setInstallProgress "preparing" (updateStateMessage "preparing") 90 downloaded total 0 now u
  end.

(** What one attempt over one transport meets: the client, the files, the
    pieces of the download. *)
Record attempt := mkAttempt { at_client : client; at_ops : file_ops; at_pieces : list Z }.

Record install_state := mkInstall {
  in_updater : appUpdater;
  in_files : gmap string string;
  in_release : option githubRelease
}.
#[export] Instance install_state_eta : Eta install_state := fun s =>
  mkInstall (in_updater s) (in_files s) (in_release s).

Context `{ReleaseCodec, Archives} (repository updatePath : string) (speed : Z -> Z) (now : Time).

(** The function an installation runs over a transport. *)
Definition install_attempt (architecture : string) (a : attempt) (s : install_state)
  : result update_error unit * install_state :=
  match fetchLatestRelease (at_client a) (githubReleaseAPIURL repository) with
  | Err e => (Err e, s <| in_release := None |>)
  | Ok release =>
      let s := s <| in_release := Some release |> in
      match normalizedVersion (gr_TagName release) with
      | None => (Err (InvalidVersion (gr_TagName release)), s)
      | Some latest =>
          match update_available latest with
          | None => (Err (InvalidVersion latest), s)
          | Some false => (Err UpToDate, s)
          | Some true =>
              let s := s <| in_updater ::= updateStatus (fun st => st <| us_LatestVersion := latest |>
                <| us_TargetVersion := latest |> <| us_Available := true |>
                <| us_ReleaseURL := gr_HTMLURL release |>) now |> in
              match releaseAssets release latest architecture with
              | Err e => (Err e, s)
              | Ok (pkg, checksum) =>
                  let '(r, fs, reports) := downloadVerifiedPackage (at_client a) (at_ops a) (at_pieces a)
                    pkg checksum latest architecture updatePath (in_files s) in
                  (r, s <| in_files := fs |>
                        <| in_updater ::= fun u => foldl (install_phase speed now) u reports |>)
              end
          end
      end
  end.

(** [withPreferredTransport]: [vpn] is [None] when the tunnel is down and
    [Some None] when no connection through it could be prepared. *)
Definition withPreferredTransport {S} (set : string -> S -> S) (vpn : option (option attempt)) (wan : attempt)
    (fn : attempt -> S -> result update_error unit * S) (s : S) : string * result update_error unit * S :=
  let over_wan s := let '(r, s) := fn wan (set "wan" s) in ("wan", r, s) in
  match vpn with
  | None => over_wan s
  | Some None => over_wan (set "vpn" s)
  | Some (Some a) =>
      match fn a (set "vpn" s) with
      | (Ok tt, s) => ("vpn", Ok tt, s)
      | (Err _, s) => over_wan s
      end
  end.

Definition set_install_transport (transport : string) (s : install_state) : install_state :=
  s <| in_updater ::= setTransport transport now |>.

(** With the script that was started, when one was. *)
Definition installStarted (goarch : string) (vpn : option (option attempt)) (wan : attempt)
    (cancelled : bool) (ops : schedule_ops) (s : install_state)
  : result update_error UpdateStatus * option string * install_state :=
  let s := s <| in_updater ::= setInstallProgress "checking" (updateStateMessage "checking") 4 0 0 0 now |> in
  let fail e script s := (Err e, script, s <| in_updater ::= failInstall e now |>) in
  match currentPackageArchitecture goarch with
  | Err e => fail e None s
  | Ok architecture =>
      let '(transport, r, s) :=
        withPreferredTransport set_install_transport vpn wan (install_attempt architecture) s in
      let remove s := s <| in_files ::= delete updatePath |> in
      match r with
      | Err e => fail e None (remove s)
      | Ok _ =>
          if cancelled then fail Cancelled None (remove s)
          else
            let '(scheduled, script) := schedulePackageUpdate ops updatePath in
            if negb scheduled then fail ScheduleFailed script (remove s)
            else
            let release := in_release s in
            let latest := default "" (r ← release; normalizedVersion (gr_TagName r)) in
            let previous := snapshot (in_updater s) in
            let status := mkUpdateStatus Version latest latest true "restarting"
              (updateStateMessage "restarting") 96 (us_DownloadedBytes previous) (us_TotalBytes previous) 0
              transport (Some now) (us_StartedAt previous) None (default "" (gr_HTMLURL <$> release)) ""
              None "" in
            (Ok status, script, s <| in_updater ::= finish status now |>)
      end
  end.

(** The goroutine of [startInstall] after [Run] returned an error. *)
Definition lateFailure (e : update_error) (u : appUpdater) : appUpdater :=
  if bool_decide (us_State (snapshot u) = "error") then u else failInstall e now u.

End Updater.

(** ** How a shell reads a quoted word

    The quoting of POSIX: between apostrophes everything stands for itself,
    between quotation marks everything but [$], the grave accent and the
    backslash does; outside, a word ends at a separator.  [None]: the shell
    would do more than read a literal word. *)

Inductive quoting := Unquoted | InApostrophes | InQuotes.

Definition code (c : ascii) : Z := Z.of_N (N_of_ascii c).
Definition separator (c : ascii) : bool := existsb (Z.eqb (code c)) [9; 10; 32].
(** [$ & ( ) * ; < > ? [ \\ ` | ~ # =] and the control characters. *)
Definition special (c : ascii) : bool :=
  (code c <? 32) || existsb (Z.eqb (code c)) [36; 38; 40; 41; 42; 59; 60; 62; 63; 91; 92; 96; 124; 126; 35; 61].

Fixpoint sh_word (q : quoting) (l word : list ascii) : option (list ascii * list ascii) :=
  match q, l with
  | Unquoted, [] => Some (word, [])
  | _, [] => None
  | Unquoted, c :: r =>
      if Ascii.eqb c apostrophe then sh_word InApostrophes r word
      else if Ascii.eqb c quote then sh_word InQuotes r word
      else if separator c then Some (word, l)
      else if special c then None
      else sh_word Unquoted r (word ++ [c])
  | InApostrophes, c :: r =>
      if Ascii.eqb c apostrophe then sh_word Unquoted r word else sh_word InApostrophes r (word ++ [c])
  | InQuotes, c :: r =>
      if Ascii.eqb c quote then sh_word Unquoted r word
      else if existsb (Z.eqb (code c)) [36; 92; 96] then None
      else sh_word InQuotes r (word ++ [c])
  end.

Lemma sh_word_body v word rest :
  sh_word InApostrophes (bytes_of (replace_byte apostrophe quoted_apostrophe v) ++ apostrophe :: rest) word =
  sh_word Unquoted rest (word ++ bytes_of v).
Proof.
  revert word. induction v as [|c v IH]; intros word.
  - cbn. by rewrite app_nil_r.
  - cbn [replace_byte]. destruct (Ascii.eqb_spec c apostrophe) as [->|Hne].
    + rewrite bytes_of_app, <- app_assoc. etransitivity; [apply (IH (word ++ [apostrophe]))|].
      by rewrite <- app_assoc.
    + change (bytes_of (String c ?s)) with (c :: bytes_of s). cbn [app sh_word].
      rewrite (proj2 (Ascii.eqb_neq c apostrophe) Hne), IH. by rewrite <- app_assoc.
Qed.

(** C35. Quoting for the shell is sound for every value: whatever bytes it
    holds, apostrophes, quotation marks, [$] or line ends, a shell reads the
    quoted value at the start of a word as exactly those bytes, and the word
    ends where the quoted text ends.  The script that installs an
    update assigns its package that way, on a line of its own. *)
Theorem shellQuote_roundtrip value rest :
  sh_word Unquoted (bytes_of (shellQuote value) ++ newline :: rest) [] = Some (bytes_of value, newline :: rest) /\
  exists before after,
    update_script value = before +:+ String newline ("PKG=" +:+ shellQuote value +:+ String newline after).
Proof.
  split.
  2: { exists ("#!/bin/sh" +:+ String newline "sleep 2"). eexists. unfold update_script. cbn [Join]. reflexivity. }
  unfold shellQuote. change (bytes_of (String apostrophe ?s)) with (apostrophe :: bytes_of s).
  rewrite bytes_of_app. cbn [app]. rewrite <- app_assoc. cbn [bytes_of app].
  etransitivity; [apply (sh_word_body value [] (newline :: rest))|]. done.
Qed.

(** ** Lemmas: assets and attempts *)

Definition github_asset `{ReleaseCodec} (a : githubAsset) : Prop :=
  exists u, parse_release_url (ga_URL a) = Some u /\ ru_Scheme u = "https" /\
    github_host (ToLower (ru_Hostname u)) = true.

Lemma validateAsset_spec `{ReleaseCodec} a :
  validateGitHubAssetURL (ga_URL a) = Ok tt -> github_asset a.
Proof.
  unfold validateGitHubAssetURL, github_asset. destruct (parse_release_url (ga_URL a)) as [u|]; [|done].
  destruct (bool_decide_reflect (ru_Scheme u = "https")); cbn [negb]; [|done].
  cbv zeta. destruct (github_host _) eqn:Hh; cbn [negb]; [|done]. intros _. eauto.
Qed.

Lemma pick_asset_spec name sum assets :
  name <> sum ->
  let '(pkg, checksum) := foldl (pick_asset name sum) (noAsset, noAsset) assets in
  (ga_URL pkg <> "" -> pkg ∈ assets /\ ga_Name pkg = name) /\
  (ga_URL checksum <> "" -> checksum ∈ assets /\ ga_Name checksum = sum).
Proof.
  intros Hne. apply (foldl_seen (fun seen acc => let '(pkg, checksum) := acc in
    (ga_URL pkg <> "" -> pkg ∈ seen /\ ga_Name pkg = name) /\
    (ga_URL checksum <> "" -> checksum ∈ seen /\ ga_Name checksum = sum))); [|done].
  intros seen a [pkg checksum] _ [Hp Hs]. unfold pick_asset. cbn [fst snd].
  destruct (bool_decide_reflect (ga_Name a = name)) as [Hn|_];
    [|destruct (bool_decide_reflect (ga_Name a = sum)) as [Hn|_]];
    (split; intros Hu; rewrite elem_of_snoc;
     first [by split; [right|] | destruct (Hp Hu); by split; [left|] | destruct (Hs Hu); by split; [left|]]).
Qed.

Lemma releaseAssets_spec `{ReleaseCodec} release version architecture pkg checksum :
  releaseAssets release version architecture = Ok (pkg, checksum) ->
  (pkg ∈ gr_Assets release /\ ga_Name pkg = packageName version architecture) /\
  (checksum ∈ gr_Assets release /\ ga_Name checksum = packageName version architecture +:+ ".sha256") /\
  0 < ga_Size pkg <= maxUpdateBytes /\ github_asset pkg /\ github_asset checksum.
Proof.
  unfold releaseAssets. cbv zeta.
  pose proof (pick_asset_spec (packageName version architecture)
    (packageName version architecture +:+ ".sha256") (gr_Assets release)) as Hpick.
  destruct (foldl _ _ _) as [p c]. destruct Hpick as [Hp Hc].
  { intros Heq. apply (f_equal String.length) in Heq. rewrite length_append in Heq. cbn in Heq. lia. }
  destruct (bool_decide_reflect (ga_URL p = "")) as [|n]; cbn [orb]; [done|].
  destruct (bool_decide_reflect (ga_URL c = "")) as [|n0]; [done|].
  destruct ((ga_Size p <=? 0) || (maxUpdateBytes <? ga_Size p)) eqn:Hsize; [done|].
  apply orb_false_iff in Hsize as [? ?].
  destruct (validateGitHubAssetURL (ga_URL p)) as [[]|] eqn:Hvp; [|done].
  destruct (validateGitHubAssetURL (ga_URL c)) as [[]|] eqn:Hvc; [|done].
  cbn [result_bind]. intros [= <- <-]. destruct (Hp n), (Hc n0).
  split_and!; auto using validateAsset_spec; lia.
Qed.

Lemma fetchLatestRelease_fit `{ReleaseCodec} c endpoint release :
  fetchLatestRelease c endpoint = Ok release -> gr_Draft release = false /\ gr_Prerelease release = false.
Proof.
  unfold fetchLatestRelease. destruct (c endpoint); [done|]. destruct (negb _); [done|].
  destruct (decode_release _) as [r|]; [|done].
  destruct (gr_Draft r) eqn:Hd, (gr_Prerelease r) eqn:Hp; cbn [orb]; try done.
  case_bool_decide; [done|]. by intros [= <-].
Qed.

Section Install.
Context (Version : string) (bits : Z) (error_text : update_error -> string).
Context `{RC : ReleaseCodec, AR : Archives} (repository updatePath : string) (speed : Z -> Z) (now : Time).

(** What an attempt that succeeds has done: the files are those before with the
    verified package of a release that is newer, made for this device. *)
Definition installed (architecture : string) (a : attempt) (s : install_state) (content latest : string)
  : Prop :=
  exists release pkg checksum,
    in_release s = Some release /\
    fetchLatestRelease (at_client a) (githubReleaseAPIURL repository) = Ok release /\
    gr_Draft release = false /\ gr_Prerelease release = false /\
    normalizedVersion (gr_TagName release) = Some latest /\
    (newerVersion bits latest Version = Some true \/ Version = "dev") /\
    pkg ∈ gr_Assets release /\ ga_Name pkg = packageName latest architecture /\
    checksum ∈ gr_Assets release /\ ga_Name checksum = packageName latest architecture +:+ ".sha256" /\
    github_asset pkg /\ github_asset checksum /\
    verified latest architecture (at_client a) pkg checksum content.

Lemma available_newer latest :
  update_available Version bits latest = Some true ->
  newerVersion bits latest Version = Some true \/ Version = "dev".
Proof.
  unfold update_available, is_dev. destruct (newerVersion bits latest Version) as [[]|]; [by left|..];
    (destruct (bool_decide_reflect (Version = "dev")); [by right|done]).
Qed.

Lemma attempt_spec architecture a s :
  let '(r, s') := install_attempt Version bits repository updatePath speed now architecture a s in
  match r with
  | Ok _ => exists content latest, installed architecture a s' content latest /\
      in_files s' !! updatePath = Some content
  | Err _ => True
  end.
Proof using Type*.
  unfold install_attempt.
  destruct (fetchLatestRelease _ _) as [release|e] eqn:Hfetch; [|done]. cbv zeta.
  destruct (normalizedVersion _) as [latest|] eqn:Hver; [|done].
  destruct (update_available Version bits latest) as [[]|] eqn:Hav; [|done..].
  destruct (releaseAssets release latest architecture) as [[pkg checksum]|e] eqn:Hassets; [|done].
  set (s1 := s <| in_release := _ |> <| in_updater ::= _ |>).
  assert (Hrel : in_release s1 = Some release) by reflexivity. clearbody s1.
  pose proof (download_spec latest architecture (at_client a) (at_ops a) (at_pieces a) pkg checksum
    updatePath (in_files s1)) as Hdl.
  destruct (downloadVerifiedPackage _ _ _ _ _ _ _ _ _) as [[r fs'] reports].
  destruct r as [[]|e]; [|done]. destruct Hdl as (content & Hv & ->).
  apply releaseAssets_spec in Hassets as ([? ?] & [? ?] & _ & ? & ?).
  destruct (fetchLatestRelease_fit _ _ _ Hfetch).
  exists content, latest. split; [|apply lookup_insert_eq].
  exists release, pkg, checksum. split; [exact Hrel|]. split_and!; try done. by apply available_newer.
Qed.

Lemma transport_spec architecture vpn wan s :
  let '(_, r, s') := withPreferredTransport (set_install_transport Version now) vpn wan
    (install_attempt Version bits repository updatePath speed now architecture) s in
  match r with
  | Ok _ => exists a content latest, (vpn = Some (Some a) \/ a = wan) /\
      installed architecture a s' content latest /\ in_files s' !! updatePath = Some content
  | Err _ => True
  end.
Proof using Type*.
  unfold withPreferredTransport. cbv zeta.
  assert (Hwan : forall s, let '(r, s') := install_attempt Version bits repository updatePath speed now
      architecture wan s in
    match r with
    | Ok _ => exists a content latest, (vpn = Some (Some a) \/ a = wan) /\
        installed architecture a s' content latest /\ in_files s' !! updatePath = Some content
    | Err _ => True
    end).
  { intros s0. pose proof (attempt_spec architecture wan s0) as Ha.
    destruct (install_attempt _ _ _ _ _ _ _ _ _) as [[[]|e] s']; [|done].
    destruct Ha as (content & latest & ? & ?). exists wan, content, latest. split; [by right|done]. }
  assert (Hover : forall s0, let '(_, r, s') :=
      (let '(r, s') := install_attempt Version bits repository updatePath speed now architecture wan
         (set_install_transport Version now "wan" s0) in ("wan", r, s')) in
    match r with
    | Ok _ => exists a content latest, (vpn = Some (Some a) \/ a = wan) /\
        installed architecture a s' content latest /\ in_files s' !! updatePath = Some content
    | Err _ => True
    end).
  { intros s0. specialize (Hwan (set_install_transport Version now "wan" s0)).
    by destruct (install_attempt _ _ _ _ _ _ _ _ _). }
  destruct vpn as [[a|]|]; [|apply Hover|apply Hover].
  pose proof (attempt_spec architecture a (set_install_transport Version now "vpn" s)) as Ha.
  destruct (install_attempt _ _ _ _ _ _ architecture a _) as [[[]|e] s']; [|apply Hover].
  destruct Ha as (content & latest & ? & ?). exists a, content, latest. split; [by left|done].
Qed.


End Install.

(** ** Checks *)

Section Checks.
Context (Version : string) (bits : Z) (error_text : update_error -> string).

(** What the last good check found. *)
Definition found (s : UpdateStatus) : string * bool * option Time * string :=
  (us_LatestVersion s, us_Available s, us_CheckedAt s, us_ReleaseURL s).

Definition has_found (s : UpdateStatus) : Prop := us_LatestVersion s <> "" /\ is_Some (us_CheckedAt s).

Lemma delay_bounds now u :
  updateInitialCheckDelay <= nextAutoCheckDelay now u /\
  (forall t, us_CheckAttemptedAt (au_status u) = Some t -> t <= now -> nextAutoCheckDelay now u <= Hour).
Proof.
  unfold nextAutoCheckDelay. split.
  - destruct (us_CheckAttemptedAt _); [lia|]. destruct (us_CheckedAt _); lia.
  - intros t -> Ht. unfold updateInitialCheckDelay, updateAutoCheckInterval, Hour, Minute, Second. lia.
Qed.

Lemma failed_status_spec e transport now s :
  let f := failed_status Version error_text e transport now s in
  us_CheckAttemptedAt f = Some now /\ us_CheckError f = error_text e /\ found f = found s /\
  (has_found s -> us_State f = "ready") /\ (~ has_found s -> us_State f = "error").
Proof.
  unfold failed_status, has_found. cbv zeta.
  set (s1 := s <| us_CurrentVersion := Version |> <| us_CheckAttemptedAt := _ |> <| us_CheckError := _ |>
    <| us_UpdatedAt := _ |>).
  assert (H1 : us_CheckAttemptedAt s1 = Some now) by reflexivity.
  assert (H2 : us_CheckError s1 = error_text e) by reflexivity.
  assert (H3 : found s1 = found s) by reflexivity.
  assert (H4 : us_LatestVersion s1 = us_LatestVersion s) by reflexivity.
  assert (H5 : us_CheckedAt s1 = us_CheckedAt s) by reflexivity.
  clearbody s1. rewrite <- H4, <- H5, <- H1, <- H2, <- H3. clear H1 H2 H3 H4 H5.
  case_bool_decide as Hl; cbn [negb andb].
  - set (s2 := if bool_decide (transport = "") then _ else _).
    assert (Hs2 : us_CheckAttemptedAt s2 = us_CheckAttemptedAt s1 /\ us_CheckError s2 = us_CheckError s1 /\
      found s2 = found s1 /\ us_State s2 = "error") by (unfold s2; case_bool_decide; split_and!; reflexivity).
    clearbody s2. destruct Hs2 as (-> & -> & -> & ->). split_and!; try done. by intros [].
  - case_bool_decide as Hc.
    + split_and!; [reflexivity..|]. intros Hn. exfalso. by apply Hn.
    + set (s2 := if bool_decide (transport = "") then _ else _).
      assert (Hs2 : us_CheckAttemptedAt s2 = us_CheckAttemptedAt s1 /\ us_CheckError s2 = us_CheckError s1 /\
        found s2 = found s1 /\ us_State s2 = "error") by (unfold s2; case_bool_decide; split_and!; reflexivity).
      clearbody s2. destruct Hs2 as (-> & -> & -> & ->). split_and!; try done. by intros [].
Qed.

(** What a check of the releases leaves behind.  It does not start while
    another operation runs or the program is about to be replaced, and then
    changes nothing.  One that succeeds shows the version found, available
    exactly when it is newer than the running one (or the build is a
    development one), and a restart reads the stored status back as it was.
    One that fails keeps what the last good check found, in memory and on disk,
    and only notes the attempt and its error; the status is an error only when
    there was no good check.  In both cases the updater is free again and the
    next automatic check comes an hour later; it never comes within fifteen
    seconds. *)
Theorem check_outcomes t0 t1 fetched transport saved meanwhile u legacy now :
  (forall v, found (au_status (meanwhile v)) = found (au_status v)) ->
  updateInitialCheckDelay <= nextAutoCheckDelay now u /\
  let '(r, u') := checkUncoordinated Version bits error_text t0 t1 fetched transport saved meanwhile u in
  (r <> None -> au_busy u' = false /\ nextAutoCheckDelay t1 u' = Hour) /\
  match r with
  | None => u' = u /\ (au_busy u = true \/ us_State (au_status u) = "restarting")
  | Some (Ok status) =>
      (exists release, fetched = Ok release /\ normalizedVersion (gr_TagName release) = Some (us_LatestVersion status)) /\
      (us_Available status = true <->
         newerVersion bits (us_LatestVersion status) Version = Some true \/ Version = "dev") /\
      us_State status = "ready" /\ found (au_status u') = found status /\
      (saved = true -> us_LatestVersion status <> "" ->
         au_status (newAppUpdater Version bits (StatusData (au_file u')) legacy) = status)
  | Some (Err e) =>
      found (au_status u') = found (au_status u) /\ us_CheckError (au_status u') = error_text e /\
      us_CheckAttemptedAt (au_status u') = Some t1 /\
      (has_found (au_status u) -> us_State (au_status u') = "ready") /\
      (~ has_found (au_status u) -> us_State (au_status u') = "error") /\
      (saved = true -> au_file u' = Some (au_status u'))
  end.
Proof.
  intros Hmean. split; [apply delay_bounds|]. unfold checkUncoordinated, begin_.
  destruct (au_busy u || _) eqn:Hbusy.
  { split; [done|]. split; [done|]. apply orb_true_iff in Hbusy as [?|?%bool_decide_eq_true]; [by left|by right]. }
  cbv zeta. set (u1 := u <| au_busy := true |> <| au_status ::= _ |>).
  assert (Hfound : found (au_status (meanwhile u1)) = found (au_status u)) by (rewrite Hmean; done).
  set (u2 := meanwhile u1) in *. clearbody u2. clear u1 Hbusy Hmean.
  assert (Hhas : has_found (au_status u2) <-> has_found (au_status u)).
  { unfold has_found, found in *. injection Hfound as -> _ -> _. done. }
  assert (Hdelay : forall v, us_CheckAttemptedAt (au_status v) = Some t1 -> nextAutoCheckDelay t1 v = Hour).
  { intros v Hv. unfold nextAutoCheckDelay. rewrite Hv.
    unfold updateInitialCheckDelay, updateAutoCheckInterval, Hour, Minute, Second. lia. }
  assert (Hfail : forall e tr, let u' := finishCheckFailure Version error_text e tr t1 saved u2 in
    (Some (Err e : result update_error UpdateStatus) <> None -> au_busy u' = false /\ nextAutoCheckDelay t1 u' = Hour) /\
    found (au_status u') = found (au_status u) /\ us_CheckError (au_status u') = error_text e /\
      us_CheckAttemptedAt (au_status u') = Some t1 /\
      (has_found (au_status u) -> us_State (au_status u') = "ready") /\
      (~ has_found (au_status u) -> us_State (au_status u') = "error") /\
      (saved = true -> au_file u' = Some (au_status u'))).
  { intros e tr. cbv zeta. pose proof (failed_status_spec e tr t1 (au_status u2)) as (Ha & He & Hf & Hr & Hn).
    unfold finishCheckFailure, persist. cbv zeta. set (f := failed_status _ _ _ _ _ _) in *. clearbody f.
    rewrite Hhas in Hr, Hn. rewrite Hfound in Hf.
    destruct saved; split_and!; try done; intros _; (split; [done|by apply Hdelay]). }
  destruct fetched as [release|e]; [|apply Hfail].
  destruct (normalizedVersion (gr_TagName release)) as [latest|] eqn:Hver; [|apply Hfail].
  destruct (update_available Version bits latest) as [available|] eqn:Hav; [|apply Hfail].
  set (status := checked_status Version latest available transport t1 (gr_HTMLURL release)).
  split_and!.
  - intros _. unfold persist. split; [by destruct saved|]. apply Hdelay. by destruct saved.
  - by exists release.
  - change (us_Available status) with available. change (us_LatestVersion status) with latest.
    unfold update_available, is_dev in Hav. destruct (newerVersion bits latest Version) as [[]|];
      destruct (bool_decide_reflect (Version = "dev")); cbn in Hav; naive_solver.
  - done.
  - unfold persist. by destruct saved.
  - intros -> Hne.
    assert (Hload : loaded_status Version bits status = Some status).
    { unfold loaded_status. change (us_LatestVersion status) with latest in *.
      change (us_CheckedAt status) with (Some t1). rewrite (bool_decide_eq_false_2 _ Hne).
      cbn [orb]. rewrite bool_decide_eq_false_2 by done. rewrite Hav. vm_compute. reflexivity. }
    change (default (zeroStatus <| us_CurrentVersion := Version |> <| us_State := "idle" |>)
      (loaded_status Version bits status) = status). by rewrite Hload.
Qed.

(** The share of the download stays between 10 and 75 as long as no more comes
    than was announced. *)
Lemma download_progress_range downloaded total :
  (bits = 32 \/ bits = 64) -> 0 <= downloaded <= total -> total <= maxUpdateBytes ->
  10 <= download_progress bits downloaded total <= 75.
Proof.
  intros Hbits Hd Ht. unfold download_progress, maxUpdateBytes in *.
  destruct (Z.ltb_spec 0 total) as [Hpos|]; [|cbn; lia].
  rewrite (swrap_id 64) by lia.
  assert (Hq : 0 <= Z.quot (downloaded * 65) total <= 65).
  { split; [apply Z.quot_pos; lia|]. apply Z.quot_le_upper_bound; lia. }
  assert (Hsmall : forall z, 0 <= z <= 100 -> swrap bits z = z).
  { intros z Hz. apply swrap_id; destruct Hbits as [-> | ->]; cbn; lia. }
  rewrite (Hsmall (Z.quot _ _)), Hsmall by lia.
  destruct (Z.ltb_spec 75 (10 + Z.quot (downloaded * 65) total)); lia.
Qed.

End Checks.

(** With more than was announced, the conversion to a 32-bit [int] wraps, and
    the progress shown is negative. *)
Theorem download_progress_wraps :
  download_progress 32 (2 ^ 26) 2 = -2113929206 /\ download_progress 64 (2 ^ 26) 2 = 75.
Proof. vm_compute. done. Qed.

Lemma begin_free state now u :
  au_busy u = false -> us_State (au_status u) <> "restarting" ->
  (begin_ state now u).1 = true /\ au_busy (begin_ state now u).2 = true /\
  us_State (au_status (begin_ state now u).2) = state.
Proof. intros Hb Hs. unfold begin_. by rewrite Hb, (bool_decide_eq_false_2 _ Hs). Qed.

Lemma begin_busy state now u : au_busy u = true -> (begin_ state now u).1 = false.
Proof. intros Hb. unfold begin_. by rewrite Hb. Qed.

Lemma failInstall_free Version error_text e now u :
  au_busy (failInstall Version error_text e now u) = false /\
  us_State (au_status (failInstall Version error_text e now u)) = "error".
Proof. by split. Qed.

Lemma snapshot_State Version u : us_State (snapshot Version u) = us_State (au_status u).
Proof. done. Qed.

(** The goroutine of an installation looks at the status only after the
    coordinator has gone on to the next operation.  When that is a check, the
    failure it reports a second time marks the updater as free while the check
    runs, and a second operation can begin. *)
Theorem late_failure_frees_updater Version error_text e t0 t1 t2 u :
  au_busy u = false -> us_State (au_status u) <> "restarting" ->
  let failed := failInstall Version error_text e t0 (begin_ "checking" t0 u).2 in
  let checking := begin_ "checking" t1 failed in
  let late := lateFailure Version error_text t1 e checking.2 in
  checking.1 = true /\ (begin_ "checking" t2 checking.2).1 = false /\ (begin_ "checking" t2 late).1 = true.
Proof.
  intros Hb Hs. cbv zeta.
  destruct (failInstall_free Version error_text e t0 (begin_ "checking" t0 u).2) as [Hf1 Hf2].
  revert Hf1 Hf2. generalize (failInstall Version error_text e t0 (begin_ "checking" t0 u).2).
  intros failed Hf1 Hf2.
  destruct (begin_free "checking" t1 failed) as (Hok & Hbusy & Hst); [done|by rewrite Hf2|].
  revert Hok Hbusy Hst. generalize (begin_ "checking" t1 failed). intros checking Hok Hbusy Hst.
  unfold lateFailure. rewrite snapshot_State, Hst, bool_decide_eq_false_2 by done.
  split_and!; [done|by apply begin_busy|].
  destruct (failInstall_free Version error_text e t1 checking.2) as [Hl1 Hl2].
  apply begin_free; [done|]. by rewrite Hl2.
Qed.

(** ** Witnesses *)

Definition elf_header : string :=
  string_of (ascii_of_nat <$> [127; 69; 76; 70; 2; 1; 0; 0; 0; 0; 0; 0; 0; 0; 0; 0; 0; 0; 183; 0]%nat).

Definition control_text : string :=
  Join ["Package: vless-manager"; "Version: 2.0.0"; "Architecture: aarch64-3.10"; " more: lines"]
    (String newline "").

Definition plain_archives : Archives := {|
  untar := fun data _ =>
    if bool_decide (data = "package") then
      Some ([mkEntry "./debian-binary" ("2.0" +:+ String newline "") true; mkEntry "./control.tar.gz" "control" true;
             mkEntry "data.tar.gz" "data" true], true)
    else if bool_decide (data = "control") then Some ([mkEntry "./control" control_text true], true)
    else if bool_decide (data = "data") then Some ([mkEntry "./opt/bin/vless-manager" elf_header false], false)
    else None;
  sha256_hex := fun _ => string_of (repeat "a"%char 64)
|}.

Definition plain_client : client := fun url =>
  if bool_decide (url = "sum") then Reply 200 "" (string_of (repeat "A"%char 64) +:+ "  name") true
  else if bool_decide (url = "pkg") then Reply 200 "" "package" true
  else Reply 200 "" "{}" true.

Definition working_files : file_ops := mkFileOps true true true true.
Definition fresh_updater : appUpdater := newAppUpdater "1.9.0" 64 StatusMissing StatusMissing.

(** The tunnel answers nothing, the uplink gives the release. *)
Definition plain_install :=
  @installStarted "1.9.0" 64 (fun _ => "failed") plain_release_codec plain_archives "owner/name" "/tmp/update.ipk"
    (fun n => n) 7 "arm64" (Some (Some (mkAttempt (fun _ => NoReply) working_files [])))
    (mkAttempt plain_client working_files [4; 7]) false (mkScheduleOps true true true true true true)
    (mkInstall fresh_updater ∅ None).


Lemma check_outcomes_witness :
  let '(r, u') := checkUncoordinated "1.9.0" 64 (fun _ => "failed") 5 7 (Ok plain_release) "wan" true
    (setTransport "1.9.0" "wan" 6) fresh_updater in
  match r with
  | Some (Ok status) => us_Available status = true /\ nextAutoCheckDelay 7 u' = Hour
  | _ => False
  end.
Proof.
  pose proof (check_outcomes "1.9.0" 64 (fun _ => "failed") 5 7 (Ok plain_release) "wan" true
    (setTransport "1.9.0" "wan" 6) fresh_updater StatusMissing 8 (fun v => eq_refl)) as [_ H].
  revert H. set (r := checkUncoordinated _ _ _ _ _ _ _ _ _ _).
  assert (Hr : exists status u', r = (Some (Ok status), u') /\ us_LatestVersion status = "2.0.0").
  { do 2 eexists. split; [vm_compute; reflexivity|reflexivity]. }
  destruct Hr as (status & u' & -> & Hv). intros [[_ Hdelay] (_ & Hav & _)]; [done|].
  split; [|exact Hdelay]. apply Hav. left. rewrite Hv. vm_compute. reflexivity.
Defined.
