(* ===== verification/Float64.v ===== *)
(** * Machine floating point: [float64]

    The standard library's executable specification of IEEE 754 at 53 bits of
    precision, with the operations the measurements use and the order
    [sort.Float64s] sorts by (NaN first). *)

From Stdlib Require Import SpecFloat.
From S2P Require Import Prelude.

#[local] Open Scope Z_scope.

Abbreviation float64 := spec_float (only parsing).

Definition zero64 : float64 := S754_zero false.

(** Rounded to the nearest, ties to even. *)
Definition of_int64 (z : Z) : float64 := binary_normalize 53 1024 z 0 false.
Definition fadd : float64 -> float64 -> float64 := SFadd 53 1024.
Definition fsub : float64 -> float64 -> float64 := SFsub 53 1024.
Definition fdiv : float64 -> float64 -> float64 := SFdiv 53 1024.
(** [x >= y]; false on NaN. *)
Definition fge (x y : float64) : bool := SFleb y x.

(** [d.Seconds()] *)
Definition Seconds (d : Duration) : float64 :=
  fadd (of_int64 (Z.quot d Second)) (fdiv (of_int64 (Z.rem d Second)) (of_int64 Second)).

Definition is_nan (x : float64) : bool := match x with S754_nan => true | _ => false end.

(** [cmp.Less] *)
Definition float_less (x y : float64) : bool :=
  SFltb x y || (is_nan x && negb (is_nan y)).

Definition float_le (x y : float64) : Prop := float_less y x = false.
#[export] Instance float_le_dec : RelDecision float_le.
Proof. intros x y. unfold float_le. apply _. Defined.

Definition Float64s (l : list float64) : list float64 := merge_sort float_le l.

(** ** The order is total *)

(** What the order looks at: the class, then exponent and mantissa. *)
Definition float_key (x : float64) : Z * Z * Z :=
  match x with
  | S754_nan => (0, 0, 0)
  | S754_infinity true => (1, 0, 0)
  | S754_finite true m e => (2, - e, - Z.pos m)
  | S754_zero _ => (3, 0, 0)
  | S754_finite false m e => (4, e, Z.pos m)
  | S754_infinity false => (5, 0, 0)
  end.

Definition key_less (a b : Z * Z * Z) : Prop :=
  let '(c, e, m) := a in
  let '(c', e', m') := b in
  c < c' \/ (c = c' /\ (e < e' \/ (e = e' /\ m < m'))).

Lemma float_less_key x y : float_less x y = true <-> key_less (float_key x) (float_key y).
Proof.
  unfold float_less, SFltb.
  destruct x as [[]|[]| |[] m e], y as [[]|[]| |[] m' e']; cbn;
    try (split; [try done; intros; lia|intros; try done; lia]);
    (destruct (Z.compare_spec e e'); [|cbn; split; [intros; lia || done|intros; lia || done]..]);
    change (Pos.compare_cont Eq m m') with (Pos.compare m m');
    destruct (Pos.compare_spec m m'); cbn; split; intros; try done; lia.
Qed.

Lemma float_le_key x y : float_le x y <-> ~ key_less (float_key y) (float_key x).
Proof. unfold float_le. rewrite <- float_less_key. by rewrite not_true_iff_false. Qed.

#[export] Instance float_le_total : Total float_le.
Proof.
  intros x y. rewrite !float_le_key. destruct (float_key x) as [[]], (float_key y) as [[]]. cbn. lia.
Qed.

#[export] Instance float_le_trans : Transitive float_le.
Proof.
  intros x y z. rewrite !float_le_key.
  destruct (float_key x) as [[]], (float_key y) as [[]], (float_key z) as [[]]. cbn. lia.
Qed.

#[export] Instance float_le_refl : Reflexive float_le.
Proof. intros x. rewrite float_le_key. destruct (float_key x) as [[]]. cbn. lia. Qed.

Lemma Float64s_perm l : Float64s l ≡ₚ l.
Proof. apply merge_sort_Permutation. Qed.

Lemma Float64s_sorted l : StronglySorted float_le (Float64s l).
Proof. apply StronglySorted_merge_sort; apply _. Qed.

(** The element at index [i] has [i] elements before it that are not larger,
    and the rest are not smaller. *)
Lemma Float64s_rank l i x :
  Float64s l !! i = Some x ->
  exists below above, l ≡ₚ below ++ x :: above /\ length below = i /\
    Forall (fun y => float_le y x) below /\ Forall (fun y => float_le x y) above.
Proof.
  intros Hi. pose proof (Float64s_sorted l) as Hs. pose proof (Float64s_perm l) as Hp.
  exists (take i (Float64s l)), (drop (S i) (Float64s l)). pose proof (take_drop_middle _ _ _ Hi) as Hm.
  assert (Hlen : length (take i (Float64s l)) = i).
  { apply length_take_le. apply lookup_lt_Some in Hi. lia. }
  split; [by rewrite Hm|]. split; [done|]. rewrite <- Hm in Hs. clear Hm Hp Hi.
  revert Hs. generalize (take i (Float64s l)) as below, (drop (S i) (Float64s l)) as above.
  intros below above. clear Hlen. induction below as [|b below IH]; cbn.
  - intros Hs. inversion_clear Hs. by split; [constructor|].
  - intros Hs. inversion_clear Hs as [|? ? Hs' Hall]. destruct (IH Hs') as [IH1 IH2].
    split; [|done]. constructor; [|done]. by apply Forall_app in Hall as [_ [? _]%Forall_cons].
Qed.
