(* ===== verification/SpeedTest.v ===== *)
(** * The speed test: [speedtest.go]

    Throughput through the tunnel: the status and its handler, the choice of a
    measuring server with its retries, latency, the two transfer phases with
    their concurrent workers, and the operation that runs it all.

    The network is an environment: each request of a worker has its outcome
    ([exchange], [transfer]), and the clock and the contexts are asked where
    the code asks them.  Parsing and printing of URLs is [SpeedURLs].  Log
    lines are not recorded. *)

From Stdlib Require Import SpecFloat Ascii.
From stdpp Require Import pretty.
From S2P Require Import Prelude GoStrings Process Operations Float64.

#[local] Open Scope Z_scope.

(** ** Errors *)

(** The errors the code tells apart with [errors.Is], the [net.Error]s with
    their [Timeout], and wrapping with [%w]. *)
Inductive go_error :=
| EOF
| UnexpectedEOF
| ClosedPipe
| NetClosed
| Canceled
| DeadlineExceeded
| OperationCancelled
| HTTPStatus (code : Z)
| OtherError (text : string) (timeout : bool)
| Wrapped (prefix : string) (e : go_error).

#[export] Instance go_error_eq_dec : EqDecision go_error.
Proof. solve_decision. Defined.

Fixpoint cause (e : go_error) : go_error :=
  match e with Wrapped _ e => cause e | _ => e end.

(** [err.Error()] *)
Fixpoint error_text (e : go_error) : string :=
  match e with
  | EOF => "EOF"
  | UnexpectedEOF => "unexpected EOF"
  | ClosedPipe => "io: read/write on closed pipe"
  | NetClosed => "use of closed network connection"
  | Canceled => "context canceled"
  | DeadlineExceeded => "context deadline exceeded"
  | OperationCancelled => "операция отменена"
  | HTTPStatus code => "HTTP " +:+ pretty code
  | OtherError text _ => text
  | Wrapped prefix e => prefix +:+ ": " +:+ error_text e
  end.

(** Fixed messages of the code. *)
Definition failure (text : string) : go_error := OtherError text false.

(** [context.DeadlineExceeded] is a [net.Error] that times out. *)
Definition speedTestRetryableError (e : go_error) : bool :=
  match cause e with
  | EOF | UnexpectedEOF | DeadlineExceeded => true
  | OtherError _ timeout => timeout
  | _ => false
  end.

Definition is_context_error (e : go_error) : bool :=
  match cause e with Canceled | DeadlineExceeded => true | _ => false end.

(** ** The status *)

Definition speedTestProviderCloudflare : string := "cloudflare".
Definition speedTestProviderSpeedtestRU : string := "speedtest-ru".
Definition speedTestDownloadBytes : Z := Z.shiftl 100 20.
Definition speedTestUploadBytes : Z := Z.shiftl 40 20.
Definition speedTestWorkers : nat := 4.

Record speedTestStatus := mkSpeed {
  sp_State : string;
  sp_Phase : string;
  sp_Message : string;
  sp_Progress : Z;
  sp_LatencyMS : float64;
  sp_JitterMS : float64;
  sp_DownloadMbps : float64;
  sp_UploadMbps : float64;
  sp_DownloadBytes : Z;
  sp_UploadBytes : Z;
  sp_TunnelBytes : Z;
  sp_TunnelVerified : bool;
  sp_Server : string;
  sp_Provider : string;
  sp_Error : string;
  sp_StartedAt : option Time;
  sp_CompletedAt : option Time
}.
#[export] Instance speedTestStatus_eta : Eta speedTestStatus := fun s =>
  mkSpeed (sp_State s) (sp_Phase s) (sp_Message s) (sp_Progress s) (sp_LatencyMS s) (sp_JitterMS s)
    (sp_DownloadMbps s) (sp_UploadMbps s) (sp_DownloadBytes s) (sp_UploadBytes s) (sp_TunnelBytes s)
    (sp_TunnelVerified s) (sp_Server s) (sp_Provider s) (sp_Error s) (sp_StartedAt s) (sp_CompletedAt s).

Definition zeroSpeed : speedTestStatus :=
  mkSpeed "" "" "" 0 zero64 zero64 zero64 zero64 0 0 0 false "" "" "" None None.

(** [newSpeedTestService] *)
Definition idle_status : speedTestStatus :=
  zeroSpeed <| sp_State := "idle" |> <| sp_Message := "Тест ещё не запускался" |>.

Record speedTestResult := mkSpeedResult {
  rs_LatencyMS : float64;
  rs_JitterMS : float64;
  rs_DownloadMbps : float64;
  rs_UploadMbps : float64;
  rs_DownloadBytes : Z;
  rs_UploadBytes : Z
}.
#[export] Instance speedTestResult_eta : Eta speedTestResult := fun r =>
  mkSpeedResult (rs_LatencyMS r) (rs_JitterMS r) (rs_DownloadMbps r) (rs_UploadMbps r)
    (rs_DownloadBytes r) (rs_UploadBytes r).
Definition zeroResult : speedTestResult := mkSpeedResult zero64 zero64 zero64 zero64 0 0.

Definition recordProgress (p s : speedTestStatus) : speedTestStatus :=
  mkSpeed "running" (sp_Phase p) (sp_Message p) (sp_Progress p) (sp_LatencyMS p) (sp_JitterMS p)
    (sp_DownloadMbps p) (sp_UploadMbps p) (sp_DownloadBytes p) (sp_UploadBytes p) (sp_TunnelBytes s)
    (sp_TunnelVerified s) (sp_Server s) (sp_Provider s) (sp_Error s) (sp_StartedAt s) (sp_CompletedAt s).

Definition speedTestBusy (state : string) : bool :=
  bool_decide (state = "queued") || bool_decide (state = "running") || bool_decide (state = "cancelling").

Definition validSpeedTestProvider (provider : string) : bool :=
  bool_decide (provider = speedTestProviderCloudflare) || bool_decide (provider = speedTestProviderSpeedtestRU).

Definition speedTestProviderName (provider : string) : string :=
  if bool_decide (provider = speedTestProviderSpeedtestRU) then "Speedtest.ru" else "Cloudflare".

(** The flag: [execute] is launched. *)
Definition start (provider : string) (now : Time) (s : speedTestStatus) : bool * speedTestStatus :=
  if speedTestBusy (sp_State s) then (false, s)
  else (true, zeroSpeed <| sp_State := "queued" |> <| sp_Message := "Ожидает запуска" |>
                <| sp_Server := speedTestProviderName provider |> <| sp_Provider := provider |>
                <| sp_StartedAt := Some now |>).

Definition fail (e : go_error) (now : Time) (s : speedTestStatus) : speedTestStatus :=
  let stopped := match cause e with OperationCancelled | Canceled => true | _ => false end in
  s <| sp_State := if stopped then "cancelled" else "error" |>
    <| sp_Message := if stopped then "Тест остановлен" else "Тест не завершён" |>
    <| sp_Error := error_text e |> <| sp_CompletedAt := Some now |>.

(** The last update of [execute]. *)
Definition complete (r : speedTestResult) (tunnelBytes : Z) (verified : bool) (now : Time)
    (s : speedTestStatus) : speedTestStatus :=
  mkSpeed "complete" "complete" "Тест завершён" 100 (rs_LatencyMS r) (rs_JitterMS r)
    (rs_DownloadMbps r) (rs_UploadMbps r) (rs_DownloadBytes r) (rs_UploadBytes r) tunnelBytes verified
    (sp_Server s) (sp_Provider s) (sp_Error s) (sp_StartedAt s) (Some now).

Definition trafficDelta (after before : Z) : Z := if after <=? before then 0 else after - before.

(** [tunnelBytes] and [verified] of [execute]; the engine's counters are
    [uint64], the measured ones [int64]. *)
Definition tunnel_bytes (before after : outboundTrafficSnapshot) : Z :=
  uwrap 64 (trafficDelta (ot_VPNDownload after) (ot_VPNDownload before) +
            trafficDelta (ot_VPNUpload after) (ot_VPNUpload before)).
Definition measured_bytes (r : speedTestResult) : Z :=
  uwrap 64 (Z.max 0 (swrap 64 (rs_DownloadBytes r + rs_UploadBytes r))).
Definition tunnel_verified (stillRunning : bool) (tunnelBytes measuredBytes : Z) : bool :=
  stillRunning && (0 <? measuredBytes) && (measuredBytes / 2 <=? tunnelBytes).

(** What [POST] gets as its body. *)
Inductive start_body := NoBody | BadBody | Provider (provider : string).

(** The code and the status after [POST]; the flag: [execute] is launched. *)
Definition handleSpeedTestPost (tunnelRunning : bool) (body : start_body) (now : Time)
    (s : speedTestStatus) : Z * bool * speedTestStatus :=
  if negb tunnelRunning then (409, false, s)
  else
    match (match body with
           | NoBody => Some speedTestProviderCloudflare
           | BadBody => None
           | Provider p => Some p
           end) with
    | None => (400, false, s)
    | Some provider =>
        if negb (validSpeedTestProvider provider) then (400, false, s)
        else match start provider now s with
             | (false, s) => (409, false, s)
             | (true, s) => (202, true, s)
             end
    end.

(** The update of [DELETE] after [CancelKind] found the test. *)
Definition show_cancelling (s : speedTestStatus) : speedTestStatus :=
  s <| sp_State := "cancelling" |> <| sp_Message := "Останавливаем тест" |>.

(** ** Addresses *)

Record parsed_source := mkSource {
  so_Scheme : string;
  so_Hostname : string;
  (** [String()] with this host and with path, query and fragment emptied. *)
  so_print : string -> string
}.

Class SpeedURLs := {
  (** [url.Parse], then [Set] on the query, [Encode] and [String]. *)
  with_query : string -> list (string * string) -> option string;
  parse_source : string -> option parsed_source;
  (** [Scheme] and [Host] of what [url.Parse] gives. *)
  site_of : string -> option (string * string);
  (** [(&url.URL{Scheme, Host}).String()] *)
  print_site : string -> string -> string
}.

Definition speedTestRequestURL `{SpeedURLs} (endpoint parameter : string) (size unit : Z)
    (cacheBust : bool) (millis : Z) : string :=
  let unit := if unit <? 1 then 1 else unit in
  let query :=
    (if bool_decide (parameter = "") then []
     else [(parameter, pretty (Z.quot (swrap 64 (size + unit - 1)) unit))]) ++
    (if cacheBust then [("r", pretty millis)] else []) in
  default endpoint (with_query endpoint query).

(** [net.JoinHostPort] *)
Definition JoinHostPort (host port : string) : string :=
  if IndexByte host char_colon is Some _ then "[" +:+ host +:+ "]:" +:+ port else host +:+ ":" +:+ port.

Definition speedTestRUBaseURL `{SpeedURLs} (source : string) (port : Z) : option string :=
  match parse_source source with
  | Some u =>
      if bool_decide (so_Scheme u = "") || bool_decide (so_Hostname u = "") || (port <? 1) || (65535 <? port)
      then None else Some (so_print u (JoinHostPort (so_Hostname u) (pretty port)))
  | None => None
  end.

(** ** The parameters of a test *)

(** [cf_Client]: a client is present; [cf_workerClients] counts the prepared
    ones.  The headers are those of the token. *)
Record speedTestConfig := mkSpeedConfig {
  cf_Server : string;
  cf_LatencyURL : string;
  cf_DownloadURL : string;
  cf_UploadURL : string;
  cf_DownloadSize : Z;
  cf_UploadSize : Z;
  cf_Workers : nat;
  cf_Client : bool;
  cf_Headers : list (string * string);
  cf_LatencyParam : string;
  cf_DownloadParam : string;
  cf_UploadParam : string;
  cf_DownloadUnit : Z;
  cf_UploadUnit : Z;
  cf_CacheBust : bool;
  cf_PhaseLimit : Duration;
  cf_workerClients : nat;
  cf_sampleEnd : Time
}.
#[export] Instance speedTestConfig_eta : Eta speedTestConfig := fun c =>
  mkSpeedConfig (cf_Server c) (cf_LatencyURL c) (cf_DownloadURL c) (cf_UploadURL c) (cf_DownloadSize c)
    (cf_UploadSize c) (cf_Workers c) (cf_Client c) (cf_Headers c) (cf_LatencyParam c) (cf_DownloadParam c)
    (cf_UploadParam c) (cf_DownloadUnit c) (cf_UploadUnit c) (cf_CacheBust c) (cf_PhaseLimit c)
    (cf_workerClients c) (cf_sampleEnd c).

Definition cloudflareSpeedTestConfig : speedTestConfig :=
  mkSpeedConfig "Cloudflare" "https://speed.cloudflare.com/__down" "https://speed.cloudflare.com/__down"
    "https://speed.cloudflare.com/__up" speedTestDownloadBytes speedTestUploadBytes speedTestWorkers true []
    "bytes" "bytes" "bytes" 1 1 false 0 0 zero_time.

Record nearest_server := mkNearest {
  ns_Source : string;
  ns_Port : Z;
  ns_Name : string;
  ns_City : string;
  ns_Owner : string
}.

Record speedTestRUServer := mkRUServer {
  ru_BaseURL : string;
  ru_Name : string;
  ru_City : string;
  ru_Owner : string
}.

(** The first six servers with a usable address that is not excluded. *)
Fixpoint ru_candidates `{SpeedURLs} (excluded : gset string) (items : list nearest_server)
    (found : list speedTestRUServer) : list speedTestRUServer :=
  match items with
  | [] => found
  | item :: items =>
      match speedTestRUBaseURL (ns_Source item) (ns_Port item) with
      | Some base =>
          if bool_decide (base ∈ excluded) then ru_candidates excluded items found
          else
            let found := found ++ [mkRUServer base (ns_Name item) (ns_City item) (ns_Owner item)] in
            if (length found =? 6)%nat then found else ru_candidates excluded items found
      | None => ru_candidates excluded items found
      end
  end.

(** A probe of one candidate, as it comes out of the channel. *)
Record ru_probe := mkRUProbe { rp_server : speedTestRUServer; rp_latency : Duration; rp_err : option go_error }.

Definition faster (best : option ru_probe) (probe : ru_probe) : option ru_probe :=
  match rp_err probe, best with
  | Some _, _ => best
  | None, None => Some probe
  | None, Some b => if rp_latency probe <? rp_latency b then Some probe else best
  end.

(** [results]: the probes in the order of arrival. *)
Definition fastestSpeedTestRUServer (results : list ru_probe) : result go_error speedTestRUServer :=
  match foldl faster None results with
  | Some best => Ok (rp_server best)
  | None => Err (failure "ни один ближайший сервер не ответил")
  end.

(** What the service of Speedtest.ru answered: the list, the token, and the
    probes of the candidates in the order of arrival. *)
Record ru_env := mkRUEnv {
  rv_nearest : result go_error (list nearest_server);
  rv_token : result go_error string;
  rv_probes : list speedTestRUServer -> list ru_probe
}.

Definition ru_label (server : speedTestRUServer) : string :=
  "Speedtest.ru" +:+ (if bool_decide (ru_Owner server = "") then "" else " · " +:+ ru_Owner server)
    +:+ (if bool_decide (ru_City server = "") then "" else " · " +:+ ru_City server).

Definition ru_config (server : speedTestRUServer) (token : string) : speedTestConfig :=
  mkSpeedConfig (ru_label server) (ru_BaseURL server +:+ "/ping.php") (ru_BaseURL server +:+ "/download.php")
    (ru_BaseURL server +:+ "/upload.php") 100000000 40000000 speedTestWorkers true [("jwt", token)]
    "" "ckSize" "" 1000000 0 true 0 0 zero_time.

Definition prepareSpeedTestRUConfigExcluding `{SpeedURLs} (env : ru_env) (excluded : gset string)
  : result go_error speedTestConfig :=
  match rv_nearest env with
  | Err e => Err (Wrapped "Speedtest.ru: список серверов" e)
  | Ok [] => Err (failure "Speedtest.ru не вернул доступные серверы")
  | Ok items =>
      match rv_token env with
      | Err e => Err (Wrapped "Speedtest.ru: авторизация" e)
      | Ok token =>
          if bool_decide (token = "") then Err (failure "Speedtest.ru вернул пустой токен")
          else
            match ru_candidates excluded items [] with
            | [] => Err (failure "Speedtest.ru не вернул других подходящих серверов")
            | candidates =>
                match fastestSpeedTestRUServer (rv_probes env candidates) with
                | Err e => Err (Wrapped "Speedtest.ru: проверка серверов" e)
                | Ok server => Ok (ru_config server token)
                end
            end
      end
  end.

(** ** Latency *)

(** One request whose body is read to its end: [http.NewRequest], [Do], the
    status, reading, closing. *)
Record exchange := mkExchange {
  ex_new : option go_error;
  ex_do : option go_error;
  ex_status : Z;
  ex_read : option go_error;
  ex_close : option go_error;
  ex_elapsed : Duration
}.

Definition status_ok (status : Z) : bool := (200 <=? status) && (status <? 300).

Definition first_error (l : list (option go_error)) : option go_error := head (omap id l).

Definition discarded (x : exchange) : option go_error :=
  first_error [ex_new x; ex_do x; (if status_ok (ex_status x) then None else Some (HTTPStatus (ex_status x)));
               ex_read x; ex_close x].

(** [float64(d.Microseconds()) / 1000] *)
Definition milliseconds64 (d : Duration) : float64 := fdiv (of_int64 (Z.quot d 1000)) (of_int64 1000).

(** Requests [i] to 5; the first only warms up. *)
Fixpoint latency_values (n i : nat) (exchanges : nat -> exchange) : result go_error (list float64) :=
  match n with
  | O => Ok []
  | S n =>
      match discarded (exchanges i) with
      | Some e => Err e
      | None =>
          let! values := latency_values n (S i) exchanges in
          Ok (if (0 <? i)%nat then milliseconds64 (ex_elapsed (exchanges i)) :: values else values)
      end
  end.

Definition deviation (median : float64) (values : list float64) : float64 :=
  foldl (fun acc value => fadd acc (if fge value median then fsub value median else fsub median value))
    zero64 values.

Definition measureSpeedTestLatency (exchanges : nat -> exchange) : result go_error (float64 * float64) :=
  let! values := latency_values 6 0 exchanges in
  let values := Float64s values in
  let median := default zero64 (values !! (length values / 2)%nat) in
  Ok (median, fdiv (deviation median values) (of_int64 (Z.of_nat (length values)))).

(** ** Transfers *)

(** One transfer request.  [tr_again] is the second [Do] of a download,
    [tr_ctx] tells that the context was done after the first, and [tr_counted]
    the bytes that went through the counter. *)
Record transfer := mkTransfer {
  tr_new : option go_error;
  tr_do : option go_error;
  tr_ctx : bool;
  tr_again : option go_error;
  tr_status : Z;
  tr_read : option go_error;
  tr_counted : Z
}.

Definition doSpeedTestDownloadRequest (t : transfer) : option go_error :=
  match tr_do t with
  | None => None
  | Some e => if tr_ctx t || negb (speedTestRetryableError e) then Some e else tr_again t
  end.

(** Bytes counted and bytes acknowledged. *)
Record moved := mkMoved { mv_counted : Z; mv_acked : Z }.
Definition nothing : moved := mkMoved 0 0.
Definition both (a b : moved) : moved :=
  mkMoved (mv_counted a + mv_counted b) (mv_acked a + mv_acked b).

Definition transferSpeedTestRequest (post : bool) (size : Z) (t : transfer) : option go_error * moved :=
  match tr_new t with
  | Some e => (Some e, nothing)
  | None =>
      if post then
        match first_error [tr_do t; (if status_ok (tr_status t) then None else Some (HTTPStatus (tr_status t)));
                           tr_read t] with
        | Some e => (Some e, mkMoved (tr_counted t) 0)
        | None => (None, mkMoved (tr_counted t) size)
        end
      else
        match doSpeedTestDownloadRequest t with
        | Some e => (Some e, nothing)
        | None =>
            if status_ok (tr_status t) then (tr_read t, mkMoved (tr_counted t) 0)
            else (Some (HTTPStatus (tr_status t)), nothing)
        end
  end.

(** What a worker meets: the clock before its chunks, the outcome of a try of
    a chunk, [ctx.Err()] after it, and whether the pause was interrupted. *)
Record worker_env := mkWorkerEnv {
  we_now : nat -> Time;
  we_millis : nat -> nat -> Z;
  we_transfer : nat -> nat -> transfer;
  we_ctx : nat -> nat -> option go_error;
  we_pause : nat -> nat -> option go_error
}.

(** The tries [attempt] to 3 of an uploaded chunk; [last] is the error so far. *)
Fixpoint upload_chunk (n attempt : nat) (env : worker_env) (i : nat) (size : Z)
    (last : option go_error) (m : moved) : option go_error * moved :=
  match n with
  | O => (last, m)
  | S n =>
      let '(err, m') := transferSpeedTestRequest true size (we_transfer env i attempt) in
      let m := both m m' in
      match err with
      | None => (None, m)
      | Some e =>
          match first_error [we_ctx env i attempt; we_pause env i attempt] with
          | Some c => (Some c, m)
          | None => upload_chunk n (S attempt) env i size (Some e) m
          end
      end
  end.

Definition transfer_chunk (post : bool) (env : worker_env) (i : nat) (size : Z) : option go_error * moved :=
  if post then upload_chunk 4 0 env i size None nothing
  else transferSpeedTestRequest false size (we_transfer env i 0).

Inductive worker_end := Finished | Sampled | Failed (e : go_error) | NoFuel.

(** The result of a worker: how it ended, the sizes of the chunks it tried,
    and its share of the counters. *)
Record worker_run := mkRun { wr_end : worker_end; wr_chunks : list Z; wr_moved : moved }.

Definition sample_over (sampleEnd now : Time) : bool := negb (IsZero sampleEnd) && negb (now <? sampleEnd).

Fixpoint transfer_loop (fuel i : nat) (post : bool) (env : worker_env) (sampleEnd : Time)
    (limit remaining : Z) : worker_run :=
  if remaining <=? 0 then mkRun Finished [] nothing
  else
    match fuel with
    | O => mkRun NoFuel [] nothing
    | S fuel =>
        if sample_over sampleEnd (we_now env i) then mkRun Sampled [] nothing
        else
          let chunk := Z.min remaining limit in
          match transfer_chunk post env i chunk with
          | (Some e, m) => mkRun (Failed e) [chunk] m
          | (None, m) =>
              let r := transfer_loop fuel (S i) post env sampleEnd limit (remaining - chunk) in
              mkRun (wr_end r) (chunk :: wr_chunks r) (both m (wr_moved r))
          end
    end.

(** [uploadChunkSize] and [chunkSize] *)
Definition chunk_limit (post : bool) (cfg : speedTestConfig) (size : Z) : Z :=
  if post then Z.shiftl 1 20
  else if bool_decide (cf_DownloadParam cfg = "") then size
  else
    let unit := Z.max 1 (cf_DownloadUnit cfg) in
    Z.max unit (Z.quot (Z.shiftl 1 20) unit * unit).

(** As many turns as chunks. *)
Definition transfer_fuel (limit size : Z) : nat := Z.to_nat ((size + limit - 1) / limit).

Definition transferSpeedTestWorker (post : bool) (env : worker_env) (cfg : speedTestConfig) (size : Z)
  : worker_run :=
  let limit := chunk_limit post cfg size in
  transfer_loop (transfer_fuel limit size) 0 post env (cf_sampleEnd cfg) limit size.

(** The address of a chunk's request. *)
Definition transfer_url `{SpeedURLs} (post : bool) (cfg : speedTestConfig) (endpoint : string) (size millis : Z)
  : string :=
  if post then speedTestRequestURL endpoint (cf_UploadParam cfg) size (cf_UploadUnit cfg) (cf_CacheBust cfg) millis
  else speedTestRequestURL endpoint (cf_DownloadParam cfg) size (cf_DownloadUnit cfg) (cf_CacheBust cfg) millis.

(** ** A phase *)

(** [prepareSpeedTestWorkers]: one warm-up per client, in order; a client that
    cannot be cloned is shared as it is. *)
Definition prepareSpeedTestWorkers (cloneable : bool) (warm : nat -> exchange) (cfg : speedTestConfig)
    (workers : nat) : result go_error nat :=
  if negb cloneable || bool_decide (cf_LatencyURL cfg = "") then Ok workers
  else match first_error ((fun i => discarded (warm i)) <$> seq 0 workers) with
       | Some e => Err e
       | None => Ok workers
       end.

(** [pe_order]: the workers in the order in which they take [errMu] or end;
    [pe_phaseAt] is [phaseCtx.Err()] when a worker ends, [pe_ctx] and
    [pe_phase] the two contexts at the end, [pe_ticks] the counter at the
    ticks before. *)
Record phase_env := mkPhaseEnv {
  pe_warm : nat -> exchange;
  pe_started : Time;
  pe_worker : nat -> worker_env;
  pe_order : list nat;
  pe_phaseAt : nat -> option go_error;
  pe_ticks : list Z;
  pe_ctx : option go_error;
  pe_phase : option go_error;
  pe_elapsed : Duration
}.

Definition share (total : Z) (workers i : nat) : Z :=
  let n := Z.of_nat workers in
  Z.quot total n + (if Z.of_nat i <? Z.rem total n then 1 else 0).

Definition phase_limit (cfg : speedTestConfig) : Duration :=
  if cf_PhaseLimit cfg <=? 0 then 25 * Second else cf_PhaseLimit cfg.

(** The sampling boundary, and the time limit of [phaseCtx]. *)
Definition phase_times (cfg : speedTestConfig) (started : Time) : Time * Duration :=
  if bool_decide (cf_DownloadParam cfg = "") then (cf_sampleEnd cfg, phase_limit cfg)
  else (started + phase_limit cfg, phase_limit cfg + 8 * Second).

(** The error a worker reports: a connection closed by the end of the phase is
    the end of the phase. *)
Definition phase_error (phaseErr : option go_error) (r : worker_run) : option go_error :=
  match wr_end r with
  | Failed e =>
      match phaseErr, cause e with
      | Some c, (UnexpectedEOF | EOF | ClosedPipe | NetClosed) => Some c
      | _, _ => Some e
      end
  | _ => None
  end.

Definition finish_phase (post : bool) (total bytes acked : Z) (ctxErr phaseErr firstErr : option go_error)
  : option go_error :=
  match ctxErr with
  | Some e => Some e
  | None =>
      if match phaseErr with Some e => bool_decide (cause e = DeadlineExceeded) | None => false end &&
         (Z.min (Z.shiftl 1 20) total <=? bytes) && (negb post || (0 <? acked)) &&
         match firstErr with None => true | Some e => is_context_error e end
      then None
      else match firstErr with Some e => Some e | None => phaseErr end
  end.

(** The reports of the counter, the bytes, the time and the error. *)
Definition runSpeedTestPhase (cloneable : bool) (env : phase_env) (cfg : speedTestConfig) (post : bool)
    (total : Z) (workers : nat) : list Z * (Z * Duration * option go_error) :=
  match (if (cf_workerClients cfg =? workers)%nat then Ok workers
         else prepareSpeedTestWorkers cloneable (pe_warm env) cfg workers) with
  | Err e => ([], (0, 0, Some (Wrapped "подготовка соединений" e)))
  | Ok _ =>
      let cfg := cfg <| cf_sampleEnd := (phase_times cfg (pe_started env)).1 |> in
      let run i := transferSpeedTestWorker post (pe_worker env i) cfg (share total workers i) in
      let m := foldr both nothing ((fun i => wr_moved (run i)) <$> seq 0 workers) in
      let firstErr := first_error ((fun i => phase_error (pe_phaseAt env i) (run i)) <$> pe_order env) in
      (pe_ticks env ++ [mv_counted m],
       (mv_counted m, pe_elapsed env,
        finish_phase post total (mv_counted m) (mv_acked m) (pe_ctx env) (pe_phase env) firstErr))
  end.

(** ** A test *)

Definition megabitsPerSecond (bytes : Z) (elapsed : Duration) : float64 :=
  if (bytes <=? 0) || (elapsed <=? 0) then zero64
  else fdiv (fdiv (of_int64 (swrap 64 (bytes * 8))) (Seconds elapsed)) (of_int64 1000000).

(** [min(limit, base + int(done*weight/size))]; [int] is [w] bits wide. *)
Definition phase_progress (w limit base weight size done : Z) : Z :=
  Z.min limit (swrap w (base + swrap w (Z.quot (swrap 64 (done * weight)) size))).

Record test_env := mkTestEnv {
  te_cloneable : bool;
  te_latency : nat -> exchange;
  te_warm : nat -> exchange;
  te_download : phase_env;
  te_upload : phase_env
}.

Definition latency_report (r : speedTestResult) : speedTestStatus :=
  zeroSpeed <| sp_Phase := "latency" |> <| sp_Message := "Задержка измерена" |> <| sp_Progress := 10 |>
    <| sp_LatencyMS := rs_LatencyMS r |> <| sp_JitterMS := rs_JitterMS r |>.

Definition phase_report (phase message : string) (progress : Z) (r : speedTestResult) : speedTestStatus :=
  mkSpeed "" phase message progress (rs_LatencyMS r) (rs_JitterMS r) (rs_DownloadMbps r) zero64
    (rs_DownloadBytes r) (rs_UploadBytes r) 0 false "" "" "" None None.

(** The upload; [r] is the result so far. *)
Definition upload_part (w : Z) (cloneable : bool) (env : phase_env) (cfg : speedTestConfig) (r : speedTestResult)
  : list speedTestStatus * (speedTestResult * option go_error) :=
  let '(ticks, (uploaded, elapsed, err)) :=
    runSpeedTestPhase cloneable env cfg true (cf_UploadSize cfg) (cf_Workers cfg) in
  let reports := (fun done => phase_report "upload" "Измеряем отправку"
    (phase_progress w 100 65 35 (cf_UploadSize cfg) done) (r <| rs_UploadBytes := done |>)) <$> ticks in
  let r := r <| rs_UploadBytes := uploaded |> in
  match err with
  | Some e => (reports, (r, Some (Wrapped "отправка" e)))
  | None => (reports, (r <| rs_UploadMbps := megabitsPerSecond uploaded elapsed |>, None))
  end.

Definition download_part (w : Z) (env : test_env) (cfg : speedTestConfig) (r : speedTestResult)
  : list speedTestStatus * (speedTestResult * option go_error) :=
  let '(ticks, (downloaded, elapsed, err)) :=
    runSpeedTestPhase (te_cloneable env) (te_download env) cfg false (cf_DownloadSize cfg) (cf_Workers cfg) in
  let reports := (fun done => phase_report "download" "Измеряем скачивание"
    (phase_progress w 65 10 55 (cf_DownloadSize cfg) done) (r <| rs_DownloadBytes := done |>)) <$> ticks in
  let r := r <| rs_DownloadBytes := downloaded |> in
  match err with
  | Some e => (reports, (r, Some (Wrapped "скачивание" e)))
  | None =>
      let r := r <| rs_DownloadMbps := megabitsPerSecond downloaded elapsed |> in
      let '(later, outcome) := upload_part w (te_cloneable env) (te_upload env) cfg r in
      (reports ++ phase_report "download" "Скачивание измерено" 65 r :: later, outcome)
  end.

(** The calls of [progress], the result and the error. *)
Definition runTunnelSpeedTest (w : Z) (env : test_env) (cfg : speedTestConfig)
  : list speedTestStatus * (speedTestResult * option go_error) :=
  if negb (cf_Client cfg) || (cf_Workers cfg <? 1)%nat || (cf_DownloadSize cfg <? 1) || (cf_UploadSize cfg <? 1)
  then ([], (zeroResult, Some (failure "некорректные параметры теста скорости")))
  else
    let cfg := if bool_decide (cf_LatencyURL cfg = "") then cfg <| cf_LatencyURL := cf_DownloadURL cfg |> else cfg in
    match measureSpeedTestLatency (te_latency env) with
    | Err e => ([], (zeroResult, Some (Wrapped "проверка задержки" e)))
    | Ok (latency, jitter) =>
        let r := zeroResult <| rs_LatencyMS := latency |> <| rs_JitterMS := jitter |> in
        match prepareSpeedTestWorkers (te_cloneable env) (te_warm env) cfg (cf_Workers cfg) with
        | Err e => ([latency_report r], (r, Some (Wrapped "подготовка соединений" e)))
        | Ok clients =>
            let '(reports, outcome) := download_part w env (cfg <| cf_workerClients := clients |>) r in
            (latency_report r :: reports, outcome)
        end
    end.

(** ** The choice of a server, with retries *)

(** What an attempt meets: the service's answers, the test itself, and the
    context and the tunnel after it. *)
Record attempt_env := mkAttempt {
  ae_ru : ru_env;
  ae_test : test_env;
  ae_ctx : bool;
  ae_running : bool
}.

Definition carries_data (p : speedTestStatus) : bool := (0 <? sp_DownloadBytes p) || (0 <? sp_UploadBytes p).

(** What the status is told along the way. *)
Inductive speed_update :=
| BeginRun
| ShowServer (server : string)
| ShowProgress (p : speedTestStatus)
| ShowRetry (message : string).

Definition apply_update (u : speed_update) (s : speedTestStatus) : speedTestStatus :=
  match u with
  | BeginRun => s <| sp_State := "running" |> <| sp_Message := "Выбираем сервер" |>
  | ShowServer server => s <| sp_Server := server |> <| sp_Message := "Проверяем задержку" |>
  | ShowProgress p => recordProgress p s
  | ShowRetry message => s <| sp_Phase := "prepare" |> <| sp_Message := message |> <| sp_Progress := 0 |>
  end.

Definition prepare_config `{SpeedURLs} (provider : string) (env : ru_env) (excluded : gset string)
  : result go_error speedTestConfig :=
  if bool_decide (provider = speedTestProviderSpeedtestRU)
  then prepareSpeedTestRUConfigExcluding env excluded
  else Ok cloudflareSpeedTestConfig.

(** One attempt: its updates, the configuration (zero when there is none), the
    result and the error. *)
Definition run_attempt `{SpeedURLs} (w : Z) (provider : string) (env : attempt_env) (excluded : gset string)
  : list speed_update * string * bool * (speedTestResult * option go_error) :=
  match prepare_config provider (ae_ru env) excluded with
  | Err e => ([], "", false, (zeroResult, Some e))
  | Ok cfg =>
      let '(reports, outcome) := runTunnelSpeedTest w (ae_test env) cfg in
      (ShowServer (cf_Server cfg) :: (ShowProgress <$> reports), cf_LatencyURL cfg,
       existsb carries_data reports, outcome)
  end.

(** The server of the failed attempt is not chosen again. *)
Definition exclude_site `{SpeedURLs} (provider latencyURL : string) (excluded : gset string) : gset string :=
  if bool_decide (provider = speedTestProviderSpeedtestRU) then
    match site_of latencyURL with
    | Some (scheme, host) => if bool_decide (host = "") then excluded else {[print_site scheme host]} ∪ excluded
    | None => excluded
    end
  else excluded.

Definition retry_message (provider : string) : string :=
  if bool_decide (provider = speedTestProviderSpeedtestRU) then "Выбираем другой сервер Speedtest.ru"
  else "Повторяем подключение к Cloudflare".

(** Attempts [attempt] to 2; the sites excluded for each are kept for the
    statements. *)
Fixpoint server_selection `{SpeedURLs} (w : Z) (n attempt : nat) (provider : string)
    (envs : nat -> attempt_env) (excluded : gset string)
  : list speed_update * list (gset string) * (speedTestResult * option go_error) :=
  match n with
  | O => ([], [], (zeroResult, Some (failure "не удалось выбрать сервер теста скорости")))
  | S n =>
      let env := envs attempt in
      let '(updates, latencyURL, hasData, (r, err)) := run_attempt w provider env excluded in
      match err with
      | None => (updates, [excluded], (r, None))
      | Some e =>
          if (S attempt =? 3)%nat || ae_ctx env || negb (ae_running env) || hasData ||
             (0 <? rs_DownloadBytes r) || (0 <? rs_UploadBytes r) || negb (speedTestRetryableError e)
          then (updates, [excluded], (r, Some e))
          else
            let '(later, sets, outcome) :=
              server_selection w n (S attempt) provider envs (exclude_site provider latencyURL excluded) in
            (updates ++ ShowRetry (retry_message provider) :: later, excluded :: sets, outcome)
      end
  end.

Definition runWithServerSelection `{SpeedURLs} (w : Z) (provider : string) (envs : nat -> attempt_env)
  : list speed_update * list (gset string) * (speedTestResult * option go_error) :=
  server_selection w 3 0 provider envs ∅.

(** ** The operation *)

Definition speedtest_request : operationRequest :=
  mkRequest "speedtest" "Тест скорости туннеля" "manual" "" true (30 * Second).

(** What the function of the operation meets: the counters before and after
    with the state of the tunnel, the client, and the attempts. *)
Record execute_env := mkExecute {
  xe_before : outboundTrafficSnapshot * bool;
  xe_client : option go_error;
  xe_attempts : nat -> attempt_env;
  xe_after : outboundTrafficSnapshot * bool
}.

(** The updates of the function, and its result: what [complete] gets, or the
    error of [Run]. *)
Definition execute_fn `{SpeedURLs} (w : Z) (provider : string) (env : execute_env)
  : list speed_update * result go_error (speedTestResult * Z * bool) :=
  if negb (xe_before env).2 then ([], Err (failure "VPN выключен"))
  else
    match xe_client env with
    | Some e => ([BeginRun], Err e)
    | None =>
        let '(updates, _, (r, err)) := runWithServerSelection w provider (xe_attempts env) in
        match err with
        | Some e => (BeginRun :: updates, Err e)
        | None =>
            let bytes := tunnel_bytes (xe_before env).1 (xe_after env).1 in
            (BeginRun :: updates, Ok (r, bytes, tunnel_verified (xe_after env).2 bytes (measured_bytes r)))
        end
    end.

(** ** Lemmas: workers *)

Definition sum (l : list Z) : Z := foldr Z.add 0 l.

Lemma sum_cons x l : sum (x :: l) = x + sum l.
Proof. done. Qed.

Lemma first_error_None l : first_error l = None <-> Forall (fun x => x = None) l.
Proof.
  unfold first_error. induction l as [|[e|] l IH]; cbn; [done|..].
  - split; [done|]. by intros [? _]%Forall_cons.
  - rewrite Forall_cons. naive_solver.
Qed.

Lemma upload_chunk_acked n attempt env i size last m err m' :
  upload_chunk n attempt env i size last m = (err, m') ->
  mv_acked m' = mv_acked m + (match err with None => if (n =? 0)%nat then 0 else size | Some _ => 0 end) \/
  n = O.
Proof.
  revert attempt last m. induction n as [|n IH]; intros attempt last m; cbn [upload_chunk]; [by right|].
  intros H. left. revert H. unfold transferSpeedTestRequest.
  destruct (tr_new _) as [e|]; [|destruct (first_error [tr_do _; _; tr_read _]) as [e|]];
    [..|intros [= <- <-]; cbn; lia];
    (destruct (first_error [we_ctx env i attempt; we_pause env i attempt]) as [c|];
     [intros [= <- <-]; cbn; lia|]); intros H; destruct n as [|n];
    try (cbn in H; injection H as <- <-; cbn; lia);
    (destruct (IH _ _ _ H) as [Hm|]; [|done]); rewrite Hm; cbn; destruct err; lia.
Qed.

Lemma transfer_chunk_acked post env i size err m :
  transfer_chunk post env i size = (err, m) ->
  mv_acked m = if post then match err with None => size | Some _ => 0 end else 0.
Proof.
  unfold transfer_chunk. destruct post.
  - intros H. destruct (upload_chunk_acked _ _ _ _ _ _ _ _ _ H) as [-> | ?]; [|done]. cbn. by destruct err.
  - unfold transferSpeedTestRequest.
    destruct (tr_new _); [by intros [= _ <-]|]. destruct (doSpeedTestDownloadRequest _); [by intros [= _ <-]|].
    by destruct (status_ok _); intros [= _ <-].
Qed.

(** What a worker was to send, what it asked for and what was acknowledged. *)
Definition worker_sound (post : bool) (limit size : Z) (r : worker_run) : Prop :=
  Forall (fun c => 0 < c <= limit) (wr_chunks r) /\ sum (wr_chunks r) <= Z.max 0 size /\
  match wr_end r with
  | Finished => sum (wr_chunks r) = Z.max 0 size /\ (post = true -> mv_acked (wr_moved r) = Z.max 0 size)
  | Sampled => sum (wr_chunks r) < size /\ (post = true -> mv_acked (wr_moved r) = sum (wr_chunks r))
  | Failed _ => post = true -> 0 <= mv_acked (wr_moved r) < sum (wr_chunks r)
  | NoFuel => False
  end.

Lemma transfer_fuel_step limit size :
  0 < limit -> 0 < size -> transfer_fuel limit size = S (transfer_fuel limit (size - Z.min size limit)).
Proof.
  intros Hl Hs. unfold transfer_fuel. destruct (Z.le_gt_cases size limit).
  - rewrite Z.min_l by lia. rewrite Z.sub_diag. rewrite (Z.div_small (0 + limit - 1)) by lia.
    replace ((size + limit - 1) / limit) with 1; [done|].
    apply (Z.div_unique_pos _ _ _ (size - 1)); lia.
  - rewrite Z.min_r by lia. rewrite <- Z2Nat.inj_succ by (apply Z.div_pos; lia). f_equal.
    replace (size + limit - 1) with (size - limit + limit - 1 + 1 * limit) by lia.
    rewrite Z.div_add by lia. lia.
Qed.

Lemma transfer_loop_sound post env sampleEnd limit : 0 < limit ->
  forall fuel i size, fuel = transfer_fuel limit size ->
  worker_sound post limit size (transfer_loop fuel i post env sampleEnd limit size).
Proof.
  intros Hl fuel. induction fuel as [|fuel IH]; intros i size Hf; cbn [transfer_loop];
    destruct (Z.leb_spec size 0).
  - repeat split; cbn; try lia. constructor.
  - rewrite transfer_fuel_step in Hf by lia. discriminate.
  - repeat split; cbn; try lia. constructor.
  - rewrite transfer_fuel_step in Hf by lia. injection Hf as Hf.
    destruct (sample_over _ _); [repeat split; cbn; try lia; constructor|]. cbv zeta.
    destruct (transfer_chunk post env i (Z.min size limit)) as [[e|] m] eqn:Hc;
      apply transfer_chunk_acked in Hc.
    + repeat split; cbn; try lia; [repeat constructor; lia|..]; intros ->; rewrite Hc; lia.
    + specialize (IH (S i) _ Hf). clear Hf.
      destruct (transfer_loop fuel (S i) post env sampleEnd limit (size - Z.min size limit)) as [en chunks mv].
      destruct IH as (Hall & Hsum & Hend). unfold worker_sound.
      cbn [wr_end wr_chunks wr_moved mv_acked both] in *. rewrite sum_cons.
      split; [constructor; [lia|done]|]. split; [lia|].
      destruct en; [..|done]; cbn in Hend.
      * destruct Hend as [? Ha]. split; [lia|]. intros ->. rewrite Hc, Ha by done. lia.
      * destruct Hend as [? Ha]. split; [lia|]. intros ->. rewrite Hc, Ha by done. lia.
      * intros ->. specialize (Hend eq_refl). lia.
Qed.

Lemma chunk_limit_sample post cfg size t :
  chunk_limit post (cfg <| cf_sampleEnd := t |>) size = chunk_limit post cfg size.
Proof. done. Qed.

Lemma chunk_limit_pos post cfg size : 0 < size -> 0 < chunk_limit post cfg size.
Proof.
  intros Hs. unfold chunk_limit. destruct post; [done|]. case_bool_decide; [done|]. cbv zeta. lia.
Qed.

Lemma worker_run_sound post env cfg size : 0 <= size ->
  worker_sound post (chunk_limit post cfg size) size (transferSpeedTestWorker post env cfg size).
Proof.
  intros Hs. destruct (Z.eq_dec size 0) as [->|]; [|apply transfer_loop_sound; [apply chunk_limit_pos; lia|done]].
  assert (Hz : transferSpeedTestWorker post env cfg 0 = mkRun Finished [] nothing).
  { unfold transferSpeedTestWorker. by destruct (transfer_fuel _ _). }
  rewrite Hz. repeat split; cbn; lia || constructor.
Qed.

(** ** Lemmas: shares *)

Lemma sum_app l k : sum (l ++ k) = sum l + sum k.
Proof. unfold sum. induction l as [|x l IH]; cbn; lia. Qed.

Lemma share_range total workers i : (0 < workers)%nat -> 0 <= total ->
  total / Z.of_nat workers <= share total workers i <= total / Z.of_nat workers + 1.
Proof. intros Hw Ht. unfold share. rewrite Z.quot_div_nonneg by lia. destruct (_ <? _); lia. Qed.

Lemma sum_const_below (a r : Z) n : 0 <= r ->
  sum ((fun i => a + (if Z.of_nat i <? r then 1 else 0)) <$> seq 0 n) = a * Z.of_nat n + Z.min r (Z.of_nat n).
Proof.
  intros Hr. induction n as [|n IH]; [cbn; lia|].
  rewrite seq_S, fmap_app, sum_app, IH. cbn [fmap list_fmap sum foldr Nat.add].
  destruct (Z.ltb_spec (Z.of_nat n) r); lia.
Qed.

(** The shares of the workers are the whole. *)
Lemma shares_total total workers : (0 < workers)%nat -> 0 <= total ->
  sum (share total workers <$> seq 0 workers) = total.
Proof.
  intros Hw Ht. unfold share. rewrite sum_const_below by (apply Z.rem_nonneg; lia).
  pose proof (Z.quot_rem' total (Z.of_nat workers)) as Hq.
  assert (Z.rem total (Z.of_nat workers) < Z.of_nat workers) by (apply Z.rem_bound_pos; lia). lia.
Qed.

Lemma share_nonneg total workers i : (0 < workers)%nat -> 0 <= total -> 0 <= share total workers i.
Proof.
  intros Hw Ht. pose proof (share_range total workers i Hw Ht).
  assert (0 <= total / Z.of_nat workers) by (apply Z.div_pos; lia). lia.
Qed.

Lemma moved_sum (run : nat -> worker_run) l :
  mv_acked (foldr both nothing ((fun i => wr_moved (run i)) <$> l)) = sum ((fun i => mv_acked (wr_moved (run i))) <$> l).
Proof. induction l as [|i l IH]; [done|]. cbn [fmap list_fmap foldr both mv_acked]. by rewrite IH. Qed.

(** ** A phase measures what it says *)

Definition phase_worker (env : phase_env) (cfg : speedTestConfig) (post : bool) (total : Z) (workers i : nat)
  : worker_run :=
  transferSpeedTestWorker post (pe_worker env i)
    (cfg <| cf_sampleEnd := (phase_times cfg (pe_started env)).1 |>) (share total workers i).

(** C33. A phase shares the whole payload out to its workers and succeeds only
    when each of them sent its share or stopped at the sampling boundary, or
    when time ran out after at least a mebibyte (or everything) went through,
    for an upload after an acknowledgement, and nothing but the end of the time
    had stopped a worker.  A worker never asks for more than its share, in
    chunks within the limit; an upload that all workers finished was
    acknowledged byte for byte. *)
Theorem phase_measures cloneable env cfg post total workers ticks bytes elapsed :
  (0 < workers)%nat -> 0 <= total -> pe_order env ≡ₚ seq 0 workers -> cf_workerClients cfg = workers ->
  runSpeedTestPhase cloneable env cfg post total workers = (ticks, (bytes, elapsed, None)) ->
  let run := phase_worker env cfg post total workers in
  let acked := sum ((fun i => mv_acked (wr_moved (run i))) <$> seq 0 workers) in
  sum (share total workers <$> seq 0 workers) = total /\
  (forall i, sum (wr_chunks (run i)) <= share total workers i /\
             Forall (fun c => 0 < c <= chunk_limit post cfg (share total workers i)) (wr_chunks (run i))) /\
  ((pe_phase env = None /\ forall i, (i < workers)%nat -> wr_end (run i) = Finished \/ wr_end (run i) = Sampled) \/
   (Z.min (2 ^ 20) total <= bytes /\ (post = true -> 0 < acked) /\
    (exists e, pe_phase env = Some e /\ cause e = DeadlineExceeded) /\
    (forall e, first_error ((fun i => phase_error (pe_phaseAt env i) (run i)) <$> pe_order env) = Some e ->
       is_context_error e = true))) /\
  (post = true -> (forall i, (i < workers)%nat -> wr_end (run i) = Finished) -> acked = total).
Proof.
  intros Hw Ht Hperm Hc Hrun run acked.
  assert (Hsound : forall i, worker_sound post (chunk_limit post cfg (share total workers i))
    (share total workers i) (run i)).
  { intros i. rewrite <- (chunk_limit_sample post cfg _ (phase_times cfg (pe_started env)).1).
    by apply worker_run_sound, share_nonneg. }
  split; [by apply shares_total|]. split; [|split].
  - intros i. destruct (Hsound i) as (Hall & Hsum & _). split; [|done].
    pose proof (share_nonneg total workers i Hw Ht). lia.
  - revert Hrun. unfold runSpeedTestPhase. rewrite Hc, Nat.eqb_refl. cbv zeta.
    change (fun i => wr_moved _) with (fun i => wr_moved (run i)).
    change (fun i => phase_error _ _) with (fun i => phase_error (pe_phaseAt env i) (run i)).
    rewrite moved_sum. fold acked. change (Z.shiftl 1 20) with (2 ^ 20).
    intros [= _ Hbytes _ Hend]. rewrite Hbytes in Hend. revert Hend. unfold finish_phase.
    destruct (pe_ctx env); [done|].
    destruct (_ && _ && _ && _) eqn:Hcond.
    + intros _. right. apply andb_true_iff in Hcond as [[[Hd Hb%Z.leb_le]%andb_true_iff Ha]%andb_true_iff Hf].
      split; [done|]. split; [|split].
      * intros ->. by apply Z.ltb_lt in Ha.
      * destruct (pe_phase env) as [e|]; [|done]. exists e. by apply bool_decide_eq_true in Hd.
      * intros e He. by rewrite He in Hf.
    + destruct (first_error _) eqn:Hf; [done|]. intros ->. left. split; [done|]. intros i Hi.
      apply first_error_None in Hf. rewrite Forall_fmap, Hperm, Forall_forall in Hf.
      specialize (Hf i ltac:(apply elem_of_seq; lia)). specialize (Hsound i) as (_ & _ & Hend).
      cbn in Hf. unfold phase_error in Hf.
      destruct (wr_end (run i)) as [| |e|]; [by left|by right| |done]. by repeat case_match.
  - intros -> Hall. unfold acked. rewrite <- (shares_total total workers Hw Ht) at 1. f_equal.
    apply list_fmap_ext. intros j i Hi%lookup_seq. destruct (Hsound i) as (_ & _ & Hend).
    rewrite Hall in Hend by lia. destruct Hend as [_ ->]; [|done].
    pose proof (share_nonneg total workers i Hw Ht). lia.
Qed.

(** ** Progress *)

(** A counter whose scaled value fits the integers of the code and never goes
    back. *)
Definition counter_ok (w weight size : Z) (ticks : list Z) : Prop :=
  StronglySorted Z.le ticks /\
  Forall (fun d => 0 <= d /\ d * weight < 2 ^ 63 /\ Z.quot (d * weight) size + 100 < 2 ^ (w - 1)) ticks.

Lemma phase_progress_sorted w limit base weight size ticks :
  32 <= w -> 0 < size -> 0 < weight -> 0 <= base <= limit -> limit <= 100 -> counter_ok w weight size ticks ->
  StronglySorted Z.le (phase_progress w limit base weight size <$> ticks) /\
  Forall (fun p => base <= p <= limit) (phase_progress w limit base weight size <$> ticks).
Proof.
  intros Hw Hs Hwt Hb Hl [Hsort Hfit].
  assert (Hp : forall d, 0 <= d /\ d * weight < 2 ^ 63 /\ Z.quot (d * weight) size + 100 < 2 ^ (w - 1) ->
    phase_progress w limit base weight size d = Z.min limit (base + Z.quot (d * weight) size) /\
    0 <= Z.quot (d * weight) size).
  { intros d (H0 & H1 & H2). assert (0 <= Z.quot (d * weight) size) by (apply Z.quot_pos; nia).
    split; [|done]. unfold phase_progress. rewrite (swrap_id 64) by nia.
    rewrite (swrap_id w (Z.quot _ _)) by lia. rewrite swrap_id by lia. done. }
  induction Hsort as [|d ticks Hsort IH Hall]; [by repeat constructor|].
  apply Forall_cons in Hfit as [Hd Hfit]. destruct (IH Hfit) as [IH1 IH2].
  pose proof Hd as (H0 & H1 & H2). destruct (Hp d Hd) as [Heq Hq]. cbn [fmap list_fmap].
  split; constructor; try done; rewrite Heq; [|lia].
  rewrite Forall_fmap. apply Forall_forall. intros d' Hin. cbn.
  rewrite Forall_forall in Hfit, Hall. destruct (Hp d' (Hfit _ Hin)) as [-> ?]. specialize (Hall _ Hin).
  assert (Z.quot (d * weight) size <= Z.quot (d' * weight) size); [|lia].
  apply Z.quot_le_mono; nia.
Qed.

Definition report_progress (outcome : list speedTestStatus * (speedTestResult * option go_error)) : list Z :=
  sp_Progress <$> outcome.1.

Lemma sorted_join (a b : list Z) lo mid hi :
  StronglySorted Z.le a -> StronglySorted Z.le b -> lo <= mid <= hi ->
  Forall (fun p => lo <= p <= mid) a -> Forall (fun p => mid <= p <= hi) b ->
  StronglySorted Z.le (a ++ b) /\ Forall (fun p => lo <= p <= hi) (a ++ b).
Proof.
  intros Ha Hb Hm Hfa Hfb. split.
  - induction Ha as [|x a Ha IH Hx]; [done|]. apply Forall_cons in Hfa as [? Hfa]. cbn. constructor; [by apply IH|].
    apply Forall_app. split; [done|]. eapply Forall_impl; [exact Hfb|]. cbn. lia.
  - apply Forall_app. split; (eapply Forall_impl; [eassumption|]); cbn; lia.
Qed.

Lemma upload_progress w cloneable env cfg r :
  32 <= w -> 0 < cf_UploadSize cfg ->
  counter_ok w 35 (cf_UploadSize cfg)
    (runSpeedTestPhase cloneable env cfg true (cf_UploadSize cfg) (cf_Workers cfg)).1 ->
  StronglySorted Z.le (report_progress (upload_part w cloneable env cfg r)) /\
  Forall (fun p => 65 <= p <= 100) (report_progress (upload_part w cloneable env cfg r)).
Proof.
  intros Hw Hs Hc. unfold upload_part.
  destruct (runSpeedTestPhase _ _ _ _ _ _) as [ticks [[uploaded elapsed] err]]. cbn [fst] in Hc.
  assert (Hrep : forall err', report_progress
    ((fun done => phase_report "upload" "Измеряем отправку" (phase_progress w 100 65 35 (cf_UploadSize cfg) done)
       (r <| rs_UploadBytes := done |>)) <$> ticks, err') = phase_progress w 100 65 35 (cf_UploadSize cfg) <$> ticks).
  { intros err'. unfold report_progress. cbn [fst]. rewrite <- list_fmap_compose. by apply list_fmap_ext. }
  cbv zeta. destruct err; rewrite Hrep; by apply phase_progress_sorted.
Qed.

Lemma download_progress w env cfg r :
  32 <= w -> 0 < cf_DownloadSize cfg -> 0 < cf_UploadSize cfg ->
  counter_ok w 55 (cf_DownloadSize cfg)
    (runSpeedTestPhase (te_cloneable env) (te_download env) cfg false (cf_DownloadSize cfg) (cf_Workers cfg)).1 ->
  counter_ok w 35 (cf_UploadSize cfg)
    (runSpeedTestPhase (te_cloneable env) (te_upload env) cfg true (cf_UploadSize cfg) (cf_Workers cfg)).1 ->
  StronglySorted Z.le (report_progress (download_part w env cfg r)) /\
  Forall (fun p => 10 <= p <= 100) (report_progress (download_part w env cfg r)).
Proof.
  intros Hw Hs Hu Hc Hcu. unfold download_part.
  destruct (runSpeedTestPhase _ _ _ false _ _) as [ticks [[downloaded elapsed] err]]. cbn [fst] in Hc.
  set (reports := _ <$> ticks).
  assert (Hrep : sp_Progress <$> reports = phase_progress w 65 10 55 (cf_DownloadSize cfg) <$> ticks).
  { unfold reports. rewrite <- list_fmap_compose. by apply list_fmap_ext. }
  clearbody reports. cbv zeta.
  destruct (phase_progress_sorted w 65 10 55 (cf_DownloadSize cfg) ticks) as [H1 H2]; try done.
  rewrite <- Hrep in H1, H2. destruct err as [e|].
  - split; [done|]. eapply Forall_impl; [exact H2|]. cbn. lia.
  - match goal with |- context [upload_part w ?c ?e cfg ?r'] =>
      destruct (upload_progress w c e cfg r' Hw Hu Hcu) as [H3 H4];
      generalize dependent (upload_part w c e cfg r') end.
    intros [later outcome] H3 H4. unfold report_progress in *. cbn [fst] in *. rewrite fmap_app. cbn [fmap list_fmap].
    apply (sorted_join _ _ 10 65 100); try done; [constructor|constructor]; try done;
      eapply Forall_impl; try exact H4; cbn; lia.
Qed.

(** The parameters the phases run with. *)
Definition prepared (cfg : speedTestConfig) : speedTestConfig :=
  (if bool_decide (cf_LatencyURL cfg = "") then cfg <| cf_LatencyURL := cf_DownloadURL cfg |> else cfg)
    <| cf_workerClients := cf_Workers cfg |>.

(** The counters of the two phases at the ticks and at the end. *)
Definition downloads (env : test_env) (cfg : speedTestConfig) : list Z :=
  (runSpeedTestPhase (te_cloneable env) (te_download env) (prepared cfg) false (cf_DownloadSize cfg) (cf_Workers cfg)).1.
Definition uploads (env : test_env) (cfg : speedTestConfig) : list Z :=
  (runSpeedTestPhase (te_cloneable env) (te_upload env) (prepared cfg) true (cf_UploadSize cfg) (cf_Workers cfg)).1.

Lemma prepared_same cfg :
  cf_Workers (prepared cfg) = cf_Workers cfg /\ cf_DownloadSize (prepared cfg) = cf_DownloadSize cfg /\
  cf_UploadSize (prepared cfg) = cf_UploadSize cfg.
Proof. unfold prepared. by case_bool_decide. Qed.

Lemma prepare_workers cloneable warm cfg workers :
  match prepareSpeedTestWorkers cloneable warm cfg workers with Ok n => n = workers | Err _ => True end.
Proof. unfold prepareSpeedTestWorkers. repeat case_match; try done; congruence. Qed.

(** The progress of a test never goes back and stays between 10 and 100,
    on a router whose [int] has 32 bits too, whatever the phases meet; more
    bytes than asked for do not carry it past the end of their phase. *)
Theorem test_progress w env cfg :
  32 <= w ->
  counter_ok w 55 (cf_DownloadSize cfg) (downloads env cfg) ->
  counter_ok w 35 (cf_UploadSize cfg) (uploads env cfg) ->
  let progress := report_progress (runTunnelSpeedTest w env cfg) in
  StronglySorted Z.le progress /\ Forall (fun p => 10 <= p <= 100) progress.
Proof.
  intros Hw Hd Hu. unfold runTunnelSpeedTest. destruct (_ || _) eqn:Hcheck; [by repeat constructor|].
  apply orb_false_iff in Hcheck as [[_ Hds%Z.ltb_ge]%orb_false_iff Hus%Z.ltb_ge].
  destruct (measureSpeedTestLatency _) as [[latency jitter]|e]; [|by repeat constructor]. cbv zeta.
  set (r := zeroResult <| rs_LatencyMS := latency |> <| rs_JitterMS := jitter |>).
  pose proof (prepare_workers (te_cloneable env) (te_warm env)
    (if bool_decide (cf_LatencyURL cfg = "") then cfg <| cf_LatencyURL := cf_DownloadURL cfg |> else cfg)) as Hp.
  specialize (Hp (cf_Workers (if bool_decide (cf_LatencyURL cfg = "")
    then cfg <| cf_LatencyURL := cf_DownloadURL cfg |> else cfg))).
  destruct (prepareSpeedTestWorkers _ _ _ _) as [clients|e]; [|repeat constructor; cbn; lia].
  assert (Hcfg : (if bool_decide (cf_LatencyURL cfg = "") then cfg <| cf_LatencyURL := cf_DownloadURL cfg |> else cfg)
    <| cf_workerClients := clients |> = prepared cfg) by (subst clients; unfold prepared; by case_bool_decide).
  rewrite Hcfg. destruct (prepared_same cfg) as (Hw1 & Hd1 & Hu1).
  destruct (download_progress w env (prepared cfg) r Hw) as [H1 H2]; rewrite ?Hw1, ?Hd1, ?Hu1; try lia; try done.
  destruct (download_part w env (prepared cfg) r) as [reports outcome]. unfold report_progress in *. cbn [fst] in *.
  apply (sorted_join [10] _ 10 10 100); try done; repeat constructor; done.
Qed.

(** ** The choice of a server *)

Lemma faster_spec results :
  match foldl faster None results with
  | Some best => best ∈ results /\ rp_err best = None /\
      (forall p, p ∈ results -> rp_err p = None -> rp_latency best <= rp_latency p)
  | None => forall p, p ∈ results -> rp_err p <> None
  end.
Proof.
  set (P := fun (l : list ru_probe) (best : option ru_probe) => match best with
    | Some best => best ∈ l /\ rp_err best = None /\
        (forall p, p ∈ l -> rp_err p = None -> rp_latency best <= rp_latency p)
    | None => forall p, p ∈ l -> rp_err p <> None
    end).
  change (P results (foldl faster None results)). apply foldl_seen; unfold P; [|by intros p ?%elem_of_nil].
  intros seen x best _ Hbest. unfold faster. destruct (rp_err x) eqn:He.
  - destruct best as [b|].
    + destruct Hbest as (? & ? & Hmin). split; [apply elem_of_snoc; auto|]. split; [done|].
      intros p [Hp|<-%list_elem_of_singleton]%elem_of_app; [by apply Hmin|by rewrite He].
    + intros p [Hp|<-%list_elem_of_singleton]%elem_of_app; [by apply Hbest|by rewrite He].
  - destruct best as [b|].
    + destruct Hbest as (? & ? & Hmin). destruct (Z.ltb_spec (rp_latency x) (rp_latency b)).
      * split; [apply elem_of_snoc; auto|]. split; [done|].
        intros p [Hp|<-%list_elem_of_singleton]%elem_of_app Hn; [|done]. specialize (Hmin p Hp Hn). lia.
      * split; [apply elem_of_snoc; auto|]. split; [done|].
        intros p [Hp|<-%list_elem_of_singleton]%elem_of_app Hn; [by apply Hmin|done].
    + split; [apply elem_of_snoc; auto|]. split; [done|].
      intros p [Hp|<-%list_elem_of_singleton]%elem_of_app Hn; [by apply Hbest in Hp|done].
Qed.

Section Servers.
Context `{SU : SpeedURLs}.

(** Reference: what a nearest server is as a candidate. *)
Definition candidate (excluded : gset string) (item : nearest_server) : option speedTestRUServer :=
  base ← speedTestRUBaseURL (ns_Source item) (ns_Port item);
  if bool_decide (base ∈ excluded) then None
  else Some (mkRUServer base (ns_Name item) (ns_City item) (ns_Owner item)).

Lemma ru_candidates_take excluded items found : (length found < 6)%nat ->
  ru_candidates excluded items found = found ++ take (6 - length found) (omap (candidate excluded) items).
Proof using Type*.
  revert found. induction items as [|item items IH]; intros found Hlen; cbn [ru_candidates omap list_omap].
  { by rewrite take_nil, app_nil_r. }
  unfold candidate at 1. destruct (speedTestRUBaseURL _ _) as [base|]; cbn; [|by apply IH].
  case_bool_decide; [by apply IH|]. cbv zeta. set (server := mkRUServer _ _ _ _).
  assert (Hl : length (found ++ [server]) = S (length found)) by (rewrite length_app; cbn; lia).
  rewrite Hl. destruct (6 - length found)%nat as [|k] eqn:Hk; [lia|]. cbn [take].
  destruct (Nat.eqb_spec (S (length found)) 6).
  - replace k with O by lia. done.
  - rewrite IH by lia. rewrite Hl. replace (6 - S (length found))%nat with k by lia.
    by rewrite <- app_assoc.
Qed.

(** The server of Speedtest.ru that a test uses: of the first six nearest
    ones with a usable address that is not excluded, one that answered, with
    no other answer faster; and the token is not empty. *)
Theorem ru_choice env excluded cfg :
  (forall l, (rp_server <$> rv_probes env l) ≡ₚ l) ->
  prepareSpeedTestRUConfigExcluding env excluded = Ok cfg ->
  exists items token probe,
    let candidates := take 6 (omap (candidate excluded) items) in
    rv_nearest env = Ok items /\ rv_token env = Ok token /\ token <> "" /\
    cfg = ru_config (rp_server probe) token /\
    (rp_server probe ∈ candidates) /\ (ru_BaseURL (rp_server probe) ∉ excluded) /\
    probe ∈ rv_probes env candidates /\ rp_err probe = None /\
    (forall p, p ∈ rv_probes env candidates -> rp_err p = None -> rp_latency probe <= rp_latency p).
Proof using Type*.
  intros Hperm. unfold prepareSpeedTestRUConfigExcluding.
  destruct (rv_nearest env) as [items|] eqn:Hn; [|done]. destruct items as [|item items']; [done|].
  set (items := item :: items') in *. destruct (rv_token env) as [token|] eqn:Ht; [|done].
  case_bool_decide as Hempty; [done|]. rewrite ru_candidates_take by (cbn; lia). cbn [app length Nat.sub].
  set (candidates := take 6 _). destruct candidates as [|first rest] eqn:Hc; [done|]. rewrite <- Hc.
  unfold fastestSpeedTestRUServer. pose proof (faster_spec (rv_probes env candidates)) as Hf.
  destruct (foldl faster None _) as [best|]; [|done]. intros [= <-]. destruct Hf as (Hin & Herr & Hmin).
  assert (Hcand : rp_server best ∈ candidates).
  { rewrite <- (Hperm candidates). by apply list_elem_of_fmap_2. }
  exists items, token, best. cbv zeta. fold candidates. split_and!; try done.
  unfold candidates in Hcand. apply elem_of_take in Hcand as (i & Hi & _).
  apply list_elem_of_lookup_2, list_elem_of_omap in Hi as (it & _ & Hit). revert Hit. unfold candidate.
  destruct (speedTestRUBaseURL _ _) as [base|]; [|done]. cbn. case_bool_decide; [done|]. by intros [= <-].
Qed.

(** Why attempt [i], made with [excluded], is followed by another. *)
Definition retry_link (w : Z) (provider : string) (envs : nat -> attempt_env) (i : nat)
    (excluded next : gset string) : Prop :=
  exists updates url r e,
    run_attempt w provider (envs i) excluded = (updates, url, false, (r, Some e)) /\
    Forall (fun u => match u with ShowProgress p => carries_data p = false | _ => True end) updates /\
    speedTestRetryableError e = true /\ rs_DownloadBytes r <= 0 /\ rs_UploadBytes r <= 0 /\
    ae_ctx (envs i) = false /\ ae_running (envs i) = true /\ next = exclude_site provider url excluded.

(** An attempt knows of the data it has shown. *)
Lemma run_attempt_data w provider env excluded updates url hasData outcome :
  run_attempt w provider env excluded = (updates, url, hasData, outcome) -> hasData = false ->
  Forall (fun u => match u with ShowProgress p => carries_data p = false | _ => True end) updates.
Proof using Type*.
  unfold run_attempt. destruct (prepare_config _ _ _) as [cfg|e]; [|intros [= <- _ _ _] _; constructor].
  destruct (runTunnelSpeedTest _ _ _) as [reports out]. intros [= <- _ <- _] Hd. constructor; [done|].
  induction reports as [|p reports IH]; [constructor|].
  apply orb_false_iff in Hd as [Hp Hd]. by constructor; [|apply IH].
Qed.

Lemma server_selection_spec w n attempt provider envs excluded :
  (n + attempt = 3)%nat -> (0 < n)%nat ->
  let '(_, sets, outcome) := server_selection w n attempt provider envs excluded in
  exists last, sets !! 0%nat = Some excluded /\ (length sets <= n)%nat /\
    sets !! (length sets - 1)%nat = Some last /\
    outcome = (run_attempt w provider (envs (attempt + (length sets - 1))%nat) last).2 /\
    (forall k s s', sets !! k = Some s -> sets !! S k = Some s' -> retry_link w provider envs (attempt + k) s s').
Proof using Type*.
  revert attempt excluded. induction n as [|n IH]; intros attempt excluded Hn Hpos; [lia|]. cbn [server_selection].
  destruct (run_attempt w provider (envs attempt) excluded) as [[[updates url] hasData] [r err]] eqn:Ha.
  assert (Hone : forall o : speedTestResult * option go_error, o = (r, err) ->
    exists last, [excluded] !! 0%nat = Some excluded /\ (1 <= S n)%nat /\ [excluded] !! (1 - 1)%nat = Some last /\
      o = (run_attempt w provider (envs (attempt + (1 - 1))%nat) last).2 /\
      (forall k s s', [excluded] !! k = Some s -> [excluded] !! S k = Some s' ->
         retry_link w provider envs (attempt + k) s s')).
  { intros o ->. exists excluded. rewrite Nat.add_0_r, Ha. split_and!; try done; try lia. }
  destruct err as [e|]; [|by apply Hone].
  destruct (_ || _) eqn:Hstop; [by apply Hone|].
  rewrite !orb_false_iff, !negb_false_iff, Nat.eqb_neq, !Z.ltb_ge in Hstop.
  destruct Hstop as [[[[[[Hlast Hctx] Hrun] ->] Hd] Hu] Hre].
  specialize (IH (S attempt) (exclude_site provider url excluded) ltac:(lia) ltac:(lia)).
  destruct (server_selection _ _ _ _ _ _) as [[later sets] outcome].
  destruct IH as (last & Hfst & Hlen & Hlst & Hout & Hlink). exists last.
  destruct sets as [|s0 sets]; [done|]. cbn in Hfst. injection Hfst as ->. cbn [length Nat.sub] in *.
  rewrite !Nat.sub_0_r in *. split; [done|]. split; [lia|]. split; [done|].
  split; [by rewrite Hout, Nat.add_succ_comm|].
  intros [|k] s s'; [cbn; intros [= <-] [= <-]|].
  - rewrite Nat.add_0_r. exists updates, url, r, e. pose proof (run_attempt_data _ _ _ _ _ _ _ _ Ha eq_refl). by split_and!.
  - intros H1 H2. rewrite <- Nat.add_succ_comm. by apply Hlink.
Qed.

(** An address that is nothing but scheme and host, so that the code finds it
    again in the address of its ping page. *)
Definition plain_site (base : string) : Prop :=
  exists scheme host, site_of (base +:+ "/ping.php") = Some (scheme, host) /\ host <> "" /\
    print_site scheme host = base.

Lemma fastest_in probes : (exists s, fastestSpeedTestRUServer probes = Ok s /\ s ∈ rp_server <$> probes) \/
  (exists e, fastestSpeedTestRUServer probes = Err e).
Proof using Type*.
  unfold fastestSpeedTestRUServer. pose proof (faster_spec probes) as Hf.
  destruct (foldl faster None probes) as [best|]; [left|right; by eexists].
  exists (rp_server best). split; [done|]. apply list_elem_of_fmap_2, Hf.
Qed.

(** A prepared test of Speedtest.ru uses an address of the list that was not
    excluded. *)
Lemma ru_config_base env excluded cfg :
  (forall l, (rp_server <$> rv_probes env l) ≡ₚ l) ->
  prepareSpeedTestRUConfigExcluding env excluded = Ok cfg ->
  exists items item base, rv_nearest env = Ok items /\ item ∈ items /\
    speedTestRUBaseURL (ns_Source item) (ns_Port item) = Some base /\ (base ∉ excluded) /\
    cf_LatencyURL cfg = base +:+ "/ping.php".
Proof using Type*.
  intros Hperm. unfold prepareSpeedTestRUConfigExcluding.
  destruct (rv_nearest env) as [items|] eqn:Hn; [|done]. destruct items as [|item0 items']; [done|].
  set (items := item0 :: items') in *. destruct (rv_token env) as [token|]; [|done].
  case_bool_decide; [done|]. rewrite ru_candidates_take by (cbn; lia). cbn [app length Nat.sub].
  set (candidates := take 6 _). destruct candidates as [|first rest] eqn:Hc; [done|]. rewrite <- Hc.
  destruct (fastest_in (rv_probes env candidates)) as [(server & -> & Hin)|[e ->]]; [|done]. intros [= <-].
  rewrite (Hperm candidates) in Hin. unfold candidates in Hin. apply elem_of_take in Hin as (i & Hi & _).
  apply list_elem_of_lookup_2, list_elem_of_omap in Hi as (item & Hitem & Hit). revert Hit. unfold candidate.
  destruct (speedTestRUBaseURL _ _) as [base|] eqn:Hb; [|done]. cbn. case_bool_decide; [done|]. intros [= <-].
  by exists items, item, base.
Qed.

(** The attempts of a test: at most three, and what the last one made is
    the answer.  Another attempt follows only a network failure that a repeat
    can cure, before any byte was measured or shown, with the tunnel running and nobody
    cancelling.  For Speedtest.ru an attempt never uses the server of an
    earlier one, where addresses are plain scheme and host. *)
Theorem server_retries w provider envs :
  (forall i l, (rp_server <$> rv_probes (ae_ru (envs i)) l) ≡ₚ l) ->
  (forall i items item base, rv_nearest (ae_ru (envs i)) = Ok items -> item ∈ items ->
     speedTestRUBaseURL (ns_Source item) (ns_Port item) = Some base -> plain_site base) ->
  let '(_, sets, outcome) := runWithServerSelection w provider envs in
  (exists last, (length sets <= 3)%nat /\ sets !! (length sets - 1)%nat = Some last /\
     outcome = (run_attempt w provider (envs (length sets - 1)%nat) last).2) /\
  (forall k s s', sets !! k = Some s -> sets !! S k = Some s' -> retry_link w provider envs k s s') /\
  (provider = speedTestProviderSpeedtestRU ->
   forall i j si sj ci cj, (i < j)%nat -> sets !! i = Some si -> sets !! j = Some sj ->
     prepareSpeedTestRUConfigExcluding (ae_ru (envs i)) si = Ok ci ->
     prepareSpeedTestRUConfigExcluding (ae_ru (envs j)) sj = Ok cj ->
     cf_LatencyURL ci <> cf_LatencyURL cj).
Proof using Type*.
  intros Hperm Hplain. unfold runWithServerSelection.
  pose proof (server_selection_spec w 3 0 provider envs ∅ eq_refl ltac:(lia)) as Hspec.
  destruct (server_selection _ _ _ _ _ _) as [[updates sets] outcome].
  destruct Hspec as (last & _ & Hlen & Hlast & Hout & Hlink). cbn [Nat.add] in *.
  split; [by exists last|]. split; [done|]. intros -> i j si sj ci cj Hij Hi Hj Hpi Hpj Heq.
  destruct (ru_config_base _ _ _ (Hperm i) Hpi) as (itemsi & itemi & basei & Hni & Hini & Hbi & _ & Hli).
  destruct (ru_config_base _ _ _ (Hperm j) Hpj) as (itemsj & itemj & basej & Hnj & Hinj & Hbj & Hex & Hlj).
  destruct (Hplain _ _ _ _ Hni Hini Hbi) as (scheme & host & Hsite & Hhost & Hprint).
  destruct (Hplain _ _ _ _ Hnj Hinj Hbj) as (scheme' & host' & Hsite' & _ & Hprint').
  rewrite Hli, Hlj in Heq. rewrite Heq, Hsite' in Hsite. injection Hsite as -> ->. apply Hex.
  assert (Hmono : forall k s, sets !! k = Some s -> (i < k)%nat -> basej ∈ s); [|by apply (Hmono j)].
  intros k. induction k as [|k IH]; intros s Hk Hik; [lia|].
  assert (exists s0, sets !! k = Some s0) as [s0 H0].
  { apply lookup_lt_is_Some. apply lookup_lt_Some in Hk. lia. }
  destruct (Hlink _ _ _ H0 Hk) as (up & url & r & e & Hrun & _ & _ & _ & _ & _ & _ & ->).
  unfold exclude_site. rewrite bool_decide_true by done.
  destruct (decide (i = k)) as [->|].
  - rewrite Hi in H0. injection H0 as <-. unfold run_attempt, prepare_config in Hrun.
    rewrite bool_decide_true, Hpi in Hrun by done.
    destruct (runTunnelSpeedTest _ _ _) as [reports out]. injection Hrun as _ <- _ _.
    rewrite Hli, Heq, Hsite'. rewrite bool_decide_false by done. set_solver.
  - specialize (IH s0 H0 ltac:(lia)). repeat case_match; set_solver.
Qed.

End Servers.

(** ** Witnesses *)

Definition good_exchange : exchange := mkExchange None None 200 None None 3000000.
Definition good_transfer (size : Z) : transfer := mkTransfer None None false None 200 None size.

(** Two workers upload five bytes; the first try of the first one fails. *)
Definition two_uploads : phase_env :=
  mkPhaseEnv (fun _ => good_exchange) 0
    (fun w => mkWorkerEnv (fun _ => 1) (fun _ _ => 0)
       (fun _ attempt => if (w =? 0)%nat && (attempt =? 0)%nat
                         then mkTransfer None (Some EOF) false None 0 None 1
                         else good_transfer (if (w =? 0)%nat then 3 else 2))
       (fun _ _ => None) (fun _ _ => None))
    [1; 0]%nat (fun _ => None) [2] None None Second.

Definition two_workers : speedTestConfig :=
  cloudflareSpeedTestConfig <| cf_Workers := 2%nat |> <| cf_workerClients := 2%nat |>.

(** The byte of the failed try is counted, too. *)
Lemma phase_measures_witness :
  runSpeedTestPhase true two_uploads two_workers true 5 2 = ([2; 6], (6, Second, None)) /\
  sum ((fun i => mv_acked (wr_moved (phase_worker two_uploads two_workers true 5 2 i))) <$> seq 0 2) = 5.
Proof.
  assert (Hrun : runSpeedTestPhase true two_uploads two_workers true 5 2 = ([2; 6], (6, Second, None)))
    by (vm_compute; reflexivity).
  split; [exact Hrun|].
  destruct (phase_measures true two_uploads two_workers true 5 2 [2; 6] 6 Second) as (_ & _ & _ & H);
    [lia|lia|apply Permutation_swap|reflexivity|exact Hrun|].
  apply H; [reflexivity|]. intros [|[|i]] Hi; [vm_compute; reflexivity..|lia].
Defined.

(** A host name and a port, as they are. *)
#[local] Instance plain_urls : SpeedURLs := {|
  with_query := fun endpoint _ => Some endpoint;
  parse_source := fun s => Some (mkSource "http" s (fun host => "http://" +:+ host));
  site_of := fun s => Some ("http", string_drop 7 (string_of (take (length (bytes_of s) - 9) (bytes_of s))));
  print_site := fun scheme host => scheme +:+ "://" +:+ host
|}.

(** Two nearest servers; the first does not answer the test. *)
Definition two_servers : ru_env :=
  mkRUEnv (Ok [mkNearest "a" 80 "" "" ""; mkNearest "b" 80 "" "" ""]) (Ok "token")
    (fmap (fun s => mkRUProbe s 5 None)).

Definition retry_env (attempt : nat) : attempt_env :=
  mkAttempt two_servers
    (mkTestEnv false (fun _ => mkExchange None (Some EOF) 0 None None 0) (fun _ => good_exchange) two_uploads two_uploads)
    false true.

Lemma server_retries_witness :
  snd (fst (runWithServerSelection 32 "speedtest-ru" retry_env)) =
    [∅; {["http://a:80"]}; {["http://b:80"; "http://a:80"]}] /\
  retry_link 32 "speedtest-ru" retry_env 0 ∅ {["http://a:80"]}.
Proof.
  split; [vm_compute; reflexivity|].
  assert (Hperm : forall i l, (rp_server <$> rv_probes (ae_ru (retry_env i)) l) ≡ₚ l).
  { intros i l. cbn. rewrite <- list_fmap_compose. by induction l as [|x l IH]; cbn; [|rewrite IH]. }
  assert (Hplain : forall i items item base, rv_nearest (ae_ru (retry_env i)) = Ok items -> item ∈ items ->
     speedTestRUBaseURL (ns_Source item) (ns_Port item) = Some base -> plain_site base).
  { intros i items item base. cbn. intros [= <-] Hin.
    apply elem_of_cons in Hin as [->|[->|Hin%elem_of_nil]%elem_of_cons]; [..|done]; intros Hb; vm_compute in Hb;
      injection Hb as <-; eexists "http", _; (split; [vm_compute; reflexivity|]); by split; [|vm_compute]. }
  pose proof (server_retries 32 "speedtest-ru" retry_env Hperm Hplain) as H.
  assert (Hr : runWithServerSelection 32 "speedtest-ru" retry_env =
    ((runWithServerSelection 32 "speedtest-ru" retry_env).1.1,
     [∅; {["http://a:80"]}; {["http://b:80"; "http://a:80"]}],
     (runWithServerSelection 32 "speedtest-ru" retry_env).2)) by (vm_compute; reflexivity).
  rewrite Hr in H. destruct H as (_ & H & _). exact (H 0%nat _ _ eq_refl eq_refl).
Defined.
