(* ===== verification/SpeedService.v ===== *)
(** * The speed test as a service, and its connections: [speedtest.go],
    [speedtest_tls.go]

    The status under [s.mu], the operation coordinator, the goroutines of
    [execute] and the handlers of [DELETE] take their critical sections in any
    order ([speed_step]).  Then the race of at most two TLS handshakes. *)

From S2P Require Import Prelude GoStrings Process Operations Float64 SpeedTest.

#[local] Open Scope Z_scope.

(** ** The service *)

(** [sw_starting]: [execute] goroutines that have not called [Run] yet.
    [sw_jobs]: those that wait for their operation, with whether its function
    has made its last update.  [sw_deleting]: handlers of [DELETE] between
    [CancelKind] and their update. *)
Record speed_world := mkSpeedWorld {
  sw_status : speedTestStatus;
  sw_oc : operationCoordinator;
  sw_starting : list string;
  sw_jobs : list (nat * bool);
  sw_deleting : nat
}.
#[export] Instance speed_world_eta : Eta speed_world := fun s =>
  mkSpeedWorld (sw_status s) (sw_oc s) (sw_starting s) (sw_jobs s) (sw_deleting s).

Definition quiet_service : speed_world := mkSpeedWorld idle_status newOperationCoordinator [] [] 0.

(** The error [Run] returns for the coordinator's answer. *)
Definition answer_error (stall_text : Duration -> string) (e : op_error) : go_error :=
  match e with
  | OpCancelled => OperationCancelled
  | OpContext => Canceled
  | OpStalled limit => failure (stall_text limit)
  | OpFailed text => failure text
  end.

Definition active_id (c : operationCoordinator) : option nat := qo_id <$> oc_active c.

(** The function of job [id] is being executed and has not made its last
    update. *)
Definition working (s : speed_world) (id : nat) : Prop :=
  active_id (sw_oc s) = Some id /\ (id, false) ∈ sw_jobs s.

Definition set_done (id : nat) (jobs : list (nat * bool)) : list (nat * bool) :=
  (fun j => if bool_decide (j = (id, false)) then (id, true) else j) <$> jobs.

(** Sections that are not a [DELETE]. *)
Inductive speed_step (stall_text : Duration -> string) : speed_world -> speed_world -> Prop :=
| speed_post s running body now code launched status :
    handleSpeedTestPost running body now (sw_status s) = (code, launched, status) ->
    speed_step stall_text s (s <| sw_status := status |>
      <| sw_starting ::= fun l => if launched then l ++ [sp_Provider status] else l |>)
| speed_enqueue s i provider now id c :
    sw_starting s !! i = Some provider ->
    enqueue speedtest_request now (sw_oc s) = (Some id, c) ->
    speed_step stall_text s (s <| sw_oc := c |> <| sw_starting ::= delete i |>
      <| sw_jobs ::= fun l => l ++ [(id, false)] |>)
(** Other users of the coordinator and its goroutines.  The function of a test
    returns nil only after its last update. *)
| speed_coordinator s cmd :
    (match cmd with
     | CmdEnd FnOk => forall id, ~ working s id
     | CmdRun req _ => rq_Kind req <> "speedtest"
     | _ => True
     end) ->
    speed_step stall_text s (s <| sw_oc ::= fun c => op_step c cmd |>)
| speed_progress s id u :
    working s id -> speed_step stall_text s (s <| sw_status ::= apply_update u |>)
| speed_complete s id r bytes verified now :
    working s id ->
    speed_step stall_text s (s <| sw_status ::= complete r bytes verified now |> <| sw_jobs ::= set_done id |>)
| speed_answer s id b res now :
    (id, b) ∈ sw_jobs s -> (id, res) ∈ oc_results (sw_oc s) ->
    speed_step stall_text s (s
      <| sw_status ::= fun st => match res with
                                 | Some e => fail (answer_error stall_text e) now st
                                 | None => st
                                 end |>
      <| sw_jobs ::= filter (fun j => j <> (id, b)) |>).

(** [DELETE]: cancelling, and then saying so. *)
Inductive delete_step : speed_world -> speed_world -> Prop :=
| delete_cancel s now c :
    CancelKind "speedtest" now (sw_oc s) = (true, c) ->
    delete_step s (s <| sw_oc := c |> <| sw_deleting ::= S |>)
| delete_show s n :
    sw_deleting s = S n ->
    delete_step s (s <| sw_status ::= show_cancelling |> <| sw_deleting := n |>).

(** ** Answers of the coordinator *)

(** An operation is answered without an error only when its function returned
    without one. *)
Lemma op_step_none c cmd id :
  (id, None) ∈ oc_results (op_step c cmd) ->
  (id, None) ∈ oc_results c \/ (cmd = CmdEnd FnOk /\ active_id c = Some id).
Proof.
  assert (Hsnoc : forall l (x : nat * option op_error), (id, None) ∈ l ++ [x] -> x.2 <> None -> (id, None) ∈ l).
  { intros l x [H|<-]%elem_of_snoc Hx; done. }
  destruct cmd as [req now|i|i| |now|r|w i p now|w kind p now|i now|now|kind now]; cbn [op_step].
  - unfold enqueue. destruct (_ && _); by intros; left.
  - by intros; left.
  - unfold withdraw, removeQueued. case_bool_decide; [|by left].
    destruct (remove_first _ _) as [[op rest]|]; [|by left]. cbn. intros Hin. left. by eapply Hsnoc.
  - destruct (oc_taken c), (oc_active c); try by intros; left. unfold next.
    pose proof (next_loop_spec (length (oc_queue c)) (oc_cancelled c) (oc_queue c) (oc_dedupe c)
      (oc_results c) ltac:(done)) as Hs. destruct (next_loop _ _ _ _ _) as [[[op rest] dedupe'] results'].
    destruct Hs as (dropped & _ & _ & _ & _ & _ & -> & _). cbn. intros [Hin|Hin]%elem_of_app; [by left|].
    by apply list_elem_of_fmap in Hin as (? & ? & _).
  - destruct (oc_active c); [by intros; left|]. unfold executeBegin. destruct (oc_taken c); by intros; left.
  - unfold executeEnd, active_id. destruct (oc_active c) as [op|]; [|by left]. cbn.
    intros [Hin|Hin]%elem_of_snoc; [by left|]. revert Hin. case_bool_decide; [done|]. destruct r; try done.
    intros [= ->]. by right.
  - unfold report. destruct (oc_active c); [|by left]. destruct (_ =? _)%nat; by intros; left.
  - unfold Progress. destruct (oc_active c); [|by left]. case_bool_decide; by intros; left.
  - unfold stallCheck. destruct (oc_active c); [|by left]. destruct (_ && _); by intros; left.
  - unfold CancelActive. destruct (oc_active c); [|by left]. destruct (rq_Cancellable _); by intros; left.
  - unfold CancelKind, cancelQueued. destruct (oc_active c) as [op|].
    + destruct (kind_matches kind op); [by intros; left|]. destruct (remove_first _ _) as [[? ?]|]; [|by left].
      cbn. intros Hin. left. by eapply Hsnoc.
    + destruct (remove_first _ _) as [[? ?]|]; [|by left]. cbn. intros Hin. left. by eapply Hsnoc.
Qed.

Definition busy (s : speed_world) : bool := speedTestBusy (sp_State (sw_status s)).

(** Somebody will settle the test. *)
Definition outstanding (s : speed_world) : Prop :=
  sw_starting s <> [] \/ exists id, (id, false) ∈ sw_jobs s.

Definition service_inv (s : speed_world) : Prop :=
  oc_inv (sw_oc s) /\ (busy s = true -> outstanding s) /\
  (forall id, (id, false) ∈ sw_jobs s -> (id, None) ∉ oc_results (sw_oc s)).

Lemma quiet_inv : service_inv quiet_service.
Proof. split; [apply new_inv|]. split; [done|]. by intros id ?%elem_of_nil. Qed.

Lemma update_busy u s : speedTestBusy (sp_State (apply_update u s)) = true ->
  speedTestBusy (sp_State s) = true \/ sp_State (apply_update u s) = "running".
Proof. destruct u; auto. Qed.

Lemma speed_step_inv st s s' : speed_step st s s' -> service_inv s -> service_inv s'.
Proof.
  intros Hstep (Hoc & Hbusy & Hnone).
  destruct Hstep as [s running body now code launched status Hpost|s i provider now id c Hi Hq|s cmd Hcmd
    |s id u [Hact Hjob]|s id r bytes verified now [Hact Hjob]|s id b res now Hjob Hres].
  - split; [done|]. split; [|done]. intros Hb. destruct launched.
    + left. cbn. by destruct (sw_starting s).
    + apply Hbusy. revert Hpost Hb. unfold handleSpeedTestPost, start, busy. cbn.
      repeat case_match; intros; simplify_eq; done.
  - assert (Hoc' : oc_inv (op_step (sw_oc s) (CmdRun speedtest_request now))) by by apply op_step_inv.
    cbn [op_step] in Hoc'. rewrite Hq in Hoc'. split; [done|]. split.
    + intros _. right. exists id. apply elem_of_snoc. by right.
    + revert Hq. unfold enqueue. cbn. intros [= <- <-]. intros id [H|[= ->]]%elem_of_snoc; [by apply Hnone|].
      cbn. intros Hin. destruct Hoc as (_ & Hlt & _). unfold account in Hlt.
      apply Forall_app in Hlt as [_ Hlt]. rewrite Forall_fmap, Forall_forall in Hlt. specialize (Hlt _ Hin). cbn in Hlt. lia.
  - split; [by apply op_step_inv|]. split; [exact Hbusy|]. intros id Hjob Hin. cbn in Hjob, Hin.
    apply op_step_none in Hin as [Hin|[-> Hact]]; [by eapply Hnone|]. by apply (Hcmd id).
  - split; [done|]. split; [|done]. intros _. right. by exists id.
  - split; [done|]. split; [done|]. intros id' Hin. apply Hnone. cbn in Hin. unfold set_done in Hin.
    apply list_elem_of_fmap in Hin as ([id0 b0] & Heq & Hin). case_bool_decide; by simplify_eq.
  - split; [done|]. split.
    + intros Hb. destruct res as [e|].
      * revert Hb. unfold busy, fail. cbn. by destruct (cause _).
      * destruct (Hbusy Hb) as [Hs|[id' Hid']]; [by left|]. right. exists id'. cbn.
        apply list_elem_of_filter. split; [|done]. intros [= -> <-]. by apply (Hnone id).
    + intros id' Hin. cbn in Hin. apply list_elem_of_filter in Hin as [_ Hin]. by apply Hnone.
Qed.

(** C28. As long as nobody cancels it, the service is busy only while a
    goroutine is there that will settle the test: whatever the other operations
    do, however the coordinator ends the test's (done, failed, stalled), when
    none is left the next request is accepted. *)
Theorem speed_test_settles stall_text s :
  rtc (speed_step stall_text) quiet_service s ->
  (busy s = true -> outstanding s) /\
  (sw_starting s = [] -> (forall j, j ∈ sw_jobs s -> j.2 = true) ->
   forall provider now, validSpeedTestProvider provider = true ->
     (handleSpeedTestPost true (Provider provider) now (sw_status s)).1 = (202, true)).
Proof.
  intros Hsteps. assert (Hinv : service_inv s).
  { revert Hsteps. apply (rtc_ind_r (fun s => service_inv s)); [apply quiet_inv|].
    intros x y _ Hxy. by apply (speed_step_inv stall_text). }
  destruct Hinv as (_ & Hbusy & _). split; [done|]. intros Hs Hj provider now Hp.
  assert (Hfree : speedTestBusy (sp_State (sw_status s)) = false).
  { apply not_true_iff_false. intros [?|[id Hid]]%Hbusy; [done|]. by apply Hj in Hid. }
  unfold handleSpeedTestPost. cbn. rewrite Hp. cbn. unfold start. by rewrite Hfree.
Qed.

(** ** A cancellation that comes late *)

Definition other_kind (op : queuedOperation) : Prop := rq_Kind (qo_req op) <> "speedtest".

Lemma removed_kinds p queue op rest :
  remove_first p queue = Some (op, rest) -> Forall other_kind queue -> Forall other_kind (op :: rest).
Proof. intros Hr Hq. destruct (remove_first_Some _ _ _ _ Hr) as (_ & Hp & _). by rewrite <- Hp. Qed.

(** No command but a new test's brings a test into the coordinator. *)
Lemma op_step_kinds c cmd :
  (match cmd with CmdRun req _ => rq_Kind req <> "speedtest" | _ => True end) ->
  Forall other_kind (present c) -> Forall other_kind (present (op_step c cmd)).
Proof.
  unfold present. rewrite !Forall_app. intros Hcmd (Hq & Ht & Ha).
  destruct cmd as [req now|i|i| |now|r|w i p now|w kind p now|i now|now|kind now]; cbn [op_step].
  - unfold enqueue. destruct (_ && _); [done|]. cbn. rewrite Forall_app. split_and!; try done. by repeat constructor.
  - done.
  - unfold withdraw, removeQueued. case_bool_decide; [|done].
    destruct (remove_first _ _) as [[op rest]|] eqn:Hr; [|done]. cbn.
    by apply (removed_kinds _ _ _ _ Hr), Forall_cons in Hq as [_ ?].
  - destruct (oc_taken c) eqn:Htk, (oc_active c) eqn:Hac; try (by rewrite ?Htk, ?Hac). unfold next.
    pose proof (next_loop_spec (length (oc_queue c)) (oc_cancelled c) (oc_queue c) (oc_dedupe c)
      (oc_results c) ltac:(done)) as Hs. destruct (next_loop _ _ _ _ _) as [[[op rest] dedupe'] results'].
    destruct Hs as (dropped & _ & Hp & _). rewrite Hp, !Forall_app in Hq. cbn. rewrite Hac. naive_solver.
  - destruct (oc_active c) eqn:Hac; [by cbn; rewrite ?Hac|]. unfold executeBegin.
    destruct (oc_taken c) as [op|] eqn:Htk; [|by cbn; rewrite ?Hac, ?Htk]. cbn. split_and!; try done.
    apply Forall_cons in Ht as [Ht _]. by repeat constructor.
  - unfold executeEnd. destruct (oc_active c) eqn:Hac; [|by cbn; rewrite ?Hac]. by cbn.
  - unfold report. destruct (oc_active c) eqn:Hac; [|by cbn; rewrite ?Hac]. destruct (_ =? _)%nat; [|by cbn; rewrite ?Hac].
    split_and!; try done. apply Forall_cons in Ha as [Ha _]. by repeat constructor.
  - unfold Progress. destruct (oc_active c) eqn:Hac; [|by cbn; rewrite ?Hac]. case_bool_decide; [|by cbn; rewrite ?Hac].
    split_and!; try done. apply Forall_cons in Ha as [Ha _]. by repeat constructor.
  - unfold stallCheck. destruct (oc_active c) eqn:Hac; [|by cbn; rewrite ?Hac]. destruct (_ && _); [|by cbn; rewrite ?Hac].
    split_and!; try done. apply Forall_cons in Ha as [Ha _]. by repeat constructor.
  - unfold CancelActive. destruct (oc_active c) eqn:Hac; [|by cbn; rewrite ?Hac]. destruct (rq_Cancellable _); [|by cbn; rewrite ?Hac].
    split_and!; try done. apply Forall_cons in Ha as [Ha _]. by repeat constructor.
  - assert (Hcq : let c' := (cancelQueued kind c).2 in
      Forall other_kind (oc_queue c') /\ oc_taken c' = oc_taken c /\ oc_active c' = oc_active c).
    { unfold cancelQueued. destruct (remove_first _ _) as [[op rest]|] eqn:Hr; [|done]. cbn.
      by apply (removed_kinds _ _ _ _ Hr), Forall_cons in Hq as [_ ?]. }
    unfold CancelKind. destruct Hcq as (? & Htk' & Hac'). destruct (oc_active c) as [op|] eqn:Hac.
    + destruct (kind_matches kind op).
      * split_and!; try done. apply Forall_cons in Ha as [Ha _]. by repeat constructor.
      * by cbn; rewrite ?Htk', ?Hac'.
    + by cbn; rewrite ?Htk', ?Hac'.
Qed.

(** Busy, and nothing left that could change it. *)
Definition stuck (s : speed_world) : Prop :=
  busy s = true /\ sw_starting s = [] /\ sw_jobs s = [] /\ sw_deleting s = O /\
  Forall other_kind (present (sw_oc s)).

Lemma stuck_step stall_text s s' : speed_step stall_text s s' \/ delete_step s s' -> stuck s -> stuck s'.
Proof.
  intros Hstep (Hb & Hs & Hj & Hd & Hk).
  destruct Hstep as [Hstep|Hstep];
    [destruct Hstep as [s running body now code launched status Hpost|s i provider now id c Hi Hq|s cmd Hcmd
       |s id u [_ Hjob]|s id r bytes verified now [_ Hjob]|s id b res now Hjob Hres]
    |destruct Hstep as [s now c Hc|s n Hn]].
  - revert Hpost. unfold handleSpeedTestPost, start. unfold busy in Hb. rewrite Hb.
    destruct running; [|by intros [= <- <- <-]; destruct s]. destruct body as [| |p]; cbn.
    + intros [= <- <- <-]. by destruct s.
    + intros [= <- <- <-]. by destruct s.
    + destruct (validSpeedTestProvider p); intros [= <- <- <-]; by destruct s.
  - by rewrite Hs in Hi.
  - split_and!; try done. apply op_step_kinds; [|done]. by destruct cmd.
  - rewrite Hj in Hjob. by apply elem_of_nil in Hjob.
  - rewrite Hj in Hjob. by apply elem_of_nil in Hjob.
  - rewrite Hj in Hjob. by apply elem_of_nil in Hjob.
  - pose proof (CancelKind_spec "speedtest" now (sw_oc s)) as Hspec. rewrite Hc in Hspec.
    unfold present in Hk. rewrite !Forall_app in Hk. destruct Hk as (Hkq & _ & Hka).
    assert (Hno : forall op, other_kind op -> kind_matches "speedtest" op = true -> False).
    { intros op Ho Hm%andb_true_iff. destruct Hm as [Hm%bool_decide_eq_true _]. done. }
    destruct Hspec as [(op & Ha & Hm & _)|(l1 & op & l2 & Hq & _ & Hm & _)].
    + rewrite Ha in Hka. apply Forall_cons in Hka as [Hka _]. by destruct (Hno op).
    + rewrite Hq, Forall_app, Forall_cons in Hkq. destruct Hkq as (_ & Hko & _). by destruct (Hno op).
  - by rewrite Hd in Hn.
Qed.

Definition any_step (stall_text : Duration -> string) (s s' : speed_world) : Prop :=
  speed_step stall_text s s' \/ delete_step s s'.

(** [CancelKind] and the update that shows it are not one section: when the
    cancelled test has been answered before the handler of [DELETE] goes on,
    the status stays at "cancelling" for good, and no test can be started or
    cancelled until the program is restarted. *)
Theorem late_cancel_blocks_tests stall_text :
  exists s, rtc (any_step stall_text) quiet_service s /\ sp_State (sw_status s) = "cancelling" /\
    forall s', rtc (any_step stall_text) s s' ->
      busy s' = true /\ forall running body now, (handleSpeedTestPost running body now (sw_status s')).1 <> (202, true).
Proof.
  pose (s0 := quiet_service <| sw_status := (start "cloudflare" 1 idle_status).2 |> <| sw_starting := ["cloudflare"] |>).
  pose (c1 := (enqueue speedtest_request 2 newOperationCoordinator).2).
  pose (s1 := s0 <| sw_oc := c1 |> <| sw_starting := [] |> <| sw_jobs := [(1%nat, false)] |>).
  pose (c2 := (CancelKind "speedtest" 3 c1).2).
  pose (s2 := s1 <| sw_oc := c2 |> <| sw_deleting := 1%nat |>).
  pose (s3 := s2 <| sw_status ::= fail OperationCancelled 4 |> <| sw_jobs := [] |>).
  pose (s4 := s3 <| sw_status ::= show_cancelling |> <| sw_deleting := O |>).
  exists s4. split; [|split; [vm_compute; reflexivity|]].
  - eapply (rtc_l _ _ s0); [left; exact (speed_post stall_text quiet_service true NoBody 1 202 true _ eq_refl)|].
    eapply (rtc_l _ _ s1); [left; exact (speed_enqueue stall_text s0 0 "cloudflare" 2 1 c1 eq_refl eq_refl)|].
    eapply (rtc_l _ _ s2); [right; exact (delete_cancel s1 3 c2 eq_refl)|].
    eapply (rtc_l _ _ s3); [left|apply rtc_once; right; exact (delete_show s3 0 eq_refl)].
    apply (speed_answer stall_text s2 1 false (Some OpCancelled) 4); vm_compute; by left.
  - intros s' Hsteps. assert (Hstuck : stuck s').
    { revert Hsteps. apply (rtc_ind_r stuck).
      - split_and!; try (vm_compute; reflexivity). vm_compute. constructor.
      - intros x y _ Hxy. by apply (stuck_step stall_text). }
    destruct Hstuck as (Hb & _). split; [done|]. intros running body now. unfold handleSpeedTestPost, start.
    unfold busy in Hb. rewrite Hb. by repeat case_match; intros [=].
Qed.

(** ** Racing two handshakes *)

(** An attempt is its goroutine: dialling and shaking hands, holding its result
    for the channel, or finished.  Its connection has its number. *)
Inductive dial_state := Dialing | Holding (err : option go_error) | Over.

(** [ra_open]: the connections that are open; [ra_ctx] is [ctx.Err()] before
    the deferred [cancel]; [ra_pending], [ra_attempts] and [ra_firstErr] are the
    variables of the loop, [ra_out] its return. *)
Record race := mkRace {
  ra_dials : list dial_state;
  ra_open : list nat;
  ra_ctx : option go_error;
  ra_fired : bool;
  ra_pending : nat;
  ra_attempts : nat;
  ra_firstErr : option go_error;
  ra_out : option (result go_error nat)
}.
#[export] Instance race_eta : Eta race := fun r =>
  mkRace (ra_dials r) (ra_open r) (ra_ctx r) (ra_fired r) (ra_pending r) (ra_attempts r) (ra_firstErr r) (ra_out r).

(** [start()] *)
Definition start_dial (r : race) : race := r <| ra_dials ::= fun l => l ++ [Dialing] |>.

Definition new_race : race := start_dial (mkRace [] [] None false 1 1 None None).

(** The spare attempt. *)
Definition start_spare (r : race) : race :=
  if (ra_attempts r =? 1)%nat
  then start_dial (r <| ra_attempts ::= S |> <| ra_pending ::= S |>)
  else r.

Definition close_conn (i : nat) (open : list nat) : list nat := filter (fun j => j <> i) open.

(** The case of the loop for the result of attempt [i]. *)
Definition receive (i : nat) (err : option go_error) (r : race) : race :=
  let r := r <| ra_pending ::= pred |> in
  match err with
  | None =>
      match ra_ctx r with
      | Some e => r <| ra_open ::= close_conn i |> <| ra_out := Some (Err e) |>
      | None => r <| ra_out := Some (Ok i) |>
      end
  | Some e =>
      if negb (speedTestRetryableError e) then r <| ra_out := Some (Err e) |>
      else
        let first := match ra_firstErr r with Some f => f | None => e end in
        let r := start_spare (r <| ra_firstErr := Some first |>) in
        if (ra_pending r =? 0)%nat then r <| ra_out := Some (Err first) |> else r
  end.

Definition ctx_over (r : race) : bool := bool_decide (is_Some (ra_ctx r)) || bool_decide (is_Some (ra_out r)).

Inductive race_step : race -> race -> Prop :=
(** An attempt ends: a failed handshake has closed its connection. *)
| race_shaken r i err :
    ra_dials r !! i = Some Dialing ->
    race_step r (r <| ra_dials ::= <[i := Holding err]> |>
                   <| ra_open ::= fun l => match err with None => l ++ [i] | Some _ => l end |>)
| race_context r e :
    race_step r (r <| ra_ctx ::= fun c => match c with Some c => Some c | None => Some e end |>)
| race_ctx_done r e :
    ra_out r = None -> ra_ctx r = Some e -> race_step r (r <| ra_out := Some (Err e) |>)
| race_timer r :
    ra_out r = None -> ra_fired r = false -> race_step r (start_spare (r <| ra_fired := true |>))
| race_result r i err :
    ra_out r = None -> ra_dials r !! i = Some (Holding err) ->
    race_step r (receive i err (r <| ra_dials ::= <[i := Over]> |>))
(** The other branch of an attempt's [select]. *)
| race_drop r i err :
    ra_dials r !! i = Some (Holding err) -> ctx_over r = true ->
    race_step r (r <| ra_dials ::= <[i := Over]> |>
                   <| ra_open ::= fun l => match err with None => close_conn i l | Some _ => l end |>).

Definition unfinished (d : dial_state) : bool := match d with Over => false | _ => true end.

(** A connection is open exactly while its attempt holds it or the caller got
    it; and the loop counts the attempts that can still answer. *)
Definition race_core (r : race) : Prop :=
  NoDup (ra_open r) /\
  (forall i, i ∈ ra_open r <-> ra_dials r !! i = Some (Holding None) \/ ra_out r = Some (Ok i)) /\
  (forall i, ra_out r = Some (Ok i) -> ra_dials r !! i = Some Over) /\
  (length (ra_dials r) <= 2)%nat /\
  ra_attempts r = length (ra_dials r) /\
  (ra_out r = None -> ra_ctx r = None ->
     ra_pending r = length (filter (fun d => unfinished d = true) (ra_dials r))).

(** Without a return and with time left the loop waits for somebody. *)
Definition race_waits (r : race) : Prop := ra_out r = None -> ra_ctx r = None -> (0 < ra_pending r)%nat.

Lemma unfinished_insert (l : list dial_state) i d d' :
  l !! i = Some d ->
  (length (filter (fun d => unfinished d = true) (<[i := d']> l)) + (if unfinished d then 1 else 0) =
   length (filter (fun d => unfinished d = true) l) + (if unfinished d' then 1 else 0))%nat.
Proof.
  intros Hi. rewrite insert_take_drop by by eapply lookup_lt_Some.
  rewrite <- (take_drop_middle _ _ _ Hi) at 3. rewrite !filter_app, !filter_cons, !length_app.
  destruct (unfinished d) eqn:Hd, (unfinished d') eqn:Hd'; repeat case_decide; cbn; try done; lia.
Qed.

Lemma unfinished_dialing l :
  length (filter (fun d => unfinished d = true) (l ++ [Dialing])) =
  S (length (filter (fun d => unfinished d = true) l)).
Proof. rewrite filter_app, length_app, filter_cons, decide_True by done. cbn. lia. Qed.

Lemma spare_core r : race_core r -> ra_out r = None -> race_core (start_spare r).
Proof.
  intros Hinv Hout. pose proof Hinv as (Hnd & Hopen & Hok & Hlen & Hatt & Hpend). unfold start_spare.
  destruct (Nat.eqb_spec (ra_attempts r) 1) as [H1|]; [|done].
  rewrite H1 in Hatt. destruct (ra_dials r) as [|d [|]] eqn:Hd; try done.
  unfold race_core. cbn. rewrite Hd, Hout in *. split_and!; try done; try lia.
  - intros i. rewrite Hopen. destruct i as [|[|[|]]]; naive_solver.
  - cbn. by rewrite H1.
  - intros _ Hctx. by rewrite (Hpend eq_refl Hctx), unfinished_dialing.
Qed.

Lemma close_conn_spec i j l : j ∈ close_conn i l <-> j <> i /\ j ∈ l.
Proof. unfold close_conn. by rewrite list_elem_of_filter. Qed.

(** Taking a held result out of its attempt. *)
Lemma taken_core r i err out open :
  race_core r -> ra_out r = None -> ra_dials r !! i = Some (Holding err) ->
  (err = None -> out = Some (Ok i) /\ open = ra_open r \/ (exists e, out = Some (Err e)) /\ open = close_conn i (ra_open r)) ->
  (err <> None -> open = ra_open r /\ forall j, out <> Some (Ok j)) ->
  forall pending first, (out = None -> ra_ctx r = None -> pending = pred (ra_pending r)) ->
  race_core (mkRace (<[i := Over]> (ra_dials r)) open (ra_ctx r) (ra_fired r) pending (ra_attempts r) first out).
Proof.
  intros (Hnd & Hopen & Hok & Hlen & Hatt & Hpend) Hout Hi Hn Hs pending first Hp.
  assert (Hlt : (i < length (ra_dials r))%nat) by by eapply lookup_lt_Some.
  assert (Hsub : forall j, j <> i -> (<[i := Over]> (ra_dials r)) !! j = ra_dials r !! j)
    by (intros j Hj; by apply list_lookup_insert_ne).
  assert (Hat : (<[i := Over]> (ra_dials r)) !! i = Some Over) by by apply list_lookup_insert_eq.
  unfold race_core. cbn. rewrite length_insert. rewrite Hout in *. split_and!; try done.
  - destruct err; [by destruct (Hs ltac:(done)) as [-> _]|].
    destruct (Hn eq_refl) as [[_ ->]|[_ ->]]; [done|]. by apply NoDup_filter.
  - intros j. destruct (decide (j = i)) as [->|Hj].
    + rewrite Hat. destruct err as [e|].
      * destruct (Hs ltac:(done)) as [-> Hno]. rewrite Hopen, Hi. naive_solver.
      * destruct (Hn eq_refl) as [[-> ->]|[[e ->] ->]]; [rewrite Hopen, Hi|rewrite close_conn_spec]; naive_solver.
    + rewrite Hsub by done. destruct err as [e|].
      * destruct (Hs ltac:(done)) as [-> Hno]. rewrite Hopen. naive_solver.
      * destruct (Hn eq_refl) as [[-> ->]|[[e ->] ->]]; [|rewrite close_conn_spec]; rewrite Hopen; naive_solver.
  - intros j ->. destruct err as [e|]; [by destruct (proj2 (Hs ltac:(done)) j)|].
    destruct (Hn eq_refl) as [[[= ->] _]|[[e [=]] _]]. done.
  - intros Ho Hc. rewrite (Hp Ho Hc). rewrite (Hpend eq_refl Hc).
    pose proof (unfinished_insert _ _ _ Over Hi) as Hu. cbn in Hu. lia.
Qed.

Lemma receive_inv i err r :
  race_core r -> ra_out r = None -> ra_dials r !! i = Some (Holding err) ->
  race_core (receive i err (r <| ra_dials ::= <[i := Over]> |>)) /\
  race_waits (receive i err (r <| ra_dials ::= <[i := Over]> |>)).
Proof.
  intros Hinv Hout Hi. pose proof (taken_core r i err) as Htaken. destruct r as [ds op ctx fired pend att first out].
  cbn [ra_dials ra_open ra_ctx ra_fired ra_pending ra_attempts ra_firstErr ra_out] in *. subst out.
  unfold receive. destruct err as [e|].
  - assert (Hrest : forall out first', (forall j, out <> Some (Ok j)) ->
      race_core (mkRace (<[i := Over]> ds) op ctx fired (pred pend) att first' out)).
    { intros out first' Ho. by apply (Htaken out op). }
    destruct (negb (speedTestRetryableError e)).
    + split; [by apply (Hrest (Some (Err e)))|by intros ?].
    + cbv zeta. set (f := match ra_firstErr _ with Some f => f | None => e end). clearbody f.
      pose proof (spare_core _ (Hrest None (Some f) ltac:(done)) eq_refl) as Hsp.
      change (mkRace _ _ _ _ _ _ _ _ <| ra_firstErr := Some f |>) with
        (mkRace (<[i := Over]> ds) op ctx fired (pred pend) att (Some f) None).
      set (r' := start_spare _) in *. assert (Hr' : ra_out r' = None).
      { unfold r', start_spare. by destruct (_ =? _)%nat. }
      destruct (Nat.eqb_spec (ra_pending r') 0) as [|Hne].
      * split; [|by intros ?]. destruct r' as [ds' op' ctx' fired' pend' att' first' out'].
        cbn in Hr'. subst out'. destruct Hsp as (? & Hop & ? & ? & ? & ?). split_and!; try done.
        intros j. rewrite Hop. cbn. naive_solver.
      * split; [done|]. intros _ _. lia.
  - destruct ctx as [e|].
    + split; [|by intros ?]. apply (Htaken (Some (Err e))); [done|done|done|intros _; right|done|done].
      split; [by eexists|done].
    + split; [|by intros ?]. apply (Htaken (Some (Ok i)) op); [done|done|done|by intros _; left|done|done].
Qed.

Lemma race_shaken_inv r i err :
  race_core r /\ race_waits r -> ra_dials r !! i = Some Dialing ->
  let r' := r <| ra_dials ::= <[i := Holding err]> |>
              <| ra_open ::= fun l => match err with None => l ++ [i] | Some _ => l end |> in
  race_core r' /\ race_waits r'.
Proof.
  destruct r as [ds op ctx fired pend att first out]. unfold race_core, race_waits.
  cbn. intros [(Hnd & Hopen & Hok & Hlen & Hatt & Hpend) Hw] Hi.
  assert (Hlt : (i < length ds)%nat) by by eapply lookup_lt_Some.
  assert (Hno : i ∉ op). { rewrite Hopen, Hi. intros [?|H]; [done|]. apply Hok in H. congruence. }
  pose proof (unfinished_insert _ _ _ (Holding err) Hi) as Hu. cbn in Hu.
  rewrite length_insert. split; [|done]. split_and!; try done.
  - destruct err; [done|]. by apply NoDup_snoc.
  - intros j. assert (Hj : j ∈ match err with None => op ++ [i] | Some _ => op end <->
      j ∈ op \/ (err = None /\ j = i)) by (destruct err; [|rewrite elem_of_snoc]; naive_solver).
    rewrite Hj, Hopen. destruct (decide (j = i)) as [->|].
    + rewrite list_lookup_insert_eq, Hi by done. destruct err; naive_solver.
    + rewrite list_lookup_insert_ne by done. naive_solver.
  - intros j Hj. destruct (decide (j = i)) as [->|]; [apply Hok in Hj; congruence|].
    rewrite list_lookup_insert_ne by done. by apply Hok.
  - intros Ho Hc. rewrite (Hpend Ho Hc). lia.
Qed.

Lemma race_drop_inv r i err :
  race_core r -> ra_dials r !! i = Some (Holding err) -> ctx_over r = true ->
  let r' := r <| ra_dials ::= <[i := Over]> |>
              <| ra_open ::= fun l => match err with None => close_conn i l | Some _ => l end |> in
  race_core r' /\ race_waits r'.
Proof.
  destruct r as [ds op ctx fired pend att first out]. unfold race_core, race_waits, ctx_over.
  cbn. intros (Hnd & Hopen & Hok & Hlen & Hatt & Hpend) Hi Hover.
  assert (Hlt : (i < length ds)%nat) by by eapply lookup_lt_Some.
  assert (Hctx : out = None -> ctx = None -> False) by by intros -> ->.
  assert (Hout : out <> Some (Ok i)). { intros H. apply Hok in H. congruence. }
  rewrite length_insert. split; [|intros Ho Hc; by destruct (Hctx Ho Hc)]. split_and!; try done.
  - destruct err; [done|]. by apply NoDup_filter.
  - intros j. assert (Hj : j ∈ match err with None => close_conn i op | Some _ => op end <->
      j ∈ op /\ (err = None -> j <> i)) by (destruct err; [|rewrite close_conn_spec]; naive_solver).
    rewrite Hj, Hopen. destruct (decide (j = i)) as [->|].
    + rewrite list_lookup_insert_eq, Hi by done. destruct err; naive_solver.
    + rewrite list_lookup_insert_ne by done. naive_solver.
  - intros j Hj. destruct (decide (j = i)) as [->|]; [done|].
    rewrite list_lookup_insert_ne by done. by apply Hok.
  - intros Ho Hc. by destruct (Hctx Ho Hc).
Qed.

Lemma race_step_inv r r' : race_step r r' -> race_core r /\ race_waits r -> race_core r' /\ race_waits r'.
Proof.
  intros Hstep [Hcore Hw]. destruct Hstep as [r i err Hi|r e|r e Ho Hc|r Ho Hf|r i err Ho Hi|r i err Hi Hover].
  - by apply race_shaken_inv.
  - destruct r as [ds op ctx fired pend att first out], Hcore as (? & ? & ? & ? & ? & ?).
    split; [split_and!; try done|]; cbn; destruct ctx; done.
  - destruct r as [ds op ctx fired pend att first out], Hcore as (? & Hopen & ? & ? & ? & ?). cbn in *. subst.
    split; [split_and!; try done|done]. intros j. rewrite Hopen. naive_solver.
  - assert (Hcore' : race_core (r <| ra_fired := true |>)) by by destruct r.
    split; [by apply spare_core|]. unfold start_spare. destruct (_ =? _)%nat; [|exact Hw].
    intros _ _. cbn. lia.
  - by apply receive_inv.
  - by apply race_drop_inv.
Qed.

(** C26. Racing the handshakes of a measured connection: at most two are ever
    dialled; while there is time and nothing is returned, an attempt is there
    that can still answer; and once every attempt is over, exactly the
    connection handed to the caller is open, none when an error was returned,
    whatever order results, timer, cancellation and deadline come in. *)
Theorem race_sound r :
  rtc race_step new_race r ->
  (length (ra_dials r) <= 2)%nat /\
  (ra_out r = None -> ra_ctx r = None -> exists i d, ra_dials r !! i = Some d /\ d <> Over) /\
  (forall i, ra_out r = Some (Ok i) -> i ∈ ra_open r) /\
  (Forall (fun d => d = Over) (ra_dials r) ->
   ra_open r = match ra_out r with Some (Ok i) => [i] | _ => [] end).
Proof.
  intros Hsteps. assert (Hinv : race_core r /\ race_waits r).
  { revert Hsteps. apply (rtc_ind_r (fun r => race_core r /\ race_waits r)).
    - split; [|by intros _ _; cbn; lia].
      split; [apply NoDup_nil_2|]. split; [|split_and!; try done; cbn; lia]. intros i. cbn.
      destruct i as [|[|]]; split; try (by intros ?%elem_of_nil); naive_solver.
    - intros x y _. apply race_step_inv. }
  destruct Hinv as [(Hnd & Hopen & Hok & Hlen & _ & Hpend) Hw]. split; [done|]. split; [|split].
  - intros Ho Hc. specialize (Hw Ho Hc). rewrite (Hpend Ho Hc) in Hw.
    destruct (filter _ (ra_dials r)) as [|d l] eqn:Hf; [cbn in Hw; lia|].
    assert (Hd : d ∈ filter (fun d => unfinished d = true) (ra_dials r)) by (rewrite Hf; by left).
    apply list_elem_of_filter in Hd as [Hu Hd]. apply list_elem_of_lookup in Hd as [i Hi].
    exists i, d. split; [done|]. by destruct d.
  - intros i Hi. apply Hopen. by right.
  - intros Hall. rewrite Forall_lookup in Hall.
    assert (Hin : forall j, j ∈ ra_open r <-> ra_out r = Some (Ok j)).
    { intros j. rewrite Hopen. split; [|by right]. intros [Hj|]; [|done]. by apply Hall in Hj. }
    destruct (ra_open r) as [|j l] eqn:Hl.
    + destruct (ra_out r) as [[i|]|]; try done.
      pose proof (proj2 (Hin i) eq_refl) as Hi. by apply elem_of_nil in Hi.
    + assert (Hj : ra_out r = Some (Ok j)) by (apply Hin; by left). rewrite Hj. destruct l as [|k l]; [done|].
      assert (Hk : ra_out r = Some (Ok k)) by (apply Hin; right; by left). rewrite Hj in Hk. injection Hk as ->.
      apply NoDup_cons in Hnd as [Hnd _]. by destruct Hnd; left.
Qed.

(** [dialSpeedTestTLS] before the race: the context, the address (the host of
    [net.SplitHostPort]) and the name the certificate is checked against. *)
Definition dialSpeedTestTLS (ctxErr : option go_error) (split : result go_error string) (serverName : string)
  : result go_error string :=
  match ctxErr with
  | Some e => Err e
  | None => let! host := split in Ok (if bool_decide (serverName = "") then host else serverName)
  end.

(** ** Witnesses *)

(** A test is queued, run and fails; then nothing is left of it. *)
Definition failed_service : speed_world :=
  mkSpeedWorld (fail (failure "EOF") 9 (start "cloudflare" 1 idle_status).2)
    (foldl op_step newOperationCoordinator
       [CmdRun speedtest_request 2; CmdNext; CmdBegin 3; CmdEnd (FnFailed "EOF")]) [] [] 0.

Lemma failed_service_runs stall_text : rtc (speed_step stall_text) quiet_service failed_service.
Proof.
  eapply rtc_l; [exact (speed_post stall_text quiet_service true NoBody 1 202 true _ eq_refl)|].
  eapply rtc_l; [eapply (speed_enqueue stall_text _ 0 "cloudflare" 2); reflexivity|].
  eapply rtc_l; [by apply (speed_coordinator stall_text _ CmdNext)|].
  eapply rtc_l; [by apply (speed_coordinator stall_text _ (CmdBegin 3))|].
  eapply rtc_l; [by apply (speed_coordinator stall_text _ (CmdEnd (FnFailed "EOF")))|].
  eapply rtc_l; [eapply (speed_answer stall_text _ 1 false (Some (OpFailed "EOF")) 9); vm_compute; by left|].
  vm_compute. apply rtc_refl.
Qed.

Lemma speed_test_settles_witness :
  sp_State (sw_status failed_service) = "error" /\
  (handleSpeedTestPost true (Provider "speedtest-ru") 10 (sw_status failed_service)).1 = (202, true).
Proof.
  split; [reflexivity|].
  refine (proj2 (speed_test_settles (fun _ => "") failed_service (failed_service_runs _)) eq_refl _ "speedtest-ru" 10 eq_refl).
  intros j Hj. by apply elem_of_nil in Hj.
Defined.

(** The first handshake is late; the spare one wins, and the first connection
    is closed when it comes. *)
Definition spare_wins : race := mkRace [Over; Over] [1]%nat None true 1 2 None (Some (Ok 1%nat)).

Lemma spare_wins_runs : rtc race_step new_race spare_wins.
Proof.
  eapply rtc_l; [by apply (race_timer new_race)|].
  eapply rtc_l; [by apply (race_shaken _ 1 None)|].
  eapply rtc_l; [by apply (race_result _ 1 None)|].
  eapply rtc_l; [by apply (race_shaken _ 0 None)|].
  eapply rtc_l; [by apply (race_drop _ 0 None)|].
  vm_compute. apply rtc_refl.
Qed.

Lemma race_sound_witness : ra_open spare_wins = [1]%nat /\ (length (ra_dials spare_wins) <= 2)%nat.
Proof.
  destruct (race_sound spare_wins spare_wins_runs) as (Hlen & _ & _ & Hopen).
  split; [|exact Hlen]. apply Hopen. repeat constructor.
Defined.
