(* ===== verification/Files.v ===== *)
(** * Files that survive a crash: [writeJSONAtomic] of [config.go],
    [core_migration.go], the device identifier of [subscriptions.go]

    The data directory is a directory of names over inodes.  A write changes an
    inode in memory; only [fsync] makes its contents durable; the directory is
    never synchronised, so that a crash may bring back any directory there was
    since the start of the system, in which inodes that were not synchronised
    hold anything.  Directory operations reach the disk in their order, as
    journaling file systems keep them.  Every call can fail, a write half-way. *)

From Stdlib Require Import Ascii.
From S2P Require Import Prelude GoStrings Encoding Servers Subscriptions.

(** ** The directory *)

Record disk := mkDisk {
  dk_dir : gmap string nat;
  dk_data : gmap nat string;
  dk_synced : gset nat;
  dk_next : nat;
  dk_past : list (gmap string nat)
}.
#[export] Instance disk_eta : Eta disk := fun d =>
  mkDisk (dk_dir d) (dk_data d) (dk_synced d) (dk_next d) (dk_past d).

Definition set_dir (dir : gmap string nat) (d : disk) : disk :=
  mkDisk dir (dk_data d) (dk_synced d) (dk_next d) (dk_dir d :: dk_past d).

Definition read_file (name : string) (d : disk) : option string :=
  dk_dir d !! name ≫= fun i => dk_data d !! i.

(** A new file; its inode is [dk_next]. *)
Definition create (name : string) (d : disk) : disk :=
  let i := dk_next d in
  set_dir (<[name := i]> (dk_dir d))
    (d <| dk_data ::= <[i := ""]> |> <| dk_next := S i |>).

Definition write (i : nat) (text : string) (d : disk) : disk := d <| dk_data ::= <[i := text]> |>.
Definition sync (i : nat) (d : disk) : disk := d <| dk_synced ::= fun s => {[i]} ∪ s |>.
Definition remove (name : string) (d : disk) : disk := set_dir (delete name (dk_dir d)) d.
Definition rename (from to : string) (d : disk) : disk :=
  match dk_dir d !! from with
  | Some i => set_dir (<[to := i]> (delete from (dk_dir d))) d
  | None => d
  end.
Definition link (from to : string) (d : disk) : disk :=
  match dk_dir d !! from with
  | Some i => set_dir (<[to := i]> (dk_dir d)) d
  | None => d
  end.

(** ** Writing a temporary file *)

(** What the calls of one save answer; [so_write] is how many bytes went before
    the error. *)
Record save_outcomes := mkSave {
  so_read : bool;
  so_mkdir : bool;
  so_create : bool;
  so_chmod : bool;
  so_write : option nat;
  so_sync : bool;
  so_close : bool;
  so_publish : bool;
  so_remove : bool
}.

(** The first part of both routines: the states after each call, and whether
    all of them succeeded. *)
Definition fill_temp (chmod : bool) (o : save_outcomes) (tmp text : string) (d : disk) : bool * list disk :=
  let i := dk_next d in
  let d1 := create tmp d in
  if negb chmod then (false, [d1])
  else
    match so_write o with
    | Some n => (false, [d1; write i (String.substring 0 n text) d1])
    | None =>
        let d2 := write i text d1 in
        if negb (so_sync o) then (false, [d1; d2])
        else
          let d3 := sync i d2 in
          (so_close o, [d1; d2; d3])
    end.

(** [defer os.Remove(tmp)] *)
Definition remove_temp (o : save_outcomes) (tmp : string) (d : disk) : list disk :=
  if so_remove o && bool_decide (is_Some (dk_dir d !! tmp)) then [remove tmp d] else [].

Definition last_disk (d : disk) (trace : list disk) : disk := foldl (fun _ x => x) d trace.

Definition temp_name (base suffix : string) : string := "." +:+ base +:+ ".tmp-" +:+ suffix.

(** [writeJSONAtomic]: success, and the states along the way.  [text] is the
    printed value; [suffix] is what [os.CreateTemp] adds, to a name that is
    not there. *)
Definition writeJSONAtomic (o : save_outcomes) (text : option string) (name suffix : string) (d : disk)
  : bool * list disk :=
  match text with
  | None => (false, [])
  | Some text =>
      if so_read o && bool_decide (read_file name d = Some text) then (true, [])
      else if negb (so_mkdir o) || negb (so_create o) then (false, [])
      else
        let tmp := temp_name name suffix in
        let '(ok, trace) := fill_temp (so_chmod o) o tmp text d in
        let d' := last_disk d trace in
        if ok && so_publish o then (true, trace ++ [rename tmp name d'])
        else (false, trace ++ remove_temp o tmp d')
  end.

(** ** The copies before the first migration *)

Definition backup_name (name : string) : string := name +:+ ".before-xray".
Definition core_temp_name (suffix : string) : string := ".core-backup-" +:+ suffix.

(** [writeCoreBackup]; a copy that is there already is kept. *)
Definition writeCoreBackup (o : save_outcomes) (backup text suffix : string) (d : disk) : bool * list disk :=
  if negb (so_create o) then (false, [])
  else
    let tmp := core_temp_name suffix in
    let '(ok, trace) := fill_temp true o tmp text d in
    let d' := last_disk d trace in
    if negb ok then (false, trace ++ remove_temp o tmp d')
    else if bool_decide (is_Some (dk_dir d' !! backup)) then (true, trace ++ remove_temp o tmp d')
    else if so_publish o then
      let d'' := link tmp backup d' in
      (true, trace ++ d'' :: remove_temp o tmp d'')
    else (false, trace ++ remove_temp o tmp d').

(** The calls for one of the two files; the flags: [os.Lstat] and
    [os.ReadFile] do not fail on files that are there. *)
Record backup_outcomes := mkBackup { bo_lstat : bool; bo_read : bool; bo_save : save_outcomes; bo_suffix : string }.

Definition backup_file (name : string) (o : backup_outcomes) (d : disk) : bool * list disk :=
  if negb (bo_lstat o) then (false, [])
  else if bool_decide (is_Some (dk_dir d !! backup_name name)) then (true, [])
  else
    match dk_dir d !! name with
    | None => (true, [])
    | Some _ =>
        match (if bo_read o then read_file name d else None) with
        | None => (false, [])
        | Some text => writeCoreBackup (bo_save o) (backup_name name) text (bo_suffix o) d
        end
    end.

Definition backed_up : list string := ["config.json"; "subscriptions.json"].

Fixpoint backup_files (names : list string) (o : string -> backup_outcomes) (d : disk) : bool * list disk :=
  match names with
  | [] => (true, [])
  | name :: names =>
      match backup_file name (o name) d with
      | (false, trace) => (false, trace)
      | (true, trace) =>
          let '(ok, later) := backup_files names o (last_disk d trace) in
          (ok, trace ++ later)
      end
  end.

Definition backupBeforeXray (o : string -> backup_outcomes) (d : disk) : bool * list disk :=
  backup_files backed_up o d.

(** ** What a crash leaves *)

Inductive content := Absent | Garbage | Content (text : string).

(** A name as a crash shows it, should it bring back the directory [dir]. *)
Definition view (d : disk) (dir : gmap string nat) (name : string) : content :=
  match dir !! name with
  | None => Absent
  | Some i =>
      if bool_decide (i ∈ dk_synced d)
      then match dk_data d !! i with Some text => Content text | None => Garbage end
      else Garbage
  end.

Definition directories (d : disk) : list (gmap string nat) := dk_dir d :: dk_past d.

(** The disk after a crash: durable contents are kept, the rest is anything. *)
Definition after_crash (d d' : disk) : Prop :=
  (exists dir, dir ∈ directories d /\ dk_dir d' = dir) /\ dk_past d' = [] /\ (dk_next d <= dk_next d')%nat /\
  (forall i, i ∈ dk_synced d -> i ∈ dk_synced d' /\ dk_data d' !! i = dk_data d !! i) /\
  (forall i, i ∈ dk_synced d' -> (i < dk_next d')%nat).

Definition is_temp (name : string) : bool := HasPrefix name ".".

(** A property of what a crash shows that does not speak of temporary files and
    promises nothing about files with unknown contents. *)
Definition promise (P : (string -> content) -> Prop) : Prop :=
  forall v v', (forall n, is_temp n = true \/ v n = Garbage \/ v' n = v n) -> P v -> P v'.

Definition everywhere (P : (string -> content) -> Prop) (d : disk) : Prop :=
  forall dir, dir ∈ directories d -> P (view d dir).

(** Inodes in use have numbers below the next one. *)
Definition disk_wf (d : disk) : Prop :=
  (forall dir name i, dir ∈ directories d -> dir !! name = Some i -> (i < dk_next d)%nat) /\
  (forall i, i ∈ dk_synced d -> (i < dk_next d)%nat).

Definition put (name text : string) (v : string -> content) : string -> content :=
  fun n => if bool_decide (n = name) then Content text else v n.

(** ** Lemmas *)

Lemma temp_name_temp base suffix : is_temp (temp_name base suffix) = true.
Proof. unfold is_temp, temp_name, HasPrefix. by destruct base. Qed.

Lemma core_temp_name_temp suffix : is_temp (core_temp_name suffix) = true.
Proof. done. Qed.

Lemma directories_create name d : directories (create name d) = <[name := dk_next d]> (dk_dir d) :: directories d.
Proof. done. Qed.

Lemma directories_set dir d : directories (set_dir dir d) = dir :: directories d.
Proof. done. Qed.

(** A directory changed in temporary names only. *)
Lemma view_temps (P : (string -> content) -> Prop) d d' dir dir' :
  promise P ->
  (forall n, is_temp n = false -> dir' !! n = dir !! n) ->
  (forall i, i ∈ dk_synced d -> i ∈ dk_synced d' /\ dk_data d' !! i = dk_data d !! i) ->
  P (view d dir) -> P (view d' dir').
Proof.
  intros HP Hdir Hsync. apply HP. intros n. destruct (is_temp n) eqn:Ht; [by left|]. right.
  unfold view. rewrite Hdir by done. destruct (dir !! n) as [i|]; [|by right].
  destruct (bool_decide_reflect (i ∈ dk_synced d)) as [Hi|]; [|by left].
  destruct (Hsync i Hi) as [Hi' ->]. rewrite bool_decide_true by done. by right.
Qed.

(** The state while a temporary file is being filled: [i] is its inode, which
    no other name has. *)
Definition filling (i : nat) (tmp : string) (d : disk) : Prop :=
  disk_wf d /\ dk_dir d !! tmp = Some i /\
  (forall dir name, dir ∈ directories d -> dir !! name = Some i -> is_temp name = true).

Lemma create_filling P tmp d :
  promise P -> is_temp tmp = true -> disk_wf d -> everywhere P d ->
  filling (dk_next d) tmp (create tmp d) /\ everywhere P (create tmp d).
Proof.
  intros HP Ht [Hwf Hs] He.
  assert (Hold : forall dir, dir ∈ directories d -> P (view (create tmp d) dir)).
  { intros dir Hdir. eapply (view_temps P d _ dir); [done|done| |by apply He].
    intros i Hi. split; [done|]. cbn. rewrite lookup_insert_ne; [done|]. specialize (Hs i Hi). lia. }
  assert (Hnew : P (view (create tmp d) (dk_dir (create tmp d)))).
  { eapply (view_temps P (create tmp d) _ (dk_dir d)); [done| |done|].
    - intros n Hn. cbn. rewrite lookup_insert_ne; [done|congruence].
    - apply Hold. by left. }
  split; [split; [split|split]|].
  - intros dir name i Hdir Hi. rewrite directories_create in Hdir. cbn. apply elem_of_cons in Hdir as [->|Hdir].
    + apply lookup_insert_Some in Hi as [[_ <-]|[_ Hi]]; [lia|].
      assert (i < dk_next d)%nat; [|lia]. apply (Hwf (dk_dir d) name); [by left|done].
    + assert (i < dk_next d)%nat; [|lia]. by apply (Hwf dir name).
  - intros i Hi. cbn in *. specialize (Hs i Hi). lia.
  - cbn. by rewrite lookup_insert_eq.
  - intros dir name Hdir Hi. rewrite directories_create in Hdir. apply elem_of_cons in Hdir as [->|Hdir].
    + apply lookup_insert_Some in Hi as [[<- _]|[_ Hi]]; [done|].
      specialize (Hwf (dk_dir d) name _ ltac:(by left) Hi). lia.
    + specialize (Hwf dir name _ Hdir Hi). lia.
  - intros dir Hdir. rewrite directories_create in Hdir. apply elem_of_cons in Hdir as [->|Hdir]; [done|by apply Hold].
Qed.

Lemma write_filling P i tmp text d :
  promise P -> filling i tmp d -> everywhere P d -> i ∉ dk_synced d ->
  filling i tmp (write i text d) /\ everywhere P (write i text d).
Proof.
  intros HP ([Hwf Hs] & Htmp & Honly) He Hi. split; [by split; [split|split]|].
  intros dir Hdir. eapply (view_temps P d _ dir); [done|done| |by apply He].
  intros j Hj. split; [done|]. cbn. apply lookup_insert_ne. congruence.
Qed.

Lemma sync_filling P i tmp d :
  promise P -> filling i tmp d -> everywhere P d ->
  filling i tmp (sync i d) /\ everywhere P (sync i d).
Proof.
  intros HP ([Hwf Hs] & Htmp & Honly) He. split.
  - split; [split; [done|]|by split]. intros j [->%elem_of_singleton|Hj]%elem_of_union; [|by apply Hs].
    by apply (Hwf (dk_dir d) tmp); [left|].
  - intros dir Hdir. eapply (view_temps P d _ dir); [done|done| |by apply He].
    intros j Hj. split; [|done]. cbn. set_solver.
Qed.

(** Sound, and true to the promise whatever a crash brings back. *)
Definition good (P : (string -> content) -> Prop) (d : disk) : Prop := disk_wf d /\ everywhere P d.

Lemma fill_temp_spec P chmod o tmp text d :
  promise P -> is_temp tmp = true -> good P d ->
  let '(ok, trace) := fill_temp chmod o tmp text d in
  let d' := last_disk d trace in
  Forall (good P) trace /\ good P d' /\ filling (dk_next d) tmp d' /\
  dk_dir d' = <[tmp := dk_next d]> (dk_dir d) /\
  (ok = true -> dk_next d ∈ dk_synced d' /\ dk_data d' !! dk_next d = Some text) /\
  (forall j, (j < dk_next d)%nat -> dk_data d' !! j = dk_data d !! j) /\ dk_synced d ⊆ dk_synced d'.
Proof.
  intros HP Ht [Hwf He]. destruct (create_filling P tmp d HP Ht Hwf He) as [Hf1 He1].
  assert (Hno : forall text', dk_next d ∉ dk_synced (write (dk_next d) text' (create tmp d))).
  { intros text' Hi. apply Hwf in Hi. lia. }
  assert (Hw : forall text', filling (dk_next d) tmp (write (dk_next d) text' (create tmp d)) /\
    everywhere P (write (dk_next d) text' (create tmp d))).
  { intros text'. apply write_filling; try done. exact (Hno text'). }
  destruct (sync_filling P (dk_next d) tmp _ HP (proj1 (Hw text)) (proj2 (Hw text))) as [Hf3 He3].
  assert (Hgood : forall x, filling (dk_next d) tmp x -> everywhere P x -> good P x)
    by (intros x Hx; by split; [apply Hx|]).
  assert (Hdata : forall text' j, (j < dk_next d)%nat ->
    dk_data (write (dk_next d) text' (create tmp d)) !! j = dk_data d !! j).
  { intros text' j Hj. cbn. rewrite !lookup_insert_ne by lia. done. }
  unfold fill_temp. destruct (negb chmod).
  { split_and!; cbn; try (by apply Hgood); try done; [by apply Forall_cons_2; [apply Hgood|apply Forall_nil]|].
    intros j Hj. by rewrite lookup_insert_ne by lia. }
  cbv zeta. destruct (so_write o) as [n|].
  { destruct (Hw (String.substring 0 n text)) as [Hfw Hew].
    split_and!; try (by apply Hgood); try done; [|exact (Hdata _)]. repeat (apply Forall_cons_2; [by apply Hgood|]); by apply Forall_nil. }
  destruct (Hw text) as [Hfw Hew].
  destruct (negb (so_sync o)).
  { split_and!; try (by apply Hgood); try done; [|exact (Hdata _)]. repeat (apply Forall_cons_2; [by apply Hgood|]); by apply Forall_nil. }
  split_and!; try (by apply Hgood); try done.
  - repeat (apply Forall_cons_2; [by apply Hgood|]); by apply Forall_nil.
  - intros _. cbn. split; [set_solver|]. by rewrite lookup_insert_eq.
  - exact (Hdata _).
  - cbn. set_solver.
Qed.

(** A change of the directory in temporary names, or in a name that gets a
    durable inode with these contents. *)
Lemma set_dir_good P dir d :
  promise P -> good P d ->
  (forall n i, dir !! n = Some i -> exists dir' n', dir' ∈ directories d /\ dir' !! n' = Some i) ->
  P (view d dir) -> good P (set_dir dir d).
Proof.
  intros HP [[Hwf Hs] He] Hsub Hnew. split; [split|].
  - intros dir' n i Hdir Hi. rewrite directories_set in Hdir. apply elem_of_cons in Hdir as [->|Hdir].
    + destruct (Hsub n i Hi) as (dir0 & n' & H0 & Hi0). by apply (Hwf dir0 n').
    + by apply (Hwf dir' n).
  - done.
  - intros dir' Hdir. rewrite directories_set in Hdir. apply elem_of_cons in Hdir as [->|Hdir]; [exact Hnew|].
    by apply He.
Qed.

Lemma remove_good P tmp d : promise P -> is_temp tmp = true -> good P d -> good P (remove tmp d).
Proof.
  intros HP Ht Hg. apply set_dir_good; [done|done|..].
  - intros n i [_ Hi]%lookup_delete_Some. exists (dk_dir d), n. by split; [left|].
  - eapply (view_temps P d d (dk_dir d)); [done| |done|apply Hg; by left].
    intros n Hn. apply lookup_delete_ne. congruence.
Qed.

Lemma remove_temp_good P o tmp d : promise P -> is_temp tmp = true -> good P d ->
  Forall (good P) (remove_temp o tmp d).
Proof. intros HP Ht Hg. unfold remove_temp. case_match; [|by apply Forall_nil].
  apply Forall_cons_2; [by apply remove_good|by apply Forall_nil]. Qed.

(** Giving a durable inode a name. *)
Lemma publish_good P tmp to i text d dir :
  promise P -> is_temp tmp = true -> good P d -> dk_dir d !! tmp = Some i -> i ∈ dk_synced d ->
  dk_data d !! i = Some text -> (forall n, is_temp n = false -> dir !! n = dk_dir d !! n) ->
  (forall n j, dir !! n = Some j -> dk_dir d !! n = Some j) ->
  P (put to text (view d (dk_dir d))) -> good P (set_dir (<[to := i]> dir) d).
Proof.
  intros HP Ht Hg Htmp Hi Hd Hdir Hsub Hput. apply set_dir_good; [done|done|..].
  - intros n j [[<- <-]|[_ Hj]]%lookup_insert_Some; exists (dk_dir d); [exists tmp|exists n]; split; try by left.
    + done.
    + by apply Hsub.
  - revert Hput. apply HP. intros n. destruct (is_temp n) eqn:Hn; [by left|]. right. right.
    unfold put, view. case_bool_decide as Hto.
    + subst n. rewrite lookup_insert_eq, bool_decide_true by done. by rewrite Hd.
    + rewrite lookup_insert_ne by done. by rewrite Hdir.
Qed.

Lemma last_disk_app d a b : last_disk d (a ++ b) = last_disk (last_disk d a) b.
Proof. apply foldl_app. Qed.

Lemma last_disk_good P d trace : good P d -> Forall (good P) trace -> good P (last_disk d trace).
Proof.
  intros Hd Hall. revert d Hd. induction Hall as [|x trace Hx _ IH]; intros d Hd; [done|]. by apply IH.
Qed.

Lemma crash_good P d d' : promise P -> good P d -> after_crash d d' -> good P d'.
Proof.
  intros HP [[Hwf Hs] He] ((dir & Hdir & Heq) & Hpast & Hnext & Hsync & Hs'). split; [split; [|done]|].
  - intros dir' n i Hd. unfold directories in Hd. rewrite Hpast, Heq in Hd. apply list_elem_of_singleton in Hd as ->.
    intros Hi. specialize (Hwf dir n i Hdir Hi). lia.
  - intros dir' Hd. unfold directories in Hd. rewrite Hpast, Heq in Hd. apply list_elem_of_singleton in Hd as ->.
    apply (view_temps P d d' dir dir); [done|done|done|by apply He].
Qed.

(** The other names keep their contents, in memory and after a crash. *)
Definition others_kept (except : string) (d d' : disk) : Prop :=
  forall n, is_temp n = false -> n <> except ->
    read_file n d' = read_file n d /\
    (forall t, view d (dk_dir d) n = Content t -> view d' (dk_dir d') n = Content t).

Lemma kept_by except d d' :
  disk_wf d -> (forall n, is_temp n = false -> n <> except -> dk_dir d' !! n = dk_dir d !! n) ->
  (forall j, (j < dk_next d)%nat -> dk_data d' !! j = dk_data d !! j) -> dk_synced d ⊆ dk_synced d' ->
  others_kept except d d'.
Proof.
  intros [Hwf Hs] Hdir Hdata Hsync n Ht Hn. unfold read_file, view. rewrite Hdir by done.
  destruct (dk_dir d !! n) as [i|] eqn:Hi; [|done]. cbn.
  rewrite Hdata by (apply (Hwf (dk_dir d) n); [by left|done]). split; [done|]. intros t.
  destruct (bool_decide_reflect (i ∈ dk_synced d)); [|done].
  by rewrite bool_decide_true by set_solver.
Qed.

Lemma remove_temp_same o tmp d :
  dk_synced (last_disk d (remove_temp o tmp d)) = dk_synced d /\
  dk_data (last_disk d (remove_temp o tmp d)) = dk_data d.
Proof. unfold remove_temp. by case_match. Qed.

(** A temporary file that is given up. *)
Lemma give_up_spec P tmp o d d' :
  promise P -> is_temp tmp = true -> good P d' -> disk_wf d ->
  dk_dir d' = <[tmp := dk_next d]> (dk_dir d) ->
  (forall j, (j < dk_next d)%nat -> dk_data d' !! j = dk_data d !! j) -> dk_synced d ⊆ dk_synced d' ->
  let later := remove_temp o tmp d' in
  Forall (good P) later /\ (forall except, others_kept except d (last_disk d' later)).
Proof.
  intros HP Ht Hg Hwf Hdir Hdata Hsync later. split; [by apply remove_temp_good|]. intros except.
  assert (Hne : forall n, is_temp n = false -> n <> tmp) by congruence.
  apply kept_by; [done|..]; unfold later, remove_temp; case_match; cbn; try done; intros n Hn _;
    rewrite ?lookup_delete_ne by (symmetry; by apply Hne); rewrite Hdir;
    by rewrite lookup_insert_ne by (symmetry; by apply Hne).
Qed.

Lemma writeJSONAtomic_spec P o text name suffix d :
  promise P -> good P d -> is_temp name = false ->
  (forall t, text = Some t -> P (put name t (view d (dk_dir d)))) ->
  let '(ok, trace) := writeJSONAtomic o text name suffix d in
  let d' := last_disk d trace in
  Forall (good P) trace /\ others_kept name d d' /\
  read_file name d' = (if ok then text else read_file name d).
Proof.
  intros HP Hg Hname Hput. assert (Hself : others_kept name d d) by by apply kept_by; [apply Hg|..].
  unfold writeJSONAtomic. destruct text as [text|]; [|by split_and!].
  destruct (so_read o && _) eqn:Hsame.
  { apply andb_true_iff in Hsame as [_ Hsame%bool_decide_eq_true]. by split_and!. }
  destruct (negb (so_mkdir o) || _); [by split_and!|].
  set (tmp := temp_name name suffix). assert (Ht : is_temp tmp = true) by apply temp_name_temp.
  assert (Hne : forall n, is_temp n = false -> tmp <> n) by congruence.
  pose proof (fill_temp_spec P (so_chmod o) o tmp text d HP Ht Hg) as Hf.
  destruct (fill_temp _ _ _ _ _) as [ok trace]. cbv zeta in Hf.
  destruct Hf as (Hall & Hgd & ([Hwfd _] & Htmp & _) & Hdir & Hsy & Hdata & Hsub).
  set (d' := last_disk d trace) in *. destruct ok; cbn [andb]; [destruct (so_publish o)|].
  - rewrite last_disk_app. fold d'. destruct (Hsy eq_refl) as [Hi Hd]. cbn [last_disk foldl]. unfold last_disk. cbn [foldl]. unfold rename. rewrite Htmp. split; [|split].
    + apply Forall_app. split; [done|]. apply Forall_cons_2; [|by apply Forall_nil].
      eapply (publish_good P tmp); try done.
      * intros n Hn. apply lookup_delete_ne. by apply Hne.
      * by intros n j [_ Hj]%lookup_delete_Some.
      * specialize (Hput text eq_refl). revert Hput. apply HP. intros n.
        destruct (is_temp n) eqn:Hn; [by left|]. right. unfold put. destruct (bool_decide (n = name)); [by right|].
        unfold view. rewrite Hdir, lookup_insert_ne by by apply Hne.
        destruct (dk_dir d !! n) as [i|] eqn:Hin; [|by right].
        destruct (bool_decide_reflect (i ∈ dk_synced d)); [|by left].
        rewrite bool_decide_true by set_solver. right. rewrite Hdata; [done|].
        by apply (proj1 (proj1 Hg) (dk_dir d) n); [left|].
    + apply kept_by; [apply Hg| |done|done]. intros n Hn Hnn. cbn.
      rewrite lookup_insert_ne, lookup_delete_ne by (done || by apply Hne). rewrite Hdir.
      by rewrite lookup_insert_ne by by apply Hne.
    + unfold read_file. cbn. rewrite lookup_insert_eq. exact Hd.
  - destruct (give_up_spec P tmp o d d' HP Ht Hgd (proj1 Hg) Hdir Hdata Hsub) as [Hl Hk].
    rewrite last_disk_app. split; [by apply Forall_app|]. split; [apply Hk|].
    apply (Hk tmp name Hname). intros Heq. by destruct (Hne name Hname).
  - destruct (give_up_spec P tmp o d d' HP Ht Hgd (proj1 Hg) Hdir Hdata Hsub) as [Hl Hk].
    rewrite last_disk_app. split; [by apply Forall_app|]. split; [apply Hk|].
    apply (Hk tmp name Hname). intros Heq. by destruct (Hne name Hname).
Qed.

(** C17. A save of the configuration or the subscriptions, whichever of its
    calls fail and wherever the power goes: a restart finds the old contents or
    the new ones, complete; a save that reports success is read back as
    written, one that reports an error left the file as it was; no other file
    is touched. *)
Theorem save_survives_crash o text old name suffix d :
  disk_wf d -> is_temp name = false ->
  (forall dir, dir ∈ directories d -> view d dir name = Content old) ->
  let '(ok, trace) := writeJSONAtomic o text name suffix d in
  let d' := last_disk d trace in
  read_file name d' = (if ok then text else Some old) /\
  (forall n, is_temp n = false -> n <> name -> read_file n d' = read_file n d) /\
  (forall x y, x ∈ d :: trace -> after_crash x y ->
     read_file name y = Some old \/ (text <> None /\ read_file name y = text)).
Proof.
  intros Hwf Hname Hold.
  set (P := fun v : string -> content => v name = Content old \/ (text <> None /\ Content <$> text = Some (v name))).
  assert (HP : promise P).
  { intros v v' Hv HPv. unfold P in *. destruct (Hv name) as [|[Hg| ->]]; [congruence| |done].
    rewrite Hg in HPv. destruct HPv as [|[_ Ht]]; [done|]. by destruct text. }
  assert (Hg : good P d) by (split; [done|]; intros dir Hdir; left; by apply Hold).
  pose proof (writeJSONAtomic_spec P o text name suffix d HP Hg Hname) as Hspec.
  assert (Hput : forall t, text = Some t -> P (put name t (view d (dk_dir d)))).
  { intros t ->. right. split; [done|]. unfold put. by rewrite bool_decide_true. }
  specialize (Hspec Hput). destruct (writeJSONAtomic _ _ _ _ _) as [ok trace].
  destruct Hspec as (Hall & Hothers & Hread). split; [|split].
  - rewrite Hread. destruct ok; [done|]. specialize (Hold (dk_dir d) ltac:(by left)). revert Hold.
    unfold view, read_file. destruct (dk_dir d !! name) as [i|]; [|done]. cbn.
    case_bool_decide; [|done]. destruct (dk_data d !! i); [|done]. by intros [= ->].
  - intros n Hn Hne. by apply (Hothers n).
  - intros x y Hx Hcrash.
    assert (Hgx : good P x) by (apply elem_of_cons in Hx as [->|Hx]; [done|by rewrite Forall_forall in Hall; apply Hall]).
    destruct Hcrash as ((dir & Hdir & Heq) & _ & _ & Hsync & _). destruct Hgx as [_ He]. specialize (He dir Hdir).
    unfold P, view in He. unfold read_file. rewrite Heq. destruct (dir !! name) as [i|]; cbn.
    + destruct (bool_decide_reflect (i ∈ dk_synced x)) as [Hi|].
      * destruct (Hsync i Hi) as [_ ->]. destruct (dk_data x !! i) as [t|].
        -- destruct He as [[= ->]|[Hne Ht]]; [by left|]. right. split; [done|]. destruct text as [t'|]; [|done].
           cbn in Ht. by injection Ht as ->.
        -- destruct He as [|[_ He]]; [done|]. by destruct text.
      * destruct He as [|[_ He]]; [done|]. by destruct text.
    + destruct He as [|[_ He]]; [done|]. by destruct text.
Qed.

(** ** The catalog before the migration *)

Lemma writeCoreBackup_spec P o backup text suffix d :
  promise P -> good P d -> is_temp backup = false -> dk_dir d !! backup = None ->
  P (put backup text (view d (dk_dir d))) ->
  let '(ok, trace) := writeCoreBackup o backup text suffix d in
  let d' := last_disk d trace in
  Forall (good P) trace /\ others_kept backup d d' /\
  (ok = true -> view d' (dk_dir d') backup = Content text).
Proof.
  intros HP Hg Hb Hnone Hput. assert (Hself : others_kept backup d d) by by apply kept_by; [apply Hg|..].
  unfold writeCoreBackup. destruct (negb (so_create o)); [by split_and!|].
  set (tmp := core_temp_name suffix). assert (Ht : is_temp tmp = true) by done.
  assert (Hne : forall n, is_temp n = false -> tmp <> n) by congruence.
  pose proof (fill_temp_spec P true o tmp text d HP Ht Hg) as Hf.
  destruct (fill_temp _ _ _ _ _) as [ok trace]. cbv zeta in Hf.
  destruct Hf as (Hall & Hgd & ([Hwfd _] & Htmp & _) & Hdir & Hsy & Hdata & Hsub).
  set (d' := last_disk d trace) in *.
  destruct (give_up_spec P tmp o d d' HP Ht Hgd (proj1 Hg) Hdir Hdata Hsub) as [Hl Hk].
  assert (Hb' : dk_dir d' !! backup = None) by (by rewrite Hdir, lookup_insert_ne by by apply Hne).
  destruct ok; cbn [negb].
  2:{ rewrite last_disk_app. split; [by apply Forall_app|]. by split; [apply Hk|]. }
  rewrite Hb', bool_decide_false by (by intros [? ?]). destruct (so_publish o).
  2:{ rewrite last_disk_app. split; [by apply Forall_app|]. by split; [apply Hk|]. }
  destruct (Hsy eq_refl) as [Hi Hd]. unfold link. rewrite Htmp. set (d2 := set_dir _ d').
  assert (Hg2 : good P d2).
  { eapply (publish_good P tmp); try done. revert Hput. apply HP. intros n.
    destruct (is_temp n) eqn:Hn; [by left|]. right. unfold put. destruct (bool_decide (n = backup)); [by right|].
    unfold view. rewrite Hdir, lookup_insert_ne by by apply Hne.
    destruct (dk_dir d !! n) as [i|] eqn:Hin; [|by right].
    destruct (bool_decide_reflect (i ∈ dk_synced d)); [|by left].
    rewrite bool_decide_true by set_solver. right. rewrite Hdata; [done|].
    by apply (proj1 (proj1 Hg) (dk_dir d) n); [left|]. }
  change (trace ++ d2 :: remove_temp o tmp d2) with (trace ++ [d2] ++ remove_temp o tmp d2).
  rewrite !last_disk_app. fold d'. change (last_disk d' [d2]) with d2. split; [|split].
  - apply Forall_app. split; [done|]. apply Forall_app. split; [by apply Forall_cons_2|by apply remove_temp_good].
  - apply kept_by; [apply Hg|..].
    + intros n Hn Hnb. unfold remove_temp. case_match; cbn;
        rewrite ?lookup_delete_ne by (by apply Hne); rewrite lookup_insert_ne by done;
        by rewrite Hdir, lookup_insert_ne by by apply Hne.
    + unfold remove_temp. by case_match.
    + unfold remove_temp. by case_match.
  - intros _. assert (Hv : dk_dir (last_disk d2 (remove_temp o tmp d2)) !! backup = Some (dk_next d)).
    { unfold remove_temp. case_match; cbn; rewrite ?lookup_delete_ne by (by apply Hne); apply lookup_insert_eq. }
    destruct (remove_temp_same o tmp d2) as [Hss Hdd].
    unfold view. rewrite Hv, Hss, bool_decide_true by exact Hi. rewrite Hdd. change (dk_data d2) with (dk_data d').
    by rewrite Hd.
Qed.

(** The program over restarts: [main] copies the two files before it loads
    them and gives up when that fails; then saves; the power may go at any call
    of either. *)
Record files_state := mkFiles { fs_disk : disk; fs_running : bool }.

Definition backup_names : list string := backup_name <$> backed_up.

Inductive files_step : files_state -> files_state -> Prop :=
| files_boot o d ok trace :
    backupBeforeXray o d = (ok, trace) -> files_step (mkFiles d false) (mkFiles (last_disk d trace) ok)
| files_boot_crash o d ok trace x y :
    backupBeforeXray o d = (ok, trace) -> x ∈ d :: trace -> after_crash x y ->
    files_step (mkFiles d false) (mkFiles y false)
| files_save o text name suffix d ok trace :
    is_temp name = false -> name ∉ backup_names -> writeJSONAtomic o text name suffix d = (ok, trace) ->
    files_step (mkFiles d true) (mkFiles (last_disk d trace) true)
| files_save_crash o text name suffix d ok trace x y :
    is_temp name = false -> name ∉ backup_names -> writeJSONAtomic o text name suffix d = (ok, trace) ->
    x ∈ d :: trace -> after_crash x y -> files_step (mkFiles d true) (mkFiles y false)
| files_exit d : files_step (mkFiles d true) (mkFiles d false).

Section Original.
Context (name original : string) (Hname : name ∈ backed_up).

(** The copy is there, or not yet and the file is as it was. *)
Definition original_kept (v : string -> content) : Prop :=
  v (backup_name name) = Content original \/ (v (backup_name name) = Absent /\ v name = Content original).

Lemma backed_up_names n : n ∈ backed_up ->
  is_temp n = false /\ is_temp (backup_name n) = false /\ backup_name n <> n /\
  backup_name n <> name /\ (backup_name n = backup_name name -> n = name) /\ backup_name n ∈ backup_names.
Proof using Hname.
  intros Hn. unfold backed_up in *.
  repeat match goal with H : _ ∈ _ :: _ |- _ => apply elem_of_cons in H as [->|H] | H : _ ∈ [] |- _ =>
    by apply elem_of_nil in H end; split_and!; try done; vm_compute; set_solver.
Qed.

Lemma original_promise : promise original_kept.
Proof using Hname.
  destruct (backed_up_names name Hname) as (Hn & Hb & _). intros v v' Hv. unfold original_kept.
  destruct (Hv (backup_name name)) as [|[Hg| ->]]; [congruence|rewrite Hg; naive_solver|].
  destruct (Hv name) as [|[Hg| ->]]; [congruence|rewrite Hg; naive_solver|done].
Qed.

Definition copied (d : disk) : Prop := view d (dk_dir d) (backup_name name) = Content original.

Lemma view_Absent d dir n : view d dir n = Absent <-> dir !! n = None.
Proof. unfold view. destruct (dir !! n) as [i|]; [|done]. repeat case_match; done. Qed.

Lemma view_read d n t : view d (dk_dir d) n = Content t -> read_file n d = Some t.
Proof.
  unfold view, read_file. destruct (dk_dir d !! n) as [i|]; [|done]. cbn. case_bool_decide; [|done].
  destruct (dk_data d !! i); [|done]. by intros [= ->].
Qed.

Lemma backup_file_spec n o d :
  n ∈ backed_up -> good original_kept d ->
  let '(ok, trace) := backup_file n o d in
  let d' := last_disk d trace in
  Forall (good original_kept) trace /\ (copied d -> copied d') /\ (ok = true -> n = name -> copied d').
Proof using Hname.
  intros Hn Hg. destruct (backed_up_names n Hn) as (_ & Htb & _ & Hbn & Hinj & _).
  unfold backup_file. destruct (negb (bo_lstat o)); [by split_and!|].
  destruct (bool_decide_reflect (is_Some (dk_dir d !! backup_name n))) as [Hex|Hno].
  { split_and!; try done. intros _ ->. destruct Hg as [_ He].
    destruct (He (dk_dir d) ltac:(by left)) as [|[Habs _]]; [done|]. apply view_Absent in Habs.
    rewrite Habs in Hex. by destruct Hex. }
  apply eq_None_not_Some in Hno. destruct (dk_dir d !! n) as [i|] eqn:Hi.
  2:{ split_and!; try done. intros _ ->. destruct Hg as [_ He].
      destruct (He (dk_dir d) ltac:(by left)) as [Hc|[_ Hc]].
      - by rewrite (proj2 (view_Absent d (dk_dir d) _) Hno) in Hc.
      - by rewrite (proj2 (view_Absent d (dk_dir d) _) Hi) in Hc. }
  destruct (if bo_read o then read_file n d else None) as [text|] eqn:Hread; [|by split_and!].
  assert (Htext : n = name -> text = original).
  { intros ->. destruct (bo_read o); [|done]. destruct Hg as [_ He].
    destruct (He (dk_dir d) ltac:(by left)) as [Hc|[_ Hc%view_read]]; [|congruence].
    by rewrite (proj2 (view_Absent d (dk_dir d) _) Hno) in Hc. }
  assert (Hput : original_kept (put (backup_name n) text (view d (dk_dir d)))).
  { unfold original_kept, put. destruct (decide (n = name)) as [->|Hnn].
    - left. rewrite bool_decide_true by done. by rewrite Htext.
    - rewrite (bool_decide_false (backup_name name = _)) by (intros ?; by apply Hnn, Hinj).
      rewrite (bool_decide_false (name = _)) by done. apply Hg. by left. }
  pose proof (writeCoreBackup_spec original_kept (bo_save o) (backup_name n) text (bo_suffix o) d
    original_promise Hg Htb Hno Hput) as Hspec.
  destruct (writeCoreBackup _ _ _ _ _) as [ok trace]. destruct Hspec as (Hall & Hothers & Hok).
  split; [done|]. split.
  - intros Hc. destruct (decide (n = name)) as [->|Hnn].
    + unfold copied in Hc. by rewrite (proj2 (view_Absent d (dk_dir d) _) Hno) in Hc.
    + apply Hothers; [|intros ?; by apply Hnn, Hinj|done]. apply (backed_up_names name Hname).
  - intros Ht ->. unfold copied. by rewrite Hok, Htext.
Qed.

Lemma backup_files_spec names o d :
  (forall n, n ∈ names -> n ∈ backed_up) -> good original_kept d ->
  let '(ok, trace) := backup_files names o d in
  let d' := last_disk d trace in
  Forall (good original_kept) trace /\ (copied d -> copied d') /\ (ok = true -> name ∈ names -> copied d').
Proof using Hname.
  revert d. induction names as [|n names IH]; intros d Hsub Hg; cbn [backup_files].
  { split_and!; try done. by intros _ ?%elem_of_nil. }
  pose proof (backup_file_spec n (o n) d ltac:(apply Hsub; by left) Hg) as Hf.
  destruct (backup_file n (o n) d) as [[|] trace]; [|destruct Hf as (? & ? & _); by split_and!].
  destruct Hf as (Hall & Hkeep & Hok). set (d1 := last_disk d trace) in *.
  assert (Hg1 : good original_kept d1) by by apply last_disk_good.
  specialize (IH d1 ltac:(intros m Hm; apply Hsub; by right) Hg1).
  destruct (backup_files names o d1) as [ok later]. destruct IH as (Hall' & Hkeep' & Hok').
  rewrite last_disk_app. fold d1. split; [by apply Forall_app|]. split; [auto|].
  intros Ht [<-|Hin]%elem_of_cons; [|by apply Hok']. by apply Hkeep', Hok.
Qed.

Definition files_inv (s : files_state) : Prop :=
  good original_kept (fs_disk s) /\ (fs_running s = true -> copied (fs_disk s)).

Lemma files_step_inv s s' : files_step s s' -> files_inv s -> files_inv s'.
Proof using Hname.
  intros Hstep [Hg Hc].
  assert (Hsave : forall o text n suffix d ok trace, is_temp n = false -> n ∉ backup_names ->
    writeJSONAtomic o text n suffix d = (ok, trace) -> good original_kept d -> copied d ->
    Forall (good original_kept) trace /\ copied (last_disk d trace)).
  { intros o text n suffix d ok trace Ht Hn Hw Hgd Hcd.
    assert (Hne : backup_name name <> n) by (intros <-; by apply Hn, (backed_up_names name Hname)).
    pose proof (writeJSONAtomic_spec original_kept o text n suffix d original_promise Hgd Ht) as Hspec.
    rewrite Hw in Hspec. destruct Hspec as (Hall & Hothers & _).
    - intros t ->. left. unfold put. rewrite bool_decide_false by done. exact Hcd.
    - split; [done|]. apply Hothers; [|done|exact Hcd]. apply (backed_up_names name Hname). }
  assert (Hcrash : forall d trace x y, Forall (good original_kept) trace -> good original_kept d ->
    x ∈ d :: trace -> after_crash x y -> files_inv (mkFiles y false)).
  { intros d trace x y Hall Hgd Hx Hy. split; [|done]. eapply crash_good; [apply original_promise| |exact Hy].
    apply elem_of_cons in Hx as [->|Hx]; [done|]. rewrite Forall_forall in Hall. by apply Hall. }
  assert (Hboot : forall o d ok trace, backupBeforeXray o d = (ok, trace) -> good original_kept d ->
    Forall (good original_kept) trace /\ (ok = true -> copied (last_disk d trace))).
  { intros o d ok trace Hb Hgd. pose proof (backup_files_spec backed_up o d ltac:(done) Hgd) as Hspec.
    unfold backupBeforeXray in Hb. rewrite Hb in Hspec. destruct Hspec as (? & _ & Hok). split; [done|]. auto. }
  destruct Hstep as [o d ok trace Hb|o d ok trace x y Hb Hx Hy|o text n suffix d ok trace Ht Hn Hw
    |o text n suffix d ok trace x y Ht Hn Hw Hx Hy|d]; cbn [fs_disk fs_running] in *.
  - destruct (Hboot _ _ _ _ Hb Hg) as [Hall Hok]. split; [by apply last_disk_good|exact Hok].
  - destruct (Hboot _ _ _ _ Hb Hg) as [Hall _]. by eapply Hcrash.
  - destruct (Hsave _ _ _ _ _ _ _ Ht Hn Hw Hg (Hc eq_refl)) as [Hall Hcd]. split; [by apply last_disk_good|done].
  - destruct (Hsave _ _ _ _ _ _ _ Ht Hn Hw Hg (Hc eq_refl)) as [Hall _]. by eapply Hcrash.
  - by split.
Qed.

End Original.

(** C11. The catalog the first start found is never lost: through any restarts,
    failed calls and power cuts, during the copy or during later saves, a
    restart finds it in the copy, or there is no copy yet and the file itself
    still holds it; and the program saves nothing before the copy is there. *)
Theorem original_catalog_kept name original d s :
  name ∈ backed_up -> disk_wf d ->
  (forall dir, dir ∈ directories d -> dir !! backup_name name = None /\ view d dir name = Content original) ->
  rtc files_step (mkFiles d false) s ->
  (forall y, after_crash (fs_disk s) y ->
     read_file (backup_name name) y = Some original \/
     (dk_dir y !! backup_name name = None /\ read_file name y = Some original)) /\
  (fs_running s = true -> read_file (backup_name name) (fs_disk s) = Some original).
Proof.
  intros Hname Hwf Hstart Hsteps. assert (Hinv : files_inv name original s).
  { revert Hsteps. apply (rtc_ind_r (files_inv name original)).
    - split; [split; [done|]|done]. intros dir Hdir. destruct (Hstart dir Hdir) as [Hno Hv]. right.
      split; [by apply view_Absent|done].
    - intros x y _ Hxy. by apply files_step_inv. }
  destruct Hinv as [Hg Hc]. split; [|intros Hr; by apply view_read, Hc].
  intros y Hy. pose proof (crash_good _ _ _ (original_promise name original Hname) Hg Hy) as [_ He].
  destruct (He (dk_dir y) ltac:(by left)) as [Hv|[Ha Hv]]; [left|right]; [by apply view_read|].
  split; [by apply view_Absent in Ha|by apply view_read].
Qed.

(** ** The device identifier *)

(** [hex.EncodeToString] of the first half of SHA-256. *)
Class DeviceHash := sha256_hex16 : string -> string.
Class DeviceHashLaws (H : DeviceHash) : Prop :=
  hash_hex : forall s, String.length (sha256_hex16 s) = 32 /\ hex_valid (sha256_hex16 s) = true.

Definition nul : string := String (ascii_of_nat 0) "".

(** The first source of [routerIdentityPaths] that can be read and is not
    blank; [reads] pairs each with its contents. *)
Fixpoint router_identity (reads : list (string * option string)) : string :=
  match reads with
  | [] => ""
  | (candidate, data) :: reads =>
      match data with
      | None => router_identity reads
      | Some data =>
          let value := string_of (trim_list (is_byte 0) (bytes_of (TrimSpace data))) in
          if bool_decide (value = "") then router_identity reads
          else candidate +:+ nul +:+ ToLower value
      end
  end.

(** [os.WriteFile]: truncates and writes, without synchronising. *)
Definition write_file (name text : string) (d : disk) : disk :=
  match dk_dir d !! name with
  | Some i => write i text d <| dk_synced ::= fun s => s ∖ {[i]} |>
  | None => write (dk_next d) text (create name d)
  end.

Definition hwid : string := "device-hwid".

Inductive device_error := NoRandom | NotPersisted.

(** [initializeSubscriptionDeviceID]: the error, the identifier in use
    ([previous] before), and the disk.  [random] is what [crypto/rand] gives,
    in hexadecimal; the flags are the outcomes of the write and the rename. *)
Definition initializeSubscriptionDeviceID `{DeviceHash} (reads : list (string * option string))
    (random : option string) (written renamed : bool) (previous : string) (d : disk)
  : option device_error * string * disk :=
  let stored := match read_file hwid d with Some data => TrimSpace data | None => "" end in
  if validSubscriptionDeviceID stored then (None, stored, d)
  else
    let identity := router_identity reads in
    match (if bool_decide (identity = "")
           then (fun r => "random" +:+ nul +:+ r) <$> random else Some identity) with
    | None => (Some NoRandom, previous, d)
    | Some identity =>
        let id := "vm-" +:+ sha256_hex16 ("vless-manager-hwid-v1" +:+ nul +:+ identity) in
        if negb written then (Some NotPersisted, id, d)
        else
          let tmp := hwid +:+ ".tmp" in
          let d := write_file tmp (id +:+ String newline "") d in
          if renamed then (None, id, rename tmp hwid d) else (Some NotPersisted, id, remove tmp d)
    end.

Definition plain_char (a : ascii) : bool := isASCII a && negb (space_token [a]).

Lemma rune_len_ascii a l : isASCII a = true -> rune_len (a :: l) = 1.
Proof. intros Ha. unfold rune_len. by rewrite valid_multi_ascii. Qed.

Lemma tokens_ascii l : forallb isASCII l = true -> tokens l = (fun a => [a]) <$> l.
Proof.
  induction l as [|a l IH]; [done|]. intros [Ha Hl]%andb_true_iff.
  rewrite tokens_cons, rune_len_ascii by done. change (drop 1 (a :: l)) with l. by rewrite IH.
Qed.

Lemma drop_while_none {A} (p : A -> bool) l : Forall (fun x => p x = false) l -> drop_while p l = l.
Proof. intros Hl. destruct Hl as [|x l Hx Hl]; [done|]. cbn. by rewrite Hx. Qed.

Lemma drop_while_end_none {A} (p : A -> bool) l : Forall (fun x => p x = false) l -> drop_while_end p l = l.
Proof.
  intros Hl. unfold drop_while_end. rewrite drop_while_none by by rewrite Forall_reverse.
  apply reverse_involutive.
Qed.

Lemma drop_while_end_snoc {A} (p : A -> bool) l x : p x = true -> drop_while_end p (l ++ [x]) = drop_while_end p l.
Proof. intros Hx. unfold drop_while_end. rewrite reverse_app. cbn. by rewrite Hx. Qed.

(** A line break after a word goes when space is trimmed. *)
Lemma TrimSpace_line s : Forall (fun a => plain_char a = true) (bytes_of s) -> TrimSpace (s +:+ String newline "") = s.
Proof.
  intros Hs. unfold TrimSpace. rewrite bytes_of_app. change (bytes_of (String newline "")) with [newline].
  set (l := bytes_of s) in *.
  assert (Hascii : forallb isASCII (l ++ [newline]) = true).
  { rewrite forallb_app. apply andb_true_iff. split; [|done]. clearbody l. induction Hs as [|a l Ha _ IH]; [done|].
    cbn. apply andb_true_iff in Ha as [-> _]. exact IH. }
  assert (Hns : Forall (fun t => space_token t = false) ((fun a => [a]) <$> l)).
  { rewrite Forall_fmap. eapply Forall_impl; [exact Hs|]. intros a [_ Ha%negb_true_iff]%andb_true_iff. exact Ha. }
  rewrite tokens_ascii, fmap_app by done. cbn [fmap list_fmap].
  assert (Hdrop : drop_while_end space_token (drop_while space_token (((fun a => [a]) <$> l) ++ [[newline]])) =
    (fun a => [a]) <$> l).
  { destruct l as [|a l']; [done|]. cbn [fmap list_fmap app] in *.
    assert (Ha : space_token [a] = false) by by apply Forall_cons in Hns as [Ha _].
    cbn [drop_while]. rewrite Ha. change ([a] :: ?r ++ [[newline]]) with (([a] :: r) ++ [[newline]]).
    rewrite drop_while_end_snoc by done. by apply drop_while_end_none. }
  rewrite Hdrop. transitivity (string_of l); [|apply string_of_bytes_of]. f_equal.
  clear. induction l as [|a l IH]; [done|]. cbn. by f_equal.
Qed.

Lemma hex_plain s : hex_valid s = true -> Forall (fun a => plain_char a = true) (bytes_of s).
Proof.
  intros [_ Hs]%andb_true_iff. rewrite forallb_forall in Hs. apply Forall_forall. intros a Ha.
  specialize (Hs a ltac:(by apply list_elem_of_In)). revert Hs. clear.
  destruct a as [[] [] [] [] [] [] [] []]; vm_compute; done.
Qed.

Lemma write_rename tmp name text d : read_file name (rename tmp name (write_file tmp text d)) = Some text.
Proof.
  assert (Hw : exists i, dk_dir (write_file tmp text d) !! tmp = Some i /\
    dk_data (write_file tmp text d) !! i = Some text).
  { unfold write_file. destruct (dk_dir d !! tmp) as [i|] eqn:Hi.
    - exists i. split; [done|]. cbn. apply lookup_insert_eq.
    - exists (dk_next d). cbn. split; apply lookup_insert_eq. }
  destruct Hw as (i & Hi & Hd). unfold rename. rewrite Hi. unfold read_file. cbn. by rewrite lookup_insert_eq.
Qed.

Section Device.
Context `{DL : DeviceHashLaws}.

Lemma fresh_id_valid s :
  validSubscriptionDeviceID ("vm-" +:+ sha256_hex16 s) = true /\
  TrimSpace (("vm-" +:+ sha256_hex16 s) +:+ String newline "") = "vm-" +:+ sha256_hex16 s.
Proof using DL.
  destruct (hash_hex s) as [Hlen Hhex]. split.
  - unfold validSubscriptionDeviceID. apply andb_true_iff. split; [apply andb_true_iff; split|].
    + unfold HasPrefix. apply prefix_app.
    + change (String.length ("vm-" +:+ sha256_hex16 s)) with (3 + String.length (sha256_hex16 s)). by rewrite Hlen.
    + change (TrimPrefix ("vm-" +:+ sha256_hex16 s) "vm-") with
        (if HasPrefix ("vm-" +:+ sha256_hex16 s) "vm-" then sha256_hex16 s else "vm-" +:+ sha256_hex16 s).
      unfold HasPrefix. by rewrite prefix_app.
  - apply TrimSpace_line. rewrite bytes_of_app. apply Forall_app. split.
    + repeat (apply Forall_cons_2; [reflexivity|]). by apply Forall_nil.
    + by apply hex_plain.
Qed.

(** The identifier providers count devices by: a start that succeeds has a
    valid one, and the next start reads the same back and writes nothing,
    whatever interfaces there are then; and where the stored one was lost, the
    same hardware identity gives the same identifier again. *)
Theorem device_id_stable reads random written renamed previous d id d' :
  initializeSubscriptionDeviceID reads random written renamed previous d = (None, id, d') ->
  validSubscriptionDeviceID id = true /\
  (forall reads' random' written' renamed' previous',
     initializeSubscriptionDeviceID reads' random' written' renamed' previous' d' = (None, id, d')) /\
  (router_identity reads <> "" ->
   forall reads' random' written' renamed' previous' d2,
     router_identity reads' = router_identity reads ->
     (read_file hwid d = None) -> (read_file hwid d2 = None) ->
     (initializeSubscriptionDeviceID reads' random' written' renamed' previous' d2).1.2 = id).
Proof using DL.
  assert (Hread : forall d id, read_file hwid d = Some id -> validSubscriptionDeviceID (TrimSpace id) = true ->
    forall reads' random' written' renamed' previous',
      initializeSubscriptionDeviceID reads' random' written' renamed' previous' d = (None, TrimSpace id, d)).
  { intros d0 id0 Hr Hv reads' random' written' renamed' previous'. unfold initializeSubscriptionDeviceID.
    by rewrite Hr, Hv. }
  intros Hinit. pose proof Hinit as Hinit'. revert Hinit. unfold initializeSubscriptionDeviceID at 1.
  destruct (validSubscriptionDeviceID _) eqn:Hvalid.
  - intros [= <- <-]. split; [done|]. destruct (read_file hwid d) as [data|] eqn:Hr; [|done].
    split; [by apply Hread|done].
  - cbv zeta. destruct (if bool_decide _ then _ else _) as [identity|] eqn:Hid; [|done].
    destruct (fresh_id_valid ("vless-manager-hwid-v1" +:+ nul +:+ identity)) as [Hv Ht].
    set (id0 := "vm-" +:+ sha256_hex16 _) in *. destruct (negb written) eqn:Hw; [done|].
    destruct renamed; [|done]. intros [= <- <-]. split; [done|]. split.
    + intros reads' random' written' renamed' previous'.
      rewrite (Hread _ (id0 +:+ String newline "")); [by rewrite Ht| |].
      * apply write_rename.
      * by rewrite Ht.
    + intros Hne reads' random' written' renamed' previous' d2 Heq Hr Hr2.
      rewrite bool_decide_false in Hid by done. injection Hid as <-.
      unfold initializeSubscriptionDeviceID. rewrite Hr2. cbv zeta. rewrite Heq, bool_decide_false by done.
      change (validSubscriptionDeviceID "") with false. cbv iota. fold id0.
      destruct (negb written'); [done|]. by destruct renamed'.
Qed.

End Device.

(** ** Witnesses *)

Definition first_disk : disk := mkDisk {["config.json" := 0]} {[0 := "old"]} {[0]} 1 [].

Definition all_well : save_outcomes := mkSave true true true true None true true true true.

Lemma first_disk_wf : disk_wf first_disk.
Proof.
  split.
  - intros dir name i Hdir Hi. apply list_elem_of_singleton in Hdir as ->.
    cbn in Hi. apply lookup_singleton_Some in Hi as [_ <-]. cbn. lia.
  - intros i Hi. cbn in Hi. apply elem_of_singleton in Hi as ->. cbn. lia.
Qed.

(** The power goes after the rename, which is lost. *)
Definition saved : disk := last_disk first_disk (writeJSONAtomic all_well (Some "new") "config.json" "1" first_disk).2.
Definition rolled_back : disk := mkDisk {["config.json" := 0]} (dk_data saved) (dk_synced saved) 2 [].

Lemma save_survives_crash_witness :
  read_file "config.json" saved = Some "new" /\
  (read_file "config.json" rolled_back = Some "old" \/
   (Some "new" <> None /\ read_file "config.json" rolled_back = Some "new")).
Proof.
  pose proof (save_survives_crash all_well (Some "new") "old" "config.json" "1" first_disk first_disk_wf eq_refl) as H.
  assert (Hold : forall dir, dir ∈ directories first_disk -> view first_disk dir "config.json" = Content "old").
  { intros dir Hdir. apply list_elem_of_singleton in Hdir as ->. vm_compute. reflexivity. }
  specialize (H Hold).
  assert (Hrun : writeJSONAtomic all_well (Some "new") "config.json" "1" first_disk =
    (true, (writeJSONAtomic all_well (Some "new") "config.json" "1" first_disk).2)) by (vm_compute; reflexivity).
  rewrite Hrun in H. destruct H as (Hread & _ & Hcrash). split; [exact Hread|].
  apply (Hcrash saved).
  - apply elem_of_cons. right. apply list_elem_of_lookup. exists 3. vm_compute. reflexivity.
  - split_and!; [exists {["config.json" := 0]}; split; [|reflexivity]|reflexivity|vm_compute; lia|done|].
    + apply list_elem_of_lookup. exists 2. vm_compute. reflexivity.
    + intros i Hi. assert (Hs : dk_synced rolled_back = {[0; 1]}) by (apply set_eq; vm_compute; set_solver).
      rewrite Hs in Hi. assert (i = 0 \/ i = 1) as [-> | ->] by set_solver; cbn; lia.
Defined.

Definition copy_outcomes (_ : string) : backup_outcomes := mkBackup true true all_well "1".

(** The copy is made, and then the file is replaced. *)
Definition migrated : disk :=
  let d := last_disk first_disk (backupBeforeXray copy_outcomes first_disk).2 in
  last_disk d (writeJSONAtomic all_well (Some "new") "config.json" "2" d).2.

Lemma original_catalog_kept_witness :
  read_file "config.json" migrated = Some "new" /\
  read_file "config.json.before-xray" migrated = Some "old".
Proof.
  split; [vm_compute; reflexivity|].
  refine (proj2 (original_catalog_kept "config.json" "old" first_disk (mkFiles migrated true) _ first_disk_wf _ _) eq_refl).
  - by left.
  - intros dir Hdir. apply list_elem_of_singleton in Hdir as ->. vm_compute. by split.
  - eapply rtc_l.
    + apply (files_boot copy_outcomes first_disk true (backupBeforeXray copy_outcomes first_disk).2).
      vm_compute. reflexivity.
    + apply rtc_once. eapply (files_save all_well (Some "new") "config.json" "2"); [reflexivity| |].
      * vm_compute. by intros [?|[?|?%elem_of_nil]%elem_of_cons]%elem_of_cons.
      * apply surjective_pairing.
Defined.
