(* ===== verification/Diagnostics.v ===== *)
(** * Profiling: [diagnostics.go]

    Who may ask for a profile, and that profiles run one at a time.  The address
    of the client comes parsed ([net/netip]); collecting and streaming a profile
    is the runtime's. *)

From S2P Require Import Prelude GoStrings Settings Auth.

#[local] Open Scope Z_scope.

(** ** Addresses of the local network *)

(** [netip.Addr]: 32 or 128 bits. *)
Inductive ip_address := IPv4 (bits : Z) | IPv6 (bits : Z).

Definition Unmap (a : ip_address) : ip_address :=
  match a with
  | IPv6 bits => if Z.shiftr bits 32 =? 0xffff then IPv4 (Z.land bits (Z.ones 32)) else a
  | IPv4 _ => a
  end.

Definition IsPrivate (a : ip_address) : bool :=
  match Unmap a with
  | IPv4 bits => (Z.shiftr bits 24 =? 10) || (Z.shiftr bits 20 =? 0xac1) || (Z.shiftr bits 16 =? 0xc0a8)
  | IPv6 bits => Z.land (Z.shiftr bits 120) 0xfe =? 0xfc
  end.

Definition IsLoopback (a : ip_address) : bool :=
  match Unmap a with
  | IPv4 bits => Z.shiftr bits 24 =? 127
  | IPv6 bits => bits =? 1
  end.

(** ** Who may ask *)

(** [di_address]: the host of [RemoteAddr], parsed; [di_cookie]: the session
    cookie. *)
Record diag_request := mkDiag {
  di_get : bool;
  di_address : option ip_address;
  di_cookie : option string
}.

Section Guard.
Context `{RS : RangeOrder authSession, RA : RangeOrder authAttempt}.

(** The code of the refusal, or [None]; the session moves on when it was
    asked for. *)
Definition allowDiagnostics (enabled : bool) (st : AppSettings) (now : Time) (r : diag_request) (a : authService)
  : option Z * authService :=
  if negb enabled then (Some 404, a)
  else if negb (di_get r) then (Some 405, a)
  else
    match di_address r with
    | None => (Some 403, a)
    | Some address =>
        if negb (IsPrivate (Unmap address)) && negb (IsLoopback address) then (Some 403, a)
        else
          match di_cookie r with
          | None => (Some 401, a)
          | Some token =>
              match session token (session_ttl st) now a with
              | (Some _, a) => (None, a)
              | (None, a) => (Some 401, a)
              end
          end
    end.

(** ** Profiles *)

Inductive profile := CPU (seconds : Z) | Heap | Goroutines.

(** [profileBusy], and the profiles being taken. *)
Record diag_state := mkDiagState { ds_auth : authService; ds_busy : bool; ds_running : list profile }.

(** [?seconds=]; [int] is [w] bits wide. *)
Definition profile_seconds (w : Z) (value : string) : option Z :=
  if bool_decide (value = "") then Some 10
  else
    match ParseInt value w with
    | Some n => if (n <? 1) || (15 <? n) then None else Some n
    | None => None
    end.

(** The three handlers up to the start of their profile; [None] has started. *)
Definition begin_profile (w : Z) (enabled : bool) (st : AppSettings) (now : Time) (r : diag_request)
    (kind : option string) (heap : bool) (s : diag_state) : option Z * diag_state :=
  match allowDiagnostics enabled st now r (ds_auth s) with
  | (Some code, a) => (Some code, mkDiagState a (ds_busy s) (ds_running s))
  | (None, a) =>
      match (match kind with
             | Some value => CPU <$> profile_seconds w value
             | None => Some (if heap then Heap else Goroutines)
             end) with
      | None => (Some 400, mkDiagState a (ds_busy s) (ds_running s))
      | Some p =>
          if ds_busy s then (Some 409, mkDiagState a true (ds_running s))
          else (None, mkDiagState a true (ds_running s ++ [p]))
      end
  end.

(** Requests begin and profiles end, in any order; the sessions change
    meanwhile.  An end runs the deferred [profileBusy.Store(false)]. *)
Inductive diag_step (w : Z) : diag_state -> diag_state -> Prop :=
| diag_begin enabled st now r kind heap s :
    diag_step w s (begin_profile w enabled st now r kind heap s).2
| diag_end s i :
    is_Some (ds_running s !! i) ->
    diag_step w s (mkDiagState (ds_auth s) false (delete i (ds_running s)))
| diag_auth s a : diag_step w s (mkDiagState a (ds_busy s) (ds_running s)).

(** Profiles run one at a time, each bounded: the flag tells whether one
    is being taken, and a profile of the processor takes 1 to 15 seconds. *)
Theorem one_profile w s a :
  rtc (diag_step w) (mkDiagState a false []) s ->
  (length (ds_running s) = if ds_busy s then 1 else 0)%nat /\
  Forall (fun p => match p with CPU n => 1 <= n <= 15 | _ => True end) (ds_running s).
Proof.
  apply (rtc_ind_r (fun s => (length (ds_running s) = if ds_busy s then 1 else 0)%nat /\
    Forall (fun p => match p with CPU n => 1 <= n <= 15 | _ => True end) (ds_running s))).
  { split; [done|by apply Forall_nil]. }
  intros x y _ Hstep [Hlen Hall]. destruct Hstep as [enabled st now r kind heap x|x i Hi|x a'].
  - unfold begin_profile. destruct (allowDiagnostics _ _ _ _ _) as [[code|] a']; [done|].
    destruct (match kind with Some value => CPU <$> profile_seconds w value | None => _ end) as [p|] eqn:Hp; [|done].
    destruct (ds_busy x); [done|]. cbn. rewrite length_app, Hlen. split; [done|].
    apply Forall_app. split; [done|]. apply Forall_singleton. destruct p as [n| |]; try done.
    destruct kind as [value|]; [|by destruct heap]. revert Hp. unfold profile_seconds.
    destruct (bool_decide (value = "")); [cbn; intros [= <-]; lia|].
    destruct (ParseInt value w) as [m|]; [|done]. destruct (_ || _) eqn:Hr; [done|].
    apply orb_false_iff in Hr as [?%Z.ltb_ge ?%Z.ltb_ge]. cbn. intros [= <-]. lia.
  - cbn. apply lookup_lt_is_Some in Hi. split; [|by apply Forall_delete].
    rewrite length_delete by by apply lookup_lt_is_Some. destruct (ds_busy x); lia.
  - done.
Qed.

(** A profile is only ever taken for a client of the local network that
    carries a live session (good by the history of logins and logouts alone),
    and only when diagnostics are on, with authentication off too. *)
Theorem diagnostics_guarded enabled st now r trace :
  (allowDiagnostics enabled st now r (auth_run newAuthService trace)).1 = None ->
  enabled = true /\ di_get r = true /\
  (exists address, di_address r = Some address /\ (IsPrivate address = true \/ IsLoopback address = true)) /\
  exists token e, di_cookie r = Some token /\ good_until token (reverse trace) = Some e /\ now < e.
Proof using Type*.
  unfold allowDiagnostics. destruct enabled; [|done]. destruct (di_get r); [|done]. cbn [negb].
  destruct (di_address r) as [address|]; [|done].
  assert (Hp : IsPrivate (Unmap address) = IsPrivate address).
  { unfold IsPrivate. f_equal. destruct address as [|bits]; [done|]. cbn.
    by destruct (Z.shiftr bits 32 =? 0xffff) eqn:Hm; cbn; rewrite ?Hm. }
  rewrite Hp. destruct (_ && _) eqn:Hlan; [done|]. destruct (di_cookie r) as [token|]; [|done].
  destruct (session_claims _ token (session_ttl st) now _ (auth_run_claims trace)) as [_ Hgood].
  destruct (session _ _ _ _) as [[s|] a]; [|done]. intros _. split; [done|]. split; [done|]. split.
  - exists address. split; [done|]. apply andb_false_iff in Hlan as [H|H]; apply negb_false_iff in H; auto.
  - destruct Hgood as (e & He & Hlt); [by eexists|]. by exists token, e.
Qed.

End Guard.
