(* ===== verification/Network.v ===== *)
(** * The router as the program sees it: addresses, interfaces, the marked
    sockets, the router's own login ([routing.go], [health.go], [traffic.go],
    [auth.go])

    Parsing and printing of addresses is [net]'s, name lookups, the interfaces
    and the exchanges with the router are what they answered, and the two
    digests are parameters. *)

From Stdlib Require Import Ascii.
From S2P Require Import Prelude GoStrings Settings Servers Process Routing XrayConfig Auth Traffic Diagnostics.

#[local] Open Scope Z_scope.

(** ** Addresses *)

(** [net.ParseIP] and [IP.String]. *)
Class IPText := {
  ParseIP : string -> option ip_address;
  ip_text : ip_address -> string
}.

(** A printed IPv4 address is read back. *)
Class IPTextLaws (T : IPText) : Prop :=
  parse_ipv4 bits : 0 <= bits < 2 ^ 32 -> ParseIP (ip_text (IPv4 bits)) = Some (IPv4 bits).

Definition To4 (ip : ip_address) : option Z :=
  match Unmap ip with IPv4 bits => Some bits | IPv6 _ => None end.

Definition IsUnspecified (ip : ip_address) : bool :=
  match Unmap ip with IPv4 bits | IPv6 bits => bits =? 0 end.

(** [lookup]: what [LookupIP] for the network "ip4" answered, [None] an error. *)
Definition lookupAddrs `{IPText} (lookup : string -> option (list ip_address)) (host : string) : list string :=
  match ParseIP host with
  | Some ip => match To4 ip with Some bits => [ip_text (IPv4 bits)] | None => [] end
  | None =>
      match lookup host with
      | None => []
      | Some ips => omap (fun ip => (fun bits => ip_text (IPv4 bits)) <$> To4 ip) ips
      end
  end.

(** The resolver [Process] asks. *)
Definition net_resolver `{IPText} (lookup : string -> option (list ip_address)) : Resolver := {|
  Process.ResolveAddrs := lookupAddrs lookup;
  isIPLiteral := fun host => match ParseIP host with Some _ => true | None => false end
|}.

(** ** Interfaces *)

(** An interface and its addresses; [None]: asking for them failed, an address
    is not in CIDR form. *)
Record net_interface := mkInterface {
  ni_up : bool;
  ni_loopback : bool;
  ni_addrs : option (list (option ip_address))
}.

Definition is_ipv4 (ip : ip_address) : bool := match To4 ip with Some _ => true | None => false end.

Definition uplink_address (addr : option ip_address) : bool :=
  match addr with
  | Some ip => is_ipv4 ip && negb (IsUnspecified ip) && negb (IsLoopback ip)
  | None => false
  end.

Definition uplink_ready (i : option net_interface) : bool :=
  match i with
  | None => false
  | Some i =>
      if negb (ni_up i) || ni_loopback i then false
      else match ni_addrs i with
      | None => false
      | Some addrs => existsb uplink_address addrs
      end
  end.

(** [routes]: the text of [/proc/net/route], when it can be opened. *)
Definition wanRouteReady (routes : option string) (interface : string -> option net_interface) : bool :=
  match routes with
  | None => false
  | Some routes => defaultWANRouteReady routes (fun name => uplink_ready (interface name))
  end.

Definition counted_interface (i : option net_interface) : bool :=
  match i with Some i => ni_up i && negb (ni_loopback i) | None => false end.

Definition readInternetTraffic (routes : option string) (interface : string -> option net_interface)
    (read : string -> option Z) : option (result traffic_error internetTraffic) :=
  (fun routes => internetTrafficSnapshot routes (fun name => counted_interface (interface name)) read) <$> routes.

Definition lan_address (addr : option ip_address) : bool :=
  match addr with Some ip => is_ipv4 ip && negb (IsLoopback ip) | None => false end.

Definition keeneticLANAddress `{IPText} (interface : string -> option net_interface) : string :=
  match i ← interface "br0"; ni_addrs i with
  | None => "127.0.0.1"
  | Some addrs =>
      match find lan_address addrs with
      | Some (Some ip) => ip_text (Unmap ip)
      | _ => "127.0.0.1"
      end
  end.

(** ** Sockets that stay out of the tunnel *)

Definition wanProbeNetwork (network : string) : string :=
  if bool_decide (network = "tcp") then "tcp4" else network.

(** A socket that is about to connect: its network and mark. *)
Record socket := mkSocket { sk_network : string; sk_mark : option Z }.

(** The [Control] of [wanDialer]: [raw]: the descriptor was given, [set]: the
    option was set.  An error ends the dial. *)
Definition wanDialer (raw set : bool) (network : string) : option socket :=
  if negb raw then None else if negb set then None else Some (mkSocket network (Some WANFwmark)).

Definition wanDialContext (raw set : bool) (network : string) : option socket :=
  wanDialer raw set (wanProbeNetwork network).

(** [wanProbe]: the answer's status, an error otherwise; [None]: no answer. *)
Definition wanProbe (raw set : bool) (exchange : socket -> option Z) : option bool :=
  socket ← wanDialContext raw set "tcp";
  (fun status => status <? 500) <$> exchange socket.

(** ** The router's login *)

Class Digests := { md5_hex : string -> string; sha256_hex : string -> string }.

Definition keeneticPasswordHash `{Digests} (login password realm challenge : string) : string :=
  sha256_hex (challenge +:+ md5_hex (login +:+ ":" +:+ realm +:+ ":" +:+ password)).

(** A response to the first request. *)
Record challenge_reply := mkChallenge {
  cr_status : Z;
  cr_challenge : string;
  cr_realm : string;
  cr_cookies : list string
}.

(** The body of the second request, with the cookies it carries. *)
Record login_payload := mkPayload { lp_login : string; lp_hash : string; lp_cookies : list string }.

(** The router: the two exchanges; [None]: no answer. *)
Record router := mkRouter {
  rt_challenge : option challenge_reply;
  rt_login : login_payload -> option Z
}.

Inductive keenetic_error :=
| KeeneticRequest
| KeeneticChallenge
| KeeneticChallengeStatus (status : Z)
| KeeneticResponse
| errInvalidCredentials
| KeeneticStatus (status : Z).

(** With the address it asks and what it sends; [valid_url]: a request for it
    can be made. *)
Definition Authenticate `{Digests} (baseURL lan : string) (valid_url : string -> bool) (r : router)
    (login password : string) : result keenetic_error unit * list login_payload :=
  let baseURL := if bool_decide (baseURL = "") then "http://" +:+ lan else baseURL in
  if negb (valid_url (baseURL +:+ "/auth")) then (Err KeeneticRequest, []) else
  match rt_challenge r with
  | None => (Err KeeneticChallenge, [])
  | Some reply =>
      let challenge := TrimSpace (cr_challenge reply) in
      let realm := TrimSpace (cr_realm reply) in
      if cr_status reply =? 200 then (Ok tt, [])
      else if negb (cr_status reply =? 401) || bool_decide (challenge = "") || bool_decide (realm = "")
      then (Err (KeeneticChallengeStatus (cr_status reply)), [])
      else
        let payload := mkPayload login (keeneticPasswordHash login password realm challenge) (cr_cookies reply) in
        (match rt_login r payload with
         | None => Err KeeneticResponse
         | Some status =>
             if status =? 401 then Err errInvalidCredentials
             else if negb (status =? 200) then Err (KeeneticStatus status) else Ok tt
         end, [payload])
  end.

(** How [handleAuthLogin] reads the result. *)
Definition auth_answer_of (r : result keenetic_error unit) : auth_answer :=
  match r with
  | Ok _ => AuthOk
  | Err errInvalidCredentials => AuthInvalid
  | Err _ => AuthUnavailable
  end.

(** ** What is shown *)

Section Resolving.
Context `{T : IPText, !IPTextLaws T}.

Definition valid_ip (ip : ip_address) : Prop :=
  match ip with IPv4 bits => 0 <= bits < 2 ^ 32 | IPv6 bits => 0 <= bits < 2 ^ 128 end.

Lemma To4_range ip bits : valid_ip ip -> To4 ip = Some bits -> 0 <= bits < 2 ^ 32.
Proof.
  destruct ip as [b|b]; [by intros ? [= <-]|]. intros _. unfold To4, Unmap.
  destruct (Z.shiftr b 32 =? 65535); [|done]. intros [= <-].
  rewrite Z.land_ones by lia. apply Z.mod_pos_bound. lia.
Qed.

(** What is looked up consists of valid addresses, and so does what literals are. *)
Definition honest_lookup (lookup : string -> option (list ip_address)) : Prop :=
  (forall host ip, ParseIP host = Some ip -> valid_ip ip) /\
  (forall host ips, lookup host = Some ips -> Forall valid_ip ips).

Lemma lookupAddrs_ipv4 lookup host a :
  honest_lookup lookup -> a ∈ lookupAddrs lookup host ->
  exists bits, 0 <= bits < 2 ^ 32 /\ a = ip_text (IPv4 bits).
Proof.
  intros [Hp Hl]. unfold lookupAddrs. destruct (ParseIP host) as [ip|] eqn:Hhost.
  - destruct (To4 ip) as [bits|] eqn:H4; [|by intros ?%not_elem_of_nil].
    intros ->%list_elem_of_singleton. exists bits. split; [|done]. eapply To4_range; [by eapply Hp|done].
  - destruct (lookup host) as [ips|] eqn:Hips; [|by intros ?%not_elem_of_nil].
    intros (ip & Hin & Heq)%list_elem_of_omap. apply fmap_Some in Heq as (bits & H4 & ->).
    exists bits. split; [|done]. eapply To4_range; [|done]. specialize (Hl _ _ Hips).
    by apply (proj1 (Forall_forall _ _) Hl).
Qed.

Lemma lookupAddrs_literal lookup bits :
  0 <= bits < 2 ^ 32 -> lookupAddrs lookup (ip_text (IPv4 bits)) = [ip_text (IPv4 bits)].
Proof using Type*. intros Hb. unfold lookupAddrs. by rewrite parse_ipv4. Qed.

(** Pinning an endpoint gives it an IPv4 address in text form, whatever the
    resolver returns, and pinning again changes nothing and asks no resolver: a
    restart of the engine with the pinned profile stays on its address. *)
Theorem pinned_to_ipv4 lookup lookup' srv pinned ip :
  honest_lookup lookup -> @pinLeaf (net_resolver lookup) srv = Ok (pinned, ip) ->
  (exists bits, 0 <= bits < 2 ^ 32 /\ ip = ip_text (IPv4 bits)) /\ sv_Address pinned = ip /\
  @pinLeaf (net_resolver lookup') pinned = Ok (pinned, ip).
Proof using Type*.
  intros Hl Hpin. assert (Ha : sv_Address pinned = ip /\ ip ∈ lookupAddrs lookup (sv_Address srv)).
  { unfold pinLeaf in Hpin. cbn [ResolveAddrs net_resolver] in Hpin.
    destruct (lookupAddrs lookup (sv_Address srv)) as [|ip' rest]; [done|]. cbv zeta in Hpin.
    injection Hpin as <- <-. split; [|left].
    cbn. destruct (ParseIP (sv_Address srv)); [done|]. by repeat case_match. }
  destruct Ha as [Ha Hin]. apply lookupAddrs_ipv4 in Hin as (bits & Hb & Hip); [|done].
  split; [by exists bits|]. split; [done|]. unfold pinLeaf. cbn [ResolveAddrs isIPLiteral net_resolver].
  rewrite Ha, Hip, lookupAddrs_literal, parse_ipv4 by done. by rewrite <- Hip, <- Ha; destruct pinned.
Qed.
End Resolving.

(** The uplink is ready exactly when a default route leaves through an interface
    that is up, is not the loopback, and has an IPv4 address of its own. *)
Theorem wanRouteReady_spec routes interface :
  wanRouteReady routes interface = true <->
  exists text line name i addrs ip,
    routes = Some text /\ line ∈ (ScanLines text).1 /\ default_route line = Some name /\
    interface name = Some i /\ ni_up i = true /\ ni_loopback i = false /\ ni_addrs i = Some addrs /\
    Some ip ∈ addrs /\ is_Some (To4 ip) /\ IsUnspecified ip = false /\ IsLoopback ip = false.
Proof.
  unfold wanRouteReady. destruct routes as [text|]; [|naive_solver]. unfold defaultWANRouteReady.
  rewrite existsb_exists. split.
  - intros (line & Hline & Hready). destruct (default_route line) as [name|] eqn:Hname; [|done].
    unfold uplink_ready in Hready. destruct (interface name) as [i|] eqn:Hi; [|done].
    destruct (ni_up i) eqn:Hup, (ni_loopback i) eqn:Hlo; try done. cbn in Hready.
    destruct (ni_addrs i) as [addrs|] eqn:Haddrs; [|done].
    apply existsb_exists in Hready as ([ip|] & Hip & Hok); [|done]. cbn in Hok. unfold is_ipv4 in Hok.
    destruct (To4 ip) eqn:H4, (IsUnspecified ip) eqn:Hu, (IsLoopback ip) eqn:Hl; try done.
    exists text, line, name, i, addrs, ip. rewrite <- !list_elem_of_In in *. naive_solver.
  - intros (t & line & name & i & addrs & ip & [= <-] & Hline & Hname & Hi & Hup & Hlo & Haddrs & Hip & [bits H4] & Hu & Hl).
    exists line. split; [by apply list_elem_of_In|]. rewrite Hname. unfold uplink_ready. rewrite Hi, Hup, Hlo, Haddrs. cbn.
    apply existsb_exists. exists (Some ip). split; [by apply list_elem_of_In|]. cbn. unfold is_ipv4.
    by rewrite H4, Hu, Hl.
Qed.

(** The router's verdict on a login: it is accepted exactly when the router
    asks for no password or accepts the digest; the password is sent only as
    the digest, at most once, and only after a complete challenge; wrong
    credentials, and nothing else, count as a failed attempt. *)
Theorem Authenticate_verdict `{Digests} baseURL lan valid_url r login password :
  let url := (if bool_decide (baseURL = "") then "http://" +:+ lan else baseURL) +:+ "/auth" in
  let '(verdict, sent) := Authenticate baseURL lan valid_url r login password in
  (verdict = Ok tt <->
   valid_url url = true /\ exists reply, rt_challenge r = Some reply /\
     (cr_status reply = 200 /\ sent = [] \/ exists p, sent = [p] /\ rt_login r p = Some 200)) /\
  (length sent <= 1)%nat /\
  (forall p, p ∈ sent -> exists reply, rt_challenge r = Some reply /\ cr_status reply = 401 /\
     TrimSpace (cr_challenge reply) <> "" /\ TrimSpace (cr_realm reply) <> "" /\
     p = mkPayload login (keeneticPasswordHash login password (TrimSpace (cr_realm reply)) (TrimSpace (cr_challenge reply)))
           (cr_cookies reply)) /\
  (auth_answer_of verdict = AuthInvalid <-> exists p, sent = [p] /\ rt_login r p = Some 401).
Proof.
  cbv zeta. unfold Authenticate. cbv zeta. set (url := (if bool_decide (baseURL = "") then _ else _) +:+ "/auth").
  destruct (valid_url url); cbn [negb]; [|set_solver].
  destruct (rt_challenge r) as [reply|]; [|set_solver].
  destruct (Z.eqb_spec (cr_status reply) 200) as [Hs|Hs]; [cbn; set_solver|].
  destruct (Z.eqb_spec (cr_status reply) 401) as [Hs'|Hs']; cbn [negb orb].
  - destruct (bool_decide_reflect (TrimSpace (cr_challenge reply) = "")); cbn [orb]; [set_solver|].
    destruct (bool_decide_reflect (TrimSpace (cr_realm reply) = "")); [set_solver|].
    set (p := mkPayload _ _ _). assert (Hp : forall q, q ∈ [p] <-> q = p) by set_solver.
    destruct (rt_login r p) as [status|] eqn:Hr.
    + destruct (Z.eqb_spec status 401), (Z.eqb_spec status 200); cbn; try lia; naive_solver.
    + cbn. naive_solver.
  - set_solver.
Qed.

(** The sockets of probes and of the router's login either carry the mark the
    kernel rules let through or are not connected; probes never use IPv6. *)
Theorem wan_sockets_marked raw set network :
  (forall sk, wanDialContext raw set network = Some sk ->
     sk_mark sk = Some WANFwmark /\ sk_network sk <> "tcp") /\
  (forall exchange, wanProbe raw set exchange <> None -> raw = true /\ set = true) /\
  mark_rule !! 3%nat = Some ("0x" +:+ "9911") /\ digits_value 16 (bytes_of "9911") 0 = Some WANFwmark.
Proof.
  split; [|split; [|done]].
  - intros sk. unfold wanDialContext, wanDialer. destruct raw, set; try done. cbn. intros [= <-]. split; [done|].
    cbn. unfold wanProbeNetwork. by case_bool_decide.
  - intros exchange. unfold wanProbe, wanDialContext, wanDialer. destruct raw, set; done.
Qed.
