(* ===== verification/Tasks.v ===== *)
(** * Work handed to the coordinator: the callers of [Run] and [Acquire] in
    [api.go], [update.go], [bypass_update.go], and the replies that only show
    what other parts know

    A caller's function runs under the coordinator and leaves its results in the
    caller's variables; what [Run] then returns says whether they mean
    anything.  Also the two background loops and the traffic reply. *)

From S2P Require Import Prelude GoStrings Settings Servers Config Subscriptions Process Operations Selection Release Updater Traffic.

#[local] Open Scope Z_scope.

(** ** A call of [Run] *)

(** An equal request was there already; the operation left the queue without
    being executed; or its function ran, left [value], returned [r], and was
    found stalled or not. *)
Inductive run_report (A : Type) :=
| Duplicate
| NeverExecuted (e : op_error)
| Executed (value : A) (r : fn_result) (stalled : bool).
Arguments Duplicate {A}.
Arguments NeverExecuted {A} e.
Arguments Executed {A} value r stalled.

Definition execution_error (limit : Duration) (r : fn_result) (stalled : bool) : option op_error :=
  if stalled then Some (OpStalled limit)
  else match r with FnOk => None | FnCanceled => Some OpCancelled | FnFailed e => Some (OpFailed e) end.

Definition run_error {A} (req : operationRequest) (report : run_report A) : option op_error :=
  match report with
  | Duplicate => None
  | NeverExecuted e => Some e
  | Executed _ r stalled => execution_error (rq_StallLimit (fill_request req)) r stalled
  end.

Definition run_value {A} (report : run_report A) : option A :=
  match report with Executed value _ _ => Some value | _ => None end.

(** What the coordinator can report for a request made in state [c]. *)
Definition possible {A} (req : operationRequest) (now : Time) (c : operationCoordinator) (report : run_report A)
  : Prop :=
  (enqueue req now c).1 = None <-> report = Duplicate.

(** ** Checking all servers *)

Definition ping_request (group : string) : operationRequest :=
  mkRequest "ping" (if bool_decide (group = "") then "Проверка серверов" else "Проверка: " +:+ group) "manual" "" true
    (75 * Second).

(** Its function: the results are left even when the context is done. *)
Definition ping_fn (results : list PingResult) (cancelled : bool) : list PingResult * fn_result :=
  (results, if cancelled then FnCanceled else FnOk).

Definition runPingAllNamed (servers : list VLESSServer) (group : string) (report : run_report (list PingResult))
  : option (list PingResult) :=
  if bool_decide (length servers = O) then None
  else match run_error (ping_request group) report with
  | Some _ => None
  | None => run_value report
  end.

(** ** Downloading one subscription *)

Definition fetch_request (title : string) : operationRequest :=
  mkRequest "subscriptions" title "manual" "" true (60 * Second).

(** [fetched]: the subscription, or an error with whether it is that of a
    cancelled context; [cancelled]: the context is done after the download. *)
Definition fetch_fn (fetched : result (bool * string) Subscription) (cancelled : bool)
  : option Subscription * fn_result :=
  match fetched with
  | Err (is_cancel, e) => (None, if is_cancel then FnCanceled else FnFailed e)
  | Ok sub => (Some sub, if cancelled then FnCanceled else FnOk)
  end.

Definition fetchSubscriptionOperation (title : string) (report : run_report (option Subscription))
  : option Subscription * option op_error :=
  (mjoin (run_value report), run_error (fetch_request title) report).

(** The refresh of all subscriptions in the background: whether a warning is
    logged. *)
Definition refresh_request : operationRequest :=
  mkRequest "subscriptions" "Обновление подписок" "background" "subscriptions:all" true (60 * Second).

Definition refreshAllSubscriptions (report : run_report unit) : bool :=
  match run_error refresh_request report with
  | None | Some OpCancelled => false
  | Some _ => true
  end.

(** ** Checking for an update *)

Definition check_request (source : string) : operationRequest :=
  mkRequest "app-update-check" "Проверка обновления" source
    (if bool_decide (source = "background") then "app-update-check" else "") true (45 * Second).

(** The function leaves the status and the error of the check. *)
Definition checkWithSource (Version source : string) (u : appUpdater)
    (report : run_report (UpdateStatus * option update_error)) : UpdateStatus * option (op_error + update_error) :=
  match run_error (check_request source) report with
  | None => (default zeroStatus (fst <$> run_value report), None)
  | Some err =>
      match run_value report with
      | Some (status, Some checkErr) => (status, Some (inr checkErr))
      | _ => (snapshot Version u, Some (inl err))
      end
  end.

(** How the coordinator reads the result of a check; [is_cancel]: the error is
    that of a cancelled context. *)
Definition check_fn (is_cancel : update_error -> bool) (error_text : update_error -> string)
    (checked : UpdateStatus * option update_error) : fn_result :=
  match checked.2 with
  | None => FnOk
  | Some e => if is_cancel e then FnCanceled else FnFailed (error_text e)
  end.

(** ** Holding the slot *)

(** What the caller of [Acquire] receives from its [select]: the operation's
    context with whether its own is done by then, what [Run] returned, or the
    end of its own context.  [None, None]: no lease and no error. *)
Inductive acquire_event := Started (ctx_done : bool) | Completed (err : option op_error) | ContextDone.

Definition acquire_reply (e : acquire_event) : bool * option op_error :=
  match e with
  | Started ctx_done => if ctx_done then (false, Some OpContext) else (true, None)
  | Completed err => (false, err)
  | ContextDone => (false, Some OpContext)
  end.

Definition bypass_request (source : string) : operationRequest :=
  mkRequest "bypass" "Обновление белого списка" source "" true (90 * Second).

(** ** The background loops *)

(** [runBypassAutoUpdates]: how long it sleeps before its first turn and after
    one. *)
Definition bypass_first_delay (st : AppSettings) : Duration := swrap 64 (SubscriptionFirstDelayMin st * Minute).
Definition bypass_interval (ok : bool) : Duration := if ok then 24 * Hour else Hour.

(** ** Replies *)

(** [DELETE /api/operations]: refused, or what is shown afterwards. *)
Definition handleOperationsDelete (now : Time) (c : operationCoordinator)
  : option (option operationView * list operationView) * operationCoordinator :=
  match CancelActive now c with
  | (false, c) => (None, c)
  | (true, c) => (Some (Snapshot c), c)
  end.

Record traffic_mode := mkMode { tm_download : Z; tm_upload : Z; tm_available : bool }.
Record traffic_reply := mkTrafficReply {
  tr_interface : string;
  tr_source : string;
  tr_running : bool;
  tr_all : traffic_mode;
  tr_vpn : traffic_mode;
  tr_bypass : traffic_mode
}.

Definition handleTraffic (traffic : option internetTraffic) (engine_snapshot : engine -> outboundTrafficSnapshot)
    (pm : ProcessManager) : traffic_reply :=
  let t := default (mkTraffic "" "" 0 0) traffic in
  let '(out, running) := TrafficSnapshot engine_snapshot pm in
  mkTrafficReply (it_Interface t) (it_Source t) running
    (mkMode (it_Download t) (it_Upload t) (match traffic with Some _ => true | None => false end))
    (mkMode (ot_VPNDownload out) (ot_VPNUpload out) running)
    (mkMode (ot_BypassDownload out) (ot_BypassUpload out) running).

(** ** What is shown *)

(** The error of a call is the one the coordinator stores for the operation. *)
Lemma execution_error_stored r c op :
  oc_active c = Some op ->
  oc_results (executeEnd r c) =
  oc_results c ++ [(qo_id op, execution_error (rq_StallLimit (qo_req op)) r
                                (bool_decide (ov_State (qo_view op) = "stalled")))].
Proof. intros Hop. unfold executeEnd. rewrite Hop. cbn. unfold execution_error. by destruct (bool_decide _). Qed.

Lemma manual_never_duplicate {A} req now c (report : run_report A) :
  rq_Source req = "manual" -> rq_DedupeKey req = "" -> possible req now c report -> report <> Duplicate.
Proof.
  intros Hs Hk Hp Hd. apply Hp in Hd. revert Hd. unfold enqueue, fill_request. cbv zeta. cbn [rq_DedupeKey].
  by rewrite Hs, Hk.
Qed.

Lemma run_ok {A} req (report : run_report A) :
  run_error req report = None -> report = Duplicate \/ exists v, report = Executed v FnOk false.
Proof.
  destruct report as [|e|v [] []]; cbn; try done; [by left|by right; exists v].
Qed.

(** Results are only used when they mean something: a batch of probes is
    returned only when its function ran to its end over the given servers,
    neither cancelled nor stalled; a download without an error has a
    subscription; a check that reports no error reports the status it made, and
    an error of the check itself is what the caller sees. *)
Theorem results_are_complete now c servers group title preport freport :
  possible (ping_request group) now c preport -> possible (fetch_request title) now c freport ->
  (forall results, runPingAllNamed servers group preport = Some results ->
     servers <> [] /\ preport = Executed results FnOk false /\
     forall all cancelled, ping_fn all cancelled = (results, FnOk) -> all = results /\ cancelled = false) /\
  (forall sub, fetchSubscriptionOperation title freport = (sub, None) ->
     freport = Executed sub FnOk false /\
     forall fetched cancelled, fetch_fn fetched cancelled = (sub, FnOk) ->
       exists s, sub = Some s /\ fetched = Ok s /\ cancelled = false) /\
  (forall Version u is_cancel error_text checked stalled,
     let report := Executed checked (check_fn is_cancel error_text checked) stalled in
     match checkWithSource Version "manual" u report with
     | (status, None) => checked = (status, None) /\ stalled = false
     | (status, Some (inr e)) => checked = (status, Some e)
     | (status, Some (inl _)) => checked.2 = None /\ stalled = true /\ status = snapshot Version u
     end).
Proof.
  intros Hp Hf. split; [|split].
  - intros results. unfold runPingAllNamed. destruct (bool_decide_reflect (length servers = O)) as [|Hne]; [done|].
    destruct (run_error _ preport) eqn:He; [done|]. intros Hv.
    apply run_ok in He as [Hd|[v ->]]; [by destruct (manual_never_duplicate (ping_request group) now c _ eq_refl eq_refl Hp Hd)|].
    injection Hv as ->. split; [by intros ->|]. split; [done|]. by intros all [] [= ->].
  - intros sub. unfold fetchSubscriptionOperation. intros [= Hv He].
    apply run_ok in He as [Hd|[v ->]]; [by destruct (manual_never_duplicate (fetch_request title) now c _ eq_refl eq_refl Hf Hd)|].
    cbn in Hv. subst v. split; [done|]. intros [s|[[] e]] cancelled; cbn; intros Heq; try done.
    destruct cancelled; [done|]. injection Heq as <-. by exists s.
  - intros Version u is_cancel error_text [status [e|]] stalled; cbv zeta; unfold checkWithSource; cbn;
      destruct stalled; cbn; try done; by destruct (is_cancel e).
Qed.

(** The loops never spin: an hour at least lies between two turns. *)
Theorem loops_sleep st ok now u :
  0 <= SubscriptionFirstDelayMin st <= 2 ^ 27 ->
  0 <= bypass_first_delay st /\ Hour <= bypass_interval ok /\ 15 * Second <= nextAutoCheckDelay now u.
Proof.
  intros Hst. split_and!.
  - unfold bypass_first_delay, Minute, Second. rewrite swrap_id by lia. lia.
  - unfold bypass_interval, Hour, Minute, Second. destruct ok; lia.
  - unfold nextAutoCheckDelay, updateInitialCheckDelay. repeat case_match; lia.
Qed.

(** [Acquire] can return neither a lease nor an error: a background request
    that equals one in the queue or in execution.  Its caller would use the
    lease all the same. *)
Theorem acquire_nothing now c :
  "bypass" ∈ oc_dedupe c ->
  (enqueue (bypass_request "background") now c).1 = None /\
  acquire_reply (Completed (run_error (A := unit) (bypass_request "background") Duplicate)) = (false, None).
Proof.
  intros Hin. split; [|done]. unfold enqueue. cbv zeta.
  change (rq_DedupeKey (fill_request (bypass_request "background"))) with "bypass".
  rewrite (bool_decide_eq_true_2 _ Hin). done.
Qed.

(** The counters of the two modes through the engine are shown as available
    exactly while an engine runs. *)
Lemma traffic_modes traffic engine_snapshot pm :
  let reply := handleTraffic traffic engine_snapshot pm in
  (tm_available (tr_all reply) = true <-> is_Some traffic) /\
  (tm_available (tr_vpn reply) = true <-> pm_running pm = true /\ is_Some (pm_box pm)) /\
  (forall n, pm_running pm = true -> pm_box pm = Some n ->
     tm_upload (tr_vpn reply) = ot_VPNUpload (engine_snapshot n) /\
     tm_upload (tr_bypass reply) = ot_BypassUpload (engine_snapshot n)).
Proof.
  cbv zeta. unfold handleTraffic, TrafficSnapshot. destruct traffic, (pm_running pm), (pm_box pm); cbn; naive_solver.
Qed.
