(* ===== verification/System.v ===== *)
(** * The parts together: [api.go], [main.go], [failover.go] on one world

    [newAPIServerWithRuntimeDir] hands the failover controller the functions it
    uses of the rest of the program: here they are built from the manager of
    [Process], the store of [Selection] and the handlers of [Api], which
    instantiates the interface [FailoverEnv] that [Failover] is proved against.
    What the outside answers (network, router, files, clock) and what other
    goroutines do to the store while no lock is held comes from an oracle that
    is consulted once per call. *)

From Stdlib Require Import Ascii.
From S2P Require Import Prelude GoStrings Settings Servers Config Subscriptions Process Failover.
From S2P Require Import Selection Bypass Api.

#[local] Open Scope Z_scope.

(** ** The world of the controller *)

Record oracle := mkOracle {
  or_now : Time;
  or_probe : nat -> string -> probe_call;
  or_dial : option string;
  or_request : nat -> option string;
  or_start : start_env;
  or_close : option string;
  or_updater : option (Config -> option string);
  or_first : writes;
  or_second : writes;
  or_scan : scan;
  or_stopped : bool;
  or_interfere : store -> store;
  or_between : store -> store
}.

Record world := mkWorld {
  wd_machine : machine;
  wd_store : store;
  wd_pending : list api_call;
  wd_answers : nat -> oracle;
  wd_next : nat
}.
#[export] Instance world_eta : Eta world := fun w =>
  mkWorld (wd_machine w) (wd_store w) (wd_pending w) (wd_answers w) (wd_next w).

Definition current (w : world) : oracle := wd_answers w (wd_next w).

(** The next call meets the next answers. *)
Definition advance (w : world) : world := w <| wd_next ::= S |>.

(** ** Starting and stopping the managed tunnel *)

Inductive managed_error :=
| StartFailed (e : Process.start_error)
| SyncFailed (e : bypass_error)
| NotStarted (e : vpn_start_error).

(** [lifecycleMu]: a call waits until a [Stop] under way has closed its
    engine. *)
Definition settle `{Resolver} (close_error : option string) (m : machine) : machine :=
  match m_closing m with
  | Some _ => machine_step m (CallStopFinish close_error)
  | None => m
  end.

Definition managed_start `{Resolver} (o : oracle) (cfg : Config) (m : machine)
  : option Process.start_error * machine :=
  let m := settle (or_close o) m in
  ((Process.Start (or_start o) cfg (m_pm m)).1.1, machine_step m (CallStart (or_start o) cfg)).

Definition managed_stop `{Resolver} (o : oracle) (m : machine) : option string * machine :=
  let m := settle (or_close o) m in
  ((Process.Stop (or_close o) (m_pm m)).1.1,
   settle (or_close o) (machine_step m CallStopBegin)).

(** The flag: [CheckTunnelNow] is called. *)
Definition startManagedVPN `{Resolver, EmbeddedList} (o : oracle) (cfg : Config) (s : store) (m : machine)
  : option managed_error * machine * bool :=
  match managed_start o cfg m with
  | (Some e, m) => (Some (StartFailed e), m, false)
  | (None, m) =>
      let changed :=
        negb (bool_decide (bypassDomainsFor cfg = bypassDomainsFor (st_cfg s))) ||
        negb (Bool.eqb (BypassRouteRussia (cfg_Settings cfg)) (BypassRouteRussia (cfg_Settings (st_cfg s)))) in
      match (if changed then UpdateBypassRules (or_updater o) (st_cfg s) (m_pm m) else None) with
      | Some e => (Some (SyncFailed e), m, false)
      | None => (None, m, true)
      end
  end.

Section World.
Context `{RS : Resolver, EL : EmbeddedList, SO : SortSlice}.
(** The text of an error. *)
Context (error_text : managed_error -> string).

Definition start_selected (cfg : Config) (w : world) : option managed_error * world :=
  let '(err, m, _) := startManagedVPN (current w) cfg (wd_store w) (wd_machine w) in
  (err, w <| wd_machine := m |>).

(** [fc.startFn]: [startVPNInternal] with its end in [startManagedVPN]. *)
Definition world_start (w : world) : option managed_error * world :=
  let o := current w in
  match startVPNInternal (or_first o) (or_second o) (or_scan o) (or_stopped o) (or_interfere o)
          (or_between o) (wd_store w) with
  | (Err e, s) => (Some (NotStarted e), w <| wd_store := s |>)
  | (Ok cfg, s) => start_selected cfg (w <| wd_store := s |>)
  end.

Definition world_stop (w : world) : option string * world :=
  let '(err, m) := managed_stop (current w) (wd_machine w) in (err, w <| wd_machine := m |>).

Definition world_choose (w : world) : string * world :=
  let o := current w in
  let '(name, s) := chooseAlternativeServer (or_first o) (or_scan o) (or_interfere o) (wd_store w) in
  (name, w <| wd_store := s |>).

(** [newFailoverController]: the functions of the program behind the interface
    of the controller. *)
#[export] Instance program_env : FailoverEnv world := {|
  env_now := fun w => or_now (current w);
  env_settings := fun w => cfg_Settings (st_cfg (wd_store w));
  env_status := fun w => Process.Status (or_now (current w)) (m_pm (wd_machine w));
  env_probe := fun _ _ w => (or_probe (current w), advance w);
  env_vpnProbe := fun _ _ w => (or_dial (current w), or_request (current w), advance w);
  env_start := fun w => let '(err, w') := world_start w in (error_text <$> err, advance w');
  env_stop := fun w => let '(err, w') := world_stop w in (err, advance w');
  env_choose := fun w => let '(name, w') := world_choose w in (name, advance w');
  env_sleep := advance;
  env_startSelected := fun w =>
    let '(err, w') := start_selected (st_cfg (wd_store w)) w in (error_text <$> err, advance w')
|}.

(** ** Requests and the guard beside the controller *)

(** What a handler calls on the manager. *)
Definition run_call (c : api_call) (w : world) : world :=
  match c with
  | StopVPN => advance (world_stop w).2
  | StartVPN cfg => advance (start_selected cfg w).2
  | _ => w
  end.

(** The goroutine of the automatic start: nothing when the controller decides
    about the tunnel or the option is off.  [cfg] is the configuration when it
    looks, before the wait, and [wan] the result of waiting. *)
Definition autostart (cfg : Config) (wan : bool) (w : world) : option managed_error * world :=
  if cfg_AutoFailover cfg || negb (cfg_Autostart cfg) || negb wan then (None, w)
  else
    let o := current w in
    match prepareServerForStart (or_first o) (or_second o) (or_scan o) (or_stopped o) (or_interfere o)
            (wd_store w) with
    | (Err e, s) => (Some (NotStarted (NotPrepared e)), w <| wd_store := s |>)
    | (Ok _, s) => start_selected (st_cfg s) (w <| wd_store := s |>)
    end.

(** A request changes the store under the lock; its calls come later, among
    those of other requests ([wd_pending]).  [Stop] lets the manager's mutex go
    before the engine is closed. *)
Inductive world_step `{ServerDigest, URLCodec, URLParser, SettingsCodec} : world -> world -> Prop :=
| world_request w a :
    api_step (wd_store w) a ->
    world_step w (w <| wd_store := an_store a |> <| wd_pending ::= fun l => l ++ an_calls a |>)
| world_call w i c :
    wd_pending w !! i = Some c ->
    world_step w (run_call c (w <| wd_pending ::= delete i |>))
| world_guard w ready enable :
    world_step w (w <| wd_machine ::= fun m => machine_step m (CallGuard ready enable) |>)
| world_closing w :
    world_step w (w <| wd_machine ::= fun m => machine_step m CallStopBegin |>)
| world_bypass w cache :
    world_step w (w <| wd_store ::= fun s =>
      mkStore (st_cfg s <| cfg_BypassCache := cache |>) (st_subs s) (st_cfg s <| cfg_BypassCache := cache |>)
        (st_subsFile s) |>)
| world_autostart w cfg wan :
    world_step w (advance (autostart cfg wan w).2).

(** The whole program: sections of the controller and steps of the rest, in any
    order; the controls of the controller that requests use come at any time. *)
Inductive program_step `{ServerDigest, URLCodec, URLParser, SettingsCodec} : sys world -> sys world -> Prop :=
| step_controller s c :
    (match c with CWorld _ => False | _ => True end) -> program_step s (sys_step s c)
| step_world s w : world_step (s_w s) w -> program_step s (sys_step s (CWorld w)).

(** ** [main] *)

(** [main] once the two files are loaded: the pruning, with the outcomes of its
    two writes of the configuration.  The files stand for what a load of them
    gives, so that writing the subscriptions as they were loaded changes nothing. *)
Record startup_writes := mkStartupWrites { sw_config : bool; sw_clear : bool }.

Definition startup (sw : startup_writes) (cfg : Config) (subs : list Subscription) : store :=
  let '(cfg1, unsupported) := pruneUnsupportedServers cfg in
  let '(cfg2, stale) := pruneStaleServers cfg1 subs in
  let file := if ((0 <? unsupported)%nat || (0 <? stale)%nat) && sw_config sw then cfg2 else cfg in
  if negb (bool_decide (cfg_ActiveServer cfg2 = "")) &&
     serverDisabledInSubscriptions subs (cfg_ActiveServer cfg2)
  then
    let cfg3 := cfg2 <| cfg_ActiveServer := "" |> in
    mkStore cfg3 subs (if sw_clear sw then cfg3 else file) subs
  else mkStore cfg2 subs file subs.

Definition program (sw : startup_writes) (cfg : Config) (subs : list Subscription)
    (answers : nat -> oracle) : sys world :=
  let s := startup sw cfg subs in
  start_sys (cfg_Settings (st_cfg s)) (cfg_AutoFailover (st_cfg s)) (cfg_AutoTunnelFailover (st_cfg s))
    (mkWorld Process.initial s [] answers 0).

(** ** Lemmas *)

Context `{SD : ServerDigest, UC : URLCodec, UP : URLParser, SC : SettingsCodec}.

(** What the oracle may do: writes that can be undone, and other requests while
    no lock is held. *)
Definition oracle_ok (o : oracle) : Prop :=
  recoverable (or_first o) = true /\ recoverable (or_second o) = true /\
  (forall s, api_runs s (or_interfere o s)) /\ (forall s, api_runs s (or_between o s)).

Definition world_ok (w : world) : Prop :=
  store_ok (wd_store w) /\ machine_inv (wd_machine w) /\ (forall n, oracle_ok (wd_answers w n)).

Lemma settle_inv e m : machine_inv m -> machine_inv (settle e m).
Proof using Type*. intros Hm. unfold settle. destruct (m_closing m); [|done]. by apply machine_step_inv. Qed.

Lemma managed_inv o cfg m : machine_inv m ->
  machine_inv (managed_start o cfg m).2 /\ machine_inv (managed_stop o m).2.
Proof using Type*.
  intros Hm%(settle_inv (or_close o)). unfold managed_start, managed_stop. cbv zeta. cbn [snd].
  split; [by apply machine_step_inv|]. by apply settle_inv, machine_step_inv.
Qed.

Lemma startManagedVPN_machine o cfg s m :
  (startManagedVPN o cfg s m).1.2 = (managed_start o cfg m).2.
Proof using Type*.
  unfold startManagedVPN. destruct (managed_start o cfg m) as [[e|] m']; [done|]. cbv zeta.
  by destruct (if _ || _ then _ else _).
Qed.

Lemma start_selected_world cfg w :
  (start_selected cfg w).2 = w <| wd_machine := (managed_start (current w) cfg (wd_machine w)).2 |>.
Proof using Type*.
  unfold start_selected. rewrite <- (startManagedVPN_machine (current w) cfg (wd_store w) (wd_machine w)).
  by destruct (startManagedVPN _ _ _ _) as [[err m] flag].
Qed.

Lemma with_machine_ok m w : machine_inv m -> world_ok w -> world_ok (w <| wd_machine := m |>).
Proof. intros Hm (? & ? & ?). by split. Qed.

Lemma with_store_ok s w : store_ok s -> world_ok w -> world_ok (w <| wd_store := s |>).
Proof. intros Hs (? & ? & ?). by split. Qed.

Lemma advance_ok w : world_ok w -> world_ok (advance w).
Proof. intros (? & ? & ?). by split. Qed.

Lemma interfere_keeps o : oracle_ok o -> keeps_ok (or_interfere o) /\ keeps_ok (or_between o).
Proof using Type*.
  intros (_ & _ & Hf & Hb). split; intros s Hs; (eapply (proj2 api_step_keeps); [|exact Hs]); auto.
Qed.

Lemma choose_ok o : oracle_ok o -> keeps_ok (fun s =>
  (chooseAlternativeServer (or_first o) (or_scan o) (or_interfere o) s).2).
Proof using Type*.
  intros Ho s Hs. pose proof (proj1 (interfere_keeps o Ho) s Hs) as Hi. unfold chooseAlternativeServer. cbv zeta.
  destruct (findBestConfigured _ _ _ _ _ _) as [[server r]|]; [|done].
  pose proof (select_ok (or_first o) (preferGroupMember server (pr_SelectedMemberID r)) (proj1 Ho) _ Hi) as H2.
  cbv beta in H2. by destruct (commitSelectedServer _ _ _) as [[] s2].
Qed.

Lemma startVPNInternal_ok o : oracle_ok o -> keeps_ok (fun s =>
  (startVPNInternal (or_first o) (or_second o) (or_scan o) (or_stopped o) (or_interfere o) (or_between o) s).2).
Proof using Type*.
  intros Ho s Hs. destruct (interfere_keeps o Ho) as [Hi Hb]. unfold startVPNInternal.
  pose proof (prepare_ok (or_first o) (or_second o) (or_scan o) (or_stopped o) (or_interfere o)
    (proj1 Ho) (proj1 (proj2 Ho)) Hi s Hs) as Hp. cbv beta in Hp.
  destruct (prepareServerForStart _ _ _ _ _ _) as [[name|e] s1]; [|done]. cbn [snd] in *. by apply Hb.
Qed.

Lemma start_selected_ok cfg w : world_ok w -> world_ok (start_selected cfg w).2.
Proof using Type*.
  intros Hw. rewrite start_selected_world. apply with_machine_ok; [|done]. by apply managed_inv, Hw.
Qed.

Lemma autostart_ok cfg wan w : world_ok w -> world_ok (autostart cfg wan w).2.
Proof using Type*.
  intros Hw. unfold autostart. destruct (_ || _); [done|]. cbv zeta. pose proof Hw as (Hs & _ & Ho).
  destruct (Ho (wd_next w)) as (H1 & H2 & _). pose proof (prepare_ok (or_first (current w))
    (or_second (current w)) (or_scan (current w)) (or_stopped (current w)) (or_interfere (current w)) H1 H2
    (proj1 (interfere_keeps _ (Ho _))) _ Hs) as Hp. cbv beta in Hp.
  destruct (prepareServerForStart _ _ _ _ _ _) as [[name|e] s]; cbn [snd] in *;
    [apply start_selected_ok|]; by apply with_store_ok.
Qed.

Lemma world_calls_ok w : world_ok w ->
  world_ok (world_start w).2 /\ world_ok (world_stop w).2 /\ world_ok (world_choose w).2.
Proof using Type*.
  intros Hw. pose proof Hw as (Hs & Hm & Ho). split_and!.
  - unfold world_start. cbv zeta.
    pose proof (startVPNInternal_ok (current w) (Ho _) _ Hs) as Hp. cbv beta in Hp.
    destruct (startVPNInternal _ _ _ _ _ _ _) as [[cfg|e] s]; cbn [snd] in *.
    + apply start_selected_ok. by apply with_store_ok.
    + by apply with_store_ok.
  - unfold world_stop. destruct (managed_inv (current w) (st_cfg (wd_store w)) _ Hm) as [_ Hst].
    destruct (managed_stop _ _) as [err m]. by apply with_machine_ok.
  - unfold world_choose. cbv zeta. pose proof (choose_ok (current w) (Ho _) _ Hs) as Hc. cbv beta in Hc.
    destruct (chooseAlternativeServer _ _ _ _) as [name s]. by apply with_store_ok.
Qed.

Lemma world_step_ok w w' : world_step w w' -> world_ok w -> world_ok w'.
Proof using Type*.
  intros Hstep Hw. destruct Hstep as [w a Ha|w i c Hc|w ready enable|w|w cache|w cfg wan].
  - destruct Hw as (Hs & ? & ?). split; [|done]. by apply (proj1 api_step_keeps) in Ha; [|done].
  - assert (Hw' : world_ok (w <| wd_pending ::= delete i |>)) by (by destruct Hw as (? & ? & ?)).
    destruct c; cbn [run_call]; try done; apply advance_ok;
      [by apply world_calls_ok|by apply start_selected_ok].
  - destruct Hw as (? & ? & ?). split; [done|]. split; [by apply machine_step_inv|done].
  - destruct Hw as (? & ? & ?). split; [done|]. split; [by apply machine_step_inv|done].
  - destruct Hw as ([[? ?] ?] & ? & ?). by split; [split; [split|]|].
  - by apply advance_ok, autostart_ok.
Qed.

Lemma env_ok w : world_ok w ->
  world_ok (env_start w).2 /\ world_ok (env_stop w).2 /\ world_ok (env_choose w).2 /\
  world_ok (env_startSelected (env_sleep w)).2 /\
  (forall urls t, world_ok (env_probe urls t w).2) /\ (forall url t, world_ok (env_vpnProbe url t w).2).
Proof using Type*.
  intros Hw. destruct (world_calls_ok w Hw) as (H1 & H2 & H3).
  cbn [env_start env_stop env_choose env_startSelected env_sleep env_probe env_vpnProbe program_env].
  split_and!; [..|intros; by apply advance_ok|intros; by apply advance_ok].
  - destruct (world_start w). by apply advance_ok.
  - destruct (world_stop w). by apply advance_ok.
  - destruct (world_choose w). by apply advance_ok.
  - pose proof (start_selected_ok (st_cfg (wd_store (advance w))) (advance w) (advance_ok w Hw)) as H4.
    destruct (start_selected _ _). by apply advance_ok.
Qed.

Lemma runProbes_ok urls t w : world_ok w -> world_ok (runProbesFn urls t w).2.
Proof using Type*. intros Hw. unfold runProbesFn. cbn. by apply advance_ok. Qed.

(** Sections of the controller keep the world in order. *)
Lemma controller_ok s c :
  (match c with CWorld _ => False | _ => True end) ->
  world_ok (s_w s) -> world_ok (s_w (sys_step s c)).
Proof using Type*.
  destruct s as [fc w o h ds ps es]. cbn [s_w]. intros Hc Hw.
  destruct (env_ok w Hw) as (Hstart & Hstop & Hchoose & Hsel & Hprobe & Hvpn).
  destruct c; try done; cbn [sys_step on_fc].
  - destruct o; cbn [outer_step].
    + pose proof (runProbes_ok (OpenProbes (env_settings w)) (ProbeTimeout (env_settings w)) w Hw) as H1.
      destruct (runProbesFn _ _ w) as [[openR openOK] w1]. cbn [snd] in H1.
      pose proof (runProbes_ok (WhitelistProbes (env_settings w)) (ProbeTimeout (env_settings w)) w1 H1) as H2.
      by destruct (runProbesFn _ _ w1) as [[whR whOK] w2].
    + done.
    + destruct (outerVerdict _ _ _) as [wantOn reason]. by destruct (outerDecide _ _ _ _ _ _).
    + destruct wantOn; cbv iota beta; [destruct (env_start w)|destruct (env_stop w)]; done.
    + done.
  - destruct h; cbn [health_step].
    + done.
    + cbv zeta. by destruct (negb _).
    + change (world_ok (advance w)). by apply advance_ok.
    + by destruct (healthPublish _ _ _ _ _ _ _) as [fc' [n|]].
    + destruct (_ <? _); [done|].
      pose proof (runProbes_ok (WhitelistProbes st) (ProbeTimeout st) w Hw) as H1.
      by destruct (runProbesFn _ _ w) as [[whR whOK] w1].
    + by destruct (healthUnderlay _ _ _ _ _).
    + by destruct (healthSwapGate _ _ _).
    + by destruct (env_stop w).
    + done.
    + by destruct (env_choose w).
    + by destruct (env_startSelected (env_sleep w)).
    + done.
Qed.

(** The pruning of [main] leaves memory and disk equal when its writes succeed:
    what it does not report it does not change, the networks being written as
    [loadConfig] writes them. *)
Definition networks_ok (cfg : Config) : Prop :=
  Forall (fun srv => sv_Network srv = normalizeVLESSNetwork (sv_Network srv)) (cfg_Servers cfg).

Lemma unsupported_like cfg : networks_ok cfg ->
  let '(cfg', n) := pruneUnsupportedServers cfg in cfg_like cfg' cfg /\ (n = O -> cfg' = cfg).
Proof.
  intros Hnet. unfold pruneUnsupportedServers.
  pose (norm := fun srv : VLESSServer => srv <| sv_Network ::= normalizeVLESSNetwork |>).
  rewrite (prune_fold _ (fun srv => isSupportedServer (norm srv)) norm) by (intros; done).
  unfold prune_result. cbn [app Nat.add]. split; [by destruct cfg|].
  assert (Hnorm : norm <$> cfg_Servers cfg = cfg_Servers cfg).
  { unfold networks_ok in Hnet. induction Hnet as [|srv l Hs _ IH]; [done|]. rewrite fmap_cons, IH. f_equal.
    unfold norm, upd. rewrite <- Hs. by destruct srv. }
  intros Hn. assert (Hall : filter (fun srv => isSupportedServer (norm srv) = true) (cfg_Servers cfg) = cfg_Servers cfg /\
    existsb (fun srv => negb (isSupportedServer (norm srv)) && bool_decide (cfg_ActiveServer cfg = sv_ID srv))
      (cfg_Servers cfg) = false).
  { clear Hnorm Hnet. revert Hn. induction (cfg_Servers cfg) as [|srv l IH]; [done|]. rewrite !filter_cons.
    destruct (isSupportedServer (norm srv)) eqn:Hs; [rewrite decide_False, decide_True by done|by rewrite decide_True].
    intros [-> He]%IH. cbn [existsb]. by rewrite Hs. }
  destruct Hall as [-> ->]. rewrite Hnorm. by destruct cfg.
Qed.

Lemma startup_ok sw cfg subs :
  cfg_ok cfg -> networks_ok cfg -> sw_config sw = true -> sw_clear sw = true ->
  store_ok (startup sw cfg subs).
Proof using Type*.
  intros Hok Hnet Hc Hcl. unfold startup.
  pose proof (unsupported_like cfg Hnet) as H1. destruct (pruneUnsupportedServers cfg) as [cfg1 n1].
  unfold pruneStaleServers. pose proof (prune_like cfg1 subs false) as H2.
  destruct (pruneStaleServersWithActivePolicy cfg1 subs false) as [cfg2 n2].
  destruct H1 as [[Hs1 Hp1] Hz1], H2 as [[Hs2 Hp2] Hz2].
  assert (Hok2 : cfg_ok cfg2) by (eapply cfg_like_ok; [|exact Hok]; split; congruence).
  assert (Hfile : (if ((0 <? n1)%nat || (0 <? n2)%nat) && sw_config sw then cfg2 else cfg) = cfg2).
  { rewrite Hc, andb_true_r. destruct n1; [|done]. destruct n2; [|done]. cbn. rewrite Hz2, Hz1; done. }
  cbv zeta. rewrite Hfile, Hcl.
  destruct (negb _ && serverDisabledInSubscriptions _ _); cbn [andb].
  - split; [split; reflexivity|]. by eapply cfg_like_ok; [|exact Hok2].
  - split; [split; reflexivity|exact Hok2].
Qed.

(** ** The program as a whole *)

Definition program_ok (s : sys world) : Prop := world_ok (s_w s) /\ sys_inv s.

Lemma program_step_ok s s' : program_step s s' -> program_ok s -> program_ok s'.
Proof using Type*.
  intros Hstep [Hw Hi]. destruct Hstep as [s c Hc|s w Hws].
  - split; [by apply controller_ok|by apply sys_step_inv].
  - split; [|by apply sys_step_inv]. destruct s as [fc w0 o h ds ps es]. cbn in *.
    by eapply world_step_ok.
Qed.


End World.

(** ** Witnesses *)

Definition plain_leaf_tcp : VLESSServer := plain_leaf "y" <| sv_Network := "tcp" |>.

Definition starting_config : Config :=
  defaultConfig <| cfg_Servers := [plain_leaf_tcp] |> <| cfg_Autostart := true |>
    <| cfg_AutoFailover := false |> <| cfg_ActiveServer := "y" |>.

Definition starting_subs : list Subscription := [plain_sub false <| sub_Servers := [plain_leaf_tcp] |>].

Definition plain_oracle : oracle :=
  mkOracle 1000 (fun _ _ => mkCall true 5 None) None (fun _ => None) plain_start None None
    all_written all_written plain_scan false id id.

Definition quiet_error (_ : managed_error) : string := "failed".

(** The automatic start, an outer tick, a request that disables the server in
    use, and the call of its handler. *)
#[local] Existing Instance plain_resolver.
#[local] Existing Instance plain_digest.
#[local] Existing Instance plain_url.
#[local] Instance whitelist : EmbeddedList := "ya.ru".
#[local] Instance by_merging : SortSlice := merge_slice.
#[local] Existing Instance plain_http_parser.
#[local] Existing Instance plain_settings_codec.

Definition day_step : sys world -> command world -> sys world := @sys_step world (program_env quiet_error).

Definition morning : sys world :=
  program (mkStartupWrites true true) starting_config starting_subs (fun _ => plain_oracle).
Definition started : sys world :=
  day_step morning (CWorld (advance (autostart starting_config true (s_w morning)).2)).
Definition ticked : sys world := day_step started COuter.
Definition disabled : sys world :=
  let a := handleSubscriptionServerPatch all_written "s" "y" (Some true) id (wd_store (s_w ticked)) in
  day_step ticked (CWorld (s_w ticked <| wd_store := an_store a |> <| wd_pending ::= fun l => l ++ an_calls a |>)).
Definition evening : sys world :=
  day_step disabled (CWorld (run_call StopVPN (s_w disabled <| wd_pending ::= delete 0%nat |>))).

Lemma day_runs : rtc (program_step quiet_error) morning evening.
Proof.
  eapply rtc_l; [apply (step_world _ morning), (world_autostart _ starting_config true)|].
  eapply rtc_l; [by apply (step_controller quiet_error started COuter)|].
  eapply rtc_l; [exact (step_world quiet_error ticked _ (world_request _ _
    (step_sub_server_patch all_written "s" "y" (Some true) id _ eq_refl runs_nil)))|].
  apply rtc_once, (step_world quiet_error disabled), (world_call _ 0 StopVPN). vm_compute. reflexivity.
Qed.

